(** * LoRA network engine of [modules/lora/networks.py]

    A shallow embedding of the adapter registry, the adapter cache, the
    module-type dispatch and the backup / calc / apply / deactivate passes
    that patch the live parameters of the loaded model.

    Conventions of the embedding.
    - Python dictionaries whose iteration order is observed by the code
      ([lora_cache], the state dict, [matched_networks]) are association
      lists in insertion order; the registries, which are only looked up,
      are [gmap]s.
    - Tensor elements and multipliers are exact integers ([Z]) standing for
      the floating-point values of the source; device placement and dtype
      are not represented ([.to(device)] is the identity on values).  Of
      the additions the statements below use only what floating-point
      additions have as well: a sum has the shape of its terms, and the sum
      of two terms does not depend on their order.  That a delta added and
      then subtracted leaves the first value is used nowhere.
    - Exceptions are values: a computation returns [Ok] or [Raise] together
      with the state reached, because mutations made before a raise stay.
    - [Network] objects are shared between [lora_cache] and
      [loaded_networks]; they live in a store and are named by references.
    - The collaborators that are imported by the source file (key
      conversion, state-dict reading, the module variants, bitsandbytes,
      the clock, the file system) are the fields of one record,
      [Collab]. *)

From Stdlib Require Import ZArith Ascii String.
From stdpp Require Import gmap strings list.

Local Open Scope Z_scope.

(** ** Python strings *)

Module PyStr.

Local Open Scope string_scope.

(** [s.split(c)]: never empty, a leading or trailing separator gives an
    empty field. *)
Fixpoint split (c : ascii) (s : string) : list string :=
  match s with
  | EmptyString => [EmptyString]
  | String a s' =>
      match split c s' with
      | [] => []
      | h :: t => if Ascii.eqb a c then EmptyString :: h :: t else String a h :: t
      end
  end.

(** First occurrence of [c]: the text before it and the text after it. *)
Fixpoint cut (c : ascii) (s : string) : option (string * string) :=
  match s with
  | EmptyString => None
  | String a s' =>
      if Ascii.eqb a c then Some (EmptyString, s')
      else match cut c s' with
           | Some (pre, post) => Some (String a pre, post)
           | None => None
           end
  end.

(** [s.split(c, n)]: at most [n] cuts. *)
Fixpoint splitn (c : ascii) (n : nat) (s : string) : list string :=
  match n with
  | O => [s]
  | S n' =>
      match cut c s with
      | None => [s]
      | Some (pre, post) => pre :: splitn c n' post
      end
  end.

(** [sep.join(l)] *)
Fixpoint join (sep : string) (l : list string) : string :=
  match l with
  | [] => EmptyString
  | [x] => x
  | x :: rest => x +:+ sep +:+ join sep rest
  end.

Definition startswith (s pre : string) : bool := String.prefix pre s.

Fixpoint replace_go (old new : string) (skip : nat) (s : string) : string :=
  match s with
  | EmptyString => EmptyString
  | String a s' =>
      match skip with
      | S k => replace_go old new k s'
      | O =>
          if String.prefix old s
          then new +:+ replace_go old new (Nat.pred (String.length old)) s'
          else String a (replace_go old new O s')
      end
  end.

Fixpoint intersperse (new : string) (s : string) : string :=
  match s with
  | EmptyString => EmptyString
  | String a s' => String a (new +:+ intersperse new s')
  end.

(** [s.replace(old, new)]: occurrences are taken left to right and do not
    overlap; an empty [old] matches between every two characters. *)
Definition replace (old new s : string) : string :=
  match old with
  | EmptyString => new +:+ intersperse new s
  | _ => replace_go old new O s
  end.

Definition lower_ascii (a : ascii) : ascii :=
  let n := nat_of_ascii a in
  if (Nat.leb 65 n && Nat.leb n 90)%bool then ascii_of_nat (n + 32) else a.

(** [s.lower()] on the ASCII letters. *)
Fixpoint lower (s : string) : string :=
  match s with
  | EmptyString => EmptyString
  | String a s' => String (lower_ascii a) (lower s')
  end.

(** [l[-1]] of a non-empty list, with a default for the empty one. *)
Definition last_or (d : string) (l : list string) : string := List.last l d.

(** [os.path.basename] with the POSIX separator. *)
Definition basename (p : string) : string := last_or EmptyString (split "/" p).

Definition all_empty (l : list string) : bool :=
  forallb (fun x => bool_decide (x = EmptyString)) l.

(** [os.path.splitext(b)[0]] for a name [b] without a directory part: the
    text before the last dot, unless only dots come before it. *)
Definition splitext_root (b : string) : string :=
  let parts := split "." b in
  let init := removelast parts in
  match init with
  | [] => b
  | _ => if all_empty init then b else join "." init
  end.

End PyStr.

(** ** Exceptions and the state-and-exception monad *)

Inductive exn : Type :=
| RuntimeError
| AttributeError
| ValueError
| IndexError
| StopIteration
| OSError
| OtherException.

(** [except RuntimeError] and [except OSError] match the class itself (the
    classes listed here are not subclasses of one another); [except
    Exception] matches all of them. *)
Definition exn_eqb (a b : exn) : bool :=
  match a, b with
  | RuntimeError, RuntimeError | AttributeError, AttributeError
  | ValueError, ValueError | IndexError, IndexError
  | StopIteration, StopIteration | OSError, OSError
  | OtherException, OtherException => true
  | _, _ => false
  end.

Inductive res (A : Type) : Type :=
| Ok (a : A)
| Raise (e : exn).
Arguments Ok {A} a.
Arguments Raise {A} e.

Definition M (S A : Type) : Type := S -> res A * S.

Definition ret {S A} (a : A) : M S A := fun s => (Ok a, s).
Definition raise {S A} (e : exn) : M S A := fun s => (Raise e, s).
Definition bind {S A B} (c : M S A) (k : A -> M S B) : M S B :=
  fun s => match c s with
           | (Ok a, s') => k a s'
           | (Raise e, s') => (Raise e, s')
           end.
Definition get {S} : M S S := fun s => (Ok s, s).
Definition gets {S A} (f : S -> A) : M S A := fun s => (Ok (f s), s).
Definition modify {S} (f : S -> S) : M S unit := fun s => (Ok tt, f s).
Definition lift_res {S A} (r : res A) : M S A := fun s => (r, s).

(** [try: c  except <classes matched by handles>: h e] *)
Definition try_except {S A} (c : M S A) (handles : exn -> bool) (h : exn -> M S A) : M S A :=
  fun s => match c s with
           | (Ok a, s') => (Ok a, s')
           | (Raise e, s') => if handles e then h e s' else (Raise e, s')
           end.

Declare Scope py_scope.
Delimit Scope py_scope with py.
Notation "x <- c ;; k" := (bind c (fun x => k))
  (at level 100, c at next level, right associativity) : py_scope.
Notation "c ;;; k" := (bind c (fun _ => k))
  (at level 100, right associativity) : py_scope.

(** [for x in l: body x] *)
Fixpoint for_each {S A} (l : list A) (body : A -> M S unit) : M S unit :=
  match l with
  | [] => ret tt
  | x :: rest => bind (body x) (fun _ => for_each rest body)
  end.

(** [when b c]: [if b: c] *)
Definition when {S} (b : bool) (c : M S unit) : M S unit :=
  if b then c else ret tt.

(** ** Python dictionaries in insertion order *)

Section Dict.
Context {V : Type}.

Fixpoint dict_get (k : string) (d : list (string * V)) : option V :=
  match d with
  | [] => None
  | (k', v) :: rest => if bool_decide (k' = k) then Some v else dict_get k rest
  end.

(** [d[k] = v]: an existing key keeps its place, a new key goes last. *)
Fixpoint dict_set (k : string) (v : V) (d : list (string * V)) : list (string * V) :=
  match d with
  | [] => [(k, v)]
  | (k', v') :: rest =>
      if bool_decide (k' = k) then (k', v) :: rest else (k', v') :: dict_set k v rest
  end.

(** [d.pop(k, None)] *)
Fixpoint dict_pop (k : string) (d : list (string * V)) : list (string * V) :=
  match d with
  | [] => []
  | (k', v') :: rest =>
      if bool_decide (k' = k) then rest else (k', v') :: dict_pop k rest
  end.

Definition dict_keys (d : list (string * V)) : list string := map fst d.
End Dict.

(** ** Tensors and parameters *)

Record tensor : Type := Tensor { shape : list nat; data : list Z }.

(** [a + b] on tensors of one shape; a shape mismatch raises [RuntimeError]
    (broadcasting is not represented). *)
Definition tensor_add (a b : tensor) : res tensor :=
  if bool_decide (shape a = shape b) && bool_decide (length (data a) = length (data b))
  then Ok (Tensor (shape a) (zip_with Z.add (data a) (data b)))
  else Raise RuntimeError.

(** [t *= -1] *)
Definition tensor_neg (t : tensor) : tensor := Tensor (shape t) (map Z.opp (data t)).

Fixpoint pad_blocks (count blk zeros : nat) (l : list Z) : list Z :=
  match count with
  | O => []
  | S count' => take blk l ++ replicate zeros 0 ++ pad_blocks count' blk zeros (drop blk l)
  end.

(** [torch.nn.functional.pad(t, (0, 0, 0, 0, 0, 5))]: five zero planes are
    appended along the third dimension from the end. *)
Definition pad_channels (t : tensor) : res tensor :=
  match rev (shape t) with
  | wd :: ht :: ch :: outer =>
      let count := foldr Nat.mul 1%nat outer in
      Ok (Tensor (rev (wd :: ht :: (ch + 5)%nat :: outer))
                 (pad_blocks count (ch * ht * wd) (5 * ht * wd) (data t)))
  | _ => Raise RuntimeError
  end.

Definition QuantState : Type := Z.

(** A live weight: a plain [torch.nn.Parameter] or a bitsandbytes
    [Params4bit] carrying [quant_state], [quant_type] and [blocksize]. *)
Inductive Param : Type :=
| TorchParameter (t : tensor)
| Params4bit (t : tensor) (quant_state : QuantState) (quant_type : string) (blocksize : Z).

Definition param_data (p : Param) : tensor :=
  match p with
  | TorchParameter t => t
  | Params4bit t _ _ _ => t
  end.

(** [getattr(weight, "quant_type", None)] *)
Definition param_quant_type (p : option Param) : option string :=
  match p with
  | Some (Params4bit _ _ qt _) => Some qt
  | _ => None
  end.

(** [x in ['nf4', 'fp4']] *)
Definition is_4bit (qt : option string) : bool :=
  match qt with
  | Some s => bool_decide (s = "nf4"%string) || bool_decide (s = "fp4"%string)
  | None => false
  end.

(** An attribute of a Python object: missing, or present with a value that
    may be [None]. *)
Inductive attr (A : Type) : Type :=
| Absent
| Present (v : option A).
Arguments Absent {A}.
Arguments Present {A} v.

(** [getattr(o, name, None)] *)
Definition getattr_or_none {A} (a : attr A) : option A :=
  match a with
  | Absent => None
  | Present v => v
  end.

(** [hasattr(o, name)] *)
Definition hasattr {A} (a : attr A) : bool :=
  match a with
  | Absent => false
  | Present _ => true
  end.

(** [o.name]: a missing attribute raises. *)
Definition getattr {A} (a : attr A) : res (option A) :=
  match a with
  | Absent => Raise AttributeError
  | Present v => Ok v
  end.

(** The value kept in [network_weights_backup] / [network_bias_backup]:
    [True] (nothing copied, patch in place) or a tensor. *)
Inductive Backup : Type :=
| BTrue
| BTensor (t : tensor).

(** One entry of a layer signature: [(name, te_multiplier, unet_multiplier,
    dyn_dim)]. *)
Definition SigEntry : Type := (string * Z * Z * option Z)%type.
Definition Signature : Type := list SigEntry.

Definition sig_eqb (a b : Signature) : bool := bool_decide (a = b).

(** A target layer of the model (a [torch.nn.Module]) with the attributes the
    engine reads and writes. *)
Record Layer : Type := mkLayer {
  network_layer_name : option string;
  weight : attr Param;
  bias : attr tensor;
  network_weights_backup : option Backup;
  network_bias_backup : option Backup;
  network_current_names : option Signature;
  quant_state : option QuantState;
  quant_type : option string;
  blocksize : option Z
}.

Definition set_weight (v : attr Param) (l : Layer) : Layer :=
  mkLayer (network_layer_name l) v (bias l) (network_weights_backup l)
          (network_bias_backup l) (network_current_names l)
          (quant_state l) (quant_type l) (blocksize l).
Definition set_bias (v : attr tensor) (l : Layer) : Layer :=
  mkLayer (network_layer_name l) (weight l) v (network_weights_backup l)
          (network_bias_backup l) (network_current_names l)
          (quant_state l) (quant_type l) (blocksize l).
Definition set_network_weights_backup (v : option Backup) (l : Layer) : Layer :=
  mkLayer (network_layer_name l) (weight l) (bias l) v
          (network_bias_backup l) (network_current_names l)
          (quant_state l) (quant_type l) (blocksize l).
Definition set_network_bias_backup (v : option Backup) (l : Layer) : Layer :=
  mkLayer (network_layer_name l) (weight l) (bias l) (network_weights_backup l)
          v (network_current_names l)
          (quant_state l) (quant_type l) (blocksize l).
Definition set_network_current_names (v : option Signature) (l : Layer) : Layer :=
  mkLayer (network_layer_name l) (weight l) (bias l) (network_weights_backup l)
          (network_bias_backup l) v
          (quant_state l) (quant_type l) (blocksize l).
Definition set_quant (qs : QuantState) (qt : string) (bs : Z) (l : Layer) : Layer :=
  mkLayer (network_layer_name l) (weight l) (bias l) (network_weights_backup l)
          (network_bias_backup l) (network_current_names l)
          (Some qs) (Some qt) (Some bs).

(** The model: [getattr(sd_model, component, None)] for the four component
    names, each given by the list of its [named_modules()] ([None] when the
    component is missing or has no [named_modules]). *)
Record SdModel : Type := mkSdModel {
  text_encoder : option (list Layer);
  text_encoder_2 : option (list Layer);
  unet : option (list Layer);
  transformer : option (list Layer);
  has_load_lora_weights : bool
}.

(** [modules]: the layers of the components [text_encoder],
    [text_encoder_2], [unet] and [transformer], in this order. *)
Definition modules_of (m : SdModel) : list (option (list Layer)) :=
  [text_encoder m; text_encoder_2 m; unet m; transformer m].

Definition set_modules_of (cs : list (option (list Layer))) (m : SdModel) : SdModel :=
  match cs with
  | [te; te2; un; tr] => mkSdModel te te2 un tr (has_load_lora_weights m)
  | _ => m
  end.

(** ** Adapters *)

Record NetworkOnDisk : Type := mkNetworkOnDisk {
  nod_name : string;
  filename : string;
  alias : string;
  shorthash : string;
  sd_version : string
}.

(** A module of an adapter at one layer.  [calc_updown] reads the
    multipliers and the rank of the network that owns the module and the
    live weight; it returns the weight delta and the bias delta, or raises. *)
Record NetworkModule : Type := mkNetworkModule {
  calc_updown : Z * Z * option Z -> option Param -> res (option tensor * option tensor)
}.

Record Network : Type := mkNetwork {
  name : string;
  network_on_disk : NetworkOnDisk;
  mtime : Z;
  modules : gmap string NetworkModule;
  bundle_embeddings : list (string * list (string * tensor));
  mentioned_name : string;
  te_multiplier : Z;
  unet_multiplier : Z;
  dyn_dim : option Z
}.

Definition set_mtime (v : Z) (n : Network) : Network :=
  mkNetwork (name n) (network_on_disk n) v (modules n) (bundle_embeddings n)
            (mentioned_name n) (te_multiplier n) (unet_multiplier n) (dyn_dim n).
Definition set_modules (v : gmap string NetworkModule) (n : Network) : Network :=
  mkNetwork (name n) (network_on_disk n) (mtime n) v (bundle_embeddings n)
            (mentioned_name n) (te_multiplier n) (unet_multiplier n) (dyn_dim n).
Definition set_bundle_embeddings (v : list (string * list (string * tensor))) (n : Network) : Network :=
  mkNetwork (name n) (network_on_disk n) (mtime n) (modules n) v
            (mentioned_name n) (te_multiplier n) (unet_multiplier n) (dyn_dim n).
Definition set_mentioned_name (v : string) (n : Network) : Network :=
  mkNetwork (name n) (network_on_disk n) (mtime n) (modules n) (bundle_embeddings n)
            v (te_multiplier n) (unet_multiplier n) (dyn_dim n).
Definition set_te_multiplier (v : Z) (n : Network) : Network :=
  mkNetwork (name n) (network_on_disk n) (mtime n) (modules n) (bundle_embeddings n)
            (mentioned_name n) v (unet_multiplier n) (dyn_dim n).
Definition set_unet_multiplier (v : Z) (n : Network) : Network :=
  mkNetwork (name n) (network_on_disk n) (mtime n) (modules n) (bundle_embeddings n)
            (mentioned_name n) (te_multiplier n) v (dyn_dim n).
Definition set_dyn_dim (v : option Z) (n : Network) : Network :=
  mkNetwork (name n) (network_on_disk n) (mtime n) (modules n) (bundle_embeddings n)
            (mentioned_name n) (te_multiplier n) (unet_multiplier n) v.

(** [network.NetworkWeights(network_key, sd_key, w, sd_module)] *)
Record NetworkWeights : Type := mkNetworkWeights {
  network_key : string;
  sd_key : string;
  w : list (string * tensor);
  sd_module : Layer
}.

(** The entries of [module_types], in the order of the source list. *)
Inductive ModuleType : Type :=
| ModuleTypeLora
| ModuleTypeHada
| ModuleTypeIa3
| ModuleTypeOFT
| ModuleTypeLokr
| ModuleTypeFull
| ModuleTypeNorm
| ModuleTypeGLora.

Definition module_types : list ModuleType :=
  [ ModuleTypeLora; ModuleTypeHada; ModuleTypeIa3; ModuleTypeOFT;
    ModuleTypeLokr; ModuleTypeFull; ModuleTypeNorm; ModuleTypeGLora ].

Definition class_name (t : ModuleType) : string :=
  match t with
  | ModuleTypeLora => "ModuleTypeLora"
  | ModuleTypeHada => "ModuleTypeHada"
  | ModuleTypeIa3 => "ModuleTypeIa3"
  | ModuleTypeOFT => "ModuleTypeOFT"
  | ModuleTypeLokr => "ModuleTypeLokr"
  | ModuleTypeFull => "ModuleTypeFull"
  | ModuleTypeNorm => "ModuleTypeNorm"
  | ModuleTypeGLora => "ModuleTypeGLora"
  end.

(** ** Configuration, diagnostics and the global state *)

Record Opts : Type := mkOpts {
  lora_preferred_name : string;
  lora_in_memory_limit : Z;
  lora_low_memory : bool;
  lora_fuse_diffusers : bool;
  lora_offload_backup : bool;
  lora_force_diffusers : bool;
  extra_networks_default_multiplier : Z;
  diffusers_offload_mode : string;
  cuda_compile : list string
}.

(** The dictionary [timer]. *)
Record Timer : Type := mkTimer {
  t_list : Z; t_load : Z; t_backup : Z; t_calc : Z;
  t_apply : Z; t_move : Z; t_restore : Z; t_deactivate : Z
}.

Inductive LogLevel : Type := LDebug | LInfo | LWarning | LError.

(** The messages written through [shared.log], with the values they show. *)
Inductive LogMsg : Type :=
| Msg_load_diffusers (name file : string) (scale : Z)
| Msg_no_load_lora
| Msg_diffusers_unsupported (name : string)
| Msg_diffusers_error (name : string)
| Msg_load_safetensors (name file : string) (cached : bool)
| Msg_unhandled (name key : string) (wkeys : list string)
| Msg_unmatched (name : string) (types : list string) (unmatched matched : nat)
| Msg_unmatched_keys (name : string) (failed : list (string * string))
| Msg_keys (name : string) (types : list string) (keys : nat)
| Msg_skip_lora_loading
| Msg_dir_not_found
| Msg_scan_error (file : string)
| Msg_available (items folders : nat)
| Msg_load_hash (name file hash : string)
| Msg_load_exception (file : string)
| Msg_load_failed (name : string)
| Msg_diffusers_loaded (loaded : list string) (scales : list Z)
| Msg_set_adapters_error
| Msg_loaded (n : nat) (cache : list string)
| Msg_recompiling
| Msg_apply_weight_error (name : string) (layer : option string).

(** [shared.compiled_model_state]: [lora_model] holds one ["name:multiplier"]
    text per adapter, kept here as the pair it is formatted from. *)
Record CompiledState : Type := mkCompiledState {
  is_compiled : bool;
  lora_model : list (string * Z)
}.

Record World : Type := mkWorld {
  opts : Opts;
  available_networks : gmap string NetworkOnDisk;
  available_network_aliases : gmap string NetworkOnDisk;
  available_network_hash_lookup : gmap string NetworkOnDisk;
  forbidden_network_aliases : gmap string Z;
  store : list Network;                  (* the Network objects, by reference *)
  loaded_networks : list nat;
  lora_cache : list (string * nat);
  diffuser_loaded : list string;
  diffuser_scales : list Z;
  timer : Timer;
  ticks : nat;                           (* calls made to time.time() *)
  errors : gmap string Z;                (* extra_network_lora.errors *)
  sd_model : SdModel;
  compiled_model_state : option CompiledState;
  bnb : bool;                            (* the global bnb is not None *)
  log : list (LogLevel * LogMsg);
  sd_loaded : bool;
  sd_model_type : string;
  native : bool
}.

Definition set_registry (an aa ah : gmap string NetworkOnDisk) (fb : gmap string Z) (x : World) : World :=
  mkWorld (opts x) an aa ah fb (store x) (loaded_networks x) (lora_cache x)
          (diffuser_loaded x) (diffuser_scales x) (timer x) (ticks x) (errors x)
          (sd_model x) (compiled_model_state x) (bnb x) (log x)
          (sd_loaded x) (sd_model_type x) (native x).
Definition set_store (v : list Network) (x : World) : World :=
  mkWorld (opts x) (available_networks x) (available_network_aliases x)
          (available_network_hash_lookup x) (forbidden_network_aliases x)
          v (loaded_networks x) (lora_cache x)
          (diffuser_loaded x) (diffuser_scales x) (timer x) (ticks x) (errors x)
          (sd_model x) (compiled_model_state x) (bnb x) (log x)
          (sd_loaded x) (sd_model_type x) (native x).
Definition set_loaded_networks (v : list nat) (x : World) : World :=
  mkWorld (opts x) (available_networks x) (available_network_aliases x)
          (available_network_hash_lookup x) (forbidden_network_aliases x)
          (store x) v (lora_cache x)
          (diffuser_loaded x) (diffuser_scales x) (timer x) (ticks x) (errors x)
          (sd_model x) (compiled_model_state x) (bnb x) (log x)
          (sd_loaded x) (sd_model_type x) (native x).
Definition set_lora_cache (v : list (string * nat)) (x : World) : World :=
  mkWorld (opts x) (available_networks x) (available_network_aliases x)
          (available_network_hash_lookup x) (forbidden_network_aliases x)
          (store x) (loaded_networks x) v
          (diffuser_loaded x) (diffuser_scales x) (timer x) (ticks x) (errors x)
          (sd_model x) (compiled_model_state x) (bnb x) (log x)
          (sd_loaded x) (sd_model_type x) (native x).
Definition set_diffuser (dl : list string) (ds : list Z) (x : World) : World :=
  mkWorld (opts x) (available_networks x) (available_network_aliases x)
          (available_network_hash_lookup x) (forbidden_network_aliases x)
          (store x) (loaded_networks x) (lora_cache x)
          dl ds (timer x) (ticks x) (errors x)
          (sd_model x) (compiled_model_state x) (bnb x) (log x)
          (sd_loaded x) (sd_model_type x) (native x).
Definition set_timer (v : Timer) (x : World) : World :=
  mkWorld (opts x) (available_networks x) (available_network_aliases x)
          (available_network_hash_lookup x) (forbidden_network_aliases x)
          (store x) (loaded_networks x) (lora_cache x)
          (diffuser_loaded x) (diffuser_scales x) v (ticks x) (errors x)
          (sd_model x) (compiled_model_state x) (bnb x) (log x)
          (sd_loaded x) (sd_model_type x) (native x).
Definition set_ticks (v : nat) (x : World) : World :=
  mkWorld (opts x) (available_networks x) (available_network_aliases x)
          (available_network_hash_lookup x) (forbidden_network_aliases x)
          (store x) (loaded_networks x) (lora_cache x)
          (diffuser_loaded x) (diffuser_scales x) (timer x) v (errors x)
          (sd_model x) (compiled_model_state x) (bnb x) (log x)
          (sd_loaded x) (sd_model_type x) (native x).
Definition set_errors (v : gmap string Z) (x : World) : World :=
  mkWorld (opts x) (available_networks x) (available_network_aliases x)
          (available_network_hash_lookup x) (forbidden_network_aliases x)
          (store x) (loaded_networks x) (lora_cache x)
          (diffuser_loaded x) (diffuser_scales x) (timer x) (ticks x) v
          (sd_model x) (compiled_model_state x) (bnb x) (log x)
          (sd_loaded x) (sd_model_type x) (native x).
Definition set_sd_model (v : SdModel) (x : World) : World :=
  mkWorld (opts x) (available_networks x) (available_network_aliases x)
          (available_network_hash_lookup x) (forbidden_network_aliases x)
          (store x) (loaded_networks x) (lora_cache x)
          (diffuser_loaded x) (diffuser_scales x) (timer x) (ticks x) (errors x)
          v (compiled_model_state x) (bnb x) (log x)
          (sd_loaded x) (sd_model_type x) (native x).
Definition set_compiled_model_state (v : option CompiledState) (x : World) : World :=
  mkWorld (opts x) (available_networks x) (available_network_aliases x)
          (available_network_hash_lookup x) (forbidden_network_aliases x)
          (store x) (loaded_networks x) (lora_cache x)
          (diffuser_loaded x) (diffuser_scales x) (timer x) (ticks x) (errors x)
          (sd_model x) v (bnb x) (log x)
          (sd_loaded x) (sd_model_type x) (native x).
Definition set_bnb (v : bool) (x : World) : World :=
  mkWorld (opts x) (available_networks x) (available_network_aliases x)
          (available_network_hash_lookup x) (forbidden_network_aliases x)
          (store x) (loaded_networks x) (lora_cache x)
          (diffuser_loaded x) (diffuser_scales x) (timer x) (ticks x) (errors x)
          (sd_model x) (compiled_model_state x) v (log x)
          (sd_loaded x) (sd_model_type x) (native x).
Definition set_log (v : list (LogLevel * LogMsg)) (x : World) : World :=
  mkWorld (opts x) (available_networks x) (available_network_aliases x)
          (available_network_hash_lookup x) (forbidden_network_aliases x)
          (store x) (loaded_networks x) (lora_cache x)
          (diffuser_loaded x) (diffuser_scales x) (timer x) (ticks x) (errors x)
          (sd_model x) (compiled_model_state x) (bnb x) v
          (sd_loaded x) (sd_model_type x) (native x).

(** What [shared.sd_model.load_lora_weights] does: it returns, or raises
    with one of the two texts the source looks for, or with another one. *)
Inductive LoraLoadOutcome : Type :=
| LoadReturned
| LoadAlreadyInUse
| LoadKeysNotRenamed
| LoadOtherError.

(** Modelled from the spec: the [create_module] of the variant classes
    [network_lora.NetworkModuleLora], [network_hada.NetworkModuleHada] and
    their siblings in modules/lora/network_*.py, which the source at hand
    names in [module_types] and calls, and does not contain.  The spec has:
    each variant exposes [create(target_layer, weight_bundle) -> Module | null],
    and [create] must be side-effect-free on rejection.  So a variant is a
    function of the network and of the weight bundle of one layer, with no
    access to the state; [None] is the rejection. *)
Definition CreateModule : Type := Network -> NetworkWeights -> option NetworkModule.

(** ** Collaborators

    The functions the source file imports from other modules and from its
    libraries.  [debug] is the module constant read from the environment
    when the file is loaded. *)
Record Collab : Type := mkCollab {
  debug : bool;
  lora_dir : string;                                      (* shared.cmd_opts.lora_dir *)
  path_exists : string -> bool;                           (* os.path.exists *)
  isfile : string -> bool;                                (* os.path.isfile *)
  list_files : string -> list string;                     (* files_cache.list_files *)
  NetworkOnDisk_init : string -> string -> res NetworkOnDisk;  (* network.NetworkOnDisk *)
  Network_init : string -> NetworkOnDisk -> Network;      (* network.Network *)
  time_time : nat -> Z;                                   (* the n-th reading of time.time() *)
  getmtime : string -> res Z;                             (* os.path.getmtime *)
  read_state_dict : string -> res (list (string * tensor));
  convert_kohya_flux : list (string * tensor) -> res (list (string * tensor));
  convert_kohya_sd3 : list (string * tensor) -> res (list (string * tensor));
  assign_network_names : SdModel -> SdModel;
  convert : SdModel -> string -> string * option Layer;   (* lora_convert.KeyConvert() *)
  create_module : ModuleType -> CreateModule;
  check_override : string -> bool;
  load_lora_weights : string -> string -> LoraLoadOutcome;
  set_adapters : list string -> list Z -> bool -> res unit;  (* set_adapters, then fuse and unload *)
  load_bnb : bool;                                        (* model_quant.load_bnb(...) is not None *)
  dequantize_4bit : tensor -> QuantState -> string -> Z -> tensor;
  reload_model_weights : SdModel -> SdModel;              (* unload, then reload without compile *)
  compile_diffusers : SdModel -> SdModel
}.

Definition set_text_encoder (v : option (list Layer)) (m : SdModel) : SdModel :=
  mkSdModel v (text_encoder_2 m) (unet m) (transformer m) (has_load_lora_weights m).
Definition set_text_encoder_2 (v : option (list Layer)) (m : SdModel) : SdModel :=
  mkSdModel (text_encoder m) v (unet m) (transformer m) (has_load_lora_weights m).
Definition set_unet (v : option (list Layer)) (m : SdModel) : SdModel :=
  mkSdModel (text_encoder m) (text_encoder_2 m) v (transformer m) (has_load_lora_weights m).
Definition set_transformer (v : option (list Layer)) (m : SdModel) : SdModel :=
  mkSdModel (text_encoder m) (text_encoder_2 m) (unet m) v (has_load_lora_weights m).

Definition set_t_list (v : Z) (t : Timer) : Timer :=
  mkTimer v (t_load t) (t_backup t) (t_calc t) (t_apply t) (t_move t) (t_restore t) (t_deactivate t).
Definition set_t_load (v : Z) (t : Timer) : Timer :=
  mkTimer (t_list t) v (t_backup t) (t_calc t) (t_apply t) (t_move t) (t_restore t) (t_deactivate t).
Definition set_t_backup (v : Z) (t : Timer) : Timer :=
  mkTimer (t_list t) (t_load t) v (t_calc t) (t_apply t) (t_move t) (t_restore t) (t_deactivate t).
Definition set_t_calc (v : Z) (t : Timer) : Timer :=
  mkTimer (t_list t) (t_load t) (t_backup t) v (t_apply t) (t_move t) (t_restore t) (t_deactivate t).
Definition set_t_apply (v : Z) (t : Timer) : Timer :=
  mkTimer (t_list t) (t_load t) (t_backup t) (t_calc t) v (t_move t) (t_restore t) (t_deactivate t).
Definition set_t_move (v : Z) (t : Timer) : Timer :=
  mkTimer (t_list t) (t_load t) (t_backup t) (t_calc t) (t_apply t) v (t_restore t) (t_deactivate t).
Definition set_t_deactivate (v : Z) (t : Timer) : Timer :=
  mkTimer (t_list t) (t_load t) (t_backup t) (t_calc t) (t_apply t) (t_move t) (t_restore t) v.

(** The networks [loaded_networks] refers to. *)
Definition loaded (x : World) : list Network :=
  omap (fun r => store x !! r) (loaded_networks x).

(** [x or y] on dictionaries: an empty [x] is false. *)
Definition dict_or {V} (a b : list (string * V)) : list (string * V) :=
  match a with
  | [] => b
  | _ => a
  end.

(** [l[i] if l else d] *)
Definition pick {A} (l : option (list A)) (i : nat) (d : A) : res A :=
  match l with
  | None => Ok d
  | Some [] => Ok d
  | Some l' =>
      match l' !! i with
      | Some v => Ok v
      | None => Raise IndexError
      end
  end.

(** The name [add_network] gives to a file:
    [os.path.splitext(os.path.basename(filename))[0].replace('.', '_')] *)
Definition network_name_of_file (file : string) : string :=
  PyStr.replace "." "_" (PyStr.splitext_root (PyStr.basename file)).

(** ** Keys of a state dict *)

Inductive ParsedKey : Type :=
| BundleEmb (emb_name vec_name : string)
| LayerKey (key_network_without_network_parts network_part : string).

(** The body of the loop over [sd.items()] up to the call of [convert]. *)
Definition parse_key (key_network : string) : res ParsedKey :=
  let parts := PyStr.split "." key_network in
  if bool_decide (head parts = Some "bundle_emb"%string) then
    match parts !! 1%nat with
    | Some emb_name =>
        Ok (BundleEmb emb_name (PyStr.last_or EmptyString (PyStr.splitn "." 2 key_network)))
    | None => Raise IndexError
    end
  else if (5 <? length parts)%nat then
    let k := PyStr.join "_" (take (length parts - 2) parts) in
    let k := if PyStr.startswith k "lora_" then k else ("lora_" +:+ k)%string in
    let part := PyStr.join "." (drop (length parts - 2) parts) in
    Ok (LayerKey k (PyStr.replace "lora_B" "lora_up" (PyStr.replace "lora_A" "lora_down" part)))
  else
    match PyStr.splitn "." 1 key_network with
    | [a; b] => Ok (LayerKey a b)
    | _ => Raise ValueError
    end.

Record Matching : Type := mkMatching {
  keys_failed_to_match : list (string * string);
  matched_networks : list (string * NetworkWeights);
  bundle : list (string * list (string * tensor))
}.

Definition set_w (v : list (string * tensor)) (n : NetworkWeights) : NetworkWeights :=
  mkNetworkWeights (network_key n) (sd_key n) v (sd_module n).

(** One turn of the loop over [sd.items()]. *)
Definition match_key (conv : string -> string * option Layer)
    (key_network : string) (weight : tensor) (acc : Matching) : res Matching :=
  match parse_key key_network with
  | Raise e => Raise e
  | Ok (BundleEmb emb_name vec_name) =>
      let emb_dict := default [] (dict_get emb_name (bundle acc)) in
      Ok (mkMatching (keys_failed_to_match acc) (matched_networks acc)
                     (dict_set emb_name (dict_set vec_name weight emb_dict) (bundle acc)))
  | Ok (LayerKey k network_part) =>
      match conv k with
      | (key, None) =>
          Ok (mkMatching (dict_set key_network key (keys_failed_to_match acc))
                         (matched_networks acc) (bundle acc))
      | (key, Some sd_module) =>
          let nw := default (mkNetworkWeights key_network key [] sd_module)
                            (dict_get key (matched_networks acc)) in
          Ok (mkMatching (keys_failed_to_match acc)
                         (dict_set key (set_w (dict_set network_part weight (w nw)) nw)
                                   (matched_networks acc))
                         (bundle acc))
      end
  end.

Fixpoint match_keys (conv : string -> string * option Layer)
    (sd : list (string * tensor)) (acc : Matching) : res Matching :=
  match sd with
  | [] => Ok acc
  | (key_network, weight) :: rest =>
      match match_key conv key_network weight acc with
      | Ok acc' => match_keys conv rest acc'
      | Raise e => Raise e
      end
  end.

(** The eviction loop of [network_load]:
    [while len(lora_cache) > limit: lora_cache.pop(next(iter(lora_cache)), None)].
    [next] of an empty iterator raises [StopIteration].  Every turn removes
    an entry, so [S (length c)] turns of fuel are never used up. *)
Fixpoint evict_loop (fuel : nat) (limit : Z) (c : list (string * nat)) : res (list (string * nat)) :=
  if Z.of_nat (length c) >? limit then
    match fuel with
    | O => Raise OtherException
    | S fuel' =>
        match c with
        | [] => Raise StopIteration
        | (name, _) :: _ => evict_loop fuel' limit (dict_pop name c)
        end
    end
  else Ok c.

Definition evict (limit : Z) (c : list (string * nat)) : res (list (string * nat)) :=
  evict_loop (S (length c)) limit c.

(** ** The functions of the source file *)

Section Engine.

Variable E : Collab.

Local Open Scope py_scope.
Local Open Scope string_scope.

(** [time.time()] *)
Definition tick : M World Z :=
  fun x => (Ok (time_time E (ticks x)), set_ticks (S (ticks x)) x).

Definition log_msg (lv : LogLevel) (m : LogMsg) : M World unit :=
  modify (fun x => set_log (log x ++ [(lv, m)]) x).

Definition modify_timer (f : Timer -> Timer) : M World unit :=
  modify (fun x => set_timer (f (timer x)) x).

(** A new [Network] object enters the store. *)
Definition alloc (n : Network) : M World nat :=
  fun x => (Ok (length (store x)), set_store (store x ++ [n]) x).

(** An attribute of the object behind a reference is assigned. *)
Definition update_net (r : nat) (f : Network -> Network) : M World unit :=
  modify (fun x => set_store (alter f r (store x)) x).

(** *** Section: load networks from disk *)

Definition load_diffusers (name : string) (network_on_disk : NetworkOnDisk)
    (lora_scale : Z) : M World (option nat) :=
  let name := PyStr.replace "." "_" name in
  log_msg LDebug (Msg_load_diffusers name (filename network_on_disk) lora_scale) ;;;
  x <- get ;;
  if negb (native x) then ret None
  else if negb (has_load_lora_weights (sd_model x)) then
    log_msg LError Msg_no_load_lora ;;; ret None
  else
    match load_lora_weights E (filename network_on_disk) name with
    | LoadKeysNotRenamed => log_msg LError (Msg_diffusers_unsupported name) ;;; ret None
    | LoadOtherError => log_msg LError (Msg_diffusers_error name) ;;; ret None
    | LoadReturned | LoadAlreadyInUse =>
        when (negb (bool_decide (name ∈ diffuser_loaded x)))
             (modify (fun x => set_diffuser (diffuser_loaded x ++ [name])
                                            (diffuser_scales x ++ [lora_scale]) x)) ;;;
        let net := Network_init E name network_on_disk in
        mt <- lift_res (getmtime E (filename network_on_disk)) ;;
        r <- alloc (set_mtime mt net) ;;
        ret (Some r)
    end.

(** The loop over [module_types] for one weight bundle: the first type
    whose [create_module] returns a module, with that module. *)
Fixpoint first_accepting (types : list ModuleType) (net : Network)
    (weights : NetworkWeights) : option (ModuleType * NetworkModule) :=
  match types with
  | [] => None
  | nettype :: rest =>
      match create_module E nettype net weights with
      | Some net_module => Some (nettype, net_module)
      | None => first_accepting rest net weights
      end
  end.

(** The loop over [matched_networks.items()]. *)
Fixpoint create_modules (name : string) (ms : list (string * NetworkWeights))
    (net : Network) (network_types : list string) : M World (Network * list string) :=
  match ms with
  | [] => ret (net, network_types)
  | (key, weights) :: rest =>
      match first_accepting module_types net weights with
      | Some (nettype, net_module) =>
          create_modules name rest
            (set_modules (<[key := net_module]> (modules net)) net)
            (network_types ++ [class_name nettype])
      | None =>
          log_msg LError (Msg_unhandled name key (dict_keys (w weights))) ;;;
          create_modules name rest net network_types
      end
  end.

(** [net.mtime] and the state dict of [load_safetensors]: the file is
    read and, for the model types [f1] and [sd3], converted; only a
    [ValueError] of the [sd3] conversion is caught. *)
Definition read_network (model_type : string) (file : string)
    : res (Z * list (string * tensor)) :=
  match getmtime E file with
  | Raise e => Raise e
  | Ok mt =>
      match read_state_dict E file with
      | Raise e => Raise e
      | Ok sd =>
          match (if bool_decide (model_type = "f1")
                 then match convert_kohya_flux E sd with
                      | Ok c => Ok (dict_or c sd)
                      | Raise e => Raise e
                      end
                 else Ok sd) with
          | Raise e => Raise e
          | Ok sd =>
              if bool_decide (model_type = "sd3")
              then match convert_kohya_sd3 E sd with
                   | Ok c => Ok (mt, dict_or c sd)
                   | Raise e => if exn_eqb ValueError e then Ok (mt, sd) else Raise e
                   end
              else Ok (mt, sd)
          end
      end
  end.

Definition load_safetensors (name : string) (network_on_disk : NetworkOnDisk)
    : M World (option nat) :=
  x <- get ;;
  if negb (sd_loaded x) then ret None
  else
    let cached := dict_get name (lora_cache x) in
    when (debug E)
         (log_msg LDebug (Msg_load_safetensors name (filename network_on_disk)
                                               (bool_decide (is_Some cached)))) ;;;
    match cached with
    | Some r => ret (Some r)
    | None =>
        let net := Network_init E name network_on_disk in
        read <- lift_res (read_network (sd_model_type x) (filename network_on_disk)) ;;
        let net := set_mtime (fst read) net in
        modify (fun x => set_sd_model (assign_network_names E (sd_model x)) x) ;;;
        x <- get ;;
        m <- lift_res (match_keys (convert E (sd_model x)) (snd read) (mkMatching [] [] [])) ;;
        created <- create_modules name (matched_networks m) net [] ;;
        let '(net, network_types) := created in
        (if (0 <? length (keys_failed_to_match m))%nat then
           log_msg LWarning (Msg_unmatched name network_types
                               (length (keys_failed_to_match m))
                               (length (matched_networks m))) ;;;
           when (debug E)
                (log_msg LDebug (Msg_unmatched_keys name (keys_failed_to_match m)))
         else
           log_msg LDebug (Msg_keys name network_types (length (matched_networks m)))) ;;;
        if (length (matched_networks m) =? 0)%nat then ret None
        else
          r <- alloc (set_bundle_embeddings (bundle m) net) ;;
          modify (fun x => set_lora_cache (dict_set name r (lora_cache x)) x) ;;;
          ret (Some r)
    end.

(** The loop of [maybe_recompile_model] over [enumerate(names)]: whether
    some position of [lora_model] differs from the requested text. *)
Fixpoint find_mismatch (dflt : Z) (te_multipliers : option (list Z))
    (lora_model : list (string * Z)) (i : nat) (names : list string) : res bool :=
  match names with
  | [] => Ok false
  | name :: rest =>
      match pick te_multipliers i dflt with
      | Raise e => Raise e
      | Ok m =>
          match lora_model !! i with
          | None => Raise IndexError
          | Some have =>
              if bool_decide (have = (name, m))
              then find_mismatch dflt te_multipliers lora_model (S i) rest
              else Ok true
          end
      end
  end.

Definition maybe_recompile_model (names : list string)
    (te_multipliers : option (list Z)) : M World bool :=
  x <- get ;;
  let reload :=
    modify (fun x => set_sd_model (reload_model_weights E (sd_model x)) x) ;;;
    ret true in
  let clear_lora_model :=
    modify (fun x =>
      set_compiled_model_state
        (option_map (fun cs => mkCompiledState (is_compiled cs) []) (compiled_model_state x)) x) in
  match compiled_model_state x with
  | Some cs =>
      if is_compiled cs then
        if (length names =? length (lora_model cs))%nat then
          differs <- lift_res (find_mismatch (extra_networks_default_multiplier (opts x))
                                             te_multipliers (lora_model cs) 0 names) ;;
          if differs then clear_lora_model ;;; reload
          else
            when ((0 <? length (loaded_networks x))%nat && debug E)
                 (log_msg LDebug Msg_skip_lora_loading) ;;;
            ret false
        else clear_lora_model ;;; reload
      else ret false
  | None => ret false
  end.

Definition add_network (file : string) : M World unit :=
  if negb (isfile E file) then ret tt
  else
    let name := network_name_of_file file in
    try_except
      (entry <- lift_res (NetworkOnDisk_init E name file) ;;
       modify (fun x =>
         let an := <[nod_name entry := entry]> (available_networks x) in
         let fb := match available_network_aliases x !! alias entry with
                   | Some _ => <[PyStr.lower (alias entry) := 1]> (forbidden_network_aliases x)
                   | None => forbidden_network_aliases x
                   end in
         let aa := if bool_decide (lora_preferred_name (opts x) = "filename")
                   then <[nod_name entry := entry]> (available_network_aliases x)
                   else <[alias entry := entry]> (available_network_aliases x) in
         let ah := match shorthash entry with
                   | EmptyString => available_network_hash_lookup x
                   | _ => <[shorthash entry := entry]> (available_network_hash_lookup x)
                   end in
         set_registry an aa ah fb x))
      (exn_eqb OSError)
      (fun _ => log_msg LError (Msg_scan_error file)).

(** The candidates are handed to a thread pool; the futures are never
    read, so an exception that leaves [add_network] is lost.  The
    candidates are taken here one after the other, in the order of the
    list. *)
Definition list_available_networks : M World unit :=
  t0 <- tick ;;
  modify (set_registry ∅ ∅ ∅ (<["Addams" := 1]> (<["none" := 1]> ∅))) ;;;
  when (negb (path_exists E (lora_dir E))) (log_msg LWarning Msg_dir_not_found) ;;;
  for_each (list_files E (lora_dir E))
           (fun fn => try_except (add_network fn) (fun _ => true) (fun _ => ret tt)) ;;;
  t1 <- tick ;;
  modify_timer (set_t_list (t1 - t0)) ;;;
  x <- get ;;
  log_msg LInfo (Msg_available (size (available_networks x))
                               (size (forbidden_network_aliases x))).

(** [[available_network_aliases.get(name, None) for name in names]] *)
Definition lookup_names (x : World) (names : list string) : list (option NetworkOnDisk) :=
  map (fun name => available_network_aliases x !! name) names.

(** The [try] statement in the loop of [network_load], for a name that was
    found: [Some net] when the turn goes on after it ([net] is the loaded
    network or [None]), [None] when the handler ends the turn with
    [continue].  [read_hash] and the embedding database are collaborators
    without a part in this state. *)
Definition try_load (recompile_model : bool) (te_multipliers : option (list Z))
    (i : nat) (nod : NetworkOnDisk) (name : string) : M World (option (option nat)) :=
  x <- get ;;
  let dflt := extra_networks_default_multiplier (opts x) in
  let shorthash := PyStr.lower (shorthash nod) in
  when (debug E) (log_msg LDebug (Msg_load_hash name (filename nod) shorthash)) ;;;
  try_except
    (when recompile_model
       (m <- lift_res (pick te_multipliers i dflt) ;;
        modify (fun x =>
          set_compiled_model_state
            (option_map (fun cs => mkCompiledState (is_compiled cs)
                                                   (lora_model cs ++ [(name, m)]))
                        (compiled_model_state x)) x)) ;;;
     net <- (if lora_force_diffusers (opts x) || check_override E shorthash
             then (s <- lift_res (pick te_multipliers i dflt) ;;
                   load_diffusers name nod s)
             else load_safetensors name nod) ;;
     match net with
     | Some r => update_net r (set_mentioned_name name)
     | None => ret tt
     end ;;;
     ret (Some net))
    (fun _ => true)
    (fun _ => log_msg LError (Msg_load_exception (filename nod)) ;;; ret None).

(** The assignments that end a turn of the loop for a loaded network. *)
Definition set_multipliers (te_multipliers unet_multipliers : option (list Z))
    (dyn_dims : option (list (option Z))) (i : nat) (r : nat) : M World unit :=
  x <- get ;;
  let dflt := extra_networks_default_multiplier (opts x) in
  v <- lift_res (pick te_multipliers i dflt) ;;
  update_net r (set_te_multiplier v) ;;;
  v <- lift_res (pick unet_multipliers i dflt) ;;
  update_net r (set_unet_multiplier v) ;;;
  v <- lift_res (pick dyn_dims i (Some dflt)) ;;
  update_net r (set_dyn_dim v) ;;;
  modify (fun x => set_loaded_networks (loaded_networks x ++ [r]) x).

(** One turn of the loop of [network_load] over the requested names. *)
Definition load_one (recompile_model : bool)
    (te_multipliers unet_multipliers : option (list Z))
    (dyn_dims : option (list (option Z)))
    (i : nat) (network_on_disk : option NetworkOnDisk) (name : string) : M World unit :=
  attempt <-
    match network_on_disk with
    | None => ret (Some None)
    | Some nod => try_load recompile_model te_multipliers i nod name
    end ;;
  match attempt with
  | None => ret tt
  | Some None => log_msg LError (Msg_load_failed name)
  | Some (Some r) => set_multipliers te_multipliers unet_multipliers dyn_dims i r
  end.

Fixpoint load_all (recompile_model : bool)
    (te_multipliers unet_multipliers : option (list Z))
    (dyn_dims : option (list (option Z)))
    (i : nat) (todo : list (option NetworkOnDisk * string)) : M World unit :=
  match todo with
  | [] => ret tt
  | (network_on_disk, name) :: rest =>
      load_one recompile_model te_multipliers unet_multipliers dyn_dims i network_on_disk name ;;;
      load_all recompile_model te_multipliers unet_multipliers dyn_dims (S i) rest
  end.

Definition network_load (names : list string)
    (te_multipliers unet_multipliers : option (list Z))
    (dyn_dims : option (list (option Z))) : M World unit :=
  modify_timer (set_t_list 0) ;;;
  x <- get ;;
  when (existsb (fun o => negb (bool_decide (is_Some o))) (lookup_names x names))
       list_available_networks ;;;
  x <- get ;;
  let networks_on_disk := lookup_names x names in
  recompile_model <- maybe_recompile_model names te_multipliers ;;
  modify (fun x => set_diffuser [] [] (set_loaded_networks [] x)) ;;;
  t0 <- tick ;;
  load_all recompile_model te_multipliers unet_multipliers dyn_dims 0
           (zip networks_on_disk names) ;;;
  x <- get ;;
  c <- lift_res (evict (lora_in_memory_limit (opts x)) (lora_cache x)) ;;
  modify (set_lora_cache c) ;;;
  x <- get ;;
  when (0 <? length (diffuser_loaded x))%nat
       (log_msg LDebug (Msg_diffusers_loaded (diffuser_loaded x) (diffuser_scales x)) ;;;
        try_except
          (lift_res (set_adapters E (diffuser_loaded x) (diffuser_scales x)
                                  (lora_fuse_diffusers (opts x))))
          (fun _ => true)
          (fun _ => log_msg LError Msg_set_adapters_error)) ;;;
  x <- get ;;
  when ((0 <? length (loaded_networks x))%nat && debug E)
       (log_msg LDebug (Msg_loaded (length (loaded_networks x)) (dict_keys (lora_cache x)))) ;;;
  when recompile_model
       (log_msg LInfo Msg_recompiling ;;;
        x <- get ;;
        when (bool_decide ("Model" ∈ cuda_compile (opts x)))
             (modify (fun x => set_sd_model (compile_diffusers E (sd_model x)) x))) ;;;
  t1 <- tick ;;
  modify_timer (set_t_load (t1 - t0)).

End Engine.

(** ** Section: process loaded networks *)

(** The functions of this part work on one layer ([self]) and on the global
    state. *)
Definition LW : Type := (Layer * World)%type.

Definition liftW {A} (c : M World A) : M LW A :=
  fun s => match c (snd s) with
           | (r, x') => (r, (fst s, x'))
           end.
Definition get_layer : M LW Layer := gets fst.
Definition get_world : M LW World := gets snd.
Definition modify_layer (f : Layer -> Layer) : M LW unit :=
  modify (fun s => (f (fst s), snd s)).

(** [v.attribute] of a value that may be [None]. *)
Definition not_none {A} (v : option A) : res A :=
  match v with
  | Some a => Ok a
  | None => Raise AttributeError
  end.

(** [any([net.modules.get(network_layer_name, None) for net in loaded_networks])] *)
Definition any_module (network_layer_name : string) (nets : list Network) : bool :=
  existsb (fun net => bool_decide (is_Some (modules net !! network_layer_name))) nets.

(** The condition of [network_backup_weights]:
    [len(loaded_networks) > 0 and network_layer_name is not None and
    any([...])]. *)
Definition backup_gate (x : World) (network_layer_name : option string) : bool :=
  match network_layer_name with
  | Some n => (0 <? length (loaded_networks x))%nat && any_module n (loaded x)
  | None => false
  end.

(** [numel()] of a backup that is a tensor, 0 otherwise (sizes are counted
    in elements). *)
Definition backup_numel (b : option Backup) : Z :=
  match b with
  | Some (BTensor t) => Z.of_nat (length (data t))
  | _ => 0
  end.

(** The two accumulation steps of [network_calc_weights]:
    [if batch is not None and new is not None: batch += new  else: batch = new] *)
Definition accumulate (batch new : option tensor) : res (option tensor) :=
  match batch, new with
  | Some b, Some n =>
      match tensor_add b n with
      | Ok s => Ok (Some s)
      | Raise e => Raise e
      end
  | _, _ => Ok new
  end.

(** [hasattr(self, 'weight')] *)
Definition has_weight (self : Layer) : bool := hasattr (weight self).

(** [tuple((x.name, x.te_multiplier, x.unet_multiplier, x.dyn_dim) for x in
    loaded_networks) if len(loaded_networks) > 0 else ()] *)
Definition wanted_names_of (nets : list Network) : Signature :=
  map (fun x => (name x, te_multiplier x, unet_multiplier x, dyn_dim x)) nets.

Section Patch.

Variable E : Collab.

Local Open Scope py_scope.
Local Open Scope string_scope.

(** The value [network_backup_weights] computes for [weights_backup] on the
    first patch of a layer. *)
Definition weights_backup_value (weight : option Param) : M LW Backup :=
  x <- get_world ;;
  if lora_fuse_diffusers (opts x) || lora_low_memory (opts x) then ret BTrue
  else if is_4bit (param_quant_type weight) then
    when (negb (bnb x)) (liftW (modify (set_bnb (load_bnb E)))) ;;;
    x1 <- get_world ;;
    if bnb x1 then
      match weight with
      | Some (Params4bit t qs qt bs) =>
          modify_layer (set_quant qs qt bs) ;;;
          ret (BTensor (dequantize_4bit E t qs qt bs))
      | _ => raise AttributeError
      end
    else (p <- lift_res (not_none weight) ;; ret (BTensor (param_data p)))
  else (p <- lift_res (not_none weight) ;; ret (BTensor (param_data p))).

(** The block of [network_backup_weights] for the weight. *)
Definition backup_weight (weight : option Param) (wanted_names : Signature) : M LW unit :=
  self <- get_layer ;;
  when (bool_decide (network_weights_backup self = None)
        && negb (sig_eqb wanted_names []))
       (weights_backup <- weights_backup_value weight ;;
        modify_layer (set_network_weights_backup (Some weights_backup))).

(** The value computed for [bias_backup]. *)
Definition bias_backup_value (x : World) (self : Layer) : option Backup :=
  match getattr_or_none (bias self) with
  | Some b =>
      if lora_fuse_diffusers (opts x) || lora_low_memory (opts x)
      then Some BTrue else Some (BTensor b)
  | None => None
  end.

(** The block of [network_backup_weights] for the bias. *)
Definition backup_bias : M LW unit :=
  self <- get_layer ;;
  x <- get_world ;;
  when (bool_decide (network_bias_backup self = None))
       (modify_layer (set_network_bias_backup (bias_backup_value x self))).

Definition network_backup_weights (weight : option Param)
    (network_layer_name : option string) (wanted_names : Signature) : M LW Z :=
  x <- get_world ;;
  if backup_gate x network_layer_name then
    t0 <- liftW (tick E) ;;
    backup_weight weight wanted_names ;;;
    backup_bias ;;;
    self <- get_layer ;;
    let backup_size := backup_numel (network_weights_backup self)
                       + backup_numel (network_bias_backup self) in
    t1 <- liftW (tick E) ;;
    liftW (modify_timer (fun t => set_t_backup (t_backup t + (t1 - t0)) t)) ;;;
    ret backup_size
  else ret 0.

(** The [except RuntimeError] clause of [network_calc_weights]. *)
Definition calc_failed (net : Network) (network_layer_name : option string)
    (e : exn) : M LW unit :=
  if exn_eqb RuntimeError e then
    liftW (modify (fun x =>
      set_errors (<[name net := default 0 (errors x !! name net) + 1]> (errors x)) x)) ;;;
    if debug E then
      liftW (log_msg LError (Msg_apply_weight_error (name net) network_layer_name)) ;;;
      raise RuntimeError
    else ret tt
  else raise e.

(** One turn of the loop of [network_calc_weights] over
    [loaded_networks]; the pair is [(batch_updown, batch_ex_bias)]. *)
Definition calc_one (weight : option Param) (network_layer_name : option string)
    (batch : option tensor * option tensor) (net : Network)
    : M LW (option tensor * option tensor) :=
  self <- get_layer ;;
  let module := network_layer_name ≫= (fun n => modules net !! n) in
  match module with
  | Some module =>
      if has_weight self then
        t0 <- liftW (tick E) ;;
        match calc_updown module (te_multiplier net, unet_multiplier net, dyn_dim net) weight with
        | Raise e => calc_failed net network_layer_name e ;;; ret batch
        | Ok (updown, ex_bias) =>
            t1 <- liftW (tick E) ;;
            match accumulate (fst batch) updown with
            | Raise e => calc_failed net network_layer_name e ;;; ret batch
            | Ok batch_updown =>
                match accumulate (snd batch) ex_bias with
                | Raise e =>
                    calc_failed net network_layer_name e ;;; ret (batch_updown, snd batch)
                | Ok batch_ex_bias =>
                    liftW (modify_timer (fun t => set_t_calc (t_calc t + (t1 - t0)) t)) ;;;
                    x <- get_world ;;
                    when (negb (bool_decide (diffusers_offload_mode (opts x) = "none")))
                         (t0 <- liftW (tick E) ;;
                          t1 <- liftW (tick E) ;;
                          liftW (modify_timer (fun t => set_t_move (t_move t + (t1 - t0)) t))) ;;;
                    ret (batch_updown, batch_ex_bias)
                end
            end
        end
      else ret batch
  | None => ret batch
  end.

Fixpoint calc_loop (weight : option Param) (network_layer_name : option string)
    (batch : option tensor * option tensor) (nets : list Network)
    : M LW (option tensor * option tensor) :=
  match nets with
  | [] => ret batch
  | net :: rest =>
      batch' <- calc_one weight network_layer_name batch net ;;
      calc_loop weight network_layer_name batch' rest
  end.

Definition network_calc_weights (weight : option Param)
    (network_layer_name : option string) : M LW (option tensor * option tensor) :=
  x <- get_world ;;
  calc_loop weight network_layer_name (None, None) (loaded x).

(** [len(t.shape) == 4 and t.shape[1] == 9] *)
Definition is_inpainting (t : tensor) : bool :=
  bool_decide (length (shape t) = 4%nat) && bool_decide (shape t !! 1%nat = Some 9%nat).

Definition network_apply_weights (updown ex_bias : option tensor)
    (deactivate : bool) : M LW unit :=
  t0 <- liftW (tick E) ;;
  self <- get_layer ;;
  let weights_backup := network_weights_backup self in
  let bias_backup := network_bias_backup self in
  match weights_backup, bias_backup with
  | None, None => ret tt
  | _, _ =>
      match weights_backup with
      | Some wb =>
          weights_backup <-
            match wb with
            | BTrue => (v <- lift_res (getattr (weight self)) ;; ret (option_map param_data v))
            | BTensor t => modify_layer (set_weight (Present None)) ;;; ret (Some t)
            end ;;
          updown <-
            match updown with
            | Some u =>
                b <- lift_res (not_none weights_backup) ;;
                if is_inpainting b then (p <- lift_res (pad_channels u) ;; ret (Some p))
                else ret (Some u)
            | None => ret None
            end ;;
          match updown with
          | Some u =>
              let u := if deactivate then tensor_neg u else u in
              b <- lift_res (not_none weights_backup) ;;
              new_weight <- lift_res (tensor_add b u) ;;
              self <- get_layer ;;
              x <- get_world ;;
              if is_4bit (quant_type self) && bnb x then
                qs <- lift_res (not_none (quant_state self)) ;;
                qt <- lift_res (not_none (quant_type self)) ;;
                bs <- lift_res (not_none (blocksize self)) ;;
                modify_layer (set_weight (Present (Some (Params4bit new_weight qs qt bs))))
              else
                modify_layer (set_weight (Present (Some (TorchParameter new_weight))))
          | None =>
              b <- lift_res (not_none weights_backup) ;;
              modify_layer (set_weight (Present (Some (TorchParameter b))))
          end
      | None => ret tt
      end ;;;
      self <- get_layer ;;
      match bias_backup with
      | Some bb =>
          bias_backup <-
            match bb with
            | BTrue => lift_res (getattr (bias self))
            | BTensor t => modify_layer (set_bias (Present None)) ;;; ret (Some t)
            end ;;
          match ex_bias with
          | Some e =>
              let e := if deactivate then tensor_neg e else e in
              b <- lift_res (not_none bias_backup) ;;
              new_weight <- lift_res (tensor_add b e) ;;
              modify_layer (set_bias (Present (Some new_weight)))
          | None =>
              b <- lift_res (not_none bias_backup) ;;
              modify_layer (set_bias (Present (Some b)))
          end
      | None => modify_layer (set_bias (Present None))
      end ;;;
      t1 <- liftW (tick E) ;;
      liftW (modify_timer (fun t => set_t_apply (t_apply t + (t1 - t0)) t)) ;;;
      (* return self.weight.device, self.weight.dtype *)
      self <- get_layer ;;
      v <- lift_res (getattr (weight self)) ;;
      _ <- lift_res (not_none v) ;;
      ret tt
  end.

(** The loop over the layers of one component.  [step i] is the body for
    the [i]-th layer visited by the pass; a layer mutated before a raise
    stays mutated. *)
Fixpoint for_layers (step : nat -> M LW unit) (i : nat) (ls : list Layer)
    (x : World) : res unit * (list Layer * World) :=
  match ls with
  | [] => (Ok tt, ([], x))
  | l :: rest =>
      match step i (l, x) with
      | (Ok _, (l', x')) =>
          match for_layers step (S i) rest x' with
          | (r, (rest', x'')) => (r, (l' :: rest', x''))
          end
      | (Raise e, (l', x')) => (Raise e, (l' :: rest, x'))
      end
  end.

(** The loop over the components that are present. *)
Fixpoint for_components (step : nat -> M LW unit) (i : nat)
    (cs : list (option (list Layer))) (x : World)
    : res unit * (list (option (list Layer)) * World) :=
  match cs with
  | [] => (Ok tt, ([], x))
  | None :: rest =>
      match for_components step i rest x with
      | (r, (rest', x')) => (r, (None :: rest', x'))
      end
  | Some ls :: rest =>
      match for_layers step i ls x with
      | (Ok _, (ls', x')) =>
          match for_components step (i + length ls) rest x' with
          | (r, (rest', x'')) => (r, (Some ls' :: rest', x''))
          end
      | (Raise e, (ls', x')) => (Raise e, (Some ls' :: rest, x'))
      end
  end.

(** [for component in modules.keys(): for _, module in modules[component]:]
    with the layers, which the source mutates in place, put back into the
    model. *)
Definition for_modules (step : nat -> M LW unit) : M World unit :=
  fun x =>
    match for_components step 0 (modules_of (sd_model x)) x with
    | (r, (cs, x')) => (r, set_sd_model (set_modules_of cs (sd_model x')) x')
    end.

(** The body of the layer loop of [network_deactivate]. *)
Definition deactivate_layer (interrupted : nat -> bool) (i : nat) : M LW unit :=
  module <- get_layer ;;
  if interrupted i || bool_decide (network_layer_name module = None) then ret tt
  else
    let weight := getattr_or_none (weight module) in
    batch <- network_calc_weights weight (network_layer_name module) ;;
    network_apply_weights (fst batch) (snd batch) true ;;;
    modify_layer (set_network_current_names (Some [])).

(** [interrupted i] is the value of [shared.state.interrupted] when the
    [i]-th layer of the pass is reached. *)
Definition network_deactivate (interrupted : nat -> bool) : M World unit :=
  x <- get ;;
  if negb (lora_low_memory (opts x)) then ret tt
  else
    modify_timer (set_t_deactivate 0) ;;;
    t0 <- tick E ;;
    for_modules (deactivate_layer interrupted) ;;;
    t1 <- tick E ;;
    modify_timer (fun t => set_t_deactivate (t_deactivate t + (t1 - t0)) t).

(** The body of the layer loop of [network_activate]. *)
Definition activate_layer (wanted_names : Signature) (interrupted : nat -> bool)
    (i : nat) : M LW unit :=
  module <- get_layer ;;
  let current_names := default [] (network_current_names module) in
  if interrupted i || bool_decide (network_layer_name module = None)
     || sig_eqb current_names wanted_names then ret tt
  else
    let weight := getattr_or_none (weight module) in
    _ <- network_backup_weights weight (network_layer_name module) wanted_names ;;
    batch <- network_calc_weights weight (network_layer_name module) ;;
    network_apply_weights (fst batch) (snd batch) false ;;;
    modify_layer (set_network_current_names (Some wanted_names)).

Definition network_activate (interrupted : nat -> bool) : M World unit :=
  modify_timer (fun t => set_t_move 0 (set_t_apply 0 (set_t_calc 0 (set_t_backup 0 t)))) ;;;
  x <- get ;;
  let wanted_names := wanted_names_of (loaded x) in
  for_modules (activate_layer wanted_names interrupted).

End Patch.

(** * Relations and predicates of the properties *)

(** A relation between the state before and the state after is kept by a
    computation, whatever it returns. *)
Definition preserves {S A} (R : S -> S -> Prop) (c : M S A) : Prop :=
  forall s r s', c s = (r, s') -> R s s'.

(** The store only grows, and a network already in it keeps its [dyn_dim]. *)
Definition store_ext (s s' : list Network) : Prop :=
  (length s <= length s')%nat
  /\ forall r n, s !! r = Some n -> exists n', s' !! r = Some n' /\ dyn_dim n' = dyn_dim n.

(** Every reference held by [lora_cache] points into the store. *)
Definition cache_wf (x : World) : Prop :=
  Forall (fun kr => (kr.2 < length (store x))%nat) (lora_cache x).

(** What the steps of loading keep: the options and [loaded_networks] are
    not touched, the store grows, the cache stays well formed, and the keys
    already in [lora_cache] keep their places at its front. *)
Definition loading_step (x x' : World) : Prop :=
  opts x' = opts x
  /\ loaded_networks x' = loaded_networks x
  /\ store_ext (store x) (store x')
  /\ (cache_wf x -> cache_wf x')
  /\ dict_keys (lora_cache x) `prefix_of` dict_keys (lora_cache x').

(** What a turn of the loop keeps. *)
Definition growing (x x' : World) : Prop :=
  opts x' = opts x
  /\ (length (store x) <= length (store x'))%nat
  /\ (cache_wf x -> cache_wf x')
  /\ dict_keys (lora_cache x) `prefix_of` dict_keys (lora_cache x').

(** Every loaded network has [dyn_dim] equal to [d]. *)
Definition loaded_dyn_dim (d : option Z) (x : World) : Prop :=
  forall r, r ∈ loaded_networks x -> exists n, store x !! r = Some n /\ dyn_dim n = d.

(** The networks, the cache and the options are as they were. *)
Definition same_nets (x x' : World) : Prop :=
  opts x' = opts x /\ store x' = store x
  /\ loaded_networks x' = loaded_networks x /\ lora_cache x' = lora_cache x.

(** The keys of [lora_cache] keep their order and new keys come last. *)
Definition cache_grows (x x' : World) : Prop :=
  opts x' = opts x /\ dict_keys (lora_cache x) `prefix_of` dict_keys (lora_cache x').

Definition is_unhandled (name : string) (e : LogLevel * LogMsg) : Prop :=
  exists key ks, e = (LError, Msg_unhandled name key ks).

(** The options and the loaded networks are as they were. *)
Definition step_frame (x x' : World) : Prop :=
  opts x' = opts x /\ store x' = store x /\ loaded_networks x' = loaded_networks x.

Definition lw_frame (s s' : LW) : Prop := step_frame (snd s) (snd s').

(** The modules of [net] at the layer raise nothing but [RuntimeError]. *)
Definition raises_runtime_only (weight0 : option Param) (n : string) (net : Network) : Prop :=
  forall module e,
    modules net !! n = Some module ->
    calc_updown module (te_multiplier net, unet_multiplier net, dyn_dim net) weight0 = Raise e ->
    e = RuntimeError.

Definition Forall_layers (P : Layer -> Prop) (cs : list (option (list Layer))) : Prop :=
  Forall (fun c => match c with Some ls => Forall P ls | None => True end) cs.

(** The layers whose step is skipped by [network_activate]. *)
Definition carries (wanted : Signature) (l : Layer) : Prop :=
  network_layer_name l = None \/ default [] (network_current_names l) = wanted.

(** What [network_apply_weights] adds to a parameter it patches in place:
    the delta, padded for an inpainting model, negated on deactivation. *)
Definition shifted (base : tensor) (delta : option tensor) (deactivate : bool) : res tensor :=
  match delta with
  | None => Ok base
  | Some u =>
      match (if is_inpainting base then pad_channels u else Ok u) with
      | Ok u' => tensor_add base (if deactivate then tensor_neg u' else u')
      | Raise e => Raise e
      end
  end.

Definition shifted_bias (base : tensor) (delta : option tensor) (deactivate : bool) : res tensor :=
  match delta with
  | None => Ok base
  | Some e => tensor_add base (if deactivate then tensor_neg e else e)
  end.

(** The backups of a layer that is patched in place. *)
Definition in_place (l : Layer) : Prop :=
  network_weights_backup l = Some BTrue
  /\ network_bias_backup l = match getattr_or_none (bias l) with
                             | Some _ => Some BTrue
                             | None => None
                             end.

(** The values of a layer after the deltas [d] were added in place and
    their negation was added afterwards: [(w + u) + (-u)] for the weight, and
    [(b + e) + (-e)] for the bias of a layer that has one. *)
Definition there_and_back (d v v2 : option tensor * option tensor) : Prop :=
  (exists w w1 w2,
      fst v = Some w /\ shifted w (fst d) false = Ok w1
      /\ shifted w1 (fst d) true = Ok w2 /\ fst v2 = Some w2)
  /\ match snd v with
     | Some b =>
         exists b1 b2,
           shifted_bias b (snd d) false = Ok b1
           /\ shifted_bias b1 (snd d) true = Ok b2 /\ snd v2 = Some b2
     | None => snd v2 = None
     end.

(** The delta of the modules of [net] at the layer [n] does not depend on the
    live weight it is given. *)
Definition weight_independent (n : string) (net : Network) : Prop :=
  forall module w1 w2,
    modules net !! n = Some module ->
    calc_updown module (te_multiplier net, unet_multiplier net, dyn_dim net) w1
    = calc_updown module (te_multiplier net, unet_multiplier net, dyn_dim net) w2.

(** The values of the weight and of the bias of a layer. *)
Definition layer_values (l : Layer) : option tensor * option tensor :=
  (option_map param_data (getattr_or_none (weight l)), getattr_or_none (bias l)).

(** A layer as the low-memory mode leaves it: never patched, or patched in
    place; and not re-quantized on writing. *)
Definition low_memory_layer (l : Layer) : Prop :=
  ((network_weights_backup l = None /\ network_bias_backup l = None) \/ in_place l)
  /\ is_4bit (quant_type l) = false.

(** What an activation followed by a deactivation, both in low-memory mode
    and started in the state [x], makes of the layer [l].  A layer without a
    name is not touched.  A layer no loaded network has a module for keeps
    its values.  Any other layer holds the marker [True] for a backup and no
    copy, and its values are those of [l] with the summed delta of the
    networks added and the negated delta added afterwards. *)
Definition taken_back (E : Collab) (x : World) (l l2 : Layer) : Prop :=
  match network_layer_name l with
  | None => l2 = l
  | Some n =>
      if backup_gate x (Some n)
      then network_weights_backup l2 = Some BTrue
           /\ exists d,
                fst (network_calc_weights E (getattr_or_none (weight l)) (Some n) (l, x))
                = Ok d
                /\ there_and_back d (layer_values l) (layer_values l2)
      else layer_values l2 = layer_values l
  end.

(** What a turn of the loop of [network_calc_weights] returns for a module
    whose [calc_updown] gave [outcome]. *)
Definition calc_value (dbg : bool) (batch : option tensor * option tensor)
    (outcome : res (option tensor * option tensor)) : res (option tensor * option tensor) :=
  let failed (e : exn) (b : option tensor * option tensor) :=
    if exn_eqb RuntimeError e then (if dbg then Raise RuntimeError else Ok b) else Raise e in
  match outcome with
  | Raise e => failed e batch
  | Ok (updown, ex_bias) =>
      match accumulate (fst batch) updown with
      | Raise e => failed e batch
      | Ok batch_updown =>
          match accumulate (snd batch) ex_bias with
          | Raise e => failed e (batch_updown, snd batch)
          | Ok batch_ex_bias => Ok (batch_updown, batch_ex_bias)
          end
      end
  end.

(** A layer that an activation with the signature [wanted] patches, or that
    no pass touches: it is as the low-memory mode leaves layers, and it does
    not already carry the signature. *)
Definition patchable (wanted : Signature) (l : Layer) : Prop :=
  low_memory_layer l
  /\ (network_layer_name l = None \/ default [] (network_current_names l) <> wanted).

Definition values_of (cs : list (option (list Layer)))
    : list (option (list (option tensor * option tensor))) :=
  map (option_map (map layer_values)) cs.

(** A relation between the layers of two models, component by component. *)
Definition Forall2_layers (R : Layer -> Layer -> Prop)
    (cs cs2 : list (option (list Layer))) : Prop :=
  Forall2 (option_Forall2 (Forall2 R)) cs cs2.

(** [c in s] *)
Fixpoint contains (c : ascii) (s : string) : bool :=
  match s with
  | EmptyString => false
  | String a s' => Ascii.eqb a c || contains c s'
  end.

(** [s] is made of the character [c] only. *)
Fixpoint only (c : ascii) (s : string) : bool :=
  match s with
  | EmptyString => true
  | String a s' => Ascii.eqb a c && only c s'
  end.

(** An unmatched key as [keys_failed_to_match] records it: a key among
    [keys] whose layer part [convert] maps to no layer, with the name
    [convert] gave. *)
Definition failed_entry (conv : string -> string * option Layer) (keys : list string)
    (kf : string * string) : Prop :=
  kf.1 ∈ keys
  /\ exists a part, parse_key kf.1 = Ok (LayerKey a part) /\ conv a = (kf.2, None).

(** An entry of [matched_networks]: it is filed under its own [sd_key], it
    holds at least one weight, and its layer is one [convert] returned for
    that name. *)
Definition matched_entry (conv : string -> string * option Layer)
    (kw : string * NetworkWeights) : Prop :=
  sd_key kw.2 = kw.1 /\ w kw.2 <> []
  /\ exists a, conv a = (kw.1, Some (sd_module kw.2)).

(** Where the key [k] of the state dict is found in the result. *)
Definition accounted (conv : string -> string * option Layer) (m : Matching)
    (k : string) : Prop :=
  match parse_key k with
  | Ok (BundleEmb emb_name vec_name) =>
      exists d, dict_get emb_name (bundle m) = Some d /\ is_Some (dict_get vec_name d)
  | Ok (LayerKey a part) =>
      match conv a with
      | (key, None) => dict_get k (keys_failed_to_match m) = Some key
      | (key, Some _) =>
          exists nw, dict_get key (matched_networks m) = Some nw
                     /\ is_Some (dict_get part (w nw))
      end
  | Raise _ => False
  end.

(** Nothing recorded in [a] is missing from [b]. *)
Definition matching_le (a b : Matching) : Prop :=
  (forall k v, dict_get k (keys_failed_to_match a) = Some v ->
               is_Some (dict_get k (keys_failed_to_match b)))
  /\ (forall key nw, dict_get key (matched_networks a) = Some nw ->
        exists nw', dict_get key (matched_networks b) = Some nw'
                    /\ forall part, is_Some (dict_get part (w nw)) ->
                                    is_Some (dict_get part (w nw')))
  /\ (forall e d, dict_get e (bundle a) = Some d ->
        exists d', dict_get e (bundle b) = Some d'
                   /\ forall v, is_Some (dict_get v d) -> is_Some (dict_get v d')).

(** The four dictionaries that [list_available_networks] rebuilds. *)
Definition registry (x : World)
    : gmap string NetworkOnDisk * gmap string NetworkOnDisk
      * gmap string NetworkOnDisk * gmap string Z :=
  (available_networks x, available_network_aliases x,
   available_network_hash_lookup x, forbidden_network_aliases x).

(** A file that the scan registers, with its entry. *)
Definition readable (E : Collab) (file : string) (entry : NetworkOnDisk) : Prop :=
  isfile E file = true
  /\ NetworkOnDisk_init E (network_name_of_file file) file = Ok entry.

(** The part [f] of the state is as it was. *)
Definition same_on {T} (f : World -> T) (x x' : World) : Prop := f x' = f x.

(** The same for a step on a layer and the state. *)
Definition same_lw {T} (f : LW -> T) (s s' : LW) : Prop := f s' = f s.

(** The side of the state that belongs to the adapters: the options, the
    registry, the loaded networks with the objects they refer to, the cache,
    the lists kept for diffusers and the compile state. *)
Definition adapter_side (x : World) :=
  (opts x, registry x, store x, loaded_networks x, lora_cache x,
   diffuser_loaded x, diffuser_scales x, compiled_model_state x,
   sd_loaded x, sd_model_type x, native x).

(** The names of the layers of the model, component by component. *)
Definition layer_names (m : SdModel) : list (option (list (option string))) :=
  map (option_map (map network_layer_name)) (modules_of m).

(** The layers of the model in the order in which a pass visits them. *)
Definition pass_order (cs : list (option (list Layer))) : list Layer :=
  concat (omap id cs).

(** A layer that was never patched and whose weight is not quantized. *)
Definition pristine (l : Layer) : Prop :=
  network_weights_backup l = None /\ network_bias_backup l = None
  /\ is_4bit (quant_type l) = false
  /\ is_4bit (param_quant_type (getattr_or_none (weight l))) = false.

(** A layer from which the values [v] can be had back: it has them and no
    backup, or its backups are copies of them and it carries a signature. *)
Definition restorable (v : option tensor * option tensor) (l : Layer) : Prop :=
  (network_weights_backup l = None /\ network_bias_backup l = None /\ layer_values l = v)
  \/ (exists w0,
        network_weights_backup l = Some (BTensor w0) /\ fst v = Some w0
        /\ network_bias_backup l = option_map BTensor (snd v)
        /\ network_layer_name l <> None
        /\ default [] (network_current_names l) <> []).

(** The compiled model was compiled for this request: [lora_model] has one
    entry for each name, made of the name and of its multiplier. *)
Definition same_request (dflt : Z) (te_multipliers : option (list Z))
    (names : list string) (lora_model0 : list (string * Z)) : Prop :=
  length names = length lora_model0
  /\ forall i name, names !! i = Some name ->
       exists m, pick te_multipliers i dflt = Ok m /\ lora_model0 !! i = Some (name, m).

(** A list of multipliers that [network_load] can index for every name:
    none, an empty one, or one with an entry for each name. *)
Definition long_enough {A} (l : option (list A)) (names : list string) : Prop :=
  match l with
  | Some (v :: l') => (length names <= length (v :: l'))%nat
  | _ => True
  end.

(** The lists [diffuser_loaded] and [diffuser_scales] go together: one
    scale for each name, no name twice, and no dot in a name. *)
Definition diffusers_aligned (x : World) : Prop :=
  NoDup (diffuser_loaded x)
  /\ length (diffuser_scales x) = length (diffuser_loaded x)
  /\ Forall (fun n => contains "." n = false) (diffuser_loaded x).

(** A step that keeps the lists aligned. *)
Definition keeps_aligned (x x' : World) : Prop :=
  diffusers_aligned x -> diffusers_aligned x'.

(** What a scan has no part in: everything but the registry, the timers,
    the clock and the log. *)
Definition beside_the_registry (x : World) :=
  (opts x, store x, loaded_networks x, lora_cache x, diffuser_loaded x, diffuser_scales x,
   errors x, sd_model x, compiled_model_state x, bnb x, sd_loaded x, sd_model_type x,
   native x).

(** A layer no activation has reached. *)
Definition untouched (l : Layer) : Prop :=
  pristine l /\ network_current_names l = None.

(** The backups of [m] are copies of what [l] holds. *)
Definition holds_copies (l m : Layer) : Prop :=
  exists p,
    getattr_or_none (weight l) = Some p
    /\ network_weights_backup m = Some (BTensor (param_data p))
    /\ network_bias_backup m = option_map BTensor (getattr_or_none (bias l))
    /\ is_4bit (quant_type m) = false
    /\ has_weight m = true
    /\ (getattr_or_none (bias l) = None -> getattr_or_none (bias m) = None).

(** What an activation with the signature [w1] makes of the layer [l]: the
    layer itself, the layer with the signature and nothing else, or a named
    layer with the signature whose backups are copies of what [l] held. *)
Definition patched_from (w1 : Signature) (l l1 : Layer) : Prop :=
  l1 = l
  \/ l1 = set_network_current_names (Some w1) l
  \/ (network_current_names l1 = Some w1
      /\ network_layer_name l1 = network_layer_name l
      /\ network_layer_name l <> None
      /\ holds_copies l l1).

(** A step that leaves [lora_cache] as it is, or that puts the key [name],
    which was not there, at its end. *)
Definition appends (name : string) (x x' : World) : Prop :=
  lora_cache x' = lora_cache x
  \/ exists r, lora_cache x' = lora_cache x ++ [(name, r)]
               /\ dict_get name (lora_cache x) = None.

(** ** A small installation

    Two adapter files that carry the same alias, a model with two layers in
    its [unet], and module variants that recognise the usual key sets.  It
    is used to run the functions above on concrete inputs. *)

Module Demo.

Local Open Scope string_scope.

Definition vec (l : list Z) : tensor := Tensor [length l] l.

Definition layer (n : string) (wt : list Z) (b : option (list Z)) : Layer :=
  mkLayer (Some n) (Present (Some (TorchParameter (vec wt)))) (Present (option_map vec b))
          None None None None None None.


Definition model : SdModel :=
  mkSdModel None None
            (Some [layer "lora_unet_l1" [1; 2] (Some [5]); layer "lora_unet_l2" [3; 4] None])
            None true.

Definition styleA : NetworkOnDisk :=
  mkNetworkOnDisk "styleA" "/loras/styleA.safetensors" "Style" "aaaa1111" "sd".
Definition styleB : NetworkOnDisk :=
  mkNetworkOnDisk "styleB_v2" "/loras/styleB.v2.safetensors" "Style" "bbbb2222" "sd".

Definition probe (name file : string) : res NetworkOnDisk :=
  if bool_decide (file = "/loras/broken.safetensors") then Raise OSError
  else Ok (mkNetworkOnDisk name file "Style"
             (if bool_decide (name = "styleA") then "aaaa1111" else "bbbb2222") "sd").

Definition state_dict (file : string) : res (list (string * tensor)) :=
  if bool_decide (file = "/loras/styleA.safetensors") then
    Ok [ ("lora_unet_l1.lora_down.weight", vec [10; 20]);
         ("lora_unet_l1.lora_up.weight", vec [1; 1]);
         ("lora_unet_zz.lora_up.weight", vec [9]) ]
  else if bool_decide (file = "/loras/styleB.v2.safetensors") then
    Ok [ ("lora_unet_l2.diff", vec [100; 200]) ]
  else if bool_decide (file = "/loras/nomatch.safetensors") then
    Ok [ ("lora_unet_zz.lora_up.weight", vec [9]);
         ("bundle_emb.tok.string_to_param", vec [1]) ]
  else if bool_decide (file = "/loras/dotless.safetensors") then
    Ok [ ("lora_unet_l1.lora_down.weight", vec [10; 20]); ("junk", vec [0]) ]
  else Raise OSError.

Definition key_convert (m : SdModel) (k : string) : string * option Layer :=
  (k, List.find (fun l => bool_decide (network_layer_name l = Some k))
                (default [] (unet m))).

(** The low-rank variant wants both factors and scales the stored down
    factor by the unet multiplier; the full variant wants [diff]. *)
Definition create (t : ModuleType) (net : Network) (nw : NetworkWeights)
    : option NetworkModule :=
  match t with
  | ModuleTypeLora =>
      match dict_get "lora_up.weight" (w nw), dict_get "lora_down.weight" (w nw) with
      | Some _, Some down =>
          Some (mkNetworkModule (fun m _ =>
            Ok (Some (Tensor (shape down) (map (Z.mul (snd (fst m))) (data down))), None)))
      | _, _ => None
      end
  | ModuleTypeFull =>
      match dict_get "diff" (w nw) with
      | Some d => Some (mkNetworkModule (fun _ _ => Ok (Some d, Some (vec [1]))))
      | None => None
      end
  | _ => None
  end.

Definition collab (dbg : bool) (have_bnb : bool) : Collab :=
  mkCollab dbg "/loras" (fun _ => true) (fun _ => true)
           (fun _ => ["/loras/styleA.safetensors"; "/loras/styleB.v2.safetensors"])
           probe
           (fun name nod => mkNetwork name nod 0 ∅ [] "" 1 1 None)
           (fun n => Z.of_nat n)
           (fun _ => Ok 0)
           state_dict
           (fun sd => Ok sd) (fun sd => Ok sd)
           (fun m => m)
           key_convert
           create
           (fun _ => false)
           (fun _ _ => LoadReturned)
           (fun _ _ _ => Ok tt)
           have_bnb
           (fun t _ _ _ => Tensor (shape t) (map (Z.mul 2) (data t)))
           (fun m => m) (fun m => m).

Definition options (preferred : string) (low_memory : bool) (limit : Z) : Opts :=
  mkOpts preferred limit low_memory false false false 1 "none" [].

Definition world (preferred : string) (limit : Z) : World :=
  mkWorld (options preferred false limit) ∅ ∅ ∅ ∅ [] [] [] [] []
          (mkTimer 0 0 0 0 0 0 0 0) 0 ∅ model None false [] true "sd" true.

Definition styleA_state_dict : list (string * tensor) :=
  [ ("lora_unet_l1.lora_down.weight", vec [10; 20]);
    ("lora_unet_l1.lora_up.weight", vec [1; 1]);
    ("lora_unet_zz.lora_up.weight", vec [9]) ].

(** The keys of [styleA_state_dict] matched against [model]. *)
Definition styleA_matching : Matching :=
  mkMatching
    [("lora_unet_zz.lora_up.weight", "lora_unet_zz")]
    [("lora_unet_l1",
      mkNetworkWeights "lora_unet_l1.lora_down.weight" "lora_unet_l1"
        [("lora_down.weight", vec [10; 20]); ("lora_up.weight", vec [1; 1])]
        (layer "lora_unet_l1" [1; 2] (Some [5])))]
    [].

Definition never : nat -> bool := fun _ => false.

(** A module that always fails, and one that adds a constant. *)
Definition failing : NetworkModule := mkNetworkModule (fun _ _ => Raise RuntimeError).
Definition adding (d : list Z) : NetworkModule :=
  mkNetworkModule (fun _ _ => Ok (Some (vec d), None)).

Definition net_with (n : string) (key : string) (m : NetworkModule) : Network :=
  mkNetwork n styleA 0 (<[key := m]> ∅) [] n 1 1 (Some 1).

(** A world in which the networks [nets] are loaded. *)
Definition world_with (low_memory : bool) (nets : list Network) (m : SdModel) : World :=
  mkWorld (options "alias" low_memory 10) ∅ ∅ ∅ ∅ nets (seq 0 (length nets)) [] [] []
          (mkTimer 0 0 0 0 0 0 0 0) 0 ∅ m None false [] true "sd" true.

(** A module with a weight delta and a bias delta. *)
Definition biased (d b : list Z) : NetworkModule :=
mkNetworkModule (fun _ _ => Ok (Some (vec d), Some (vec b))).

(** A world in which adapters are loaded through diffusers. *)
Definition world_diffusers : World :=
mkWorld (mkOpts "filename" 10 false false false true 1 "none" []) ∅ ∅ ∅ ∅ [] [] [] [] []
        (mkTimer 0 0 0 0 0 0 0 0) 0 ∅ model None false [] true "sd" true.

(** A world whose model was compiled with the adapters [lm]. *)
Definition world_compiled (lm : list (string * Z)) : World :=
mkWorld (options "filename" false 10) ∅ ∅ ∅ ∅ [] [] [] [] []
        (mkTimer 0 0 0 0 0 0 0 0) 0 ∅ model (Some (mkCompiledState true lm)) false []
        true "sd" true.

(** A module whose weight delta is the live weight it is shown. *)
Definition echoing : NetworkModule :=
mkNetworkModule (fun _ w => Ok (option_map param_data w, None)).

End Demo.

(** * Properties *)

(** ** Dictionaries *)

Lemma dict_set_fresh {V} (k : string) (v : V) (d : list (string * V)) :
  dict_get k d = None -> dict_set k v d = d ++ [(k, v)].
Proof.
  induction d as [|[k' v'] d IH]; simpl; [reflexivity|].
  case_bool_decide; [discriminate|].
  intros Hget. rewrite IH by exact Hget. reflexivity.
Qed.

Lemma dict_get_set_eq {V} (k : string) (v : V) (d : list (string * V)) :
  dict_get k (dict_set k v d) = Some v.
Proof.
  induction d as [|[k' v'] d IH]; simpl.
  - rewrite bool_decide_eq_true_2; reflexivity.
  - case_bool_decide as Hk; simpl.
    + rewrite bool_decide_eq_true_2; [reflexivity | exact Hk].
    + rewrite bool_decide_eq_false_2; [exact IH | exact Hk].
Qed.

(** ** The eviction loop *)

Lemma evict_loop_drop (limit : Z) :
  0 <= limit ->
  forall (fuel : nat) (c : list (string * nat)),
    (length c < fuel)%nat ->
    evict_loop fuel limit c = Ok (drop (length c - Z.to_nat limit) c).
Proof.
  intros Hl fuel. induction fuel as [|fuel IH]; intros c Hf; [lia|].
  simpl. destruct (Z.gtb_spec (Z.of_nat (length c)) limit) as [Hgt|Hle].
  - destruct c as [|[k v] c]; [simpl in Hgt; lia|].
    simpl dict_pop. rewrite bool_decide_eq_true_2 by reflexivity.
    rewrite IH by (simpl in Hf; lia).
    f_equal. simpl length.
    replace (S (length c) - Z.to_nat limit)%nat with (S (length c - Z.to_nat limit))%nat
      by (simpl length in Hgt; lia).
    reflexivity.
  - replace (length c - Z.to_nat limit)%nat with 0%nat by lia. reflexivity.
Qed.

Lemma evict_nonneg (limit : Z) (c : list (string * nat)) :
  0 <= limit -> evict limit c = Ok (drop (length c - Z.to_nat limit) c).
Proof. intros H. apply evict_loop_drop; [exact H | lia]. Qed.

Lemma evict_loop_negative (limit : Z) :
  limit < 0 ->
  forall (fuel : nat) (c : list (string * nat)),
    (length c < fuel)%nat -> evict_loop fuel limit c = Raise StopIteration.
Proof.
  intros Hl fuel. induction fuel as [|fuel IH]; intros c Hf; [lia|].
  simpl. destruct (Z.gtb_spec (Z.of_nat (length c)) limit) as [Hgt|Hle]; [|lia].
  destruct c as [|[k v] c]; [reflexivity|].
  simpl dict_pop. rewrite bool_decide_eq_true_2 by reflexivity.
  apply IH. simpl in Hf. lia.
Qed.

(** ** The monad *)

Lemma bind_ok {S A B} (c : M S A) (k : A -> M S B) (s s1 : S) (a : A) :
  c s = (Ok a, s1) -> bind c k s = k a s1.
Proof. intros H. unfold bind. rewrite H. reflexivity. Qed.

Lemma bind_raise {S A B} (c : M S A) (k : A -> M S B) (s s1 : S) (e : exn) :
  c s = (Raise e, s1) -> bind c k s = (Raise e, s1).
Proof. intros H. unfold bind. rewrite H. reflexivity. Qed.

Lemma bind_inv {S A B} (c : M S A) (k : A -> M S B) (s s' : S) (r : res B) :
  bind c k s = (r, s') ->
  (exists a s1, c s = (Ok a, s1) /\ k a s1 = (r, s'))
  \/ (exists e, c s = (Raise e, s') /\ r = Raise e).
Proof.
  unfold bind. destruct (c s) as [[a|e] s1]; intros H.
  - left. exists a, s1. split; [reflexivity | exact H].
  - right. exists e. inversion H; subst. split; reflexivity.
Qed.

Lemma bind_inv_ok {S A B} (c : M S A) (k : A -> M S B) (s s' : S) (b : B) :
  bind c k s = (Ok b, s') ->
  exists a s1, c s = (Ok a, s1) /\ k a s1 = (Ok b, s').
Proof.
  intros H. destruct (bind_inv _ _ _ _ _ H) as [(a & s1 & H1 & H2)|(e & _ & He)].
  - exists a, s1. split; assumption.
  - discriminate.
Qed.

Section Preserves.
Context {S : Type} (R : relation S) `{!PreOrder R}.

Lemma preserves_ret {A} (a : A) : preserves R (ret a).
Proof. intros s r s' H. inversion H; subst. reflexivity. Qed.

Lemma preserves_raise {A} (e : exn) : preserves R (@raise S A e).
Proof. intros s r s' H. inversion H; subst. reflexivity. Qed.

Lemma preserves_lift_res {A} (v : res A) : preserves R (@lift_res S A v).
Proof. intros s r s' H. inversion H; subst. reflexivity. Qed.

Lemma preserves_get : preserves R (@get S).
Proof. intros s r s' H. inversion H; subst. reflexivity. Qed.

Lemma preserves_gets {A} (f : S -> A) : preserves R (gets f).
Proof. intros s r s' H. inversion H; subst. reflexivity. Qed.

Lemma preserves_modify (f : S -> S) : (forall s, R s (f s)) -> preserves R (modify f).
Proof. intros Hf s r s' H. inversion H; subst. apply Hf. Qed.

Lemma preserves_bind {A B} (c : M S A) (k : A -> M S B) :
  preserves R c -> (forall a, preserves R (k a)) -> preserves R (bind c k).
Proof.
  intros Hc Hk s r s' H.
  destruct (bind_inv _ _ _ _ _ H) as [(a & s1 & H1 & H2)|(e & H1 & _)].
  - transitivity s1; [eapply Hc, H1 | eapply Hk, H2].
  - eapply Hc, H1.
Qed.

Lemma preserves_try_except {A} (c : M S A) (handles : exn -> bool) (h : exn -> M S A) :
  preserves R c -> (forall e, preserves R (h e)) -> preserves R (try_except c handles h).
Proof.
  intros Hc Hh s r s' H. unfold try_except in H.
  destruct (c s) as [[a|e] s1] eqn:Hcs.
  - inversion H; subst. eapply Hc, Hcs.
  - destruct (handles e).
    + transitivity s1; [eapply Hc, Hcs | eapply Hh, H].
    + inversion H; subst. eapply Hc, Hcs.
Qed.

Lemma preserves_when (b : bool) (c : M S unit) :
  preserves R c -> preserves R (when b c).
Proof. intros Hc. destruct b; [exact Hc | apply preserves_ret]. Qed.

Lemma preserves_for_each {A} (l : list A) (body : A -> M S unit) :
  (forall a, preserves R (body a)) -> preserves R (for_each l body).
Proof.
  intros Hb. induction l as [|a l IH]; simpl.
  - apply preserves_ret.
  - apply preserves_bind; [apply Hb | intros _; exact IH].
Qed.
End Preserves.

(** One step of a preservation proof: the combinators are taken apart and
    the branches of the code are followed. *)
Ltac preserves_step :=
  lazymatch goal with
  | |- preserves _ (bind _ _) => apply preserves_bind; [tc_solve | | intros ?]
  | |- preserves _ (ret _) => apply preserves_ret; tc_solve
  | |- preserves _ (raise _) => apply preserves_raise; tc_solve
  | |- preserves _ (lift_res _) => apply preserves_lift_res; tc_solve
  | |- preserves _ get => apply preserves_get; tc_solve
  | |- preserves _ (gets _) => apply preserves_gets; tc_solve
  | |- preserves _ (when _ _) => apply preserves_when; [tc_solve | ]
  | |- preserves _ (try_except _ _ _) => apply preserves_try_except; [tc_solve | | intros ?]
  | |- preserves _ (for_each _ _) => apply preserves_for_each; [tc_solve | intros ?]
  | |- preserves _ (if ?b then _ else _) => destruct b
  | |- preserves _ (match ?o with _ => _ end) => destruct o
  end.

(** ** The registry *)

Lemma add_network_ok (E : Collab) (x : World) (file : string) (entry : NetworkOnDisk) :
  isfile E file = true ->
  NetworkOnDisk_init E (network_name_of_file file) file = Ok entry ->
  add_network E file x =
    (Ok tt,
     set_registry
       (<[nod_name entry := entry]> (available_networks x))
       (if bool_decide (lora_preferred_name (opts x) = "filename"%string)
        then <[nod_name entry := entry]> (available_network_aliases x)
        else <[alias entry := entry]> (available_network_aliases x))
       (match shorthash entry with
        | EmptyString => available_network_hash_lookup x
        | _ => <[shorthash entry := entry]> (available_network_hash_lookup x)
        end)
       (match available_network_aliases x !! alias entry with
        | Some _ => <[PyStr.lower (alias entry) := 1]> (forbidden_network_aliases x)
        | None => forbidden_network_aliases x
        end)
       x).
Proof.
  intros Hf Hp. unfold add_network. rewrite Hf. simpl.
  unfold try_except, bind, lift_res. rewrite Hp. reflexivity.
Qed.


(** ** Deactivation is gated by the low-memory option *)

(** C3.  With [lora_low_memory] off, [network_deactivate] returns at once
    and the whole state (the layers of the model with their weights, biases,
    backups and signatures, the timers, the clock, the error counters) is the
    state it was called in; so a call that changes the state was made with
    the option on. *)
Theorem network_deactivate_without_low_memory
    (E : Collab) (interrupted : nat -> bool) (x : World) :
  lora_low_memory (opts x) = false ->
  network_deactivate E interrupted x = (Ok tt, x)
  /\ (forall y r y',
        network_deactivate E interrupted y = (r, y') -> y' <> y ->
        lora_low_memory (opts y) = true).
Proof.
  intros Hlow. split.
  - unfold network_deactivate, bind, get. rewrite Hlow. reflexivity.
  - intros y r y' Hrun Hne. destruct (lora_low_memory (opts y)) eqn:Hy; [reflexivity|].
    unfold network_deactivate, bind, get in Hrun. rewrite Hy in Hrun.
    inversion Hrun; subst. contradiction.
Qed.

(** ** Dispatch over the module types *)

Lemma first_accepting_app (E : Collab) (pre post : list ModuleType)
    (net : Network) (weights : NetworkWeights) :
  Forall (fun t => create_module E t net weights = None) pre ->
  first_accepting E (pre ++ post) net weights = first_accepting E post net weights.
Proof.
  induction 1 as [|t pre Ht _ IH]; simpl; [reflexivity|].
  rewrite Ht. exact IH.
Qed.

Lemma first_accepting_none (E : Collab) (types : list ModuleType)
    (net : Network) (weights : NetworkWeights) :
  first_accepting E types net weights = None <->
  Forall (fun t => create_module E t net weights = None) types.
Proof.
  induction types as [|t types IH]; simpl.
  - split; [constructor | reflexivity].
  - destruct (create_module E t net weights) eqn:Ht.
    + split; [discriminate | intros H; inversion H; congruence].
    + rewrite IH. split; [intros H; constructor; assumption | intros H; inversion H; assumption].
Qed.

Lemma first_accepting_some (E : Collab) (types : list ModuleType)
    (net : Network) (weights : NetworkWeights) (t : ModuleType) (m : NetworkModule) :
  first_accepting E types net weights = Some (t, m) ->
  exists pre post,
    types = pre ++ t :: post
    /\ Forall (fun t' => create_module E t' net weights = None) pre
    /\ create_module E t net weights = Some m.
Proof.
  induction types as [|t0 types IH]; simpl; [discriminate|].
  destruct (create_module E t0 net weights) eqn:Ht0.
  - intros H. inversion H; subst. exists [], types. repeat split; [constructor | exact Ht0].
  - intros H. destruct (IH H) as (pre & post & -> & Hpre & Hm).
    exists (t0 :: pre), post. repeat split; [constructor; assumption | exact Hm].
Qed.

(** C8.  [module_types] is the list Lora, Hada, Ia3, OFT, Lokr, Full, Norm,
    GLora.  For a weight bundle that the variants before [t] in this list
    reject and that [t] accepts with the module [m], the dispatch of
    [load_safetensors] yields [t] and [m]; the answer does not depend on what
    the variants after [t] would say (any collaborator [E'] that agrees with
    [E] on the variants up to [t] gives the same answer), and the module is
    what [load_safetensors] stores for the layer.  When every variant rejects
    the bundle there is no module and the network is left as it was.
    [create_module] is a function of its arguments: a rejection leaves no
    trace. *)
Theorem dispatch_first_match_wins
    (E : Collab) (net : Network) (weights : NetworkWeights)
    (pre post : list ModuleType) (t : ModuleType) (m : NetworkModule) :
  module_types = pre ++ t :: post ->
  Forall (fun t' => create_module E t' net weights = None) pre ->
  create_module E t net weights = Some m ->
  module_types = [ ModuleTypeLora; ModuleTypeHada; ModuleTypeIa3; ModuleTypeOFT;
                   ModuleTypeLokr; ModuleTypeFull; ModuleTypeNorm; ModuleTypeGLora ]
  /\ first_accepting E module_types net weights = Some (t, m)
  /\ (forall E' : Collab,
        (forall t', t' ∈ pre ++ [t] ->
                    create_module E' t' net weights = create_module E t' net weights) ->
        first_accepting E' module_types net weights = Some (t, m))
  /\ (forall name key rest types x,
        create_modules E name ((key, weights) :: rest) net types x =
        create_modules E name rest (set_modules (<[key := m]> (modules net)) net)
                       (types ++ [class_name t]) x)
  /\ (forall E' : Collab,
        Forall (fun t' => create_module E' t' net weights = None) module_types ->
        first_accepting E' module_types net weights = None
        /\ forall name key rest types x,
             create_modules E' name ((key, weights) :: rest) net types x =
             create_modules E' name rest net types
               (set_log (log x ++ [(LError, Msg_unhandled name key (dict_keys (w weights)))]) x)).
Proof.
  intros Hsplit Hpre Hm.
  assert (Hfirst : forall E' : Collab,
             (forall t', t' ∈ pre ++ [t] ->
                         create_module E' t' net weights = create_module E t' net weights) ->
             first_accepting E' module_types net weights = Some (t, m)).
  { intros E' Hagree. rewrite Hsplit. rewrite first_accepting_app.
    - simpl. rewrite Hagree by (apply elem_of_app; right; apply list_elem_of_singleton; reflexivity).
      rewrite Hm. reflexivity.
    - rewrite Forall_forall in Hpre. apply Forall_forall. intros t' Hin.
      rewrite Hagree by (apply elem_of_app; left; exact Hin). apply Hpre, Hin. }
  assert (HE : first_accepting E module_types net weights = Some (t, m))
    by (apply Hfirst; reflexivity).
  split; [reflexivity|]. split; [exact HE|]. split; [exact Hfirst|]. split.
  - intros name key rest types x. cbn [create_modules]. rewrite HE. reflexivity.
  - intros E' Hall. assert (Hnone := proj2 (first_accepting_none E' _ net weights) Hall).
    split; [exact Hnone|].
    intros name key rest types x. cbn [create_modules]. rewrite Hnone. reflexivity.
Qed.

(** ** What loading keeps *)

Lemma store_ext_refl (s : list Network) : store_ext s s.
Proof. split; [lia | intros r n H; exists n; split; [exact H | reflexivity]]. Qed.

Lemma store_ext_trans (a b c : list Network) :
  store_ext a b -> store_ext b c -> store_ext a c.
Proof.
  intros [Hl1 H1] [Hl2 H2]. split; [lia|].
  intros r n Hr. destruct (H1 r n Hr) as (n1 & Hn1 & Hd1).
  destruct (H2 r n1 Hn1) as (n2 & Hn2 & Hd2).
  exists n2. split; [exact Hn2 | congruence].
Qed.

Lemma loading_step_preorder : PreOrder loading_step.
Proof.
  split.
  - intros x. repeat split; try reflexivity; try (apply store_ext_refl); auto.
  - intros a b c (Ho1 & Hl1 & Hs1 & Hw1 & Hk1) (Ho2 & Hl2 & Hs2 & Hw2 & Hk2).
    repeat split; try congruence.
    + destruct Hs1, Hs2; lia.
    + apply (store_ext_trans _ _ _ Hs1 Hs2).
    + auto.
    + etransitivity; eassumption.
Qed.
#[global] Existing Instance loading_step_preorder.

Lemma store_ext_app (s : list Network) (n : Network) : store_ext s (s ++ [n]).
Proof.
  split; [rewrite length_app; simpl; lia|].
  intros r m Hr. exists m. split; [|reflexivity].
  apply lookup_app_l_Some. exact Hr.
Qed.

Lemma store_ext_alter (s : list Network) (r : nat) (f : Network -> Network) :
  (forall n, dyn_dim (f n) = dyn_dim n) -> store_ext s (alter f r s).
Proof.
  intros Hf. split; [rewrite length_alter; lia|].
  intros r' n Hr'. destruct (decide (r = r')) as [->|Hne].
  - exists (f n). split; [|apply Hf].
    rewrite list_lookup_alter_eq, Hr'. reflexivity.
  - exists n. split; [|reflexivity].
    rewrite list_lookup_alter_ne by exact Hne. exact Hr'.
Qed.

Lemma dict_keys_set_prefix {V} (k : string) (v : V) (d : list (string * V)) :
  dict_keys d `prefix_of` dict_keys (dict_set k v d).
Proof.
  induction d as [|[k' v'] d IH]; simpl.
  - apply prefix_nil.
  - case_bool_decide; simpl; [reflexivity|].
    apply prefix_cons. exact IH.
Qed.

Lemma cache_wf_mono (x x' : World) :
  lora_cache x' = lora_cache x -> (length (store x) <= length (store x'))%nat ->
  cache_wf x -> cache_wf x'.
Proof.
  unfold cache_wf. intros -> Hl H. eapply Forall_impl; [exact H|].
  simpl. intros kr Hkr. lia.
Qed.

(** A change of the state that leaves the store, the cache, the options and
    [loaded_networks] alone. *)
Lemma loading_step_frame (x x' : World) :
  opts x' = opts x -> loaded_networks x' = loaded_networks x ->
  store x' = store x -> lora_cache x' = lora_cache x ->
  loading_step x x'.
Proof.
  intros Ho Hl Hs Hc. repeat split; try assumption.
  - rewrite Hs. lia.
  - rewrite Hs. intros r n H. exists n. split; [exact H | reflexivity].
  - apply cache_wf_mono; [exact Hc | rewrite Hs; lia].
  - rewrite Hc. reflexivity.
Qed.

Ltac frame_modify :=
  apply preserves_modify; intros ?; apply loading_step_frame; reflexivity.

Lemma loading_tick (E : Collab) : preserves loading_step (tick E).
Proof.
  intros s r s' H. inversion H; subst. apply loading_step_frame; reflexivity.
Qed.

Lemma loading_log_msg (lv : LogLevel) (m : LogMsg) : preserves loading_step (log_msg lv m).
Proof. unfold log_msg. frame_modify. Qed.

Lemma loading_modify_timer (f : Timer -> Timer) : preserves loading_step (modify_timer f).
Proof. unfold modify_timer. frame_modify. Qed.

Lemma loading_alloc (n : Network) : preserves loading_step (alloc n).
Proof.
  intros s r s' H. inversion H; subst. repeat split; try reflexivity.
  - simpl. rewrite length_app. simpl. lia.
  - apply store_ext_app.
  - apply cache_wf_mono; [reflexivity | simpl; rewrite length_app; simpl; lia].
Qed.

Lemma loading_update_net (r : nat) (f : Network -> Network) :
  (forall n, dyn_dim (f n) = dyn_dim n) -> preserves loading_step (update_net r f).
Proof.
  intros Hf. unfold update_net. apply preserves_modify. intros s.
  repeat split; try reflexivity.
  - simpl. rewrite length_alter. lia.
  - apply store_ext_alter, Hf.
  - apply cache_wf_mono; [reflexivity | simpl; rewrite length_alter; lia].
Qed.

(** The network that is put into the cache was just put into the store. *)
Lemma loading_alloc_cache (name : string) (net : Network) :
  preserves loading_step
    (bind (alloc net) (fun r =>
       bind (modify (fun x => set_lora_cache (dict_set name r (lora_cache x)) x))
            (fun _ => ret (Some r)))).
Proof.
  intros s r s' H. unfold bind, alloc, modify, ret in H. inversion H; subst; clear H.
  repeat split; try reflexivity.
  - simpl. rewrite length_app. simpl. lia.
  - apply store_ext_app.
  - unfold cache_wf. simpl. intros Hwf.
    assert (Hgen : forall d : list (string * nat),
               Forall (fun kr => (kr.2 < length (store s))%nat) d ->
               Forall (fun kr => (kr.2 < length (store s ++ [net]))%nat)
                      (dict_set name (length (store s)) d)).
    { induction d as [|[k v] d IH]; simpl; intros Hd.
      - constructor; [simpl; rewrite length_app; simpl; lia | constructor].
      - inversion Hd as [|? ? Hkv Hd']; subst. case_bool_decide.
        + constructor; [simpl; rewrite length_app; simpl; lia|].
          eapply Forall_impl; [exact Hd'|]. simpl. intros ? ?. rewrite length_app. simpl. lia.
        + constructor; [simpl in *; rewrite length_app; simpl; lia | apply IH, Hd']. }
    apply Hgen, Hwf.
  - simpl. apply dict_keys_set_prefix.
Qed.

Create HintDb loading.

Ltac loading_step_tac :=
  cbv beta zeta;
  lazymatch goal with
  | |- preserves _ (bind (alloc _) (fun r => bind (modify _) _)) => apply loading_alloc_cache
  | |- preserves _ (tick _) => apply loading_tick
  | |- preserves _ (log_msg _ _) => apply loading_log_msg
  | |- preserves _ (modify_timer _) => apply loading_modify_timer
  | |- preserves _ (alloc _) => apply loading_alloc
  | |- preserves _ (update_net _ _) => apply loading_update_net; intros ?; reflexivity
  | |- preserves _ (modify _) => frame_modify
  | |- preserves _ (let '(_, _) := ?p in _) => destruct p
  | |- _ => first [ preserves_step | solve [auto with loading] ]
  end.

Section Loading.
Variable E : Collab.

Lemma loading_create_modules (name : string) (ms : list (string * NetworkWeights)) :
  forall net types, preserves loading_step (create_modules E name ms net types).
Proof.
  induction ms as [|[key weights] ms IH]; intros net types; cbn [create_modules].
  - apply preserves_ret; tc_solve.
  - destruct (first_accepting E module_types net weights) as [[t m]|].
    + apply IH.
    + apply preserves_bind; [tc_solve | apply loading_log_msg | intros _; apply IH].
Qed.
Hint Resolve loading_create_modules : loading.

Lemma loading_load_safetensors (name : string) (nod : NetworkOnDisk) :
  preserves loading_step (load_safetensors E name nod).
Proof. unfold load_safetensors. repeat loading_step_tac. Qed.

Lemma loading_load_diffusers (name : string) (nod : NetworkOnDisk) (scale : Z) :
  preserves loading_step (load_diffusers E name nod scale).
Proof. unfold load_diffusers. repeat loading_step_tac. Qed.

Lemma loading_add_network (file : string) : preserves loading_step (add_network E file).
Proof. unfold add_network. repeat loading_step_tac. Qed.
Hint Resolve loading_add_network : loading.

Lemma loading_list_available_networks : preserves loading_step (list_available_networks E).
Proof. unfold list_available_networks. repeat loading_step_tac. Qed.

Lemma loading_maybe_recompile_model (names : list string) (te : option (list Z)) :
  preserves loading_step (maybe_recompile_model E names te).
Proof. unfold maybe_recompile_model. repeat loading_step_tac. Qed.

End Loading.

(** ** The references returned by the loaders *)

(** A run is followed through the branches of the code: the innermost
    scrutinee is split first. *)
Ltac run_cases H :=
  repeat (match type of H with
          | context [match ?d with _ => _ end] =>
              lazymatch d with
              | context [match _ with _ => _ end] => fail
              | _ => destruct d eqn:?; simpl in H
              end
          end; try discriminate).

Section LoaderRefs.
Variable E : Collab.

Lemma dict_get_wf (x : World) (name : string) (r : nat) :
  cache_wf x -> dict_get name (lora_cache x) = Some r -> (r < length (store x))%nat.
Proof.
  unfold cache_wf. induction (lora_cache x) as [|[k v] d IH]; simpl; [discriminate|].
  intros Hwf. inversion Hwf as [|? ? Hkv Hd]; subst.
  case_bool_decide; [intros [= ->]; exact Hkv | apply IH, Hd].
Qed.

(** A network returned by [load_safetensors] is the one [lora_cache] holds
    under the name. *)
Lemma load_safetensors_cached (name : string) (nod : NetworkOnDisk)
    (x x' : World) (r : nat) :
  load_safetensors E name nod x = (Ok (Some r), x') ->
  dict_get name (lora_cache x') = Some r.
Proof.
  unfold load_safetensors, bind, get, ret, when, log_msg, modify, lift_res, alloc.
  intros H.
  run_cases H;
  inversion H; subst; clear H; simpl; try assumption; apply dict_get_set_eq.
Qed.

Lemma load_safetensors_valid (name : string) (nod : NetworkOnDisk)
    (x x' : World) (r : nat) :
  cache_wf x ->
  load_safetensors E name nod x = (Ok (Some r), x') ->
  (r < length (store x'))%nat.
Proof.
  intros Hwf H.
  destruct (loading_load_safetensors E _ _ _ _ _ H) as (_ & _ & _ & Hwf' & _).
  eapply dict_get_wf; [apply Hwf', Hwf | eapply load_safetensors_cached, H].
Qed.

Lemma load_diffusers_valid (name : string) (nod : NetworkOnDisk) (scale : Z)
    (x x' : World) (r : nat) :
  load_diffusers E name nod scale x = (Ok (Some r), x') ->
  (r < length (store x'))%nat.
Proof.
  unfold load_diffusers, bind, get, ret, when, log_msg, modify, lift_res, alloc.
  intros H.
  run_cases H;
  inversion H; subst; clear H; simpl; rewrite length_app; simpl; lia.
Qed.

End LoaderRefs.

(** ** The loop of [network_load] *)

Lemma growing_preorder : PreOrder growing.
Proof.
  split.
  - intros x. split; [reflexivity|]. split; [lia|]. split; [auto | reflexivity].
  - intros a b c (Ho1 & Hs1 & Hw1 & Hk1) (Ho2 & Hs2 & Hw2 & Hk2).
    split; [congruence|]. split; [lia|]. split; [auto | etransitivity; eassumption].
Qed.
#[global] Existing Instance growing_preorder.

Lemma loading_step_growing (x x' : World) : loading_step x x' -> growing x x'.
Proof. intros (Ho & _ & [Hl _] & Hw & Hk). repeat split; assumption. Qed.

Lemma loaded_dyn_dim_step (d : option Z) (x x' : World) :
  loading_step x x' -> loaded_dyn_dim d x -> loaded_dyn_dim d x'.
Proof.
  intros (_ & Hl & [_ Hs] & _ & _) H r Hr. rewrite Hl in Hr.
  destruct (H r Hr) as (n & Hn & Hd). destruct (Hs r n Hn) as (n' & Hn' & Hd').
  exists n'. split; [exact Hn' | congruence].
Qed.

Lemma loaded_dyn_dim_loaded (d : option Z) (x : World) :
  loaded_dyn_dim d x -> Forall (fun n => dyn_dim n = d) (loaded x).
Proof.
  intros H. unfold loaded. apply Forall_forall. intros n Hn.
  apply list_elem_of_omap in Hn. destruct Hn as (r & Hr & Hlook).
  destruct (H r Hr) as (n' & Hn' & Hd). congruence.
Qed.

Section LoadAll.
Variable E : Collab.

Lemma loading_try_load (rc : bool) (te : option (list Z)) (i : nat)
    (nod : NetworkOnDisk) (name : string) :
  preserves loading_step (try_load E rc te i nod name).
Proof.
  unfold try_load. repeat loading_step_tac;
    first [apply loading_load_diffusers | apply loading_load_safetensors].
Qed.

Lemma try_load_valid (rc : bool) (te : option (list Z)) (i : nat)
    (nod : NetworkOnDisk) (name : string) (x x' : World) (r : nat) :
  cache_wf x ->
  try_load E rc te i nod name x = (Ok (Some (Some r)), x') ->
  (r < length (store x'))%nat.
Proof.
  intros Hwf H. unfold try_load in H.
  unfold bind at 1 in H. unfold get at 1 in H. cbv beta zeta iota in H.
  apply bind_inv_ok in H. destruct H as ([] & x1 & Hlog & H).
  assert (Hwf1 : cache_wf x1).
  { assert (Hp : preserves loading_step
              (when (debug E) (log_msg LDebug
                 (Msg_load_hash name (filename nod) (PyStr.lower (shorthash nod))))))
      by (apply preserves_when; [tc_solve | apply loading_log_msg]).
    destruct (Hp _ _ _ Hlog) as (_ & _ & _ & Hw & _). apply Hw, Hwf. }
  clear Hlog Hwf.
  unfold try_except in H.
  match type of H with
  | match ?c x1 with _ => _ end = _ => destruct (c x1) as [[a|e] x2] eqn:Hbody
  end.
  2:{ simpl in H. unfold bind, log_msg, modify, ret in H. simpl in H. discriminate. }
  inversion H; subst; clear H.
  apply bind_inv_ok in Hbody. destruct Hbody as ([] & x3 & Hrc & Hbody).
  assert (Hwf3 : cache_wf x3).
  { assert (Hp : preserves loading_step
       (when rc
         (bind (lift_res (pick te i (extra_networks_default_multiplier (opts x))))
            (fun m => modify (fun x0 =>
               set_compiled_model_state
                 (option_map (fun cs => mkCompiledState (is_compiled cs)
                                          (lora_model cs ++ [(name, m)]))
                             (compiled_model_state x0)) x0))))).
    { repeat loading_step_tac. }
    destruct (Hp _ _ _ Hrc) as (_ & _ & _ & Hw & _). apply Hw, Hwf1. }
  clear Hrc Hwf1.
  apply bind_inv_ok in Hbody. destruct Hbody as (net & x4 & Hload & Hbody).
  apply bind_inv_ok in Hbody. destruct Hbody as ([] & x5 & Hupd & Hret).
  inversion Hret; subst; clear Hret.
  unfold update_net, modify in Hupd. inversion Hupd; subst; clear Hupd.
  simpl. rewrite length_alter.
  destruct (lora_force_diffusers (opts x) || check_override E (PyStr.lower (shorthash nod))).
  - apply bind_inv_ok in Hload. destruct Hload as (s & x6 & Hpick & Hload).
    inversion Hpick; subst. eapply load_diffusers_valid, Hload.
  - eapply load_safetensors_valid; [exact Hwf3 | exact Hload].
Qed.

Lemma set_multipliers_inv (te un : option (list Z)) (dyn : option (list (option Z)))
    (i r : nat) (x x' : World) (res0 : res unit) :
  dyn = None \/ dyn = Some [] ->
  (r < length (store x))%nat ->
  loaded_dyn_dim (Some (extra_networks_default_multiplier (opts x))) x ->
  set_multipliers te un dyn i r x = (res0, x') ->
  growing x x'
  /\ loaded_dyn_dim (Some (extra_networks_default_multiplier (opts x'))) x'.
Proof.
  intros Hdyn Hr Hinv H.
  assert (Hpick : pick dyn i (Some (extra_networks_default_multiplier (opts x)))
                  = Ok (Some (extra_networks_default_multiplier (opts x))))
    by (destruct Hdyn as [-> | ->]; reflexivity).
  unfold set_multipliers, bind, get, lift_res, update_net, modify in H.
  simpl in H. rewrite Hpick in H.
  assert (Hkeep : forall (f : Network -> Network) (y : World),
             opts y = opts x -> loaded_networks y = loaded_networks x ->
             (forall n, dyn_dim (f n) = dyn_dim n) ->
             loaded_dyn_dim (Some (extra_networks_default_multiplier (opts x))) y ->
             loaded_dyn_dim (Some (extra_networks_default_multiplier (opts x)))
                            (set_store (alter f r (store y)) y)).
  { intros f y _ _ Hf Hy r' Hr'. destruct (Hy r' Hr') as (n & Hn & Hd). simpl.
    destruct (decide (r = r')) as [->|Hne].
    - exists (f n). rewrite list_lookup_alter_eq, Hn. split; [reflexivity | rewrite Hf; exact Hd].
    - exists n. rewrite list_lookup_alter_ne by exact Hne. split; assumption. }
  assert (Hgrow : forall (f : Network -> Network) (y : World),
             growing y (set_store (alter f r (store y)) y)).
  { intros f y. split; [reflexivity|]. split; [simpl; rewrite length_alter; lia|].
    split; [|reflexivity].
    apply cache_wf_mono; [reflexivity | simpl; rewrite length_alter; lia]. }
  destruct (pick te i (extra_networks_default_multiplier (opts x))) as [v1|e1];
    [|inversion H; subst; split; [reflexivity | exact Hinv]].
  simpl in H.
  destruct (pick un i (extra_networks_default_multiplier (opts x))) as [v2|e2].
  2:{ inversion H; subst. split; [apply Hgrow|].
      apply (Hkeep _ x); auto. }
  simpl in H. inversion H; subst; clear H. split.
  - split; [reflexivity|]. split; [simpl; rewrite !length_alter; lia|].
    split; [|reflexivity].
    apply cache_wf_mono; [reflexivity | simpl; rewrite !length_alter; lia].
  - simpl. intros r' Hr'. simpl in Hr'.
    destruct (decide (r' = r)) as [->|Hne].
    + destruct (lookup_lt_is_Some_2 (store x) r Hr) as [n Hn].
      eexists. split.
      * cbn [store set_loaded_networks set_store].
        rewrite !list_lookup_alter_eq, Hn. reflexivity.
      * reflexivity.
    + apply elem_of_app in Hr'. destruct Hr' as [Hr'|Hr'];
        [|apply list_elem_of_singleton in Hr'; contradiction].
      destruct (Hinv r' Hr') as (n & Hn & Hd).
      exists n. cbn [store set_loaded_networks set_store].
      rewrite !list_lookup_alter_ne by congruence. split; assumption.
Qed.

Lemma load_one_inv (rc : bool) (te un : option (list Z)) (dyn : option (list (option Z)))
    (i : nat) (nod : option NetworkOnDisk) (name : string)
    (x x' : World) (res0 : res unit) :
  dyn = None \/ dyn = Some [] ->
  cache_wf x ->
  loaded_dyn_dim (Some (extra_networks_default_multiplier (opts x))) x ->
  load_one E rc te un dyn i nod name x = (res0, x') ->
  growing x x'
  /\ loaded_dyn_dim (Some (extra_networks_default_multiplier (opts x'))) x'.
Proof.
  intros Hdyn Hwf Hinv H. unfold load_one in H.
  apply bind_inv in H.
  assert (Hatt : forall a x1,
             match nod with
             | Some nod0 => try_load E rc te i nod0 name
             | None => ret (Some None)
             end x = (a, x1) ->
             loading_step x x1
             /\ forall r, a = Ok (Some (Some r)) -> (r < length (store x1))%nat).
  { intros a x1 Ha. destruct nod as [nod0|].
    - split; [eapply loading_try_load, Ha|].
      intros r ->. eapply try_load_valid; [exact Hwf | exact Ha].
    - inversion Ha; subst. split; [reflexivity | discriminate]. }
  assert (Hcarry : forall x1, loading_step x x1 ->
             growing x x1
             /\ loaded_dyn_dim (Some (extra_networks_default_multiplier (opts x1))) x1).
  { intros x1 Hstep. split; [apply loading_step_growing, Hstep|].
    destruct Hstep as (Ho & Hrest). rewrite Ho.
    eapply loaded_dyn_dim_step; [|exact Hinv]. split; assumption. }
  destruct H as [(a & x1 & Ha & H)|(e & Ha & ->)].
  - destruct (Hatt _ _ Ha) as [Hstep Hvalid].
    destruct (Hcarry _ Hstep) as [Hg1 Hinv1].
    destruct a as [[r|]|].
    + destruct (set_multipliers_inv _ _ _ _ _ _ _ _ Hdyn (Hvalid r eq_refl) Hinv1 H)
        as [Hg2 Hinv2].
      split; [etransitivity; eassumption | exact Hinv2].
    + unfold log_msg, modify in H. inversion H; subst. split; [|exact Hinv1].
      etransitivity; [exact Hg1|]. apply loading_step_growing.
      apply loading_step_frame; reflexivity.
    + inversion H; subst. split; assumption.
  - destruct (Hatt _ _ Ha) as [Hstep _]. apply Hcarry, Hstep.
Qed.

Lemma load_all_inv (rc : bool) (te un : option (list Z)) (dyn : option (list (option Z)))
    (todo : list (option NetworkOnDisk * string)) :
  dyn = None \/ dyn = Some [] ->
  forall (i : nat) (x x' : World) (res0 : res unit),
    cache_wf x ->
    loaded_dyn_dim (Some (extra_networks_default_multiplier (opts x))) x ->
    load_all E rc te un dyn i todo x = (res0, x') ->
    growing x x'
    /\ loaded_dyn_dim (Some (extra_networks_default_multiplier (opts x'))) x'.
Proof.
  intros Hdyn. induction todo as [|[nod name] todo IH]; intros i x x' res0 Hwf Hinv H.
  - inversion H; subst. split; [reflexivity | exact Hinv].
  - cbn [load_all] in H. apply bind_inv in H.
    destruct H as [([] & x1 & H1 & H)|(e & H1 & ->)].
    + destruct (load_one_inv _ _ _ _ _ _ _ _ _ _ Hdyn Hwf Hinv H1) as [Hg1 Hinv1].
      destruct (IH _ _ _ _ (proj1 (proj2 (proj2 Hg1)) Hwf) Hinv1 H) as [Hg2 Hinv2].
      split; [etransitivity; eassumption | exact Hinv2].
    + eapply load_one_inv; eassumption.
Qed.

End LoadAll.

(** ** [network_load] as a whole *)

Lemma same_nets_preorder : PreOrder same_nets.
Proof.
  split.
  - intros x. repeat split.
  - intros a b c (H1 & H2 & H3 & H4) (H5 & H6 & H7 & H8). repeat split; congruence.
Qed.
#[global] Existing Instance same_nets_preorder.

(** A preservation proof for a relation whose primitive steps are closed by
    [base]. *)
Ltac preserves_with base :=
  cbv beta zeta;
  lazymatch goal with
  | |- preserves _ (tick _) =>
      let H := fresh in intros ? ? ? H; inversion H; subst; base
  | |- preserves _ (log_msg _ _) => unfold log_msg; apply preserves_modify; intros ?; base
  | |- preserves _ (modify_timer _) => unfold modify_timer; apply preserves_modify; intros ?; base
  | |- preserves _ (modify _) => apply preserves_modify; intros ?; base
  | |- _ => preserves_step
  end.

Lemma evict_loop_suffix (limit : Z) :
  forall (fuel : nat) (c c' : list (string * nat)),
    evict_loop fuel limit c = Ok c' -> exists n, c' = drop n c.
Proof.
  induction fuel as [|fuel IH]; intros c c' H; simpl in H.
  - destruct (Z.of_nat (length c) >? limit); [discriminate|].
    inversion H; subst. exists 0%nat. reflexivity.
  - destruct (Z.of_nat (length c) >? limit).
    + destruct c as [|[k v] c]; [discriminate|].
      simpl dict_pop in H. rewrite bool_decide_eq_true_2 in H by reflexivity.
      destruct (IH _ _ H) as [n ->]. exists (S n). reflexivity.
    + inversion H; subst. exists 0%nat. reflexivity.
Qed.

Section NetworkLoad.
Variable E : Collab.

(** The course of a call of [network_load] that returns: the steps before
    the loop, the loop from the cleared list of loaded networks, the
    eviction, and a rest that leaves networks and cache alone. *)
Lemma network_load_inv (names : list string) (te un : option (list Z))
    (dyn : option (list (option Z))) (x x' : World) :
  network_load E names te un dyn x = (Ok tt, x') ->
  exists (xa xb : World) (rc : bool) (todo : list (option NetworkOnDisk * string))
         (c : list (string * nat)),
    loading_step x xa
    /\ load_all E rc te un dyn 0 todo
         (set_ticks (S (ticks xa)) (set_diffuser [] [] (set_loaded_networks [] xa)))
       = (Ok tt, xb)
    /\ evict (lora_in_memory_limit (opts xb)) (lora_cache xb) = Ok c
    /\ opts x' = opts xb /\ store x' = store xb
    /\ loaded_networks x' = loaded_networks xb /\ lora_cache x' = c.
Proof.
  intros H. unfold network_load in H.
  apply bind_inv_ok in H. destruct H as ([] & x1 & H1 & H).
  apply bind_inv_ok in H. destruct H as (x1' & x2 & Hg & H).
  inversion Hg; subst x1' x2; clear Hg.
  apply bind_inv_ok in H. destruct H as ([] & x3 & H3 & H).
  apply bind_inv_ok in H. destruct H as (x3' & x4 & Hg & H).
  inversion Hg; subst x3' x4; clear Hg. cbv zeta in H.
  apply bind_inv_ok in H. destruct H as (rc & x5 & H5 & H).
  apply bind_inv_ok in H. destruct H as ([] & x6 & H6 & H).
  apply bind_inv_ok in H. destruct H as (t0 & x7 & H7 & H).
  apply bind_inv_ok in H. destruct H as ([] & x8 & H8 & H).
  apply bind_inv_ok in H. destruct H as (x8' & x9 & Hg & H).
  inversion Hg; subst x8' x9; clear Hg.
  apply bind_inv_ok in H. destruct H as (c & x10 & H10 & H).
  apply bind_inv_ok in H. destruct H as ([] & x11 & H11 & H).
  unfold lift_res in H10. inversion H10; subst x10; clear H10.
  unfold modify in H11. inversion H11; subst x11; clear H11.
  unfold modify in H6. inversion H6; subst x6; clear H6.
  unfold tick in H7. inversion H7; subst x7 t0; clear H7.
  assert (Hpre : loading_step x x5).
  { transitivity x1.
    { revert H1. apply loading_modify_timer. }
    transitivity x3.
    { revert H3. apply preserves_when; [tc_solve | apply loading_list_available_networks]. }
    revert H5. apply loading_maybe_recompile_model. }
  assert (Htail : same_nets (set_lora_cache c x8) x').
  { revert H.
    match goal with
    | |- ?k _ = _ -> _ => assert (Hp : preserves same_nets k); [|apply Hp]
    end.
    repeat (preserves_with ltac:(repeat split; reflexivity)). }
  destruct Htail as (Ho & Hs & Hl & Hc).
  exists x5, x8, rc, (zip (lookup_names x3 names) names), c.
  split; [exact Hpre|]. split; [exact H8|]. split; [assumption|].
  repeat split; assumption.
Qed.

End NetworkLoad.

Lemma preserves_weaken {S A} (R R' : S -> S -> Prop) (c : M S A) :
  (forall s s', R s s' -> R' s s') -> preserves R c -> preserves R' c.
Proof. intros HR Hc s r s' H. apply HR. eapply Hc, H. Qed.

Lemma cache_grows_preorder : PreOrder cache_grows.
Proof.
  split.
  - intros x. split; reflexivity.
  - intros a b c [H1 H2] [H3 H4]. split; [congruence | etransitivity; eassumption].
Qed.
#[global] Existing Instance cache_grows_preorder.

Lemma loading_step_cache_grows (x x' : World) : loading_step x x' -> cache_grows x x'.
Proof. intros (Ho & _ & _ & _ & Hk). split; assumption. Qed.

Section CacheOrder.
Variable E : Collab.

Lemma cache_grows_load_one (rc : bool) (te un : option (list Z))
    (dyn : option (list (option Z))) (i : nat) (nod : option NetworkOnDisk) (name : string) :
  preserves cache_grows (load_one E rc te un dyn i nod name).
Proof.
  unfold load_one. apply preserves_bind; [tc_solve | |].
  - destruct nod.
    + eapply preserves_weaken; [apply loading_step_cache_grows | apply loading_try_load].
    + apply preserves_ret; tc_solve.
  - intros [[r|]|].
    + unfold set_multipliers, update_net.
      repeat (preserves_with ltac:(split; reflexivity)).
    + preserves_with ltac:(split; reflexivity).
    + apply preserves_ret; tc_solve.
Qed.

Lemma cache_grows_load_all (rc : bool) (te un : option (list Z))
    (dyn : option (list (option Z))) (todo : list (option NetworkOnDisk * string)) :
  forall i, preserves cache_grows (load_all E rc te un dyn i todo).
Proof.
  induction todo as [|[nod name] todo IH]; intros i; cbn [load_all].
  - apply preserves_ret; tc_solve.
  - apply preserves_bind; [tc_solve | apply cache_grows_load_one | intros _; apply IH].
Qed.

(** A cache hit of [load_safetensors]. *)
Lemma load_safetensors_hit (name : string) (nod : NetworkOnDisk) (x : World) (r : nat) :
  sd_loaded x = true ->
  dict_get name (lora_cache x) = Some r ->
  load_safetensors E name nod x =
    (Ok (Some r),
     if debug E
     then set_log (log x ++ [(LDebug, Msg_load_safetensors name (filename nod) true)]) x
     else x).
Proof.
  intros Hsd Hget. unfold load_safetensors, bind, get. rewrite Hsd. simpl.
  rewrite Hget. destruct (debug E); reflexivity.
Qed.

End CacheOrder.

(** C10.  When [network_load] is called without [dyn_dims] ([None] or an
    empty list) and returns, the [dyn_dim] of every network in
    [loaded_networks] is [extra_networks_default_multiplier], not [None], and
    this value is the fourth component of each entry of the signature that
    [network_activate] compares with a layer's [network_current_names]. *)
Theorem dyn_dim_defaults_to_multiplier
    (E : Collab) (names : list string) (te un : option (list Z))
    (dyn : option (list (option Z))) (x x' : World) :
  dyn = None \/ dyn = Some [] ->
  cache_wf x ->
  network_load E names te un dyn x = (Ok tt, x') ->
  let d := extra_networks_default_multiplier (opts x) in
  Forall (fun n => dyn_dim n = Some d /\ dyn_dim n <> None) (loaded x')
  /\ wanted_names_of (loaded x')
     = map (fun n => (name n, te_multiplier n, unet_multiplier n, Some d)) (loaded x')
  /\ forall interrupted,
       network_activate E interrupted x'
       = bind (modify_timer (fun t => set_t_move 0 (set_t_apply 0 (set_t_calc 0 (set_t_backup 0 t)))))
              (fun _ => for_modules
                 (activate_layer E
                    (map (fun n => (name n, te_multiplier n, unet_multiplier n, Some d))
                         (loaded x'))
                    interrupted)) x'.
Proof.
  intros Hdyn Hwf Hrun d.
  destruct (network_load_inv E _ _ _ _ _ _ Hrun)
    as (xa & xb & rc & todo & c & Hpre & Hloop & _ & Ho & Hs & Hl & _).
  assert (Hoa : opts xa = opts x) by (destruct Hpre as (H & _); exact H).
  assert (Hwfa : cache_wf xa) by (destruct Hpre as (_ & _ & _ & H & _); apply H, Hwf).
  set (x0 := set_ticks (S (ticks xa)) (set_diffuser [] [] (set_loaded_networks [] xa))) in *.
  assert (Hwf0 : cache_wf x0) by exact Hwfa.
  assert (Hinv0 : loaded_dyn_dim (Some (extra_networks_default_multiplier (opts x0))) x0).
  { intros r Hr. simpl in Hr. apply not_elem_of_nil in Hr. contradiction. }
  destruct (load_all_inv E rc te un dyn todo Hdyn 0%nat _ _ _ Hwf0 Hinv0 Hloop)
    as [(Hob & _) Hinv].
  simpl in Hob.
  assert (Hd : extra_networks_default_multiplier (opts xb) = d)
    by (unfold d; congruence).
  rewrite Hd in Hinv.
  assert (Hall : Forall (fun n => dyn_dim n = Some d) (loaded x')).
  { unfold loaded. rewrite Hs, Hl. apply (loaded_dyn_dim_loaded _ _ Hinv). }
  assert (Hsig : wanted_names_of (loaded x')
                 = map (fun n => (name n, te_multiplier n, unet_multiplier n, Some d)) (loaded x')).
  { unfold wanted_names_of. apply map_ext_Forall.
    eapply Forall_impl; [exact Hall|]. simpl. intros n ->. reflexivity. }
  split; [|split].
  - eapply Forall_impl; [exact Hall|]. simpl. intros n ->. split; [reflexivity | discriminate].
  - exact Hsig.
  - intros interrupted. unfold network_activate, bind, modify_timer, modify, get.
    change (loaded (set_timer (set_t_move 0 (set_t_apply 0 (set_t_calc 0
              (set_t_backup 0 (timer x'))))) x')) with (loaded x').
    rewrite Hsig. reflexivity.
Qed.

(** ** Loading a file that is not in the cache *)

Lemma set_log_app_nil (x : World) : set_log (log x ++ []) x = x.
Proof. destruct x. unfold set_log. simpl. rewrite app_nil_r. reflexivity. Qed.

(** The loop over the matched layers writes nothing but its
    [LoRA unhandled] lines. *)
Lemma create_modules_run (E : Collab) (name : string) (ms : list (string * NetworkWeights)) :
  forall net types x,
  exists net' types' new,
    create_modules E name ms net types x = (Ok (net', types'), set_log (log x ++ new) x)
    /\ Forall (is_unhandled name) new.
Proof.
  induction ms as [|[key weights] ms IH]; intros net types x; cbn [create_modules].
  - exists net, types, []. split; [|constructor].
    unfold ret. rewrite set_log_app_nil. reflexivity.
  - destruct (first_accepting E module_types net weights) as [[t m]|].
    + apply IH.
    + unfold bind, log_msg, modify.
      destruct (IH net types
                  (set_log (log x ++ [(LError, Msg_unhandled name key (dict_keys (w weights)))]) x))
        as (net' & types' & new & Hrun & Hnew).
      exists net', types', ((LError, Msg_unhandled name key (dict_keys (w weights))) :: new).
      split.
      * rewrite Hrun. simpl. rewrite <- app_assoc. reflexivity.
      * constructor; [eexists _, _; reflexivity | exact Hnew].
Qed.

(** C7 (as amended).  A file that is not in the cache is read and its keys
    all parse.  If no key matched a layer, [load_safetensors] returns [None]
    and neither the cache nor the store changes.  If some key matched, it
    returns the new network, which is put last into the cache.  When there
    are unmatched keys, their number is written as a warning, and the keys
    themselves are listed exactly when [debug] is set. *)
Theorem load_safetensors_by_matched_layers
    (E : Collab) (name : string) (nod : NetworkOnDisk) (x : World)
    (mt : Z) (sd : list (string * tensor)) (m : Matching) :
  sd_loaded x = true ->
  dict_get name (lora_cache x) = None ->
  read_network E (sd_model_type x) (filename nod) = Ok (mt, sd) ->
  match_keys (convert E (assign_network_names E (sd_model x))) sd (mkMatching [] [] []) = Ok m ->
  exists (r : option nat) (x' : World) (new : list (LogLevel * LogMsg)),
    load_safetensors E name nod x = (Ok r, x')
    /\ log x' = log x ++ new
    /\ (matched_networks m = [] ->
        r = None /\ lora_cache x' = lora_cache x /\ store x' = store x)
    /\ (matched_networks m <> [] ->
        r = Some (length (store x))
        /\ lora_cache x' = lora_cache x ++ [(name, length (store x))]
        /\ exists net, store x' = store x ++ [net]
                       /\ bundle_embeddings net = bundle m /\ mtime net = mt)
    /\ (keys_failed_to_match m <> [] ->
        exists types,
          (LWarning, Msg_unmatched name types (length (keys_failed_to_match m))
                                   (length (matched_networks m))) ∈ new)
    /\ ((exists failed, (LDebug, Msg_unmatched_keys name failed) ∈ new)
        <-> debug E = true /\ keys_failed_to_match m <> []).
Proof.
  intros Hsd Hmiss Hread Hmatch.
  unfold load_safetensors.
  unfold bind at 1. unfold get at 1. cbv beta iota zeta. rewrite Hsd. cbn [negb].
  rewrite Hmiss.
  set (dbg := (LDebug, Msg_load_safetensors name (filename nod) (bool_decide (is_Some (@None nat))))).
  set (x1 := if debug E then set_log (log x ++ [dbg]) x else x).
  assert (Hx1 : when (debug E) (log_msg LDebug (snd dbg)) x = (Ok tt, x1))
    by (unfold x1; destruct (debug E); reflexivity).
  rewrite (bind_ok _ _ _ _ _ Hx1).
  assert (Hsame : sd_model x1 = sd_model x /\ store x1 = store x
                  /\ lora_cache x1 = lora_cache x
                  /\ log x1 = log x ++ (if debug E then [dbg] else []))
    by (unfold x1; destruct (debug E); repeat split; simpl; rewrite ?app_nil_r; reflexivity).
  destruct Hsame as (Hsm & Hst & Hca & Hlg).
  unfold lift_res at 1. unfold bind at 1. rewrite Hread. cbv beta iota zeta. cbn [fst snd].
  unfold bind at 1. unfold modify at 1. cbv beta iota zeta.
  unfold bind at 1. unfold get at 1. cbv beta iota zeta.
  cbn [sd_model set_sd_model]. rewrite Hsm.
  unfold lift_res at 1. unfold bind at 1. rewrite Hmatch. cbv beta iota zeta.
  set (x2 := set_sd_model (assign_network_names E (sd_model x)) x1).
  destruct (create_modules_run E name (matched_networks m)
              (set_mtime mt (Network_init E name nod)) [] x2)
    as (net' & types' & unh & Hcm & Hunh).
  assert (Hmt : forall ms net types y net1 types1 y1,
             create_modules E name ms net types y = (Ok (net1, types1), y1) ->
             mtime net1 = mtime net).
  { induction ms as [|[key weights] ms IH]; intros net types y net1 types1 y1 Hr;
      cbn [create_modules] in Hr.
    - inversion Hr; subst. reflexivity.
    - destruct (first_accepting E module_types net weights) as [[t md]|].
      + rewrite (IH _ _ _ _ _ _ Hr). reflexivity.
      + apply bind_inv_ok in Hr. destruct Hr as (? & ? & _ & Hr). apply (IH _ _ _ _ _ _ Hr). }
  assert (Hmt' := Hmt _ _ _ _ _ _ _ Hcm). simpl in Hmt'.
  rewrite (bind_ok _ _ _ _ _ Hcm). cbv beta iota zeta.
  set (x3 := set_log (log x2 ++ unh) x2).
  set (warn := (LWarning, Msg_unmatched name types' (length (keys_failed_to_match m))
                                        (length (matched_networks m)))).
  set (listing := (LDebug, Msg_unmatched_keys name (keys_failed_to_match m))).
  set (keysmsg := (LDebug, Msg_keys name types' (length (matched_networks m)))).
  set (report := if (0 <? length (keys_failed_to_match m))%nat
                 then warn :: (if debug E then [listing] else [])
                 else [keysmsg]).
  set (x4 := set_log (log x3 ++ report) x3).
  match goal with
  | |- context [bind ?c ?k x3] =>
      assert (Hrep : c x3 = (Ok tt, x4))
  end.
  { unfold x4, report. destruct (0 <? length (keys_failed_to_match m))%nat.
    - unfold bind, log_msg, modify, when. destruct (debug E); simpl.
      + rewrite <- app_assoc. reflexivity.
      + reflexivity.
    - reflexivity. }
  rewrite (bind_ok _ _ _ _ _ Hrep).
  assert (Hlog4 : log x4 = log x ++ ((if debug E then [dbg] else []) ++ unh ++ report)).
  { unfold x4, x3, x2. simpl. rewrite Hlg, <- !app_assoc. reflexivity. }
  assert (Hfailed : keys_failed_to_match m <> [] <-> (0 <? length (keys_failed_to_match m))%nat = true).
  { destruct (keys_failed_to_match m); cbn; split; intros Hx;
      first [reflexivity | discriminate | exfalso; apply Hx; reflexivity]. }
  assert (Hlisting : (exists failed, (LDebug, Msg_unmatched_keys name failed)
                                     ∈ (if debug E then [dbg] else []) ++ unh ++ report)
                     <-> debug E = true /\ keys_failed_to_match m <> []).
  { rewrite Hfailed. unfold report. split.
    - intros [failed Hin].
      apply elem_of_app in Hin. destruct Hin as [Hin|Hin].
      { destruct (debug E); [|apply not_elem_of_nil in Hin; contradiction].
        apply list_elem_of_singleton in Hin. discriminate. }
      apply elem_of_app in Hin. destruct Hin as [Hin|Hin].
      { rewrite Forall_forall in Hunh. destruct (Hunh _ Hin) as (? & ? & ?). discriminate. }
      destruct (0 <? length (keys_failed_to_match m))%nat.
      + apply elem_of_cons in Hin. destruct Hin as [Hin|Hin]; [discriminate|].
        destruct (debug E); [split; reflexivity | apply not_elem_of_nil in Hin; contradiction].
      + apply list_elem_of_singleton in Hin. discriminate.
    - intros [-> ->]. exists (keys_failed_to_match m).
      apply elem_of_app. right. apply elem_of_app. right.
      apply elem_of_cons. right. apply list_elem_of_singleton. reflexivity. }
  assert (Hwarn : keys_failed_to_match m <> [] ->
                  exists types, (LWarning, Msg_unmatched name types
                                   (length (keys_failed_to_match m))
                                   (length (matched_networks m)))
                                ∈ (if debug E then [dbg] else []) ++ unh ++ report).
  { rewrite Hfailed. intros Hf. exists types'. unfold report. rewrite Hf.
    apply elem_of_app. right. apply elem_of_app. right. apply elem_of_cons. left. reflexivity. }
  destruct (matched_networks m) as [|mk ms] eqn:Hmk.
  - cbn [length Nat.eqb]. unfold ret.
    exists None, x4, ((if debug E then [dbg] else []) ++ unh ++ report).
    split; [reflexivity|]. split; [exact Hlog4|].
    split; [intros _; repeat split; [exact Hca | exact Hst]|].
    split; [intros Hne; contradiction|]. split; assumption.
  - cbn [length Nat.eqb]. unfold bind, alloc, modify, ret. cbv beta iota zeta.
    eexists (Some _), _, ((if debug E then [dbg] else []) ++ unh ++ report).
    split; [reflexivity|]. split; [exact Hlog4|].
    split; [intros Hnil; discriminate|].
    split.
    { intros _. cbn [store lora_cache set_lora_cache set_store x4 x3 x2 set_log set_sd_model].
      rewrite Hst, Hca. split; [reflexivity|].
      split; [apply dict_set_fresh; exact Hmiss|].
      eexists. split; [reflexivity|]. split; [reflexivity | exact Hmt']. }
    split; assumption.
Qed.

(** ** Backups *)

Ltac backup_fin :=
  repeat split; intros; try discriminate;
  repeat match goal with
         | Hp : Some _ = Some _ |- _ => inversion Hp; subst; clear Hp
         end;
  try reflexivity; try congruence;
  try match goal with
      | Hd : _ \/ _ |- _ => destruct Hd; discriminate
      end.

Section Backup.
Variable E : Collab.

(** What the computation of the weight backup yields, case by case. *)
Lemma weights_backup_value_cases (weight0 : option Param) (l l1 : Layer)
    (x x1 : World) (r : res Backup) :
  weights_backup_value E weight0 (l, x) = (r, (l1, x1)) ->
  (weight l1 = weight l /\ bias l1 = bias l
   /\ network_weights_backup l1 = network_weights_backup l
   /\ network_bias_backup l1 = network_bias_backup l
   /\ network_layer_name l1 = network_layer_name l
   /\ network_current_names l1 = network_current_names l)
  /\ (opts x1 = opts x /\ store x1 = store x /\ loaded_networks x1 = loaded_networks x
      /\ ticks x1 = ticks x /\ timer x1 = timer x)
  /\ (lora_fuse_diffusers (opts x) || lora_low_memory (opts x) = true ->
      r = Ok BTrue /\ l1 = l /\ x1 = x)
  /\ (lora_fuse_diffusers (opts x) || lora_low_memory (opts x) = false ->
      forall t qs qt bs,
        weight0 = Some (Params4bit t qs qt bs) -> is_4bit (Some qt) = true ->
        bnb x || load_bnb E = true ->
        r = Ok (BTensor (dequantize_4bit E t qs qt bs))
        /\ quant_state l1 = Some qs /\ quant_type l1 = Some qt /\ blocksize l1 = Some bs)
  /\ (lora_fuse_diffusers (opts x) || lora_low_memory (opts x) = false ->
      forall p,
        weight0 = Some p ->
        is_4bit (param_quant_type weight0) = false \/ bnb x || load_bnb E = false ->
        r = Ok (BTensor (param_data p)) /\ l1 = l).
Proof.
  unfold weights_backup_value, bind, get_world, gets, when, liftW, modify, modify_layer,
    ret, raise, lift_res, not_none.
  cbn [fst snd].
  destruct (lora_fuse_diffusers (opts x) || lora_low_memory (opts x)) eqn:Hmode.
  { intros H; inversion H; subst.
    repeat split; intros; try discriminate; reflexivity. }
  destruct weight0 as [[t|t qs qt bs]|]; cbn [param_quant_type is_4bit param_data].
  - intros H; inversion H; subst. backup_fin.
  - destruct (is_4bit (Some qt)) eqn:H4; cbn [is_4bit] in H4 |- *; rewrite ?H4.
    + destruct (bnb x) eqn:Hb; cbn [negb fst snd bnb set_bnb].
      * rewrite Hb. intros H; inversion H; subst. backup_fin.
      * destruct (load_bnb E) eqn:Hl; intros H; inversion H; subst; backup_fin.
    + intros H; inversion H; subst. backup_fin.
  - intros H; inversion H; subst. backup_fin.
Qed.

Lemma backup_weight_cases (weight0 : option Param) (wanted : Signature)
    (l l1 : Layer) (x x1 : World) (r : res unit) :
  backup_weight E weight0 wanted (l, x) = (r, (l1, x1)) ->
  (weight l1 = weight l /\ bias l1 = bias l
   /\ network_bias_backup l1 = network_bias_backup l
   /\ network_layer_name l1 = network_layer_name l
   /\ network_current_names l1 = network_current_names l)
  /\ (opts x1 = opts x /\ store x1 = store x /\ loaded_networks x1 = loaded_networks x
      /\ ticks x1 = ticks x /\ timer x1 = timer x)
  /\ (forall b, network_weights_backup l = Some b -> network_weights_backup l1 = Some b)
  /\ (network_weights_backup l1 <> network_weights_backup l ->
      network_weights_backup l = None /\ wanted <> [])
  /\ (network_weights_backup l = None -> wanted <> [] ->
      (lora_fuse_diffusers (opts x) || lora_low_memory (opts x) = true ->
       r = Ok tt /\ l1 = set_network_weights_backup (Some BTrue) l /\ x1 = x)
      /\ (lora_fuse_diffusers (opts x) || lora_low_memory (opts x) = false ->
          forall t qs qt bs,
            weight0 = Some (Params4bit t qs qt bs) -> is_4bit (Some qt) = true ->
            bnb x || load_bnb E = true ->
            network_weights_backup l1 = Some (BTensor (dequantize_4bit E t qs qt bs))
            /\ quant_state l1 = Some qs /\ quant_type l1 = Some qt
            /\ blocksize l1 = Some bs)
      /\ (lora_fuse_diffusers (opts x) || lora_low_memory (opts x) = false ->
          forall p,
            weight0 = Some p ->
            is_4bit (param_quant_type weight0) = false \/ bnb x || load_bnb E = false ->
            network_weights_backup l1 = Some (BTensor (param_data p)))).
Proof.
  unfold backup_weight. unfold bind at 1. unfold get_layer, gets at 1. cbn [fst snd].
  unfold sig_eqb.
  destruct (network_weights_backup l) as [wb|] eqn:Hwb.
  { rewrite bool_decide_eq_false_2 by discriminate. cbn [andb when ret].
    intros H; inversion H; subst. rewrite Hwb.
    repeat split; intros; try discriminate; try congruence. }
  rewrite bool_decide_eq_true_2 by reflexivity. cbn [andb].
  destruct wanted as [|w0 wanted].
  { rewrite bool_decide_eq_true_2 by reflexivity. cbn [negb when ret].
    intros H; inversion H; subst. rewrite Hwb.
    repeat split; intros; try discriminate; try congruence. }
  rewrite bool_decide_eq_false_2 by discriminate. cbn [negb when].
  intros H. apply bind_inv in H.
  destruct H as [(wbv & [l2 x2] & Hv & H)|(e & Hv & ->)].
  - destruct (weights_backup_value_cases _ _ _ _ _ _ Hv)
      as ((Hw & Hb & Hnwb & Hnbb & Hn & Hc) & Hworld & Htrue & Hdeq & Hclone).
    unfold modify_layer, modify in H. inversion H; subst; clear H. cbn.
    split; [repeat split; assumption|]. split; [exact Hworld|].
    split; [intros; discriminate|]. split; [intros _; split; [reflexivity | discriminate]|].
    intros _ _. split; [|split].
    + intros Hm. destruct (Htrue Hm) as (Hr & -> & ->). inversion Hr; subst.
      repeat split; reflexivity.
    + intros Hm t qs qt bs Hw0 H4 Hbnb.
      destruct (Hdeq Hm t qs qt bs Hw0 H4 Hbnb) as (Hr & Hqs & Hqt & Hbs).
      inversion Hr; subst. repeat split; assumption.
    + intros Hm p Hp Hor. destruct (Hclone Hm p Hp Hor) as (Hr & _).
      inversion Hr; subst. reflexivity.
  - destruct (weights_backup_value_cases _ _ _ _ _ _ Hv)
      as ((Hw & Hb & Hnwb & Hnbb & Hn & Hc) & Hworld & Htrue & Hdeq & Hclone).
    split; [repeat split; assumption|]. split; [exact Hworld|].
    split; [intros; discriminate|].
    split; [intros Hne; split; [reflexivity | discriminate]|].
    intros _ _. split; [|split].
    + intros Hm. destruct (Htrue Hm) as (Hr & _). discriminate.
    + intros Hm t qs qt bs Hw0 H4 Hbnb.
      destruct (Hdeq Hm t qs qt bs Hw0 H4 Hbnb) as (Hr & _). discriminate.
    + intros Hm p Hp Hor. destruct (Hclone Hm p Hp Hor) as (Hr & _). discriminate.
Qed.

Lemma backup_bias_run (l : Layer) (x : World) :
  backup_bias (l, x) =
    (Ok tt,
     (if bool_decide (network_bias_backup l = None)
      then set_network_bias_backup (bias_backup_value x l) l else l, x)).
Proof.
  unfold backup_bias, bind, get_layer, get_world, gets, when, modify_layer, modify, ret.
  cbn [fst snd]. destruct (bool_decide (network_bias_backup l = None)); reflexivity.
Qed.

End Backup.


(** ** What the passes over the layers leave alone *)

Lemma step_frame_preorder : PreOrder step_frame.
Proof.
  split.
  - intros x. repeat split.
  - intros a b c (H1 & H2 & H3) (H4 & H5 & H6). repeat split; congruence.
Qed.
#[global] Existing Instance step_frame_preorder.

Lemma lw_frame_preorder : PreOrder lw_frame.
Proof.
  split.
  - intros s. unfold lw_frame. reflexivity.
  - intros a b c. unfold lw_frame. intros H1 H2. etransitivity; eassumption.
Qed.
#[global] Existing Instance lw_frame_preorder.

Lemma step_frame_loaded (x x' : World) : step_frame x x' -> loaded x' = loaded x.
Proof. intros (_ & Hs & Hl). unfold loaded. rewrite Hs, Hl. reflexivity. Qed.

Lemma preserves_liftW {A} (c : M World A) :
  preserves step_frame c -> preserves lw_frame (liftW c).
Proof.
  intros Hc [l x] r [l' x'] H. unfold liftW in H. cbn [fst snd] in H.
  destruct (c x) as [r0 x0] eqn:Hcx. inversion H; subst.
  unfold lw_frame. cbn [snd]. eapply Hc, Hcx.
Qed.

Lemma preserves_modify_layer (f : Layer -> Layer) : preserves lw_frame (modify_layer f).
Proof. intros [l x] r [l' x'] H. inversion H; subst. unfold lw_frame. reflexivity. Qed.

Ltac frame_base := repeat split; reflexivity.

Ltac lw_frame_tac :=
  cbv beta zeta;
  lazymatch goal with
  | |- preserves lw_frame (liftW _) => apply preserves_liftW
  | |- preserves lw_frame (modify_layer _) => apply preserves_modify_layer
  | |- preserves _ get_layer => unfold get_layer
  | |- preserves _ get_world => unfold get_world
  | |- _ => preserves_with frame_base
  end.

Section Frames.
Variable E : Collab.

Lemma frame_weights_backup_value (weight0 : option Param) :
  preserves lw_frame (weights_backup_value E weight0).
Proof. unfold weights_backup_value. repeat lw_frame_tac. Qed.

Lemma frame_network_backup_weights (weight0 : option Param) (n : option string)
    (wanted : Signature) :
  preserves lw_frame (network_backup_weights E weight0 n wanted).
Proof.
  unfold network_backup_weights, backup_weight, backup_bias.
  repeat lw_frame_tac. apply frame_weights_backup_value.
Qed.

Lemma frame_calc_failed (net : Network) (n : option string) (e : exn) :
  preserves lw_frame (calc_failed E net n e).
Proof. unfold calc_failed. repeat lw_frame_tac. Qed.

Lemma frame_calc_one (weight0 : option Param) (n : option string)
    (batch : option tensor * option tensor) (net : Network) :
  preserves lw_frame (calc_one E weight0 n batch net).
Proof.
  unfold calc_one. repeat lw_frame_tac; apply frame_calc_failed.
Qed.

Lemma frame_calc_loop (weight0 : option Param) (n : option string) (nets : list Network) :
  forall batch, preserves lw_frame (calc_loop E weight0 n batch nets).
Proof.
  induction nets as [|net nets IH]; intros batch; cbn [calc_loop].
  - apply preserves_ret; tc_solve.
  - apply preserves_bind; [tc_solve | apply frame_calc_one | intros b; apply IH].
Qed.

Lemma frame_network_calc_weights (weight0 : option Param) (n : option string) :
  preserves lw_frame (network_calc_weights E weight0 n).
Proof.
  unfold network_calc_weights. repeat lw_frame_tac. apply frame_calc_loop.
Qed.

Lemma frame_network_apply_weights (updown ex_bias : option tensor) (deactivate : bool) :
  preserves lw_frame (network_apply_weights E updown ex_bias deactivate).
Proof. unfold network_apply_weights. repeat lw_frame_tac. Qed.

Lemma frame_activate_layer (wanted : Signature) (interrupted : nat -> bool) (i : nat) :
  preserves lw_frame (activate_layer E wanted interrupted i).
Proof.
  unfold activate_layer. repeat lw_frame_tac;
    first [ apply frame_network_backup_weights
          | apply frame_network_calc_weights
          | apply frame_network_apply_weights ].
Qed.

Lemma frame_deactivate_layer (interrupted : nat -> bool) (i : nat) :
  preserves lw_frame (deactivate_layer E interrupted i).
Proof.
  unfold deactivate_layer. repeat lw_frame_tac;
    first [ apply frame_network_calc_weights | apply frame_network_apply_weights ].
Qed.

End Frames.

(** The loops over layers and components keep what every step keeps. *)
Lemma for_layers_frame (step : nat -> M LW unit) :
  (forall i, preserves lw_frame (step i)) ->
  forall ls i x r ls' x',
    for_layers step i ls x = (r, (ls', x')) ->
    step_frame x x' /\ length ls' = length ls.
Proof.
  intros Hstep. induction ls as [|l ls IH]; intros i x r ls' x' H; cbn [for_layers] in H.
  - inversion H; subst. split; reflexivity.
  - destruct (step i (l, x)) as [[[]|e] [l1 x1]] eqn:Hs.
    + destruct (for_layers step (S i) ls x1) as [r2 [ls2 x2]] eqn:Hrest.
      inversion H; subst. destruct (IH _ _ _ _ _ Hrest) as [Hf Hl].
      split; [|simpl; congruence].
      etransitivity; [apply (Hstep _ _ _ _ Hs) | exact Hf].
    + inversion H; subst. split; [apply (Hstep _ _ _ _ Hs) | reflexivity].
Qed.

Lemma for_components_frame (step : nat -> M LW unit) :
  (forall i, preserves lw_frame (step i)) ->
  forall cs i x r cs' x',
    for_components step i cs x = (r, (cs', x')) ->
    step_frame x x' /\ length cs' = length cs.
Proof.
  intros Hstep. induction cs as [|[ls|] cs IH]; intros i x r cs' x' H;
    cbn [for_components] in H.
  - inversion H; subst. split; reflexivity.
  - destruct (for_layers step i ls x) as [[[]|e] [ls1 x1]] eqn:Hl.
    + destruct (for_components step (i + length ls) cs x1) as [r2 [cs2 x2]] eqn:Hrest.
      inversion H; subst. destruct (IH _ _ _ _ _ Hrest) as [Hf Hlen].
      split; [|simpl; congruence].
      etransitivity; [apply (for_layers_frame step Hstep _ _ _ _ _ _ Hl) | exact Hf].
    + inversion H; subst.
      split; [apply (for_layers_frame step Hstep _ _ _ _ _ _ Hl) | reflexivity].
  - destruct (for_components step i cs x) as [r2 [cs2 x2]] eqn:Hrest.
    inversion H; subst. destruct (IH _ _ _ _ _ Hrest) as [Hf Hlen].
    split; [exact Hf | simpl; congruence].
Qed.

(** ** Failures while the deltas are computed *)

Lemma accumulate_raises_runtime (batch new : option tensor) (e : exn) :
  accumulate batch new = Raise e -> e = RuntimeError.
Proof.
  unfold accumulate, tensor_add. destruct batch as [b|], new as [n|]; try discriminate.
  destruct (bool_decide (shape b = shape n) && bool_decide (length (data b) = length (data n)));
    [discriminate|]. intros [= <-]. reflexivity.
Qed.

Section Calc.
Variable E : Collab.

(** Without [debug], a turn of the loop returns and leaves the layer as it
    was, whatever the module does, as long as it raises nothing but
    [RuntimeError]. *)
Lemma calc_one_returns (weight0 : option Param) (n : string)
    (batch : option tensor * option tensor) (net : Network) (l : Layer) (x : World) :
  debug E = false ->
  raises_runtime_only weight0 n net ->
  exists b x', calc_one E weight0 (Some n) batch net (l, x) = (Ok b, (l, x')).
Proof.
  intros Hdbg Hrt. unfold calc_one.
  unfold bind at 1. unfold get_layer, gets at 1. cbn [fst snd mbind option_bind].
  destruct (modules net !! n) as [module|] eqn:Hm; [|eexists _, _; reflexivity].
  destruct (has_weight l); [|eexists _, _; reflexivity].
  unfold bind at 1. unfold liftW at 1, tick at 1. cbn [fst snd].
  assert (Hfail : forall (b0 : option tensor * option tensor) (y : World),
             exists y' : World,
               @bind LW unit _ (calc_failed E net (Some n) RuntimeError)
                     (fun _ => ret b0) (l, y) = (Ok b0, (l, y'))).
  { intros b0 y. unfold calc_failed, bind, liftW, modify, ret. cbn [exn_eqb fst snd].
    rewrite Hdbg. eexists. reflexivity. }
  destruct (calc_updown module (te_multiplier net, unet_multiplier net, dyn_dim net) weight0)
    as [[updown ex_bias]|e] eqn:Hcalc.
  2:{ rewrite (Hrt _ _ Hm Hcalc). destruct (Hfail batch (set_ticks (S (ticks x)) x)) as [y' ->].
      eexists _, _; reflexivity. }
  unfold bind at 1. unfold liftW at 1, tick at 1. cbn [fst snd].
  destruct (accumulate batch.1 updown) as [bu|e] eqn:Hacc1.
  2:{ rewrite (accumulate_raises_runtime _ _ _ Hacc1).
      match goal with |- context [(l, ?y)] => destruct (Hfail batch y) as [y' ->] end.
      eexists _, _; reflexivity. }
  destruct (accumulate batch.2 ex_bias) as [be|e] eqn:Hacc2.
  2:{ rewrite (accumulate_raises_runtime _ _ _ Hacc2).
      match goal with |- context [(l, ?y)] => destruct (Hfail (bu, batch.2) y) as [y' ->] end.
      eexists _, _; reflexivity. }
  unfold bind, liftW, modify_timer, modify, get_world, gets, when, tick, ret. cbn [fst snd].
  destruct (negb (bool_decide (diffusers_offload_mode
              (opts (set_timer _ (set_ticks _ (set_ticks _ x)))) = "none"%string)));
    eexists _, _; reflexivity.
Qed.

Lemma calc_loop_returns (weight0 : option Param) (n : string) (nets : list Network) :
  debug E = false ->
  Forall (raises_runtime_only weight0 n) nets ->
  forall batch l x,
  exists b x', calc_loop E weight0 (Some n) batch nets (l, x) = (Ok b, (l, x')).
Proof.
  intros Hdbg Hall. induction Hall as [|net nets Hnet _ IH]; intros batch l x; cbn [calc_loop].
  - eexists _, _; reflexivity.
  - destruct (calc_one_returns weight0 n batch net l x Hdbg Hnet) as (b1 & x1 & H1).
    rewrite (bind_ok _ _ _ _ _ H1). apply IH.
Qed.

End Calc.

(** C6 (as amended).  A module of a loaded network raises [e] in
    [calc_updown].  If [e] is a [RuntimeError], the error counter of the
    network's name goes up by one; without [debug] the contribution of the
    module is dropped (the sums are as before it) and the loop goes on with
    the remaining networks, and it returns when these raise nothing but
    [RuntimeError], so that the pass goes on with the layer and with the
    layers after it; with [debug] the error is logged and raised again, which
    ends the pass.  Any other exception is not caught and not counted. *)
Theorem calc_failure_counted_and_dropped
    (E : Collab) (weight0 : option Param) (n : string)
    (batch : option tensor * option tensor) (net : Network) (module : NetworkModule)
    (rest : list Network) (l : Layer) (x : World) (e : exn) :
  modules net !! n = Some module ->
  has_weight l = true ->
  calc_updown module (te_multiplier net, unet_multiplier net, dyn_dim net) weight0 = Raise e ->
  let ticked := set_ticks (S (ticks x)) x in
  let counted :=
    set_errors (<[name net := default 0 (errors x !! name net) + 1]> (errors x)) ticked in
  (e = RuntimeError -> debug E = false ->
   calc_loop E weight0 (Some n) batch (net :: rest) (l, x)
   = calc_loop E weight0 (Some n) batch rest (l, counted))
  /\ (e = RuntimeError -> debug E = false ->
      Forall (raises_runtime_only weight0 n) rest ->
      exists b x', calc_loop E weight0 (Some n) batch (net :: rest) (l, x) = (Ok b, (l, x')))
  /\ (e = RuntimeError -> debug E = true ->
      calc_loop E weight0 (Some n) batch (net :: rest) (l, x)
      = (Raise RuntimeError,
         (l, set_log (log x ++ [(LError, Msg_apply_weight_error (name net) (Some n))]) counted)))
  /\ (e <> RuntimeError ->
      calc_loop E weight0 (Some n) batch (net :: rest) (l, x) = (Raise e, (l, ticked))).
Proof.
  intros Hm Hw Hcalc ticked counted.
  assert (Hone : calc_one E weight0 (Some n) batch net (l, x)
                 = @bind LW unit _ (calc_failed E net (Some n) e)
                         (fun _ => ret batch) (l, ticked)).
  { unfold calc_one. unfold bind at 1. unfold get_layer, gets at 1.
    cbn [fst snd mbind option_bind]. rewrite Hm, Hw.
    unfold bind at 1. unfold liftW at 1, tick at 1. cbn [fst snd]. rewrite Hcalc.
    reflexivity. }
  assert (Hcont : e = RuntimeError -> debug E = false ->
                  calc_loop E weight0 (Some n) batch (net :: rest) (l, x)
                  = calc_loop E weight0 (Some n) batch rest (l, counted)).
  { intros -> Hdbg. cbn [calc_loop]. unfold bind at 1. rewrite Hone.
    unfold calc_failed, bind, liftW, modify, ret. cbn [exn_eqb fst snd]. rewrite Hdbg.
    reflexivity. }
  split; [exact Hcont|]. split; [|split].
  - intros He Hdbg Hrest. rewrite (Hcont He Hdbg).
    apply calc_loop_returns; assumption.
  - intros -> Hdbg. cbn [calc_loop]. unfold bind at 1. rewrite Hone.
    unfold calc_failed, bind, liftW, modify, log_msg, raise, ret. cbn [exn_eqb fst snd].
    rewrite Hdbg. reflexivity.
  - intros Hne. cbn [calc_loop]. unfold bind at 1. rewrite Hone.
    unfold calc_failed, bind, raise. destruct e; try contradiction; reflexivity.
Qed.

(** ** Activation with an unchanged set of networks *)

(** The loops return what every step guarantees. *)
Lemma for_layers_post (step : nat -> M LW unit) (P : Layer -> Prop) :
  (forall i l x l' x', step i (l, x) = (Ok tt, (l', x')) -> P l') ->
  forall ls i x ls' x',
    for_layers step i ls x = (Ok tt, (ls', x')) -> Forall P ls'.
Proof.
  intros Hstep. induction ls as [|l ls IH]; intros i x ls' x' H; cbn [for_layers] in H.
  - inversion H; subst. constructor.
  - destruct (step i (l, x)) as [[[]|e] [l1 x1]] eqn:Hs; [|discriminate].
    destruct (for_layers step (S i) ls x1) as [r2 [ls2 x2]] eqn:Hrest.
    inversion H; subst. constructor; [eapply Hstep, Hs | eapply IH, Hrest].
Qed.

Lemma for_components_post (step : nat -> M LW unit) (P : Layer -> Prop) :
  (forall i l x l' x', step i (l, x) = (Ok tt, (l', x')) -> P l') ->
  forall cs i x cs' x',
    for_components step i cs x = (Ok tt, (cs', x')) -> Forall_layers P cs'.
Proof.
  intros Hstep. induction cs as [|[ls|] cs IH]; intros i x cs' x' H;
    cbn [for_components] in H.
  - inversion H; subst. constructor.
  - destruct (for_layers step i ls x) as [[[]|e] [ls1 x1]] eqn:Hl; [|discriminate].
    destruct (for_components step (i + length ls) cs x1) as [r2 [cs2 x2]] eqn:Hrest.
    inversion H; subst. constructor.
    + eapply for_layers_post; eassumption.
    + eapply IH, Hrest.
  - destruct (for_components step i cs x) as [r2 [cs2 x2]] eqn:Hrest.
    inversion H; subst. constructor; [exact I | eapply IH, Hrest].
Qed.

(** Layers on which the step does nothing are passed over. *)
Lemma for_layers_fixed (step : nat -> M LW unit) (P : Layer -> Prop) :
  (forall i l x, P l -> step i (l, x) = (Ok tt, (l, x))) ->
  forall ls i x, Forall P ls -> for_layers step i ls x = (Ok tt, (ls, x)).
Proof.
  intros Hstep. induction ls as [|l ls IH]; intros i x HP; cbn [for_layers].
  - reflexivity.
  - inversion HP as [|? ? Hl Hls]; subst.
    rewrite (Hstep i l x Hl), (IH _ _ Hls). reflexivity.
Qed.

Lemma for_components_fixed (step : nat -> M LW unit) (P : Layer -> Prop) :
  (forall i l x, P l -> step i (l, x) = (Ok tt, (l, x))) ->
  forall cs i x, Forall_layers P cs -> for_components step i cs x = (Ok tt, (cs, x)).
Proof.
  intros Hstep. induction cs as [|[ls|] cs IH]; intros i x HP; cbn [for_components].
  - reflexivity.
  - inversion HP as [|? ? Hl Hcs]; subst.
    rewrite (for_layers_fixed step P Hstep _ _ _ Hl), (IH _ _ Hcs). reflexivity.
  - inversion HP as [|? ? Hl Hcs]; subst. rewrite (IH _ _ Hcs). reflexivity.
Qed.

Lemma set_modules_of_id (m : SdModel) : set_modules_of (modules_of m) m = m.
Proof. destruct m. reflexivity. Qed.

Lemma set_sd_model_id (x : World) : set_sd_model (sd_model x) x = x.
Proof. destruct x. reflexivity. Qed.

Lemma modules_of_set (cs : list (option (list Layer))) (m : SdModel) :
  length cs = 4%nat -> modules_of (set_modules_of cs m) = cs.
Proof.
  destruct cs as [|a [|b [|c [|d [|? ?]]]]]; try discriminate. reflexivity.
Qed.

Section Idempotence.
Variable E : Collab.

Lemma activate_layer_skip (wanted : Signature) (interrupted : nat -> bool) (i : nat)
    (l : Layer) (x : World) :
  carries wanted l ->
  activate_layer E wanted interrupted i (l, x) = (Ok tt, (l, x)).
Proof.
  intros Hc. unfold activate_layer. unfold bind at 1. unfold get_layer, gets.
  cbn [fst snd]. unfold sig_eqb.
  destruct Hc as [Hn | Hs].
  - rewrite (bool_decide_eq_true_2 _ Hn). rewrite orb_true_r. reflexivity.
  - rewrite (bool_decide_eq_true_2 _ Hs). rewrite orb_true_r. reflexivity.
Qed.

Lemma activate_layer_post (wanted : Signature) (i : nat)
    (l l' : Layer) (x x' : World) :
  activate_layer E wanted (fun _ => false) i (l, x) = (Ok tt, (l', x')) ->
  carries wanted l'.
Proof.
  unfold activate_layer. unfold bind at 1. unfold get_layer, gets at 1.
  cbn [fst snd orb]. unfold sig_eqb.
  destruct (bool_decide (network_layer_name l = None)) eqn:Hn; cbn [orb].
  { intros H; inversion H; subst. left. apply bool_decide_eq_true in Hn. exact Hn. }
  match goal with
  | |- context [if ?b then _ else _] => destruct b eqn:Hs
  end.
  { intros H; inversion H; subst. right. apply bool_decide_eq_true in Hs. exact Hs. }
  intros H.
  apply bind_inv_ok in H. destruct H as (sz & s1 & _ & H).
  apply bind_inv_ok in H. destruct H as (batch & s2 & _ & H).
  apply bind_inv_ok in H. destruct H as ([] & [l3 x3] & _ & H).
  unfold modify_layer, modify in H. inversion H; subst.
  right. reflexivity.
Qed.

Lemma network_activate_post (x x1 : World) :
  network_activate E (fun _ => false) x = (Ok tt, x1) ->
  loaded x1 = loaded x
  /\ Forall_layers (carries (wanted_names_of (loaded x))) (modules_of (sd_model x1)).
Proof.
  unfold network_activate, bind, modify_timer, modify, get. cbn [fst snd].
  set (x0 := set_timer _ x).
  change (loaded x0) with (loaded x).
  unfold for_modules.
  destruct (for_components (activate_layer E (wanted_names_of (loaded x)) (fun _ => false))
              0 (modules_of (sd_model x0)) x0) as [r [cs xw]] eqn:Hrun.
  intros H; inversion H; subst; clear H.
  destruct (for_components_frame _ (frame_activate_layer E _ _) _ _ _ _ _ _ Hrun)
    as [Hframe Hlen].
  split.
  - change (loaded (set_sd_model (set_modules_of cs (sd_model xw)) xw)) with (loaded xw).
    rewrite (step_frame_loaded _ _ Hframe). reflexivity.
  - cbn [sd_model set_sd_model]. rewrite modules_of_set by (rewrite Hlen; reflexivity).
    eapply for_components_post; [|exact Hrun].
    intros i l y l' y' Hstep. eapply activate_layer_post, Hstep.
Qed.

End Idempotence.

(** C2.  After a call of [network_activate] that was not interrupted and
    returned, a second call with the same loaded networks skips every layer:
    it returns the state it was given with nothing changed but the four
    timers it sets to zero, so no backup is taken, no delta is computed and
    no weight or bias is written.  The reason is the test on the signature: a
    layer whose [network_current_names] equals the wanted signature of
    (name, te_multiplier, unet_multiplier, dyn_dim) entries is left as it is,
    with the whole state. *)
Theorem second_activation_changes_no_layer
    (E : Collab) (x x1 : World) (interrupted : nat -> bool) :
  network_activate E (fun _ => false) x = (Ok tt, x1) ->
  network_activate E interrupted x1
  = (Ok tt,
     set_timer (set_t_move 0 (set_t_apply 0 (set_t_calc 0 (set_t_backup 0 (timer x1))))) x1)
  /\ (forall l i y,
        default [] (network_current_names l) = wanted_names_of (loaded x1) ->
        activate_layer E (wanted_names_of (loaded x1)) interrupted i (l, y) = (Ok tt, (l, y))).
Proof.
  intros Hfirst. destruct (network_activate_post E _ _ Hfirst) as [Hloaded Hall].
  split.
  - unfold network_activate, bind, modify_timer, modify, get. cbn [fst snd].
    set (x0 := set_timer _ x1).
    change (loaded x0) with (loaded x1). rewrite Hloaded.
    unfold for_modules.
    change (sd_model x0) with (sd_model x1).
    rewrite (for_components_fixed _ (carries (wanted_names_of (loaded x)))
               (fun i l y Hc => activate_layer_skip E _ interrupted i l y Hc) _ _ _ Hall).
    rewrite set_modules_of_id.
    change (sd_model x1) with (sd_model x0). rewrite set_sd_model_id. reflexivity.
  - intros l i y Hsig. apply activate_layer_skip. right. exact Hsig.
Qed.

(** ** Patching in place and taking the patch back *)

(** A sum has the shape of its terms, so the negated term can be added to
    it. *)
Lemma tensor_add_back (b u s : tensor) :
  tensor_add b u = Ok s ->
  shape s = shape b /\ exists s2, tensor_add s (tensor_neg u) = Ok s2.
Proof.
  unfold tensor_add. destruct b as [sb db], u as [su du]. cbn [shape data tensor_neg].
  destruct (bool_decide (sb = su)) eqn:Hs; [|discriminate].
  destruct (bool_decide (length db = length du)) eqn:Hl; [|discriminate].
  apply bool_decide_eq_true in Hs. apply bool_decide_eq_true in Hl. subst su.
  cbn [andb]. intros [= <-]. cbn [shape data]. split; [reflexivity|].
  rewrite bool_decide_eq_true_2 by reflexivity.
  rewrite bool_decide_eq_true_2
    by (rewrite length_zip_with, length_map; lia).
  cbn [andb]. eexists. reflexivity.
Qed.

Lemma shifted_back (base s : tensor) (delta : option tensor) :
  shifted base delta false = Ok s -> exists s2, shifted s delta true = Ok s2.
Proof.
  unfold shifted. destruct delta as [u|]; [|intros _; eexists; reflexivity].
  destruct (if is_inpainting base then pad_channels u else Ok u) as [u'|e] eqn:Hpad;
    [|discriminate].
  intros Hadd. destruct (tensor_add_back _ _ _ Hadd) as [Hshape Hback].
  replace (is_inpainting s) with (is_inpainting base)
    by (unfold is_inpainting; rewrite Hshape; reflexivity).
  rewrite Hpad. exact Hback.
Qed.

Lemma shifted_bias_back (base s : tensor) (delta : option tensor) :
  shifted_bias base delta false = Ok s -> exists s2, shifted_bias s delta true = Ok s2.
Proof.
  unfold shifted_bias. destruct delta as [u|]; [|intros _; eexists; reflexivity].
  intros Hadd. apply (tensor_add_back _ _ _ Hadd).
Qed.

Section InPlace.
Variable E : Collab.

(** [network_apply_weights] on a layer that is patched in place and is not
    re-quantized. *)
Lemma apply_in_place (l l' : Layer) (x x' : World) (updown ex_bias : option tensor)
    (deactivate : bool) (r : res unit) :
  in_place l ->
  is_4bit (quant_type l) = false ->
  network_apply_weights E updown ex_bias deactivate (l, x) = (r, (l', x')) ->
  match getattr_or_none (weight l) with
  | Some p =>
      match shifted (param_data p) updown deactivate with
      | Ok nw =>
          match getattr_or_none (bias l) with
          | Some b =>
              match shifted_bias b ex_bias deactivate with
              | Ok nb =>
                  r = Ok tt
                  /\ l' = set_bias (Present (Some nb))
                            (set_weight (Present (Some (TorchParameter nw))) l)
              | Raise e => r = Raise e
              end
          | None =>
              r = Ok tt
              /\ l' = set_bias (Present None)
                        (set_weight (Present (Some (TorchParameter nw))) l)
          end
      | Raise e => r = Raise e
      end
  | None => exists e, r = Raise e
  end.
Proof.
  intros [Hwb Hbb] H4.
  destruct l as [nm wt bs nwb nbb cur qs qt blk]. cbn in Hwb, Hbb, H4. subst nwb nbb.
  unfold network_apply_weights, shifted, shifted_bias.
  unfold bind, liftW, tick, get_layer, get_world, gets, modify_layer, modify, modify_timer,
    lift_res, ret, not_none, getattr.
  cbn [fst snd network_weights_backup network_bias_backup weight bias getattr_or_none
       quant_type set_weight set_bias].
  destruct wt as [|[p|]]; cbn.
  - destruct (getattr_or_none bs); cbn; intros H; inversion H; subst; eexists; reflexivity.
  - destruct updown as [u|]; cbn.
    + destruct (is_inpainting (param_data p)); cbn.
      * destruct (pad_channels u) as [u'|e]; cbn;
          [|destruct (getattr_or_none bs); cbn; intros H; inversion H; subst; reflexivity].
        destruct (tensor_add (param_data p) (if deactivate then tensor_neg u' else u'))
          as [nw|e]; cbn;
          [|destruct (getattr_or_none bs); cbn; intros H; inversion H; subst; reflexivity].
        rewrite H4. cbn.
        destruct bs as [|[b|]]; cbn.
        -- intros H; inversion H; subst. split; reflexivity.
        -- destruct ex_bias as [eb|]; cbn.
           ++ destruct (tensor_add b (if deactivate then tensor_neg eb else eb)); cbn;
                intros H; inversion H; subst; try split; reflexivity.
           ++ intros H; inversion H; subst. split; reflexivity.
        -- intros H; inversion H; subst. split; reflexivity.
      * destruct (tensor_add (param_data p) (if deactivate then tensor_neg u else u))
          as [nw|e]; cbn;
          [|destruct (getattr_or_none bs); cbn; intros H; inversion H; subst; reflexivity].
        rewrite H4. cbn.
        destruct bs as [|[b|]]; cbn.
        -- intros H; inversion H; subst. split; reflexivity.
        -- destruct ex_bias as [eb|]; cbn.
           ++ destruct (tensor_add b (if deactivate then tensor_neg eb else eb)); cbn;
                intros H; inversion H; subst; try split; reflexivity.
           ++ intros H; inversion H; subst. split; reflexivity.
        -- intros H; inversion H; subst. split; reflexivity.
    + destruct bs as [|[b|]]; cbn.
      * intros H; inversion H; subst. split; reflexivity.
      * destruct ex_bias as [eb|]; cbn.
        -- destruct (tensor_add b (if deactivate then tensor_neg eb else eb)); cbn;
             intros H; inversion H; subst; try split; reflexivity.
        -- intros H; inversion H; subst. split; reflexivity.
      * intros H; inversion H; subst. split; reflexivity.
  - destruct updown as [u|]; cbn;
      destruct (getattr_or_none bs); cbn; intros H; inversion H; subst; eexists; reflexivity.
Qed.

End InPlace.

Section Recompute.
Variable E : Collab.

Lemma apply_unpatched (l : Layer) (x : World) (updown ex_bias : option tensor)
    (deactivate : bool) :
  network_weights_backup l = None -> network_bias_backup l = None ->
  network_apply_weights E updown ex_bias deactivate (l, x)
  = (Ok tt, (l, set_ticks (S (ticks x)) x)).
Proof.
  intros Hw Hb. unfold network_apply_weights, bind, liftW, tick, get_layer, gets, ret.
  cbn [fst snd]. rewrite Hw, Hb. reflexivity.
Qed.

Lemma calc_one_skip (n : string) (net : Network) (w0 : option Param)
    (batch : option tensor * option tensor) (l : Layer) (x : World) :
  modules net !! n = None \/ has_weight l = false ->
  calc_one E w0 (Some n) batch net (l, x) = (Ok batch, (l, x)).
Proof.
  intros H. unfold calc_one. unfold bind at 1. unfold get_layer, gets.
  cbn [fst snd mbind option_bind].
  destruct (modules net !! n) as [module|]; [|reflexivity].
  destruct H as [H|H]; [discriminate|]. rewrite H. reflexivity.
Qed.

Lemma calc_one_value (n : string) (net : Network) (module : NetworkModule)
    (w0 : option Param) (batch : option tensor * option tensor) (l : Layer) (x : World) :
  modules net !! n = Some module ->
  has_weight l = true ->
  exists y,
    calc_one E w0 (Some n) batch net (l, x)
    = (calc_value (debug E) batch
         (calc_updown module (te_multiplier net, unet_multiplier net, dyn_dim net) w0),
       (l, y)).
Proof.
  intros Hm Hw. unfold calc_one. unfold bind at 1. unfold get_layer, gets.
  cbn [fst snd mbind option_bind]. rewrite Hm, Hw.
  unfold calc_value.
  unfold bind, liftW, tick, calc_failed, modify_timer, log_msg, modify, get_world, gets,
    when, raise, ret.
  cbn [fst snd].
  destruct (calc_updown module (te_multiplier net, unet_multiplier net, dyn_dim net) w0)
    as [[updown ex_bias]|e].
  2:{ destruct (exn_eqb RuntimeError e); cbn [fst snd];
        [destruct (debug E)|]; eexists; reflexivity. }
  cbn [fst snd].
  destruct (accumulate batch.1 updown) as [bu|e].
  2:{ destruct (exn_eqb RuntimeError e); cbn [fst snd];
        [destruct (debug E)|]; eexists; reflexivity. }
  destruct (accumulate batch.2 ex_bias) as [be|e].
  2:{ destruct (exn_eqb RuntimeError e); cbn [fst snd];
        [destruct (debug E)|]; eexists; reflexivity. }
  cbn [fst snd opts set_timer set_ticks].
  destruct (negb (bool_decide (diffusers_offload_mode (opts x) = "none"%string)));
    cbn [fst snd]; eexists; reflexivity.
Qed.

(** One turn of the loop of [network_calc_weights] gives the same sums
    whatever weight it is shown by a module that does not look at it, and
    leaves the layer alone. *)
Lemma calc_one_same (n : string) (net : Network) (w1 w2 : option Param)
    (batch : option tensor * option tensor) (l1 l2 : Layer) (x1 x2 : World) :
  weight_independent n net ->
  has_weight l1 = has_weight l2 ->
  exists r y1 y2,
    calc_one E w1 (Some n) batch net (l1, x1) = (r, (l1, y1))
    /\ calc_one E w2 (Some n) batch net (l2, x2) = (r, (l2, y2)).
Proof.
  intros Hwi Hhw.
  destruct (modules net !! n) as [module|] eqn:Hm.
  - destruct (has_weight l1) eqn:H1.
    + destruct (calc_one_value n net module w1 batch l1 x1 Hm H1) as [y1 Hr1].
      destruct (calc_one_value n net module w2 batch l2 x2 Hm (eq_sym Hhw)) as [y2 Hr2].
      rewrite (Hwi module w2 w1 Hm) in Hr2.
      eexists _, y1, y2. split; eassumption.
    + rewrite !calc_one_skip by (right; congruence).
      eexists _, _, _; split; reflexivity.
  - rewrite !calc_one_skip by (left; assumption).
    eexists _, _, _; split; reflexivity.
Qed.

Lemma calc_loop_same (n : string) (nets : list Network) (w1 w2 : option Param)
    (l1 l2 : Layer) :
  Forall (weight_independent n) nets ->
  has_weight l1 = has_weight l2 ->
  forall batch x1 x2,
  exists r y1 y2,
    calc_loop E w1 (Some n) batch nets (l1, x1) = (r, (l1, y1))
    /\ calc_loop E w2 (Some n) batch nets (l2, x2) = (r, (l2, y2)).
Proof.
  intros Hall Hhw. induction Hall as [|net nets Hnet _ IH]; intros batch x1 x2;
    cbn [calc_loop].
  - eexists _, _, _; split; reflexivity.
  - destruct (calc_one_same n net w1 w2 batch l1 l2 x1 x2 Hnet Hhw)
      as ([b|e] & y1 & y2 & H1 & H2).
    + rewrite (bind_ok _ _ _ _ _ H1), (bind_ok _ _ _ _ _ H2). apply IH.
    + rewrite (bind_raise _ _ _ _ _ H1), (bind_raise _ _ _ _ _ H2).
      eexists _, _, _; split; reflexivity.
Qed.

(** Without a module for the layer nothing is computed. *)
Lemma calc_loop_no_module (n : string) (nets : list Network) (w0 : option Param)
    (l : Layer) (x : World) :
  any_module n nets = false ->
  calc_loop E w0 (Some n) (None, None) nets (l, x) = (Ok (None, None), (l, x)).
Proof.
  revert x. induction nets as [|net nets IH]; intros x Hany; cbn [calc_loop].
  - reflexivity.
  - cbn [any_module existsb] in Hany. apply orb_false_iff in Hany. destruct Hany as [Hn Hrest].
    assert (Hm : modules net !! n = None).
    { destruct (modules net !! n) eqn:Hl; [|reflexivity].
      rewrite bool_decide_eq_true_2 in Hn by (eexists; reflexivity). discriminate. }
    unfold bind at 1. unfold calc_one. unfold bind at 1. unfold get_layer, gets.
    cbn [fst snd mbind option_bind]. rewrite Hm. unfold ret at 1. apply IH, Hrest.
Qed.

(** The backups that [network_backup_weights] leaves in low-memory mode. *)
Lemma backup_low_memory (w0 : option Param) (n : string) (wanted : Signature)
    (l l1 : Layer) (x x1 : World) (r : res Z) :
  lora_low_memory (opts x) = true ->
  low_memory_layer l ->
  (backup_gate x (Some n) = true -> wanted <> []) ->
  network_backup_weights E w0 (Some n) wanted (l, x) = (r, (l1, x1)) ->
  (exists z, r = Ok z)
  /\ weight l1 = weight l /\ bias l1 = bias l
  /\ network_current_names l1 = network_current_names l
  /\ quant_type l1 = quant_type l
  /\ (backup_gate x (Some n) = true -> in_place l1)
  /\ (backup_gate x (Some n) = false -> l1 = l).
Proof.
  intros Hlow [Hl H4] Hwanted.
  unfold network_backup_weights. unfold bind at 1. unfold get_world, gets at 1.
  cbn [fst snd].
  destruct (backup_gate x (Some n)) eqn:Hgate.
  2:{ intros H; inversion H; subst.
      repeat split; try reflexivity; try discriminate. eexists; reflexivity. }
  unfold bind at 1. unfold liftW, tick. cbn [fst snd].
  specialize (Hwanted eq_refl).
  set (xt := set_ticks (S (ticks x)) x).
  assert (Hmode : lora_fuse_diffusers (opts xt) || lora_low_memory (opts xt) = true)
    by (cbn; rewrite Hlow; apply orb_true_r).
  intros H. apply bind_inv in H.
  destruct H as [([] & [l2 x2] & Hbw & H)|(e & Hbw & ->)].
  - destruct (backup_weight_cases E _ _ _ _ _ _ _ Hbw)
      as ((Hw & Hb & Hnbb & Hn & Hc) & Hworld & Hkeep & Honly & Hfirst).
    unfold bind at 1 in H. rewrite backup_bias_run in H.
    unfold bind, get_layer, gets, liftW, tick, modify_timer, modify, ret in H.
    cbn [fst snd] in H. inversion H; subst; clear H.
    assert (Hq2 : quant_type l2 = quant_type l /\ network_weights_backup l2 = Some BTrue).
    { destruct Hl as [[Hnone _]|[Hwb _]].
      - destruct (Hfirst Hnone Hwanted) as (Htrue & _ & _).
        destruct (Htrue Hmode) as (_ & -> & _). split; reflexivity.
      - split; [|apply Hkeep, Hwb].
        revert Hbw. unfold backup_weight. unfold bind at 1. unfold get_layer, gets.
        cbn [fst snd]. rewrite Hwb.
        rewrite bool_decide_eq_false_2 by discriminate. cbn [andb when ret].
        intros Hrun; inversion Hrun; subst. reflexivity. }
    destruct Hq2 as [Hq2 Hwb2].
    split; [eexists; reflexivity|].
    case_bool_decide as Hnb.
    + cbn [weight bias network_current_names quant_type set_network_bias_backup].
      split; [exact Hw|]. split; [exact Hb|]. split; [exact Hc|]. split; [exact Hq2|].
      split; [|discriminate].
      intros _. split; [exact Hwb2|].
      cbn [network_bias_backup bias set_network_bias_backup].
      unfold bias_backup_value. rewrite Hb.
      assert (Hm2 : lora_fuse_diffusers (opts x2) || lora_low_memory (opts x2) = true).
      { destruct Hworld as (Ho & _). rewrite Ho. exact Hmode. }
      rewrite Hm2. destruct (getattr_or_none (bias l)); reflexivity.
    + split; [exact Hw|]. split; [exact Hb|]. split; [exact Hc|]. split; [exact Hq2|].
      split; [|discriminate].
      intros _. split; [exact Hwb2|].
      destruct Hl as [[_ Hnone]|[_ Hbb]]; [congruence|].
      rewrite Hnbb, Hb. exact Hbb.
  - exfalso.
    revert Hbw. unfold backup_weight. unfold bind at 1. unfold get_layer, gets.
    cbn [fst snd]. unfold when.
    match goal with |- context [if ?c then _ else _] => destruct c end.
    + unfold bind at 1. unfold weights_backup_value. unfold bind at 1.
      unfold get_world, gets. cbn [fst snd]. rewrite Hmode.
      unfold ret, modify_layer, modify. discriminate.
    + discriminate.
Qed.

End Recompute.

Section RoundTrip.
Variable E : Collab.

Lemma network_calc_weights_same (n : string) (w1 w2 : option Param)
    (l1 l2 : Layer) (x1 x2 : World) :
  Forall (weight_independent n) (loaded x1) ->
  loaded x2 = loaded x1 ->
  has_weight l1 = has_weight l2 ->
  exists r y1 y2,
    network_calc_weights E w1 (Some n) (l1, x1) = (r, (l1, y1))
    /\ network_calc_weights E w2 (Some n) (l2, x2) = (r, (l2, y2)).
Proof.
  intros Hwi Hl Hhw. unfold network_calc_weights, bind, get_world, gets. cbn [fst snd].
  rewrite Hl. apply calc_loop_same; assumption.
Qed.

Lemma gate_wanted (x : World) (n : string) :
  backup_gate x (Some n) = true -> wanted_names_of (loaded x) <> [].
Proof.
  unfold backup_gate. intros H. apply andb_true_iff in H. destruct H as [_ H].
  destruct (loaded x); [discriminate | discriminate].
Qed.

Lemma gate_any (x : World) (n : string) :
  backup_gate x (Some n) = any_module n (loaded x).
Proof.
  unfold backup_gate, loaded. destruct (loaded_networks x) as [|r rs]; reflexivity.
Qed.

Lemma calc_gate_closed (w0 : option Param) (n : string) (l : Layer) (x : World) :
  backup_gate x (Some n) = false ->
  network_calc_weights E w0 (Some n) (l, x) = (Ok (None, None), (l, x)).
Proof.
  intros Hg. unfold network_calc_weights, bind, get_world, gets. cbn [fst snd].
  apply calc_loop_no_module. rewrite <- gate_any. exact Hg.
Qed.

Lemma gate_frame (x y : World) (n : option string) :
  step_frame x y -> backup_gate y n = backup_gate x n.
Proof.
  intros Hf. destruct n as [n|]; [|reflexivity].
  rewrite !gate_any, (step_frame_loaded _ _ Hf). reflexivity.
Qed.

(** With no delta nothing is added. *)
Lemma there_and_back_none (v v2 : option tensor * option tensor) :
  there_and_back (None, None) v v2 -> v2 = v.
Proof.
  destruct v as [vw vb], v2 as [vw2 vb2]. unfold there_and_back. cbn [fst snd].
  intros [(w & w1 & w2 & -> & H1 & H2 & ->) Hb].
  cbn [shifted] in H1, H2. injection H1 as <-. injection H2 as <-.
  destruct vb as [b|].
  - destruct Hb as (b1 & b2 & H3 & H4 & ->). cbn [shifted_bias] in H3, H4.
    injection H3 as <-. injection H4 as <-. reflexivity.
  - rewrite Hb. reflexivity.
Qed.

(** The layer that the backup stage of an activation leaves keeps the name
    of the layer. *)
Lemma backup_keeps_name (w0 : option Param) (n : option string) (wanted : Signature)
    (l lb : Layer) (x xb : World) (r : res Z) :
  network_backup_weights E w0 n wanted (l, x) = (r, (lb, xb)) ->
  network_layer_name lb = network_layer_name l.
Proof.
  intros Hb. unfold network_backup_weights in Hb. unfold bind at 1 in Hb.
  unfold get_world, gets in Hb. cbn [fst snd] in Hb.
  destruct (backup_gate x n) eqn:Hg; [|inversion Hb; subst; reflexivity].
  unfold bind at 1 in Hb. unfold liftW, tick in Hb. cbn [fst snd] in Hb.
  apply bind_inv in Hb. destruct Hb as [([] & [l3 x3] & Hbw & Hb)|(e & Hbw & Hr)].
  - destruct (backup_weight_cases E _ _ _ _ _ _ _ Hbw) as ((_ & _ & _ & Hn3 & _) & _).
    unfold bind at 1 in Hb. rewrite backup_bias_run in Hb.
    unfold bind, get_layer, gets, liftW, tick, modify_timer, modify, ret in Hb.
    cbn [fst snd] in Hb. inversion Hb; subst.
    case_bool_decide; cbn; congruence.
  - destruct (backup_weight_cases E _ _ _ _ _ _ _ Hbw) as ((_ & _ & _ & Hn3 & _) & _).
    exact Hn3.
Qed.

(** A layer patched by an activation in low-memory mode has the negated
    delta added to it when the deactivation reaches it. *)
Lemma back_layer (wanted : Signature) (i j : nat) (l l1 : Layer) (x x1 xd : World) :
  lora_low_memory (opts x) = true ->
  (forall n, Forall (weight_independent n) (loaded x)) ->
  wanted = wanted_names_of (loaded x) ->
  low_memory_layer l ->
  ~ carries wanted l ->
  activate_layer E wanted (fun _ => false) i (l, x) = (Ok tt, (l1, x1)) ->
  step_frame x xd ->
  exists l2 xd',
    deactivate_layer E (fun _ => false) j (l1, xd) = (Ok tt, (l2, xd'))
    /\ taken_back E x l l2.
Proof.
  intros Hlow Hwi Hwanted Hlayer Hnot Hact Hframe.
  destruct (network_layer_name l) as [n|] eqn:Hname;
    [|exfalso; apply Hnot; left; exact Hname].
  assert (Hcur : default [] (network_current_names l) <> wanted)
    by (intros Hc; apply Hnot; right; exact Hc).
  unfold activate_layer in Hact. unfold bind at 1 in Hact.
  unfold get_layer, gets in Hact. cbn [fst snd orb] in Hact.
  rewrite Hname in Hact.
  rewrite bool_decide_eq_false_2 in Hact by discriminate.
  unfold sig_eqb in Hact. rewrite (bool_decide_eq_false_2 _ Hcur) in Hact.
  cbn [orb] in Hact.
  apply bind_inv_ok in Hact. destruct Hact as (sz & [lb xb] & Hb & Hact).
  apply bind_inv_ok in Hact. destruct Hact as (batch & [lc xc] & Hc & Hact).
  apply bind_inv_ok in Hact. destruct Hact as ([] & [la xa] & Ha & Hact).
  unfold modify_layer, modify in Hact. inversion Hact; subst l1 x1; clear Hact.
  cbn [fst snd] in *.
  unfold taken_back. rewrite Hname.
  (* the backup *)
  assert (Hfb : step_frame x xb) by apply (frame_network_backup_weights E _ _ _ _ _ _ Hb).
  destruct (backup_low_memory E _ _ _ _ _ _ _ _ Hlow Hlayer
              (fun Hg => eq_ind_r (fun s => s <> []) (gate_wanted x n Hg) Hwanted) Hb)
    as (_ & Hwb & Hbb & Hcb & Hqb & Hgt & Hgf).
  assert (H4b : is_4bit (quant_type lb) = false) by (rewrite Hqb; apply Hlayer).
  assert (Hnlb : network_layer_name lb = Some n).
  { rewrite (backup_keeps_name _ _ _ _ _ _ _ _ Hb). exact Hname. }
  assert (Hshape : (network_weights_backup lb = None /\ network_bias_backup lb = None
                    /\ backup_gate x (Some n) = false)
                   \/ in_place lb).
  { destruct (backup_gate x (Some n)) eqn:Hg.
    - right. apply Hgt. reflexivity.
    - rewrite (Hgf eq_refl). destruct Hlayer as [[[Hnw Hnb]|Hin] _].
      + left. repeat split; assumption.
      + right. exact Hin. }
  (* the calculation leaves the layer alone *)
  assert (Hlb : loaded xb = loaded x) by apply (step_frame_loaded _ _ Hfb).
  assert (Hld : loaded xd = loaded x) by apply (step_frame_loaded _ _ Hframe).
  assert (Hwib : Forall (weight_independent n) (loaded xb)) by (rewrite Hlb; apply Hwi).
  destruct (network_calc_weights_same n (getattr_or_none (weight l))
              (getattr_or_none (weight l)) lb lb xb xb Hwib eq_refl eq_refl)
    as (r0 & y1 & y2 & Hr1 & _).
  rewrite Hr1 in Hc. inversion Hc; subst r0 lc xc; clear Hc.
  destruct Hshape as [(Hnw & Hnb & Hg) | Hin].
  - (* never patched: nothing is written in either pass *)
    rewrite Hg.
    rewrite (apply_unpatched E _ _ _ _ _ Hnw Hnb) in Ha. inversion Ha; subst la xa; clear Ha.
    set (l1 := set_network_current_names (Some wanted) lb).
    destruct (network_calc_weights_same n (getattr_or_none (weight l))
                (getattr_or_none (weight l1)) lb l1 xb xd Hwib (eq_trans Hld (eq_sym Hlb))
                eq_refl)
      as (r0 & z1 & z2 & Hs1 & Hs2).
    rewrite Hr1 in Hs1. inversion Hs1; subst r0 z1; clear Hs1.
    unfold deactivate_layer. unfold bind at 1. unfold get_layer, gets. cbn [fst snd orb].
    change (network_layer_name l1) with (network_layer_name lb).
    rewrite Hnlb. rewrite bool_decide_eq_false_2 by discriminate.
    rewrite (bind_ok _ _ _ _ _ Hs2).
    unfold bind at 1.
    rewrite (apply_unpatched E l1 z2 _ _ true Hnw Hnb).
    unfold modify_layer, modify. cbn [fst snd].
    eexists _, _. split; [reflexivity|].
    unfold layer_values. cbn. rewrite Hwb, Hbb. reflexivity.
  - (* patched in place *)
    assert (Hap := apply_in_place E _ _ _ _ _ _ _ _ Hin H4b Ha).
    rewrite Hwb in Hap.
    destruct (getattr_or_none (weight l)) as [p|] eqn:Hp;
      [|destruct Hap as [e He]; discriminate].
    destruct (shifted (param_data p) batch.1 false) as [nw|e] eqn:Hnw; [|discriminate].
    rewrite Hbb in Hap.
    assert (Hhw : has_weight lb = true).
    { unfold has_weight. rewrite Hwb. destruct (weight l); [discriminate | reflexivity]. }
    assert (Hhwl : has_weight lb = has_weight l).
    { unfold has_weight. rewrite Hwb. reflexivity. }
    assert (Hnb' : network_layer_name la = Some n /\ is_4bit (quant_type la) = false
                   /\ network_weights_backup la = Some BTrue
                   /\ network_bias_backup la = network_bias_backup lb
                   /\ weight la = Present (Some (TorchParameter nw))).
    { destruct Hin as [Hi1 Hi2].
      destruct (getattr_or_none (bias l)) as [b|];
        [destruct (shifted_bias b batch.2 false) as [nb|e]; [|discriminate]|];
        destruct Hap as [_ ->]; cbn; repeat split; assumption. }
    destruct Hnb' as (Hna & H4a & Hwba & Hbba & Hwa).
    set (l1 := set_network_current_names (Some wanted) la).
    assert (Hhw1 : has_weight lb = has_weight l1).
    { rewrite Hhw. unfold has_weight, l1. cbn. rewrite Hwa. reflexivity. }
    destruct (network_calc_weights_same n (getattr_or_none (weight l))
                (getattr_or_none (weight l1)) lb l1 xb xd Hwib (eq_trans Hld (eq_sym Hlb))
                Hhw1)
      as (r0 & z1 & z2 & Hs1 & Hs2).
    rewrite Hp in Hs1. rewrite Hr1 in Hs1. inversion Hs1; subst r0 z1; clear Hs1.
    (* the delta that the layer gets in the state at the start *)
    assert (Hd0 : fst (network_calc_weights E (Some p) (Some n) (l, x)) = Ok batch).
    { destruct (network_calc_weights_same n (Some p) (Some p) lb l xb x Hwib
                  (eq_sym Hlb) Hhwl) as (r0 & z1 & z3 & Hs1 & Hs3).
      rewrite Hr1 in Hs1. inversion Hs1; subst r0. rewrite Hs3. reflexivity. }
    unfold deactivate_layer. unfold bind at 1. unfold get_layer, gets. cbn [fst snd orb].
    change (network_layer_name l1) with (network_layer_name la). rewrite Hna.
    rewrite bool_decide_eq_false_2 by discriminate.
    rewrite (bind_ok _ _ _ _ _ Hs2).
    destruct (network_apply_weights E batch.1 batch.2 true (l1, z2))
      as [r2 [l2 x2]] eqn:Hde.
    assert (Hin1 : in_place l1).
    { split; [exact Hwba|]. unfold l1. cbn. rewrite Hbba.
      destruct Hin as [_ Hi2]. rewrite Hi2, Hbb.
      destruct (getattr_or_none (bias l)) as [b|];
        [destruct (shifted_bias b batch.2 false) as [nb|e]; [|discriminate]|];
        destruct Hap as [_ ->]; reflexivity. }
    assert (Hap2 := apply_in_place E _ _ _ _ _ _ _ _ Hin1 H4a Hde).
    change (weight l1) with (weight la) in Hap2. rewrite Hwa in Hap2.
    cbn [getattr_or_none param_data] in Hap2.
    destruct (shifted_back _ _ _ Hnw) as [w2 Hw2]. rewrite Hw2 in Hap2.
    change (bias l1) with (bias la) in Hap2.
    assert (Hback : exists l2',
               r2 = Ok tt /\ l2 = l2'
               /\ network_weights_backup l2' = Some BTrue
               /\ there_and_back batch (Some (param_data p), getattr_or_none (bias l))
                                 (layer_values l2')).
    { destruct (getattr_or_none (bias l)) as [b|] eqn:Hbl.
      - destruct (shifted_bias b batch.2 false) as [nb|e] eqn:Hnb; [|discriminate].
        destruct Hap as [_ Hla]. subst la. cbn [bias set_bias getattr_or_none] in Hap2.
        destruct (shifted_bias_back _ _ _ Hnb) as [b2 Hb2]. rewrite Hb2 in Hap2.
        destruct Hap2 as [-> ->]. eexists. split; [reflexivity|]. split; [reflexivity|].
        split; [cbn; apply Hin|].
        unfold there_and_back, layer_values. cbn.
        split; [exists (param_data p), nw, w2; repeat split; assumption|].
        exists nb, b2. repeat split; assumption.
      - destruct Hap as [_ Hla]. subst la. cbn [bias set_bias getattr_or_none] in Hap2.
        destruct Hap2 as [-> ->]. eexists. split; [reflexivity|]. split; [reflexivity|].
        split; [cbn; apply Hin|].
        unfold there_and_back, layer_values. cbn.
        split; [exists (param_data p), nw, w2; repeat split; assumption | reflexivity]. }
    destruct Hback as (l2' & -> & -> & Hbt & Htb).
    unfold bind, modify_layer, modify. rewrite Hde. cbn [fst snd].
    eexists _, _. split; [reflexivity|].
    assert (Hv : layer_values l = (Some (param_data p), getattr_or_none (bias l))).
    { unfold layer_values. rewrite Hp. reflexivity. }
    assert (Htb' : there_and_back batch (layer_values l)
                     (layer_values (set_network_current_names (Some []) l2'))).
    { rewrite Hv. exact Htb. }
    destruct (backup_gate x (Some n)) eqn:Hg.
    + split; [exact Hbt|]. exists batch. split; [exact Hd0 | exact Htb'].
    + assert (Hbatch : batch = (None, None)).
      { rewrite (calc_gate_closed (Some p) n lb xb) in Hr1
          by (rewrite (gate_frame _ _ _ Hfb); exact Hg).
        inversion Hr1. reflexivity. }
      rewrite Hbatch in Htb'. apply there_and_back_none in Htb'. exact Htb'.
Qed.

End RoundTrip.

Section RoundTripPass.
Variable E : Collab.
Variable x0 : World.
Hypothesis low_memory : lora_low_memory (opts x0) = true.
Hypothesis independent : forall n, Forall (weight_independent n) (loaded x0).

Local Abbreviation wanted := (wanted_names_of (loaded x0)).

Lemma deactivate_layer_unnamed (j : nat) (l : Layer) (x : World) :
  network_layer_name l = None ->
  deactivate_layer E (fun _ => false) j (l, x) = (Ok tt, (l, x)).
Proof.
  intros Hn. unfold deactivate_layer. unfold bind at 1. unfold get_layer, gets.
  cbn [fst snd orb]. rewrite (bool_decide_eq_true_2 _ Hn). reflexivity.
Qed.

(** The gate and the summed delta of a layer are those of the state at the
    start, however far the pass has come. *)
Lemma taken_back_frame (x : World) (l l2 : Layer) :
  step_frame x0 x -> taken_back E x l l2 -> taken_back E x0 l l2.
Proof.
  intros Hf. unfold taken_back. destruct (network_layer_name l) as [n|]; [|tauto].
  rewrite (gate_frame _ _ _ Hf). destruct (backup_gate x0 (Some n)); [|tauto].
  intros [Hb (d & Hd & Ht)]. split; [exact Hb|]. exists d. split; [|exact Ht].
  destruct (network_calc_weights_same E n (getattr_or_none (weight l))
              (getattr_or_none (weight l)) l l x0 x (independent n)
              (step_frame_loaded _ _ Hf) eq_refl) as (r & y1 & y2 & H1 & H2).
  rewrite H2 in Hd. rewrite H1. exact Hd.
Qed.

Lemma for_layers_back (ls : list Layer) :
  forall i x ls1 x1,
    step_frame x0 x ->
    Forall (patchable wanted) ls ->
    for_layers (activate_layer E wanted (fun _ => false)) i ls x = (Ok tt, (ls1, x1)) ->
    forall j xd,
      step_frame x0 xd ->
      exists ls2 xd',
        for_layers (deactivate_layer E (fun _ => false)) j ls1 xd = (Ok tt, (ls2, xd'))
        /\ Forall2 (taken_back E x0) ls ls2
        /\ step_frame x0 xd'.
Proof.
  induction ls as [|l ls IH]; intros i x ls1 x1 Hx Hall Hact j xd Hxd;
    cbn [for_layers] in Hact.
  - inversion Hact; subst. exists [], xd.
    split; [reflexivity|]. split; [constructor | exact Hxd].
  - apply Forall_cons in Hall. destruct Hall as [[Hlow Hcase] Hrest].
    destruct (activate_layer E wanted (fun _ => false) i (l, x)) as [[[]|e] [l1 y1]] eqn:Hstep;
      [|discriminate].
    destruct (for_layers (activate_layer E wanted (fun _ => false)) (S i) ls y1)
      as [r [ls1' y2]] eqn:Htail.
    inversion Hact; subst; clear Hact.
    assert (Hy1 : step_frame x0 y1).
    { etransitivity; [exact Hx | apply (frame_activate_layer E _ _ _ _ _ _ Hstep)]. }
    assert (Hone : exists l2 xd1,
               deactivate_layer E (fun _ => false) j (l1, xd) = (Ok tt, (l2, xd1))
               /\ taken_back E x0 l l2).
    { destruct (network_layer_name l) as [n|] eqn:Hname.
      - destruct Hcase as [Hc|Hc]; [discriminate|].
        pose proof Hx as (Ho & Hs & Hl). pose proof Hxd as (Hod & Hsd & Hld).
        assert (Hloaded : loaded x = loaded x0) by (unfold loaded; rewrite Hs, Hl; reflexivity).
        destruct (back_layer E wanted i j l l1 x y1 xd) as (l2 & xd1 & Hd & Hv).
        + rewrite Ho. exact low_memory.
        + intros n0. rewrite Hloaded. apply independent.
        + rewrite Hloaded. reflexivity.
        + exact Hlow.
        + intros [Hn|Hs']; [congruence | contradiction].
        + exact Hstep.
        + repeat split; congruence.
        + exists l2, xd1. split; [exact Hd|]. apply (taken_back_frame x); assumption.
      - rewrite (activate_layer_skip E wanted _ i l x (or_introl Hname)) in Hstep.
        assert (Hl1 : l1 = l) by congruence. rewrite Hl1. exists l, xd.
        split; [apply deactivate_layer_unnamed; exact Hname|].
        unfold taken_back. rewrite Hname. reflexivity. }
    destruct Hone as (l2 & xd1 & Hd & Hv).
    assert (Hxd1 : step_frame x0 xd1).
    { etransitivity; [exact Hxd | apply (frame_deactivate_layer E _ _ _ _ _ Hd)]. }
    destruct (IH _ _ _ _ Hy1 Hrest Htail (S j) xd1 Hxd1) as (ls2 & xd2 & Hds & Hvs & Hf).
    exists (l2 :: ls2), xd2. cbn [for_layers]. rewrite Hd, Hds.
    split; [reflexivity|]. split; [constructor; assumption | exact Hf].
Qed.

Lemma for_components_back (cs : list (option (list Layer))) :
  forall i x cs1 x1,
    step_frame x0 x ->
    Forall_layers (patchable wanted) cs ->
    for_components (activate_layer E wanted (fun _ => false)) i cs x = (Ok tt, (cs1, x1)) ->
    forall j xd,
      step_frame x0 xd ->
      exists cs2 xd',
        for_components (deactivate_layer E (fun _ => false)) j cs1 xd = (Ok tt, (cs2, xd'))
        /\ Forall2_layers (taken_back E x0) cs cs2
        /\ step_frame x0 xd'.
Proof.
  unfold Forall2_layers.
  induction cs as [|[ls|] cs IH]; intros i x cs1 x1 Hx Hall Hact j xd Hxd;
    cbn [for_components] in Hact.
  - inversion Hact; subst. exists [], xd.
    split; [reflexivity|]. split; [constructor | exact Hxd].
  - apply Forall_cons in Hall. destruct Hall as [Hls Hrest].
    destruct (for_layers (activate_layer E wanted (fun _ => false)) i ls x)
      as [[[]|e] [ls1 y1]] eqn:Hl; [|discriminate].
    destruct (for_components (activate_layer E wanted (fun _ => false)) (i + length ls) cs y1)
      as [r [cs1' y2]] eqn:Htail.
    inversion Hact; subst; clear Hact.
    assert (Hy1 : step_frame x0 y1).
    { etransitivity; [exact Hx|].
      apply (for_layers_frame _ (frame_activate_layer E _ _) _ _ _ _ _ _ Hl). }
    destruct (for_layers_back ls _ _ _ _ Hx Hls Hl j xd Hxd)
      as (ls2 & xd1 & Hd & Hv & Hxd1).
    destruct (IH _ _ _ _ Hy1 Hrest Htail (j + length ls1)%nat xd1 Hxd1)
      as (cs2 & xd2 & Hds & Hvs & Hf).
    exists (Some ls2 :: cs2), xd2. cbn [for_components]. rewrite Hd, Hds.
    split; [reflexivity|]. split; [|exact Hf].
    constructor; [constructor; exact Hv | exact Hvs].
  - apply Forall_cons in Hall. destruct Hall as [_ Hrest].
    destruct (for_components (activate_layer E wanted (fun _ => false)) i cs x)
      as [r [cs1' y2]] eqn:Htail.
    inversion Hact; subst; clear Hact.
    destruct (IH _ _ _ _ Hx Hrest Htail j xd Hxd) as (cs2 & xd2 & Hds & Hvs & Hf).
    exists (None :: cs2), xd2. cbn [for_components]. rewrite Hds.
    split; [reflexivity|]. split; [|exact Hf].
    constructor; [constructor | exact Hvs].
Qed.

End RoundTripPass.

(** C1 (as amended).  With [lora_low_memory] off, [network_deactivate]
    returns at once and leaves the state, patched layers included, as it is.
    With [lora_low_memory] on, take a model none of whose layers carries the
    signature of the loaded networks yet, whose layers hold no copy of an
    earlier activation and are not 4-bit quantized, and modules whose delta
    does not depend on the live weight.  After a [network_activate] that
    returns, a [network_deactivate] (neither of them interrupted) returns,
    and it has taken the patch back without a stored copy: every layer a
    network has a module for holds the marker [True] for a backup, and its
    weight and its bias are the values from before the activation with the
    summed delta of the networks added and the negation of the same delta,
    computed again, added to the result; a layer without a module keeps its
    values, and a layer without a name is not touched.  Whether the two
    additions give back the first value is a matter of the arithmetic, and is
    not stated. *)
Theorem deactivate_adds_the_negated_delta
    (E : Collab) (x x1 : World) :
  lora_low_memory (opts x) = true ->
  (forall n, Forall (weight_independent n) (loaded x)) ->
  Forall_layers (patchable (wanted_names_of (loaded x))) (modules_of (sd_model x)) ->
  network_activate E (fun _ => false) x = (Ok tt, x1) ->
  (exists x2,
      network_deactivate E (fun _ => false) x1 = (Ok tt, x2)
      /\ Forall2_layers (taken_back E x) (modules_of (sd_model x)) (modules_of (sd_model x2)))
  /\ (forall interrupted y,
        lora_low_memory (opts y) = false ->
        network_deactivate E interrupted y = (Ok tt, y)).
Proof.
  intros Hlow Hwi Hall Hact. split.
  - unfold network_activate, bind, modify_timer, modify, get in Hact. cbn [fst snd] in Hact.
    set (xr := set_timer _ x) in Hact.
    change (loaded xr) with (loaded x) in Hact.
    unfold for_modules in Hact.
    destruct (for_components (activate_layer E (wanted_names_of (loaded x)) (fun _ => false))
                0 (modules_of (sd_model xr)) xr) as [r [cs1 xw]] eqn:Hrun.
    inversion Hact; subst r x1; clear Hact.
    destruct (for_components_frame _ (frame_activate_layer E _ _) _ _ _ _ _ _ Hrun)
      as [Hframe Hlen].
    assert (Hxr : step_frame x xr) by (repeat split).
    assert (Hlow1 : lora_low_memory (opts xw) = true).
    { destruct Hframe as (Ho & _). rewrite Ho. exact Hlow. }
    unfold network_deactivate, bind, get, modify_timer, modify, tick. cbn [fst snd].
    cbn [opts set_sd_model]. rewrite Hlow1. cbn [negb].
    unfold for_modules. cbn [sd_model set_sd_model set_timer set_ticks].
    rewrite modules_of_set by (rewrite Hlen; reflexivity).
    match goal with
    | |- context [for_components _ 0 cs1 ?X] => set (xd := X)
    end.
    assert (Hxd : step_frame x xd).
    { destruct Hframe as (Ho & Hs & Hl). destruct Hxr as (Ho' & Hs' & Hl').
      split; [|split]; cbn; congruence. }
    destruct (for_components_back E x Hlow Hwi _ _ _ _ _ Hxr Hall Hrun 0%nat xd Hxd)
      as (cs2 & xd' & Hde & Hv & Hf).
    destruct (for_components_frame _ (frame_deactivate_layer E _) _ _ _ _ _ _ Hde)
      as [_ Hlen2].
    rewrite Hde. eexists. split; [reflexivity|].
    cbn [sd_model set_sd_model set_timer set_ticks].
    rewrite modules_of_set by (rewrite Hlen2, Hlen; reflexivity).
    exact Hv.
  - intros interrupted y Hoff. unfold network_deactivate, bind, get. cbn [fst snd].
    rewrite Hoff. reflexivity.
Qed.

(** ** The installation of [Demo] *)

Lemma demo_adding_independent (nm key : string) (d : list Z) (n : string) :
  weight_independent n (Demo.net_with nm key (Demo.adding d)).
Proof.
  intros module w1 w2 Hm. unfold Demo.net_with in Hm. cbn [modules] in Hm.
  destruct (decide (key = n)) as [->|Hne].
  - rewrite lookup_insert_eq in Hm. inversion Hm; subst. reflexivity.
  - rewrite lookup_insert_ne in Hm by exact Hne. rewrite lookup_empty in Hm. discriminate.
Qed.

Lemma demo_model_patchable (wanted : Signature) :
  wanted <> [] -> Forall_layers (patchable wanted) (modules_of Demo.model).
Proof.
  intros Hw.
  assert (Hl : forall nm w b, patchable wanted (Demo.layer nm w b)).
  { intros nm w b. split; [split; [left; split; reflexivity | reflexivity]|].
    right. cbn. congruence. }
  unfold Forall_layers, modules_of, Demo.model. cbn.
  repeat (apply Forall_cons; split); try exact I; try apply Forall_nil_2; apply Hl.
Qed.

Lemma deactivate_adds_the_negated_delta_witness :
  let E := Demo.collab false true in
  let x := Demo.world_with true [Demo.net_with "a" "lora_unet_l1" (Demo.adding [10; 20])]
                           Demo.model in
  let x1 := snd (network_activate E (fun _ => false) x) in
  network_activate E (fun _ => false) x = (Ok tt, x1)
  /\ option_map (map layer_values) (unet (sd_model x1))
     = Some [(Some (Demo.vec [11; 22]), Some (Demo.vec [5]));
             (Some (Demo.vec [3; 4]), None)]
  /\ exists x2,
       network_deactivate E (fun _ => false) x1 = (Ok tt, x2)
       /\ Forall2_layers (taken_back E x) (modules_of (sd_model x)) (modules_of (sd_model x2)).
Proof.
  intros E x x1.
  assert (H : network_activate E (fun _ => false) x = (Ok tt, x1))
    by (vm_compute; reflexivity).
  split; [exact H|]. split; [vm_compute; reflexivity|].
  destruct (deactivate_adds_the_negated_delta E x x1) as [Hback _].
  - reflexivity.
  - intros n. repeat constructor. apply demo_adding_independent.
  - apply demo_model_patchable. discriminate.
  - exact H.
  - exact Hback.
Defined.

(** C1, as the claim states it, fails, in four ways.  With [lora_low_memory]
    off the activation patches the layer and keeps a copy of the weight, and
    the deactivation that follows leaves the layer patched.  With
    [lora_low_memory] on: a module whose delta is the live weight gives
    another delta when it is asked again, and what is subtracted is not what
    was added; an interrupted deactivation leaves the layer patched; and a
    layer that holds a copy from an earlier activation gets the new delta
    added to the copy and then subtracted from the copy, so that it ends with
    neither the values from before the activation nor those of the copy. *)
Lemma deactivation_does_not_restore :
  let E := Demo.collab false true in
  let a := Demo.net_with "a" "lora_unet_l1" (Demo.adding [10; 20]) in
  let x := Demo.world_with false [a] Demo.model in
  let x1 := snd (network_activate E (fun _ => false) x) in
  let x2 := snd (network_deactivate E (fun _ => false) x1) in
  let y := Demo.world_with true [Demo.net_with "e" "lora_unet_l1" Demo.echoing] Demo.model in
  let y1 := snd (network_activate E (fun _ => false) y) in
  let y2 := snd (network_deactivate E (fun _ => false) y1) in
  let z := Demo.world_with true [a] Demo.model in
  let z1 := snd (network_activate E (fun _ => false) z) in
  let z2 := snd (network_deactivate E (fun _ => true) z1) in
  let u := Demo.world_with true [Demo.net_with "b" "lora_unet_l1" (Demo.adding [1; 1])]
                           (sd_model x1) in
  let u1 := snd (network_activate E (fun _ => false) u) in
  let u2 := snd (network_deactivate E (fun _ => false) u1) in
  (fst (network_activate E (fun _ => false) x) = Ok tt
   /\ fst (network_deactivate E (fun _ => false) x1) = Ok tt
   /\ option_map (map layer_values) (unet (sd_model x))
      = Some [(Some (Demo.vec [1; 2]), Some (Demo.vec [5]));
              (Some (Demo.vec [3; 4]), None)]
   /\ option_map (map network_weights_backup) (unet (sd_model x1))
      = Some [Some (BTensor (Demo.vec [1; 2])); None]
   /\ option_map (map layer_values) (unet (sd_model x2))
      = Some [(Some (Demo.vec [11; 22]), Some (Demo.vec [5]));
              (Some (Demo.vec [3; 4]), None)]
   /\ values_of (modules_of (sd_model x2)) <> values_of (modules_of (sd_model x)))
  /\ (fst (network_activate E (fun _ => false) y) = Ok tt
      /\ fst (network_deactivate E (fun _ => false) y1) = Ok tt
      /\ option_map (map layer_values) (unet (sd_model y1))
         = Some [(Some (Demo.vec [2; 4]), Some (Demo.vec [5]));
                 (Some (Demo.vec [3; 4]), None)]
      /\ option_map (map layer_values) (unet (sd_model y2))
         = Some [(Some (Demo.vec [0; 0]), Some (Demo.vec [5]));
                 (Some (Demo.vec [3; 4]), None)])
  /\ (fst (network_activate E (fun _ => false) z) = Ok tt
      /\ fst (network_deactivate E (fun _ => true) z1) = Ok tt
      /\ option_map (map layer_values) (unet (sd_model z2))
         = Some [(Some (Demo.vec [11; 22]), Some (Demo.vec [5]));
                 (Some (Demo.vec [3; 4]), None)])
  /\ (fst (network_activate E (fun _ => false) u) = Ok tt
      /\ fst (network_deactivate E (fun _ => false) u1) = Ok tt
      /\ option_map (map layer_values) (unet (sd_model u))
         = Some [(Some (Demo.vec [11; 22]), Some (Demo.vec [5]));
                 (Some (Demo.vec [3; 4]), None)]
      /\ option_map (map layer_values) (unet (sd_model u1))
         = Some [(Some (Demo.vec [2; 3]), Some (Demo.vec [5]));
                 (Some (Demo.vec [3; 4]), None)]
      /\ option_map (map layer_values) (unet (sd_model u2))
         = Some [(Some (Demo.vec [0; 1]), Some (Demo.vec [5]));
                 (Some (Demo.vec [3; 4]), None)]).
Proof.
  intros E a x x1 x2 y y1 y2 z z1 z2 u u1 u2.
  repeat split; try (vm_compute; reflexivity).
  vm_compute. discriminate.
Qed.

Lemma second_activation_changes_no_layer_witness :
  let E := Demo.collab false true in
  let x := Demo.world_with false [Demo.net_with "a" "lora_unet_l1" (Demo.adding [10; 20])]
                           Demo.model in
  let x1 := snd (network_activate E (fun _ => false) x) in
  network_activate E (fun _ => false) x = (Ok tt, x1)
  /\ sd_model x1 <> sd_model x
  /\ network_activate E (fun _ => false) x1
     = (Ok tt,
        set_timer (set_t_move 0 (set_t_apply 0 (set_t_calc 0 (set_t_backup 0 (timer x1))))) x1).
Proof.
  intros E x x1.
  assert (H : network_activate E (fun _ => false) x = (Ok tt, x1))
    by (vm_compute; reflexivity).
  split; [exact H|]. split; [vm_compute; discriminate|].
  apply (second_activation_changes_no_layer E x x1 (fun _ => false) H).
Defined.

Lemma network_deactivate_without_low_memory_witness :
  let E := Demo.collab false true in
  let x := snd (network_activate E (fun _ => false)
                  (Demo.world_with false
                     [Demo.net_with "a" "lora_unet_l1" (Demo.adding [10; 20])] Demo.model)) in
  lora_low_memory (opts x) = false
  /\ network_deactivate E (fun _ => false) x = (Ok tt, x).
Proof.
  intros E x.
  assert (H : lora_low_memory (opts x) = false) by (vm_compute; reflexivity).
  split; [exact H|].
  apply (network_deactivate_without_low_memory E (fun _ => false) x H).
Defined.



Lemma dyn_dim_defaults_to_multiplier_witness :
  let E := Demo.collab false true in
  let x := Demo.world "filename" 1 in
  let x' := snd (network_load E ["styleA"%string; "styleB_v2"%string] (Some [3; 4]) None None x) in
  network_load E ["styleA"%string; "styleB_v2"%string] (Some [3; 4]) None None x = (Ok tt, x')
  /\ length (loaded x') = 2%nat
  /\ Forall (fun n => dyn_dim n = Some 1 /\ dyn_dim n <> None) (loaded x')
  /\ wanted_names_of (loaded x')
     = [("styleA"%string, 3, 1, Some 1); ("styleB_v2"%string, 4, 1, Some 1)].
Proof.
  intros E x x'.
  assert (H : network_load E ["styleA"%string; "styleB_v2"%string] (Some [3; 4]) None None x
              = (Ok tt, x')) by (vm_compute; reflexivity).
  split; [exact H|]. split; [vm_compute; reflexivity|].
  destruct (dyn_dim_defaults_to_multiplier E _ (Some [3; 4]) None None x x'
              (or_introl eq_refl) (Forall_nil_2 _) H) as (Hall & _ & _).
  split; [exact Hall | vm_compute; reflexivity].
Defined.

Lemma calc_failure_counted_and_dropped_witness :
  let E := Demo.collab false true in
  let bad := Demo.net_with "bad" "lora_unet_l1" Demo.failing in
  let good := Demo.net_with "good" "lora_unet_l1" (Demo.adding [10; 20]) in
  let l := Demo.layer "lora_unet_l1" [1; 2] None in
  let x := Demo.world_with false [bad; good] Demo.model in
  let w0 := Some (TorchParameter (Demo.vec [1; 2])) in
  calc_loop E w0 (Some "lora_unet_l1"%string) (None, None) [bad; good] (l, x)
  = calc_loop E w0 (Some "lora_unet_l1"%string) (None, None) [good]
      (l, set_errors (<["bad"%string := 1]> ∅) (set_ticks 1 x))
  /\ fst (calc_loop E w0 (Some "lora_unet_l1"%string) (None, None) [bad; good] (l, x))
     = Ok (Some (Demo.vec [10; 20]), None).
Proof.
  intros E bad good l x w0. split.
  - apply (calc_failure_counted_and_dropped E w0 "lora_unet_l1" (None, None) bad
             Demo.failing [good] l x RuntimeError);
      reflexivity.
  - vm_compute. reflexivity.
Defined.

(** C6, as the claim states it, fails: with [debug] set, the failure of the
    module of the first network is counted and raised again; the pass ends
    there, and the layer that the second network owns is never reached.
    Without [debug] the same pass returns and patches that layer. *)
Lemma debug_failure_aborts_pass :
  let bad := Demo.net_with "bad" "lora_unet_l1" Demo.failing in
  let good := Demo.net_with "good" "lora_unet_l2" (Demo.adding [10; 20]) in
  let x := Demo.world_with false [bad; good] Demo.model in
  let aborted := network_activate (Demo.collab true true) (fun _ => false) x in
  let finished := network_activate (Demo.collab false true) (fun _ => false) x in
  fst aborted = Raise RuntimeError
  /\ errors (snd aborted) !! "bad"%string = Some 1
  /\ option_map (map layer_values) (unet (sd_model (snd aborted)))
     = Some [(Some (Demo.vec [1; 2]), Some (Demo.vec [5]));
             (Some (Demo.vec [3; 4]), None)]
  /\ option_map (map network_current_names) (unet (sd_model (snd aborted)))
     = Some [None; None]
  /\ fst finished = Ok tt
  /\ option_map (map layer_values) (unet (sd_model (snd finished)))
     = Some [(Some (Demo.vec [1; 2]), Some (Demo.vec [5]));
             (Some (Demo.vec [13; 24]), None)].
Proof.
  intros bad good x aborted finished. repeat split; vm_compute; reflexivity.
Qed.

Lemma load_safetensors_by_matched_layers_witness :
  let E := Demo.collab false true in
  let x := Demo.world "alias" 10 in
  exists (r : option nat) (x' : World) (new : list (LogLevel * LogMsg)),
    load_safetensors E "styleA" Demo.styleA x = (Ok r, x')
    /\ log x' = log x ++ new
    /\ r = Some 0%nat
    /\ lora_cache x' = [("styleA"%string, 0%nat)]
    /\ ~ (exists failed, (LDebug, Msg_unmatched_keys "styleA" failed) ∈ new).
Proof.
  intros E x.
  destruct (load_safetensors_by_matched_layers E "styleA" Demo.styleA x 0
              Demo.styleA_state_dict Demo.styleA_matching)
    as (r & x' & new & Hrun & Hlog & _ & Hsome & _ & Hlist);
    try (vm_compute; reflexivity).
  exists r, x', new. split; [exact Hrun|]. split; [exact Hlog|].
  destruct Hsome as (Hr & Hc & _); [vm_compute; discriminate|].
  split; [exact Hr|]. split; [exact Hc|].
  intros Hex. apply Hlist in Hex. destruct Hex as [Hdbg _]. discriminate.
Defined.

(** C7, as the claim states it, fails in its last part: with [debug] set the
    unmatched keys are not reported as a number only, they are listed. *)
Lemma debug_lists_unmatched_keys :
  let r := load_safetensors (Demo.collab true true) "styleA" Demo.styleA
                            (Demo.world "alias" 10) in
  fst r = Ok (Some 0%nat)
  /\ log (snd r)
     = [(LDebug, Msg_load_safetensors "styleA" "/loras/styleA.safetensors" false);
        (LWarning, Msg_unmatched "styleA" ["ModuleTypeLora"%string] 1 1);
        (LDebug, Msg_unmatched_keys "styleA"
                   [("lora_unet_zz.lora_up.weight"%string, "lora_unet_zz"%string)])].
Proof. intros r. split; vm_compute; reflexivity. Qed.

Lemma dispatch_first_match_wins_witness :
  let E := Demo.collab false true in
  let net := Network_init E "styleB_v2" Demo.styleB in
  let weights := mkNetworkWeights "lora_unet_l2.diff" "lora_unet_l2"
                   [("diff"%string, Demo.vec [100; 200])]
                   (Demo.layer "lora_unet_l2" [3; 4] None) in
  exists m,
    create_module E ModuleTypeFull net weights = Some m
    /\ first_accepting E module_types net weights = Some (ModuleTypeFull, m).
Proof.
  intros E net weights.
  set (m := mkNetworkModule
              (fun _ _ => Ok (Some (Demo.vec [100; 200]), Some (Demo.vec [1])))).
  exists m. split; [reflexivity|].
  destruct (dispatch_first_match_wins E net weights
              [ModuleTypeLora; ModuleTypeHada; ModuleTypeIa3; ModuleTypeOFT; ModuleTypeLokr]
              [ModuleTypeNorm; ModuleTypeGLora] ModuleTypeFull m)
    as (_ & Hfirst & _).
  - reflexivity.
  - repeat (apply Forall_cons; split; [reflexivity|]). apply Forall_nil_2.
  - reflexivity.
  - exact Hfirst.
Defined.



(** ** Names of files and keys of state dicts *)

Lemma split_nonempty (c : ascii) (s : string) : PyStr.split c s <> [].
Proof.
  induction s as [|a s IH]; simpl; [discriminate|].
  destruct (PyStr.split c s) as [|h t]; [contradiction|].
  destruct (Ascii.eqb a c); discriminate.
Qed.

Lemma split_app (c : ascii) (s1 s2 : string) :
  PyStr.split c (s1 +:+ String c s2) = PyStr.split c s1 ++ PyStr.split c s2.
Proof.
  induction s1 as [|a s1 IH]; simpl.
  - pose proof (split_nonempty c s2) as Hne.
    destruct (PyStr.split c s2) as [|h t]; [contradiction|].
    rewrite Ascii.eqb_refl. reflexivity.
  - rewrite IH. pose proof (split_nonempty c s1) as Hne.
    destruct (PyStr.split c s1) as [|h t]; [contradiction|]. simpl.
    destruct (Ascii.eqb a c); reflexivity.
Qed.

Lemma split_without (c : ascii) (s : string) :
  contains c s = false -> PyStr.split c s = [s].
Proof.
  induction s as [|a s IH]; simpl; [reflexivity|].
  intros H. apply orb_false_iff in H as [Ha Hs]. rewrite (IH Hs), Ha. reflexivity.
Qed.

Lemma split_with (c : ascii) (s : string) :
  contains c s = true -> (2 <= length (PyStr.split c s))%nat.
Proof.
  induction s as [|a s IH]; simpl; [discriminate|].
  pose proof (split_nonempty c s) as Hne.
  destruct (PyStr.split c s) as [|h t] eqn:Hs; [contradiction|].
  destruct (Ascii.eqb a c); simpl; intros H; [lia|].
  specialize (IH H). simpl in IH. lia.
Qed.

Lemma split_fields_without (c : ascii) (s : string) :
  Forall (fun p => contains c p = false) (PyStr.split c s).
Proof.
  induction s as [|a s IH]; simpl.
  - constructor; [reflexivity | constructor].
  - destruct (PyStr.split c s) as [|h t]; [constructor|].
    apply Forall_cons in IH as [Hh Ht].
    destruct (Ascii.eqb a c) eqn:Ha.
    + constructor; [reflexivity|]. constructor; assumption.
    + constructor; [simpl; rewrite Ha, Hh; reflexivity | exact Ht].
Qed.

Lemma join_split (c : ascii) (s : string) :
  PyStr.join (String c EmptyString) (PyStr.split c s) = s.
Proof.
  induction s as [|a s IH]; simpl; [reflexivity|].
  pose proof (split_nonempty c s) as Hne.
  destruct (PyStr.split c s) as [|h t]; [contradiction|].
  destruct (Ascii.eqb a c) eqn:Ha.
  - apply Ascii.eqb_eq in Ha. subst a.
    change (PyStr.join (String c "") ("" :: h :: t))%string
      with (String c (PyStr.join (String c "") (h :: t))).
    rewrite IH. reflexivity.
  - destruct t as [|h' t]; simpl in *; rewrite <- IH; reflexivity.
Qed.

Lemma contains_app (c : ascii) (s t : string) :
  contains c (s +:+ t) = contains c s || contains c t.
Proof.
  induction s as [|a s IH]; simpl; [reflexivity|].
  rewrite IH, orb_assoc. reflexivity.
Qed.

Lemma cut_without (c : ascii) (s : string) :
  contains c s = false -> PyStr.cut c s = None.
Proof.
  induction s as [|a s IH]; simpl; [reflexivity|].
  intros H. apply orb_false_iff in H as [Ha Hs]. rewrite Ha, (IH Hs). reflexivity.
Qed.

Lemma cut_with (c : ascii) (s : string) :
  contains c s = true ->
  exists pre post, PyStr.cut c s = Some (pre, post)
                   /\ s = pre +:+ String c post /\ contains c pre = false.
Proof.
  induction s as [|a s IH]; simpl; [discriminate|].
  destruct (Ascii.eqb a c) eqn:Ha; simpl.
  - intros _. apply Ascii.eqb_eq in Ha. subst a. exists EmptyString, s. repeat split.
  - intros H. destruct (IH H) as (pre & post & Hc & Hs & Hp).
    exists (String a pre), post. rewrite Hc. split; [reflexivity|].
    split; [rewrite Hs at 1; reflexivity | simpl; rewrite Ha, Hp; reflexivity].
Qed.

Lemma prefix_char (c a : ascii) (s : string) :
  String.prefix (String c EmptyString) (String a s) = Ascii.eqb a c.
Proof.
  cbn [String.prefix]. destruct (ascii_dec c a) as [->|Hne].
  - rewrite Ascii.eqb_refl. destruct s; reflexivity.
  - symmetry. apply Ascii.eqb_neq. congruence.
Qed.

(** [s.replace(".", "_")] leaves no dot. *)
Lemma replace_dot_without (s : string) :
  contains "." (PyStr.replace "." "_" s) = false.
Proof.
  unfold PyStr.replace.
  induction s as [|a s IH]; [reflexivity|].
  cbn [PyStr.replace_go String.length Nat.pred]. rewrite prefix_char.
  destruct (Ascii.eqb a ".") eqn:Ha.
  - exact IH.
  - cbn [contains]. rewrite Ha, IH. reflexivity.
Qed.

Lemma replace_dot_id (s : string) :
  contains "." s = false -> PyStr.replace "." "_" s = s.
Proof.
  unfold PyStr.replace.
  induction s as [|a s IH]; [reflexivity|].
  cbn [PyStr.replace_go contains]. intros H. apply orb_false_iff in H as [Ha Hs].
  rewrite prefix_char, Ha, (IH Hs). reflexivity.
Qed.

Lemma all_empty_split (c : ascii) (s : string) :
  PyStr.all_empty (PyStr.split c s) = only c s.
Proof.
  induction s as [|a s IH]; simpl; [reflexivity|].
  pose proof (split_nonempty c s) as Hne.
  destruct (PyStr.split c s) as [|h t]; [contradiction|].
  destruct (Ascii.eqb a c); [exact IH | reflexivity].
Qed.

Lemma last_or_app (d x : string) (l : list string) :
  PyStr.last_or d (l ++ [x]) = x.
Proof. unfold PyStr.last_or. apply last_last. Qed.

Lemma basename_of_path (dir b : string) :
  contains "/" b = false -> PyStr.basename (dir +:+ String "/" b) = b.
Proof.
  intros Hb. unfold PyStr.basename.
  rewrite split_app, (split_without _ _ Hb). apply last_or_app.
Qed.

Lemma splitext_root_of_name (n ext : string) :
  contains "." ext = false -> only "." n = false ->
  PyStr.splitext_root (n +:+ String "." ext) = n.
Proof.
  intros He Hn. unfold PyStr.splitext_root.
  rewrite split_app, (split_without _ _ He), removelast_last.
  pose proof (split_nonempty "." n) as Hne.
  rewrite all_empty_split, Hn.
  destruct (PyStr.split "." n) as [|h t] eqn:Hs; [contradiction|].
  rewrite <- Hs. apply join_split.
Qed.

(** X1.  The name [add_network] gives to the file [dir/n.ext] is [n] with
    its dots turned into underscores ([n] itself when it has none): the
    directory and the extension are dropped.  [n] is not made of dots only,
    and neither [n] nor the extension has a slash.  The name of any file
    whatever is without a dot. *)
Theorem network_name_drops_directory_and_extension (dir n ext : string) :
  contains "/" n = false -> contains "/" ext = false ->
  contains "." ext = false -> only "." n = false ->
  network_name_of_file (dir +:+ "/" +:+ n +:+ "." +:+ ext) = PyStr.replace "." "_" n
  /\ (contains "." n = false -> network_name_of_file (dir +:+ "/" +:+ n +:+ "." +:+ ext) = n)
  /\ forall file, contains "." (network_name_of_file file) = false.
Proof.
  intros Hn He Hd Ho.
  assert (Hname : network_name_of_file (dir +:+ "/" +:+ n +:+ "." +:+ ext)
                  = PyStr.replace "." "_" n).
  { unfold network_name_of_file.
    change (dir +:+ "/" +:+ n +:+ "." +:+ ext)%string
      with (dir +:+ String "/" (n +:+ String "." ext))%string.
    rewrite basename_of_path.
    - rewrite splitext_root_of_name by assumption. reflexivity.
    - rewrite contains_app. simpl. rewrite Hn, He. reflexivity. }
  split; [exact Hname|]. split.
  - intros Hnd. rewrite Hname. apply replace_dot_id, Hnd.
  - intros file. apply replace_dot_without.
Qed.

Lemma network_name_drops_directory_and_extension_witness :
  network_name_of_file ("/loras/sub" +:+ "/" +:+ "styleB.v2" +:+ "." +:+ "safetensors")
  = "styleB_v2"%string.
Proof.
  pose proof (proj1 (network_name_drops_directory_and_extension
                       "/loras/sub" "styleB.v2" "safetensors"
                       eq_refl eq_refl eq_refl eq_refl)) as H.
  rewrite H. reflexivity.
Defined.

Lemma contains_join (c : ascii) (sep : string) (l : list string) :
  contains c sep = false -> Forall (fun p => contains c p = false) l ->
  contains c (PyStr.join sep l) = false.
Proof.
  intros Hsep. induction l as [|x l IH]; intros Hl; [reflexivity|].
  apply Forall_cons in Hl as [Hx Hl]. specialize (IH Hl).
  destruct l as [|y l]; [exact Hx|].
  change (PyStr.join sep (x :: y :: l)) with (x +:+ sep +:+ PyStr.join sep (y :: l))%string.
  rewrite !contains_app, Hx, Hsep, IH. reflexivity.
Qed.

Lemma splitn_one (c : ascii) (s : string) :
  PyStr.splitn c 1 s = match PyStr.cut c s with
                       | Some (pre, post) => [pre; post]
                       | None => [s]
                       end.
Proof. simpl. destruct (PyStr.cut c s) as [[pre post]|]; reflexivity. Qed.

(** X2.  What the loop of [load_safetensors] makes of a key of the state
    dict.  A key with a dot is always taken apart; a key without one raises
    ([ValueError] from the unpacking of [split(".", 1)], [IndexError] for the
    bare [bundle_emb]).  A layer key of at most five fields is cut at its
    first dot, so that the two parts and the dot give the key back; a longer
    one (the PEFT form) gets a layer part without dots that starts with
    [lora_]. *)
Theorem parse_key_wants_a_dot (k : string) :
  (contains "." k = true -> exists p, parse_key k = Ok p)
  /\ (contains "." k = false ->
      parse_key k = Raise (if bool_decide (k = "bundle_emb"%string)
                           then IndexError else ValueError))
  /\ (forall a b,
        parse_key k = Ok (LayerKey a b) -> (length (PyStr.split "." k) <= 5)%nat ->
        k = (a +:+ "." +:+ b)%string /\ contains "." a = false)
  /\ (forall a b,
        parse_key k = Ok (LayerKey a b) -> (5 < length (PyStr.split "." k))%nat ->
        PyStr.startswith a "lora_" = true /\ contains "." a = false).
Proof.
  unfold parse_key. rewrite splitn_one. split; [|split; [|split]].
  - intros Hk. pose proof (split_with _ _ Hk) as Hlen.
    destruct (cut_with _ _ Hk) as (pre & post & Hc & _).
    destruct (PyStr.split "." k) as [|p0 [|p1 ps]] eqn:Hs; simpl in Hlen; try lia.
    rewrite Hc. cbn [lookup list_lookup]. repeat case_match; eauto.
  - intros Hk. rewrite (split_without _ _ Hk), (cut_without _ _ Hk). simpl.
    repeat case_bool_decide; try congruence; reflexivity.
  - intros a b H Hlen.
    destruct (bool_decide (head (PyStr.split "." k) = Some "bundle_emb"%string));
      [destruct (PyStr.split "." k !! 1%nat); discriminate|].
    destruct (5 <? length (PyStr.split "." k))%nat eqn:Hlt;
      [apply Nat.ltb_lt in Hlt; lia|].
    destruct (contains "." k) eqn:Hk.
    + destruct (cut_with _ _ Hk) as (pre & post & Hc & Heq & Hpre).
      rewrite Hc in H. inversion H; subst a b. split; [exact Heq | exact Hpre].
    + rewrite (cut_without _ _ Hk) in H. discriminate.
  - intros a b H Hlen.
    destruct (bool_decide (head (PyStr.split "." k) = Some "bundle_emb"%string));
      [destruct (PyStr.split "." k !! 1%nat); discriminate|].
    apply Nat.ltb_lt in Hlen. rewrite Hlen in H. inversion H as [[Ha Hb]]. clear H Hb.
    set (j := PyStr.join "_" (take (length (PyStr.split "." k) - 2) (PyStr.split "." k))).
    assert (Hj : contains "." j = false).
    { apply contains_join; [reflexivity|].
      apply Forall_take, split_fields_without. }
    destruct (PyStr.startswith j "lora_") eqn:Hst.
    + split; [exact Hst | exact Hj].
    + split; [unfold PyStr.startswith; destruct j; reflexivity|].
      rewrite contains_app, Hj. reflexivity.
Qed.

(** ** The keys of a state dict against the layers of the model *)

Lemma dict_get_set_ne {V} (k k' : string) (v : V) (d : list (string * V)) :
  k' <> k -> dict_get k' (dict_set k v d) = dict_get k' d.
Proof.
  intros Hne. induction d as [|[k0 v0] d IH]; simpl.
  - case_bool_decide; [congruence | reflexivity].
  - case_bool_decide; simpl.
    + subst k0. case_bool_decide; [congruence | reflexivity].
    + rewrite IH. reflexivity.
Qed.

Lemma dict_get_set_some {V} (k k' : string) (v : V) (d : list (string * V)) :
  is_Some (dict_get k' d) -> is_Some (dict_get k' (dict_set k v d)).
Proof.
  intros H. destruct (decide (k' = k)) as [->|Hne].
  - rewrite dict_get_set_eq. eauto.
  - rewrite dict_get_set_ne by exact Hne. exact H.
Qed.

Lemma Forall_dict_set {V} (P : string * V -> Prop) (k : string) (v : V)
    (d : list (string * V)) :
  Forall P d -> P (k, v) -> Forall P (dict_set k v d).
Proof.
  intros Hd Hkv. induction d as [|[k0 v0] d IH]; simpl.
  - constructor; [exact Hkv | constructor].
  - apply Forall_cons in Hd as [H0 Hd]. case_bool_decide.
    + subst k0. constructor; assumption.
    + constructor; [exact H0 | apply IH, Hd].
Qed.

Lemma dict_get_Forall {V} (P : string * V -> Prop) (k : string) (v : V)
    (d : list (string * V)) :
  Forall P d -> dict_get k d = Some v -> P (k, v).
Proof.
  induction d as [|[k0 v0] d IH]; simpl; [discriminate|].
  intros Hd. apply Forall_cons in Hd as [H0 Hd].
  case_bool_decide; [intros [= <-]; subst k0; exact H0 | apply IH, Hd].
Qed.

Lemma matching_le_refl (a : Matching) : matching_le a a.
Proof. repeat split; intros; eauto. Qed.

Lemma matching_le_trans (a b c : Matching) :
  matching_le a b -> matching_le b c -> matching_le a c.
Proof.
  intros (F1 & M1 & B1) (F2 & M2 & B2). split; [|split].
  - intros k v H. destruct (F1 _ _ H) as [v' H']. eapply F2, H'.
  - intros key nw H. destruct (M1 _ _ H) as (nw' & H' & Hw).
    destruct (M2 _ _ H') as (nw'' & H'' & Hw'). exists nw''. split; [exact H''|].
    intros part Hp. apply Hw', Hw, Hp.
  - intros e d H. destruct (B1 _ _ H) as (d' & H' & Hv).
    destruct (B2 _ _ H') as (d'' & H'' & Hv'). exists d''. split; [exact H''|].
    intros v Hp. apply Hv', Hv, Hp.
Qed.

Lemma dict_set_nonempty {V} (k : string) (v : V) (d : list (string * V)) :
  dict_set k v d <> [].
Proof. destruct d as [|[k0 v0] d]; simpl; [|case_bool_decide]; discriminate. Qed.

Lemma failed_entry_mono (conv : string -> string * option Layer) (keys keys' : list string)
    (kf : string * string) :
  keys ⊆ keys' -> failed_entry conv keys kf -> failed_entry conv keys' kf.
Proof. intros Hs [Hin H]. split; [apply Hs, Hin | exact H]. Qed.

(** One turn of the loop. *)
Lemma match_key_step (conv : string -> string * option Layer) (keys : list string)
    (k : string) (t : tensor) (acc acc' : Matching) :
  match_key conv k t acc = Ok acc' ->
  k ∈ keys ->
  Forall (failed_entry conv keys) (keys_failed_to_match acc) ->
  Forall (matched_entry conv) (matched_networks acc) ->
  Forall (failed_entry conv keys) (keys_failed_to_match acc')
  /\ Forall (matched_entry conv) (matched_networks acc')
  /\ matching_le acc acc'
  /\ accounted conv acc' k.
Proof.
  unfold match_key, accounted. intros H Hk Hf Hm.
  destruct (parse_key k) as [[emb vec|a part]|e] eqn:Hp; [| |discriminate].
  - inversion H; subst acc'; clear H. cbn [keys_failed_to_match matched_networks bundle].
    split; [exact Hf|]. split; [exact Hm|]. split.
    + split; [|split]; cbn [keys_failed_to_match matched_networks bundle].
      * intros k0 v H. eauto.
      * intros key nw H. exists nw. split; [exact H | auto].
      * intros e d H. destruct (decide (e = emb)) as [->|Hne].
        -- rewrite dict_get_set_eq. eexists. split; [reflexivity|].
           intros v Hv. rewrite H. simpl. apply dict_get_set_some, Hv.
        -- rewrite dict_get_set_ne by exact Hne. exists d. split; [exact H | auto].
    + rewrite dict_get_set_eq. eexists. split; [reflexivity|].
      rewrite dict_get_set_eq. eauto.
  - destruct (conv a) as [key [lyr|]] eqn:Hc.
    + inversion H; subst acc'; clear H. cbn [keys_failed_to_match matched_networks bundle].
      set (nw := default (mkNetworkWeights k key [] lyr)
                         (dict_get key (matched_networks acc))).
      assert (Hnw : sd_key nw = key /\ exists a', conv a' = (key, Some (sd_module nw))).
      { subst nw. destruct (dict_get key (matched_networks acc)) as [nw0|] eqn:Hg; simpl.
        - destruct (dict_get_Forall _ _ _ _ Hm Hg) as (H1 & _ & H3). split; assumption.
        - split; [reflexivity | eauto]. }
      destruct Hnw as [Hsk Hconv].
      split; [exact Hf|]. split.
      { apply Forall_dict_set; [exact Hm|]. split; [exact Hsk|].
        split; [apply dict_set_nonempty | exact Hconv]. }
      split.
      { split; [|split]; cbn [keys_failed_to_match matched_networks bundle].
        - intros k0 v H. eauto.
        - intros key0 nw0 H. destruct (decide (key0 = key)) as [->|Hne].
          + rewrite dict_get_set_eq. eexists. split; [reflexivity|].
            intros p Hp0. subst nw. rewrite H. simpl. apply dict_get_set_some, Hp0.
          + rewrite dict_get_set_ne by exact Hne. exists nw0. split; [exact H | auto].
        - intros e d H. exists d. split; [exact H | auto]. }
      rewrite dict_get_set_eq. eexists. split; [reflexivity|]. simpl.
      rewrite dict_get_set_eq. eauto.
    + inversion H; subst acc'; clear H. cbn [keys_failed_to_match matched_networks bundle].
      split.
      { apply Forall_dict_set; [exact Hf|]. split; [exact Hk | eauto]. }
      split; [exact Hm|]. split.
      { split; [|split]; cbn [keys_failed_to_match matched_networks bundle].
        - intros k0 v H. apply dict_get_set_some. eauto.
        - intros key0 nw0 H. exists nw0. split; [exact H | auto].
        - intros e d H. exists d. split; [exact H | auto]. }
      apply dict_get_set_eq.
Qed.

Lemma accounted_le (conv : string -> string * option Layer) (keys : list string)
    (a b : Matching) (k : string) :
  Forall (failed_entry conv keys) (keys_failed_to_match b) ->
  matching_le a b -> accounted conv a k -> accounted conv b k.
Proof.
  unfold accounted. intros Hf (F & Mt & B) H.
  destruct (parse_key k) as [[emb vec|a0 part]|e] eqn:Hp; [| |exact H].
  - destruct H as (d & Hd & Hv). destruct (B _ _ Hd) as (d' & Hd' & Hsub).
    exists d'. split; [exact Hd' | apply Hsub, Hv].
  - destruct (conv a0) as [key [lyr|]] eqn:Hc.
    + destruct H as (nw & Hg & Hpart). destruct (Mt _ _ Hg) as (nw' & Hg' & Hsub).
      exists nw'. split; [exact Hg' | apply Hsub, Hpart].
    + destruct (F _ _ H) as [v Hv]. rewrite Hv. f_equal.
      destruct (dict_get_Forall _ _ _ _ Hf Hv) as (_ & a1 & part1 & Hp1 & Hc1).
      simpl in Hp1, Hc1. congruence.
Qed.

Lemma match_keys_inv (conv : string -> string * option Layer) (keys : list string)
    (sd : list (string * tensor)) :
  forall acc m,
    match_keys conv sd acc = Ok m ->
    dict_keys sd ⊆ keys ->
    Forall (failed_entry conv keys) (keys_failed_to_match acc) ->
    Forall (matched_entry conv) (matched_networks acc) ->
    Forall (failed_entry conv keys) (keys_failed_to_match m)
    /\ Forall (matched_entry conv) (matched_networks m)
    /\ matching_le acc m
    /\ Forall (accounted conv m) (dict_keys sd).
Proof.
  induction sd as [|[k t] sd IH]; intros acc m H Hsub Hf Hm; simpl in H.
  - inversion H; subst m. repeat split; try assumption; try (intros; eauto); constructor.
  - destruct (match_key conv k t acc) as [acc1|e] eqn:H1; [|discriminate].
    assert (Hk : k ∈ keys) by (apply Hsub; simpl; left).
    destruct (match_key_step conv keys k t acc acc1 H1 Hk Hf Hm) as (Hf1 & Hm1 & Hle1 & Hacc1).
    destruct (IH acc1 m H) as (Hf2 & Hm2 & Hle2 & Hall); [|assumption|assumption|].
    { intros k0 Hk0. apply Hsub. simpl. right. exact Hk0. }
    split; [exact Hf2|]. split; [exact Hm2|]. split.
    + eapply matching_le_trans; eassumption.
    + simpl. constructor; [|exact Hall].
      eapply accounted_le; eassumption.
Qed.

Lemma match_keys_total (conv : string -> string * option Layer)
    (sd : list (string * tensor)) :
  forall acc,
    (exists m, match_keys conv sd acc = Ok m)
    <-> Forall (fun k => contains "." k = true) (dict_keys sd).
Proof.
  induction sd as [|[k t] sd IH]; intros acc; simpl.
  - split; [constructor | eauto].
  - unfold match_key at 1.
    destruct (contains "." k) eqn:Hk.
    + destruct (cut_with _ _ Hk) as (pre & post & Hc & _).
      assert (Hp : exists p, parse_key k = Ok p).
      { unfold parse_key. rewrite splitn_one, Hc.
        pose proof (split_with _ _ Hk) as Hlen.
        destruct (PyStr.split "." k) as [|p0 [|p1 ps]]; simpl in Hlen; try lia.
        cbn [lookup list_lookup]. repeat case_match; eauto. }
      destruct Hp as [p Hp]. rewrite Hp.
      assert (Hcons : forall P : Prop,
                 P <-> Forall (fun k => contains "." k = true) (dict_keys sd) ->
                 P <-> Forall (fun k => contains "." k = true) (k :: dict_keys sd)).
      { intros P HP. rewrite HP. split; [intros H; constructor; assumption|].
        intros H. apply Forall_cons in H as [_ H]. exact H. }
      destruct p as [e v|a part]; [apply Hcons, IH|].
      destruct (conv a) as [key [lyr|]]; apply Hcons, IH.
    + assert (Hp : exists e, parse_key k = Raise e).
      { unfold parse_key. rewrite splitn_one, (split_without _ _ Hk), (cut_without _ _ Hk).
        simpl. repeat case_match; eauto. }
      destruct Hp as [e ->]. split.
      * intros [m H]. discriminate.
      * intros H. apply Forall_cons in H as [H _]. congruence.
Qed.

(** X3.  The loop of [load_safetensors] over the state dict returns exactly
    when every key has a dot.  When it returns, no key is lost: a key of the
    [bundle_emb] family is in [bundle_embeddings], a key whose layer part
    [convert] maps to no layer is in [keys_failed_to_match] with the name
    [convert] gave, and any other key has its weight part in the [w] of the
    entry of [matched_networks] for its layer.  Nothing else is in
    [keys_failed_to_match], and every entry of [matched_networks] is filed
    under its own [sd_key], has at least one weight and the layer [convert]
    returned. *)
Theorem match_keys_accounts_for_every_key
    (conv : string -> string * option Layer) (sd : list (string * tensor)) :
  ((exists m, match_keys conv sd (mkMatching [] [] []) = Ok m)
   <-> Forall (fun k => contains "." k = true) (dict_keys sd))
  /\ forall m,
       match_keys conv sd (mkMatching [] [] []) = Ok m ->
       Forall (accounted conv m) (dict_keys sd)
       /\ Forall (failed_entry conv (dict_keys sd)) (keys_failed_to_match m)
       /\ Forall (matched_entry conv) (matched_networks m).
Proof.
  split; [apply match_keys_total|].
  intros m H.
  destruct (match_keys_inv conv (dict_keys sd) sd _ m H) as (Hf & Hm & _ & Hacc);
    [reflexivity | apply Forall_nil_2 | apply Forall_nil_2 |].
  split; [exact Hacc|]. split; assumption.
Qed.

(** ** The scan of the directory *)

Section Scan.
Variable E : Collab.

(** One task of the thread pool: it returns, and either the registry is as
    it was or the entry of the file has been registered. *)
Lemma scan_file_cases (fn : string) (x : World) :
  exists x',
    try_except (add_network E fn) (fun _ => true) (fun _ => ret tt) x = (Ok tt, x')
    /\ opts x' = opts x
    /\ ((registry x' = registry x /\ forall e, ~ readable E fn e)
        \/ exists entry,
             readable E fn entry
             /\ x' = set_registry
                       (<[nod_name entry := entry]> (available_networks x))
                       (if bool_decide (lora_preferred_name (opts x) = "filename"%string)
                        then <[nod_name entry := entry]> (available_network_aliases x)
                        else <[alias entry := entry]> (available_network_aliases x))
                       (match shorthash entry with
                        | EmptyString => available_network_hash_lookup x
                        | _ => <[shorthash entry := entry]> (available_network_hash_lookup x)
                        end)
                       (match available_network_aliases x !! alias entry with
                        | Some _ => <[PyStr.lower (alias entry) := 1]>
                                      (forbidden_network_aliases x)
                        | None => forbidden_network_aliases x
                        end)
                       x).
Proof.
  unfold readable.
  destruct (isfile E fn) eqn:Hf.
  - destruct (NetworkOnDisk_init E (network_name_of_file fn) fn) as [entry|e] eqn:Hi.
    + eexists. unfold try_except. rewrite (add_network_ok E x fn entry Hf Hi).
      split; [reflexivity|]. split; [reflexivity|]. right. exists entry.
      split; [split; reflexivity|]. reflexivity.
    + unfold add_network, try_except, bind, lift_res, log_msg, modify, ret.
      rewrite Hf, Hi. simpl.
      destruct e; eexists; (split; [reflexivity|]);
        (split; [reflexivity|]); left; (split; [reflexivity|]);
        intros e0 [_ H0]; discriminate.
  - eexists. unfold add_network, try_except. rewrite Hf. simpl.
    split; [reflexivity|]. split; [reflexivity|]. left. split; [reflexivity|].
    intros e0 [H0 _]. discriminate.
Qed.

(** The loop over the candidates returns. *)
Lemma scan_files_run (files : list string) :
  forall x, exists x',
    for_each files
      (fun fn => try_except (add_network E fn) (fun _ => true) (fun _ => ret tt)) x
    = (Ok tt, x')
    /\ opts x' = opts x.
Proof.
  induction files as [|fn files IH]; intros x; simpl.
  - exists x. split; reflexivity.
  - destruct (scan_file_cases fn x) as (x1 & H1 & Ho1 & _).
    destruct (IH x1) as (x' & H' & Ho').
    exists x'. unfold bind. rewrite H1. split; [exact H' | congruence].
Qed.

(** The scan as a whole: the registry is the one the loop over the
    candidates leaves, from the reset registry. *)
Lemma scan_run (x : World) :
  exists y0 y x',
    list_available_networks E x = (Ok tt, x')
    /\ opts y0 = opts x
    /\ registry y0 = (∅, ∅, ∅, <["Addams"%string := 1]> (<["none"%string := 1]> ∅))
    /\ for_each (list_files E (lora_dir E))
         (fun fn => try_except (add_network E fn) (fun _ => true) (fun _ => ret tt)) y0
       = (Ok tt, y)
    /\ registry x' = registry y /\ opts x' = opts x.
Proof.
  unfold list_available_networks.
  set (body := fun fn => try_except (add_network E fn) (fun _ => true) (fun _ => ret tt)).
  set (reset := set_registry ∅ ∅ ∅ (<["Addams"%string := 1]> (<["none"%string := 1]> ∅))).
  set (x1 := reset (set_ticks (S (ticks x)) x)).
  set (y0 := if negb (path_exists E (lora_dir E))
             then set_log (log x1 ++ [(LWarning, Msg_dir_not_found)]) x1 else x1).
  destruct (scan_files_run (list_files E (lora_dir E)) y0) as (y & Hy & Hoy).
  exists y0, y. eexists.
  split.
  - unfold bind at 1. unfold tick at 1. cbn beta iota.
    unfold bind at 1. unfold modify at 1. cbn beta iota.
    unfold bind at 1. unfold when at 1.
    fold reset. fold x1.
    replace ((if negb (path_exists E (lora_dir E))
              then log_msg LWarning Msg_dir_not_found else ret tt) x1)
      with (Ok tt, y0)
      by (subst y0; destruct (negb (path_exists E (lora_dir E))); reflexivity).
    cbn beta iota. unfold bind at 1. fold body. unfold body in Hy. fold body in Hy.
    rewrite Hy. cbn beta iota.
    unfold bind, tick, modify_timer, modify, get, log_msg. cbn. reflexivity.
  - split; [subst y0 x1; destruct (negb (path_exists E (lora_dir E))); reflexivity|].
    split; [subst y0 x1; destruct (negb (path_exists E (lora_dir E))); reflexivity|].
    split; [exact Hy|]. split; [reflexivity|].
    cbn. rewrite Hoy. subst y0 x1. destruct (negb (path_exists E (lora_dir E))); reflexivity.
Qed.

Local Abbreviation task :=
  (fun fn => try_except (add_network E fn) (fun _ => true) (fun _ => ret tt)).

(** What the loop over the candidates does to [available_networks] and to
    [forbidden_network_aliases]. *)
Lemma scan_files_content (files : list string) :
  forall x x',
    for_each files task x = (Ok tt, x') ->
    (forall k, is_Some (available_networks x !! k) -> is_Some (available_networks x' !! k))
    /\ (forall f e, f ∈ files -> readable E f e ->
                    is_Some (available_networks x' !! nod_name e))
    /\ (forall k e, available_networks x' !! k = Some e ->
          available_networks x !! k = Some e
          \/ (nod_name e = k /\ exists f, f ∈ files /\ readable E f e))
    /\ (forall k, forbidden_network_aliases x !! k = Some 1 ->
                  forbidden_network_aliases x' !! k = Some 1).
Proof.
  induction files as [|fn files IH]; intros x x' H; simpl in H.
  - inversion H; subst x'. split; [auto|]. split; [|split; auto].
    intros f e Hin. inversion Hin.
  - destruct (scan_file_cases fn x) as (x1 & H1 & _ & Hcase).
    unfold bind in H. rewrite H1 in H.
    destruct (IH x1 x' H) as (Hkeep & Hfwd & Hbwd & Hfb). clear IH.
    destruct Hcase as [[Hreg Hno]|(entry & Hread & ->)].
    + unfold registry in Hreg. inversion Hreg as [[Han Haa Hah Hfbd]].
      rewrite Han in *. rewrite Hfbd in *.
      split; [exact Hkeep|]. split; [|split].
      * intros f e Hin Hr. apply elem_of_cons in Hin as [->|Hin];
          [exfalso; eapply Hno, Hr | eapply Hfwd; eassumption].
      * intros k e Hk. destruct (Hbwd k e Hk) as [Hx|(Hn & f & Hin & Hr)];
          [left; exact Hx | right; split; [exact Hn|]; exists f; split;
                            [right; exact Hin | exact Hr]].
      * exact Hfb.
    + cbn [available_networks forbidden_network_aliases set_registry] in *.
      split; [|split; [|split]].
      * intros k Hk. apply Hkeep. destruct (decide (nod_name entry = k)) as [<-|Hne].
        -- rewrite lookup_insert_eq. eauto.
        -- rewrite lookup_insert_ne by exact Hne. exact Hk.
      * intros f e Hin Hr. apply elem_of_cons in Hin as [->|Hin].
        -- destruct Hr as [_ Hr], Hread as [_ Hread]. rewrite Hread in Hr.
           inversion Hr; subst e. apply Hkeep. rewrite lookup_insert_eq. eauto.
        -- eapply Hfwd; eassumption.
      * intros k e Hk. destruct (Hbwd k e Hk) as [Hx|(Hn & f & Hin & Hr)].
        -- destruct (decide (nod_name entry = k)) as [<-|Hne].
           ++ rewrite lookup_insert_eq in Hx. inversion Hx; subst e.
              right. split; [reflexivity|]. exists fn. split; [left | exact Hread].
           ++ rewrite lookup_insert_ne in Hx by exact Hne. left. exact Hx.
        -- right. split; [exact Hn|]. exists f. split; [right; exact Hin | exact Hr].
      * intros k Hk. apply Hfb.
        destruct (available_network_aliases x !! alias entry); [|exact Hk].
        destruct (decide (PyStr.lower (alias entry) = k)) as [<-|Hne].
        -- rewrite lookup_insert_eq. reflexivity.
        -- rewrite lookup_insert_ne by exact Hne. exact Hk.
Qed.

(** The keys of the alias index. *)
Lemma scan_files_aliases (files : list string) :
  forall x x',
    for_each files task x = (Ok tt, x') ->
    (lora_preferred_name (opts x) = "filename"%string ->
     available_network_aliases x = available_networks x ->
     available_network_aliases x' = available_networks x')
    /\ (lora_preferred_name (opts x) <> "filename"%string ->
        (forall k e, available_network_aliases x !! k = Some e -> alias e = k) ->
        forall k e, available_network_aliases x' !! k = Some e -> alias e = k).
Proof.
  induction files as [|fn files IH]; intros x x' H; simpl in H.
  - inversion H; subst x'. split; auto.
  - destruct (scan_file_cases fn x) as (x1 & H1 & Ho1 & Hcase).
    unfold bind in H. rewrite H1 in H.
    destruct (IH x1 x' H) as (Hname & Halias). clear IH. rewrite Ho1 in *.
    destruct Hcase as [[Hreg Hno]|(entry & Hread & ->)].
    + unfold registry in Hreg. inversion Hreg as [[Han Haa Hah Hfbd]].
      rewrite Han, Haa in *. split; assumption.
    + cbn [available_networks available_network_aliases set_registry] in *.
      split.
      * intros Hp Heq. apply Hname; [exact Hp|].
        rewrite bool_decide_eq_true_2 by exact Hp. rewrite Heq. reflexivity.
      * intros Hp Hinv. apply Halias; [exact Hp|].
        rewrite bool_decide_eq_false_2 by exact Hp.
        intros k e Hk. destruct (decide (alias entry = k)) as [<-|Hne].
        -- rewrite lookup_insert_eq in Hk. inversion Hk; subst e. reflexivity.
        -- rewrite lookup_insert_ne in Hk by exact Hne. eapply Hinv, Hk.
Qed.

(** Two runs of the loop from states with the same options and the same
    registry end with the same registry. *)
Lemma scan_files_same (files : list string) :
  forall x y x' y',
    opts x = opts y -> registry x = registry y ->
    for_each files task x = (Ok tt, x') ->
    for_each files task y = (Ok tt, y') ->
    registry x' = registry y'.
Proof.
  induction files as [|fn files IH]; intros x y x' y' Ho Hr Hx Hy; simpl in Hx, Hy.
  - inversion Hx; inversion Hy; subst. exact Hr.
  - destruct (scan_file_cases fn x) as (x1 & H1 & Hox & Hcx).
    destruct (scan_file_cases fn y) as (y1 & H2 & Hoy & Hcy).
    unfold bind in Hx, Hy. rewrite H1 in Hx. rewrite H2 in Hy.
    apply (IH x1 y1 x' y'); [congruence | | exact Hx | exact Hy].
    destruct Hcx as [[Hrx Hnx]|(ex & Hreadx & ->)];
      destruct Hcy as [[Hry Hny]|(ey & Hready & ->)].
    + congruence.
    + exfalso. eapply Hnx, Hready.
    + exfalso. eapply Hny, Hreadx.
    + destruct Hreadx as [_ Hix], Hready as [_ Hiy]. rewrite Hix in Hiy.
      inversion Hiy; subst ey.
      unfold registry in Hr. inversion Hr as [[Han Haa Hah Hfb]].
      unfold registry. cbn [available_networks available_network_aliases
                            available_network_hash_lookup forbidden_network_aliases
                            set_registry].
      rewrite Han, Haa, Hah, Hfb, Ho. reflexivity.
Qed.

End Scan.

(** X4.  [list_available_networks] always returns.  Afterwards
    [available_networks] holds the files of the directory listing that are
    files and for which [NetworkOnDisk] could be built, and nothing else:
    each such file has an entry under the name of its [NetworkOnDisk], and
    each entry is the [NetworkOnDisk] of such a file, filed under its own
    name.  A file that raises (an [OSError] or anything else) costs no other
    file its entry.  [forbidden_network_aliases] holds [none] and [Addams]. *)
Theorem scan_registers_the_readable_files (E : Collab) (x : World) :
  exists x',
    list_available_networks E x = (Ok tt, x')
    /\ (forall f e, f ∈ list_files E (lora_dir E) -> readable E f e ->
                    is_Some (available_networks x' !! nod_name e))
    /\ (forall k e, available_networks x' !! k = Some e ->
          nod_name e = k /\ exists f, f ∈ list_files E (lora_dir E) /\ readable E f e)
    /\ forbidden_network_aliases x' !! "none"%string = Some 1
    /\ forbidden_network_aliases x' !! "Addams"%string = Some 1.
Proof.
  destruct (scan_run E x) as (y0 & y & x' & Hrun & _ & Hr0 & Hloop & Hreg & _).
  exists x'. split; [exact Hrun|].
  destruct (scan_files_content E _ _ _ Hloop) as (_ & Hfwd & Hbwd & Hfb).
  unfold registry in Hr0, Hreg.
  inversion Hr0 as [[Han0 Haa0 Hah0 Hfb0]]. inversion Hreg as [[Han Haa Hah Hfbd]].
  rewrite Han, Hfbd. split; [exact Hfwd|]. split; [|split].
  - intros k e Hk. destruct (Hbwd k e Hk) as [Hx|Hx]; [|exact Hx].
    rewrite Han0, lookup_empty in Hx. discriminate.
  - apply Hfb. rewrite Hfb0. reflexivity.
  - apply Hfb. rewrite Hfb0. reflexivity.
Qed.

(** X5.  The keys of [available_network_aliases] after a scan.  When
    [lora_preferred_name] is [filename], the alias index is the same
    dictionary as [available_networks], so that [network_load] resolves
    names and no alias; otherwise every entry is filed under its alias. *)
Theorem scan_keys_aliases_by_preference (E : Collab) (x : World) :
  exists x',
    list_available_networks E x = (Ok tt, x')
    /\ (lora_preferred_name (opts x) = "filename"%string ->
        available_network_aliases x' = available_networks x'
        /\ forall names, lookup_names x' names = map (fun n => available_networks x' !! n) names)
    /\ (lora_preferred_name (opts x) <> "filename"%string ->
        forall k e, available_network_aliases x' !! k = Some e -> alias e = k).
Proof.
  destruct (scan_run E x) as (y0 & y & x' & Hrun & Ho0 & Hr0 & Hloop & Hreg & _).
  exists x'. split; [exact Hrun|].
  destruct (scan_files_aliases E _ _ _ Hloop) as (Hname & Halias).
  unfold registry in Hr0, Hreg.
  inversion Hr0 as [[Han0 Haa0 Hah0 Hfb0]]. inversion Hreg as [[Han Haa Hah Hfbd]].
  rewrite Ho0 in *. split.
  - intros Hp. assert (Heq : available_network_aliases x' = available_networks x').
    { rewrite Han, Haa. apply Hname; [exact Hp | congruence]. }
    split; [exact Heq|]. intros names. unfold lookup_names. rewrite Heq. reflexivity.
  - intros Hp k e. rewrite Haa. apply Halias; [exact Hp|].
    intros k0 e0. rewrite Haa0, Han0, lookup_empty. discriminate.
Qed.

(** X6.  A scan rebuilds the registry from the directory and the options
    alone: what the four dictionaries held before has no part in what they
    hold afterwards, and a second scan right after the first changes none of
    them. *)
Theorem rescan_forgets_the_previous_registry (E : Collab) (x y : World) :
  opts x = opts y ->
  registry (snd (list_available_networks E x)) = registry (snd (list_available_networks E y))
  /\ registry (snd (list_available_networks E (snd (list_available_networks E x))))
     = registry (snd (list_available_networks E x)).
Proof.
  assert (Hgen : forall a b, opts a = opts b ->
            registry (snd (list_available_networks E a))
            = registry (snd (list_available_networks E b))).
  { intros a b Ho.
    destruct (scan_run E a) as (a0 & a1 & a' & Hra & Hoa & Hr0a & Hla & Hrega & _).
    destruct (scan_run E b) as (b0 & b1 & b' & Hrb & Hob & Hr0b & Hlb & Hregb & _).
    rewrite Hra, Hrb. simpl. rewrite Hrega, Hregb.
    eapply scan_files_same; [| |exact Hla|exact Hlb]; congruence. }
  intros Ho. split; [apply Hgen, Ho|].
  apply Hgen.
  destruct (scan_run E x) as (x0 & x1 & x' & Hrx & _ & _ & _ & _ & Hox).
  rewrite Hrx. exact Hox.
Qed.

(** ** What a function leaves alone *)

Lemma same_on_preorder {T} (f : World -> T) : PreOrder (same_on f).
Proof.
  split; [intros x; reflexivity|]. intros a b c H1 H2. unfold same_on in *. congruence.
Qed.
#[global] Existing Instance same_on_preorder.

Lemma same_lw_preorder {T} (f : LW -> T) : PreOrder (same_lw f).
Proof.
  split; [intros x; reflexivity|]. intros a b c H1 H2. unfold same_lw in *. congruence.
Qed.
#[global] Existing Instance same_lw_preorder.

Lemma same_lw_liftW {T A} (f : LW -> T) (c : M World A) :
  (forall l, preserves (same_on (fun x => f (l, x))) c) -> preserves (same_lw f) (liftW c).
Proof.
  intros Hc [l x] r [l' x'] H. unfold liftW in H. cbn [fst snd] in H.
  destruct (c x) as [r0 x0] eqn:Hcx. inversion H; subst.
  exact (Hc _ _ _ _ Hcx).
Qed.

Ltac same_base := unfold same_on, same_lw; reflexivity.

(** A frame proof: the combinators are taken apart, and every primitive
    step is checked to leave the part alone. *)
Ltac same_tac :=
  cbv beta zeta;
  lazymatch goal with
  | |- preserves (same_lw _) (liftW _) => apply same_lw_liftW; intros ?
  | |- preserves (same_lw _) (modify_layer _) =>
      unfold modify_layer; apply preserves_modify; intros [? ?]; same_base
  | |- preserves _ get_layer => unfold get_layer
  | |- preserves _ get_world => unfold get_world
  | |- preserves _ (alloc _) =>
      let H := fresh in intros ? ? ? H; inversion H; subst; same_base
  | |- preserves _ (update_net _ _) =>
      unfold update_net; apply preserves_modify; intros ?; same_base
  | |- preserves _ (let '(_, _) := ?p in _) => destruct p
  | |- _ => preserves_with same_base
  end.

Section SameOn.
Variable E : Collab.

Lemma preserves_calc_loop_gen (R' : relation LW) `{!PreOrder R'}
    (weight0 : option Param) (n : option string) (nets : list Network) :
  (forall batch net, preserves R' (calc_one E weight0 n batch net)) ->
  forall batch, preserves R' (calc_loop E weight0 n batch nets).
Proof.
  intros Hone. induction nets as [|net nets IH]; intros batch; cbn [calc_loop].
  - apply preserves_ret; tc_solve.
  - apply preserves_bind; [tc_solve | apply Hone | intros b; apply IH].
Qed.

Lemma preserves_create_modules_gen (R' : relation World) `{!PreOrder R'}
    (name : string) (ms : list (string * NetworkWeights)) :
  (forall lv m, preserves R' (log_msg lv m)) ->
  forall net types, preserves R' (create_modules E name ms net types).
Proof.
  intros Hlog. induction ms as [|[key weights] ms IH]; intros net types; cbn [create_modules].
  - apply preserves_ret; tc_solve.
  - destruct (first_accepting E module_types net weights) as [[t m]|].
    + apply IH.
    + apply preserves_bind; [tc_solve | apply Hlog | intros _; apply IH].
Qed.

Lemma preserves_load_all_gen (R' : relation World) `{!PreOrder R'}
    (rc : bool) (te un : option (list Z)) (dyn : option (list (option Z)))
    (todo : list (option NetworkOnDisk * string)) :
  (forall i nod name, preserves R' (load_one E rc te un dyn i nod name)) ->
  forall i, preserves R' (load_all E rc te un dyn i todo).
Proof.
  intros Hone. induction todo as [|[nod name] todo IH]; intros i; cbn [load_all].
  - apply preserves_ret; tc_solve.
  - apply preserves_bind; [tc_solve | apply Hone | intros _; apply IH].
Qed.
End SameOn.

(** The loops over the layers: what every step leaves alone in the state
    and in the layer it works on is left alone by the pass. *)
Lemma for_layers_same {T U} (g : Layer -> T) (h : World -> U) (step : nat -> M LW unit) :
  (forall i, preserves (same_lw (fun s => (g (fst s), h (snd s)))) (step i)) ->
  forall ls i x r ls' x',
    for_layers step i ls x = (r, (ls', x')) ->
    map g ls' = map g ls /\ h x' = h x.
Proof.
  intros Hstep. induction ls as [|l ls IH]; intros i x r ls' x' H; cbn [for_layers] in H.
  - inversion H; subst. split; reflexivity.
  - destruct (step i (l, x)) as [[[]|e] [l1 x1]] eqn:Hs.
    + destruct (for_layers step (S i) ls x1) as [r2 [ls2 x2]] eqn:Hrest.
      inversion H; subst. pose proof (Hstep _ _ _ _ Hs) as H1.
      unfold same_lw in H1. cbn [fst snd] in H1. inversion H1 as [[Hg Hh]].
      destruct (IH _ _ _ _ _ Hrest) as [Hm Hx]. simpl. split; congruence.
    + inversion H; subst. pose proof (Hstep _ _ _ _ Hs) as H1.
      unfold same_lw in H1. cbn [fst snd] in H1. inversion H1 as [[Hg Hh]].
      simpl. split; congruence.
Qed.

Lemma for_components_same {T U} (g : Layer -> T) (h : World -> U) (step : nat -> M LW unit) :
  (forall i, preserves (same_lw (fun s => (g (fst s), h (snd s)))) (step i)) ->
  forall cs i x r cs' x',
    for_components step i cs x = (r, (cs', x')) ->
    map (option_map (map g)) cs' = map (option_map (map g)) cs /\ h x' = h x.
Proof.
  intros Hstep. induction cs as [|[ls|] cs IH]; intros i x r cs' x' H;
    cbn [for_components] in H.
  - inversion H; subst. split; reflexivity.
  - destruct (for_layers step i ls x) as [[[]|e] [ls1 x1]] eqn:Hl.
    + destruct (for_components step (i + length ls) cs x1) as [r2 [cs2 x2]] eqn:Hrest.
      inversion H; subst.
      destruct (for_layers_same g h step Hstep _ _ _ _ _ _ Hl) as [Hm Hx].
      destruct (IH _ _ _ _ _ Hrest) as [Hm' Hx']. simpl. split; congruence.
    + inversion H; subst.
      destruct (for_layers_same g h step Hstep _ _ _ _ _ _ Hl) as [Hm Hx].
      simpl. split; congruence.
  - destruct (for_components step i cs x) as [r2 [cs2 x2]] eqn:Hrest.
    inversion H; subst. destruct (IH _ _ _ _ _ Hrest) as [Hm' Hx']. simpl. split; congruence.
Qed.

Section PatchFrame.
Variable E : Collab.

Local Abbreviation kept :=
  (same_lw (fun s : LW => (network_layer_name (fst s), adapter_side (snd s)))).

Lemma kept_network_backup_weights (weight0 : option Param) (n : option string)
    (wanted : Signature) :
  preserves kept (network_backup_weights E weight0 n wanted).
Proof.
  unfold network_backup_weights, backup_weight, backup_bias, weights_backup_value.
  repeat same_tac.
Qed.

Lemma kept_calc_one (weight0 : option Param) (n : option string)
    (batch : option tensor * option tensor) (net : Network) :
  preserves kept (calc_one E weight0 n batch net).
Proof. unfold calc_one, calc_failed. repeat same_tac. Qed.

Lemma kept_network_calc_weights (weight0 : option Param) (n : option string) :
  preserves kept (network_calc_weights E weight0 n).
Proof.
  unfold network_calc_weights. repeat same_tac.
  apply preserves_calc_loop_gen; [tc_solve|]. intros. apply kept_calc_one.
Qed.

Lemma kept_network_apply_weights (updown ex_bias : option tensor) (deactivate : bool) :
  preserves kept (network_apply_weights E updown ex_bias deactivate).
Proof. unfold network_apply_weights. repeat same_tac. Qed.

Lemma kept_activate_layer (wanted : Signature) (interrupted : nat -> bool) (i : nat) :
  preserves kept (activate_layer E wanted interrupted i).
Proof.
  unfold activate_layer. repeat same_tac;
    first [ apply kept_network_backup_weights
          | apply kept_network_calc_weights
          | apply kept_network_apply_weights ].
Qed.

Lemma kept_deactivate_layer (interrupted : nat -> bool) (i : nat) :
  preserves kept (deactivate_layer E interrupted i).
Proof.
  unfold deactivate_layer. repeat same_tac;
    first [ apply kept_network_calc_weights | apply kept_network_apply_weights ].
Qed.

Lemma kept_for_modules (step : nat -> M LW unit) (x x' : World) (r : res unit) :
  (forall i, preserves kept (step i)) ->
  for_modules step x = (r, x') ->
  adapter_side x' = adapter_side x /\ layer_names (sd_model x') = layer_names (sd_model x).
Proof.
  intros Hstep H. unfold for_modules in H.
  destruct (for_components step 0 (modules_of (sd_model x)) x) as [r0 [cs y]] eqn:Hc.
  inversion H; subst; clear H.
  destruct (for_components_same network_layer_name adapter_side step Hstep _ _ _ _ _ _ Hc)
    as [Hn Ha].
  split; [exact Ha|]. unfold layer_names. cbn [sd_model set_sd_model].
  rewrite modules_of_set; [exact Hn|].
  apply (f_equal length) in Hn. rewrite !length_map in Hn. exact Hn.
Qed.
End PatchFrame.

(** X7.  The passes over the layers work on the parameters of the model
    and on nothing that belongs to the adapters: whatever [network_activate]
    and [network_deactivate] return, and however they are interrupted, the
    options, the registry, the loaded networks, the cache, the lists kept for
    diffusers and the compile state are as before, and every layer of every
    component is where it was, under the name it had. *)
Theorem patch_passes_leave_the_adapters_alone
    (E : Collab) (interrupted : nat -> bool) (x : World) :
  (adapter_side (snd (network_activate E interrupted x)) = adapter_side x
   /\ layer_names (sd_model (snd (network_activate E interrupted x)))
      = layer_names (sd_model x))
  /\ (adapter_side (snd (network_deactivate E interrupted x)) = adapter_side x
      /\ layer_names (sd_model (snd (network_deactivate E interrupted x)))
         = layer_names (sd_model x)).
Proof.
  split.
  - unfold network_activate, bind, modify_timer, modify, get. cbn beta iota.
    match goal with
    | |- context [for_modules ?st ?y] =>
        destruct (for_modules st y) as [r x'] eqn:H;
        apply kept_for_modules in H; [|intros i; apply kept_activate_layer]
    end.
    exact H.
  - unfold network_deactivate, bind, get. cbn beta iota.
    destruct (lora_low_memory (opts x)); cbn [negb]; [|split; reflexivity].
    unfold modify_timer, modify, tick, ret. cbn beta iota.
    match goal with
    | |- context [for_modules ?st ?y] =>
        destruct (for_modules st y) as [[[]|e] x'] eqn:H;
        apply kept_for_modules in H; try (intros i; apply kept_deactivate_layer)
    end; exact H.
Qed.

(** ** Interruption *)

Lemma for_layers_skip (skip : nat -> bool) (step : nat -> M LW unit) :
  (forall i l x r l' x', skip i = true -> step i (l, x) = (r, (l', x')) -> l' = l) ->
  forall ls i x r ls' x',
    for_layers step i ls x = (r, (ls', x')) ->
    length ls' = length ls
    /\ forall j, skip (i + j)%nat = true -> ls' !! j = ls !! j.
Proof.
  intros Hskip. induction ls as [|l ls IH]; intros i x r ls' x' H; cbn [for_layers] in H.
  - inversion H; subst. split; reflexivity.
  - destruct (step i (l, x)) as [[[]|e] [l1 x1]] eqn:Hs.
    + destruct (for_layers step (S i) ls x1) as [r2 [ls2 x2]] eqn:Hrest.
      inversion H; subst. destruct (IH _ _ _ _ _ Hrest) as [Hlen Hsame].
      split; [simpl; congruence|]. intros [|j] Hj; simpl.
      * rewrite Nat.add_0_r in Hj. f_equal. eapply Hskip; eassumption.
      * apply Hsame. rewrite <- Hj. f_equal. lia.
    + inversion H; subst. split; [reflexivity|]. intros [|j] Hj; simpl; [|reflexivity].
      rewrite Nat.add_0_r in Hj. f_equal. eapply Hskip; eassumption.
Qed.

Lemma for_components_skip (skip : nat -> bool) (step : nat -> M LW unit) :
  (forall i l x r l' x', skip i = true -> step i (l, x) = (r, (l', x')) -> l' = l) ->
  forall cs i x r cs' x',
    for_components step i cs x = (r, (cs', x')) ->
    length cs' = length cs
    /\ length (pass_order cs') = length (pass_order cs)
    /\ forall j, skip (i + j)%nat = true -> pass_order cs' !! j = pass_order cs !! j.
Proof.
  intros Hskip. unfold pass_order.
  induction cs as [|[ls|] cs IH]; intros i x r cs' x' H; cbn [for_components] in H.
  - inversion H; subst. repeat split.
  - destruct (for_layers step i ls x) as [[[]|e] [ls1 x1]] eqn:Hl.
    + destruct (for_components step (i + length ls) cs x1) as [r2 [cs2 x2]] eqn:Hrest.
      inversion H; subst.
      destruct (for_layers_skip skip step Hskip _ _ _ _ _ _ Hl) as [Hlen Hsame].
      destruct (IH _ _ _ _ _ Hrest) as (Hlc & Hlp & Hsc).
      cbn [omap list_omap id concat]. split; [simpl; congruence|].
      split; [rewrite !length_app; congruence|].
      intros j Hj. destruct (decide (j < length ls)%nat) as [Hlt|Hge].
      * rewrite !lookup_app_l by lia. apply Hsame, Hj.
      * rewrite !lookup_app_r by lia. rewrite Hlen. apply Hsc.
        rewrite <- Hj. f_equal. lia.
    + inversion H; subst.
      destruct (for_layers_skip skip step Hskip _ _ _ _ _ _ Hl) as [Hlen Hsame].
      cbn [omap list_omap id concat]. split; [reflexivity|].
      split; [rewrite !length_app; congruence|].
      intros j Hj. destruct (decide (j < length ls)%nat) as [Hlt|Hge].
      * rewrite !lookup_app_l by lia. apply Hsame, Hj.
      * rewrite !lookup_app_r by lia. rewrite Hlen. reflexivity.
  - destruct (for_components step i cs x) as [r2 [cs2 x2]] eqn:Hrest.
    inversion H; subst. destruct (IH _ _ _ _ _ Hrest) as (Hlc & Hlp & Hsc).
    cbn [omap list_omap id]. split; [simpl; congruence|]. split; assumption.
Qed.

Lemma for_modules_skip (skip : nat -> bool) (step : nat -> M LW unit)
    (x x' : World) (r : res unit) :
  (forall i l x r l' x', skip i = true -> step i (l, x) = (r, (l', x')) -> l' = l) ->
  for_modules step x = (r, x') ->
  forall j, skip j = true ->
            pass_order (modules_of (sd_model x')) !! j = pass_order (modules_of (sd_model x)) !! j.
Proof.
  intros Hskip H j Hj. unfold for_modules in H.
  destruct (for_components step 0 (modules_of (sd_model x)) x) as [r0 [cs y]] eqn:Hc.
  inversion H; subst; clear H.
  destruct (for_components_skip skip step Hskip _ _ _ _ _ _ Hc) as (Hlen & _ & Hsame).
  cbn [sd_model set_sd_model]. rewrite modules_of_set by exact Hlen.
  apply Hsame. exact Hj.
Qed.

(** X8.  A layer that a pass reaches while [shared.state.interrupted] is set
    is left as it is, with its weight, its bias, its backups and its
    signature: the [j]-th layer in the order of the pass is after
    [network_activate], and after [network_deactivate], the layer it was
    before, whenever the flag was set at the [j]-th step. *)
Theorem interrupted_layers_are_left_alone
    (E : Collab) (interrupted : nat -> bool) (x : World) (j : nat) :
  interrupted j = true ->
  pass_order (modules_of (sd_model (snd (network_activate E interrupted x)))) !! j
  = pass_order (modules_of (sd_model x)) !! j
  /\ pass_order (modules_of (sd_model (snd (network_deactivate E interrupted x)))) !! j
     = pass_order (modules_of (sd_model x)) !! j.
Proof.
  intros Hj. split.
  - unfold network_activate, bind, modify_timer, modify, get. cbn beta iota.
    match goal with
    | |- context [for_modules ?st ?y] => destruct (for_modules st y) as [r x'] eqn:H
    end.
    apply (for_modules_skip interrupted) with (j := j) in H; [exact H | | exact Hj].
    intros i l y r0 l' y' Hi Hs. unfold activate_layer, bind, get_layer, gets in Hs.
    cbn [fst] in Hs. rewrite Hi in Hs. inversion Hs. reflexivity.
  - unfold network_deactivate, bind, get. cbn beta iota.
    destruct (lora_low_memory (opts x)); cbn [negb]; [|reflexivity].
    unfold modify_timer, modify, tick, ret. cbn beta iota.
    match goal with
    | |- context [for_modules ?st ?y] => destruct (for_modules st y) as [[[]|e] x'] eqn:H
    end;
      (apply (for_modules_skip interrupted) with (j := j) in H; [exact H | | exact Hj];
       intros i l y r0 l' y' Hi Hs; unfold deactivate_layer, bind, get_layer, gets in Hs;
       cbn [fst] in Hs; rewrite Hi in Hs; inversion Hs; reflexivity).
Qed.

(** ** Backups as tensors: patching from the copy *)

Section FromBackup.
Variable E : Collab.

(** The first backup of a pristine layer when backups are copies. *)
Lemma backup_plain_run (n : string) (wanted : Signature) (l : Layer) (x : World) :
  lora_low_memory (opts x) = false -> lora_fuse_diffusers (opts x) = false ->
  pristine l -> wanted <> [] -> backup_gate x (Some n) = true ->
  match getattr_or_none (weight l) with
  | Some p =>
      exists z x1,
        network_backup_weights E (Some p) (Some n) wanted (l, x)
        = (Ok z,
           (set_network_bias_backup (option_map BTensor (getattr_or_none (bias l)))
              (set_network_weights_backup (Some (BTensor (param_data p))) l), x1))
  | None =>
      exists e y, network_backup_weights E None (Some n) wanted (l, x) = (Raise e, y)
  end.
Proof.
  intros Hlow Hfuse (Hwb & Hbb & Hq & Hpq) Hwanted Hgate.
  destruct (getattr_or_none (weight l)) as [p|] eqn:Hw;
    unfold network_backup_weights; unfold bind at 1; unfold get_world, gets at 1;
    cbn [fst snd]; rewrite Hgate;
    unfold bind at 1; unfold liftW, tick; cbn [fst snd];
    unfold bind at 1; unfold backup_weight; unfold bind at 1; unfold get_layer, gets at 1;
    cbn [fst snd]; rewrite Hwb; rewrite bool_decide_eq_true_2 by reflexivity;
    unfold sig_eqb; rewrite bool_decide_eq_false_2 by exact Hwanted; cbn [andb negb when];
    unfold bind at 1; unfold weights_backup_value; unfold bind at 1;
    unfold get_world, gets at 1; cbn [fst snd opts set_ticks];
    rewrite Hlow, Hfuse; cbn [orb].
  - rewrite Hpq. unfold bind, lift_res, not_none, ret, modify_layer, modify. cbn [fst snd].
    rewrite backup_bias_run. cbn [network_bias_backup set_network_weights_backup].
    rewrite Hbb. rewrite bool_decide_eq_true_2 by reflexivity.
    unfold bias_backup_value. cbn [opts set_ticks bias set_network_weights_backup].
    rewrite Hlow, Hfuse. cbn [orb].
    unfold get_layer, gets, liftW, tick, modify_timer, modify. cbn [fst snd].
    destruct (getattr_or_none (bias l)); do 2 eexists; reflexivity.
  - cbn [param_quant_type is_4bit]. unfold bind, lift_res, not_none. cbn [fst snd].
    do 2 eexists. reflexivity.
Qed.

Lemma calc_keeps_layer (w0 : option Param) (n : option string) :
  preserves (same_lw (fun s : LW => fst s)) (network_calc_weights E w0 n).
Proof.
  unfold network_calc_weights. repeat same_tac.
  apply preserves_calc_loop_gen; [tc_solve|]. intros.
  unfold calc_one, calc_failed. repeat same_tac.
Qed.

Lemma apply_keeps_backups (updown ex_bias : option tensor) (deactivate : bool) :
  preserves (same_lw (fun s : LW =>
               (network_weights_backup (fst s), network_bias_backup (fst s),
                network_layer_name (fst s), network_current_names (fst s))))
            (network_apply_weights E updown ex_bias deactivate).
Proof. unfold network_apply_weights. repeat same_tac. Qed.

Lemma backup_gate_closed (n : string) (l : Layer) (x : World) (w0 : option Param)
    (wanted : Signature) :
  backup_gate x (Some n) = false ->
  network_backup_weights E w0 (Some n) wanted (l, x) = (Ok 0, (l, x)).
Proof.
  intros Hg. unfold network_backup_weights, bind, get_world, gets. cbn [fst snd].
  rewrite Hg. reflexivity.
Qed.

Lemma gate_any_module (x : World) (n : string) :
  backup_gate x (Some n) = false -> loaded x <> [] -> any_module n (loaded x) = false.
Proof.
  unfold backup_gate. intros Hg Hne.
  destruct (loaded_networks x) as [|r rs] eqn:Hl.
  - exfalso. apply Hne. unfold loaded. rewrite Hl. reflexivity.
  - simpl in Hg. exact Hg.
Qed.

(** The first activation of a pristine layer leaves a layer from which
    its values can be had back. *)
Lemma activate_pristine (wanted : Signature) (i : nat) (l l1 : Layer) (x x1 : World) :
  lora_low_memory (opts x) = false -> lora_fuse_diffusers (opts x) = false ->
  wanted = wanted_names_of (loaded x) ->
  pristine l ->
  activate_layer E wanted (fun _ => false) i (l, x) = (Ok tt, (l1, x1)) ->
  restorable (layer_values l) l1.
Proof.
  intros Hlow Hfuse Hwanted Hp H.
  pose proof Hp as (Hwb & Hbb & Hq & Hpq).
  unfold activate_layer in H. unfold bind at 1 in H. unfold get_layer, gets in H.
  cbn [fst snd orb] in H.
  destruct (bool_decide (network_layer_name l = None)
            || sig_eqb (default [] (network_current_names l)) wanted) eqn:Hskip.
  { inversion H; subst. left. repeat split; assumption. }
  apply orb_false_iff in Hskip as [Hname Hsig].
  apply bool_decide_eq_false in Hname.
  destruct (network_layer_name l) as [n|] eqn:Hn; [clear Hname|congruence].
  apply bind_inv_ok in H. destruct H as (z & [la xa] & Hb & H).
  apply bind_inv_ok in H. destruct H as (batch & [lb xb] & Hc & H).
  apply bind_inv_ok in H. destruct H as ([] & [lc xc] & Ha & H).
  unfold modify_layer, modify in H. cbn [fst snd] in H. inversion H; subst l1 x1; clear H.
  pose proof (calc_keeps_layer _ _ _ _ _ Hc) as Hlb. unfold same_lw in Hlb.
  cbn [fst] in Hlb. subst lb.
  pose proof (apply_keeps_backups _ _ _ _ _ _ Ha) as Hk. unfold same_lw in Hk.
  cbn [fst] in Hk. inversion Hk as [[Hkw Hkb Hkn Hkc]]. clear Hk.
  destruct (backup_gate x (Some n)) eqn:Hgate.
  - assert (Hne : wanted <> []) by (subst wanted; apply gate_wanted with n; exact Hgate).
    pose proof (backup_plain_run n wanted l x Hlow Hfuse Hp Hne Hgate) as Hrun.
    destruct (getattr_or_none (weight l)) as [p|] eqn:Hw.
    + destruct Hrun as (z' & x1' & Hrun). rewrite Hrun in Hb.
      inversion Hb; subst z' la xa; clear Hb.
      right. exists (param_data p).
      cbn [network_weights_backup network_bias_backup network_layer_name
           network_current_names set_network_current_names].
      rewrite Hkw, Hkb, Hkn.
      cbn [network_weights_backup network_bias_backup network_layer_name
           set_network_bias_backup set_network_weights_backup].
      split; [reflexivity|]. unfold layer_values. cbn [fst snd]. rewrite Hw.
      split; [reflexivity|]. split; [reflexivity|].
      split; [rewrite Hn; discriminate | exact Hne].
    + destruct Hrun as (e & y & Hrun). rewrite Hrun in Hb. discriminate.
  - rewrite backup_gate_closed in Hb by exact Hgate.
    inversion Hb; subst z la xa; clear Hb.
    rewrite apply_unpatched in Ha by assumption.
    inversion Ha; subst lc xc. left.
    cbn [network_weights_backup network_bias_backup set_network_current_names].
    repeat split; assumption.
Qed.

(** An activation with no network loaded gives the values back. *)
Lemma restore_layer (v : option tensor * option tensor) (j : nat) (l1 : Layer) (y : World) :
  restorable v l1 -> loaded_networks y = [] ->
  exists l2 y',
    activate_layer E [] (fun _ => false) j (l1, y) = (Ok tt, (l2, y'))
    /\ layer_values l2 = v /\ loaded_networks y' = [].
Proof.
  intros Hr Hy.
  assert (Hloaded : loaded y = []) by (unfold loaded; rewrite Hy; reflexivity).
  unfold activate_layer. unfold bind at 1. unfold get_layer, gets.
  cbn [fst snd orb].
  destruct (bool_decide (network_layer_name l1 = None)
            || sig_eqb (default [] (network_current_names l1)) []) eqn:Hskip.
  { exists l1, y. split; [reflexivity|]. split; [|exact Hy].
    destruct Hr as [(_ & _ & Hv)|(w0 & _ & _ & _ & Hn & Hc)]; [exact Hv|].
    apply orb_true_iff in Hskip as [Hs|Hs].
    - apply bool_decide_eq_true in Hs. contradiction.
    - apply bool_decide_eq_true in Hs. contradiction. }
  apply orb_false_iff in Hskip as [Hname _].
  apply bool_decide_eq_false in Hname.
  destruct (network_layer_name l1) as [n|] eqn:Hn; [clear Hname|congruence].
  assert (Hgate : backup_gate y (Some n) = false)
    by (unfold backup_gate; rewrite Hy; reflexivity).
  unfold bind at 1. rewrite backup_gate_closed by exact Hgate.
  unfold bind at 1. unfold network_calc_weights. unfold bind at 1.
  unfold get_world, gets. cbn [fst snd]. rewrite Hloaded. cbn [calc_loop].
  unfold ret at 1. cbn [fst snd].
  destruct Hr as [(Hwb & Hbb & Hv)|(w0 & Hwb & Hw0 & Hbb & _ & _)].
  - unfold bind at 1. rewrite apply_unpatched by assumption.
    unfold modify_layer, modify. cbn [fst snd].
    do 2 eexists. split; [reflexivity|]. split; [exact Hv | exact Hy].
  - unfold bind at 1. unfold network_apply_weights.
    unfold bind at 1. unfold liftW, tick. cbn [fst snd].
    unfold bind at 1. unfold get_layer, gets. cbn [fst snd].
    rewrite Hwb, Hbb.
    destruct v as [vw vb]. cbn [fst snd] in Hw0, Hbb |- *. subst vw.
    destruct vb as [b|]; cbn [option_map];
      unfold bind, modify_layer, modify, ret, lift_res, not_none, getattr, get_layer,
             get_world, gets, liftW, tick, modify_timer;
      cbn; do 2 eexists; (split; [reflexivity|]); (split; [reflexivity | exact Hy]).
Qed.

End FromBackup.

(** Two passes over the same layers: when the first leaves every layer in a
    condition from which the second gets the values back, the second pass
    gets back the values of all of them. *)
Lemma for_layers_two_passes {V} (val : Layer -> V) (P : Layer -> Prop)
    (Q : V -> Layer -> Prop) (I1 I2 : World -> Prop) (step1 step2 : nat -> M LW unit) :
  (forall i l x l1 x1, I1 x -> P l -> step1 i (l, x) = (Ok tt, (l1, x1)) ->
                       Q (val l) l1 /\ I1 x1) ->
  (forall j v l1 y, I2 y -> Q v l1 ->
                    exists l2 y', step2 j (l1, y) = (Ok tt, (l2, y')) /\ val l2 = v /\ I2 y') ->
  forall ls i x ls1 x1,
    I1 x -> Forall P ls ->
    for_layers step1 i ls x = (Ok tt, (ls1, x1)) ->
    I1 x1
    /\ forall j y, I2 y ->
         exists ls2 y',
           for_layers step2 j ls1 y = (Ok tt, (ls2, y'))
           /\ map val ls2 = map val ls /\ I2 y'.
Proof.
  intros H1 H2. induction ls as [|l ls IH]; intros i x ls1 x1 Hi HP H; cbn [for_layers] in H.
  - inversion H; subst. split; [exact Hi|]. intros j y Hy. exists [], y. repeat split. exact Hy.
  - apply Forall_cons in HP as [Hl HP].
    destruct (step1 i (l, x)) as [[[]|e] [la xa]] eqn:Hs; [|discriminate].
    destruct (for_layers step1 (S i) ls xa) as [r2 [ls2 x2]] eqn:Hrest.
    inversion H; subst; clear H.
    destruct (H1 _ _ _ _ _ Hi Hl Hs) as [Hq Hia].
    destruct (IH _ _ _ _ Hia HP Hrest) as [Hi2 Hnext].
    split; [exact Hi2|]. intros j y Hy.
    destruct (H2 j _ _ _ Hy Hq) as (l2 & y1 & Hs2 & Hv & Hy1).
    destruct (Hnext (S j) y1 Hy1) as (ls3 & y2 & Hf & Hm & Hy2).
    exists (l2 :: ls3), y2. cbn [for_layers]. rewrite Hs2, Hf.
    split; [reflexivity|]. split; [simpl; congruence | exact Hy2].
Qed.

Lemma for_components_two_passes {V} (val : Layer -> V) (P : Layer -> Prop)
    (Q : V -> Layer -> Prop) (I1 I2 : World -> Prop) (step1 step2 : nat -> M LW unit) :
  (forall i l x l1 x1, I1 x -> P l -> step1 i (l, x) = (Ok tt, (l1, x1)) ->
                       Q (val l) l1 /\ I1 x1) ->
  (forall j v l1 y, I2 y -> Q v l1 ->
                    exists l2 y', step2 j (l1, y) = (Ok tt, (l2, y')) /\ val l2 = v /\ I2 y') ->
  forall cs i x cs1 x1,
    I1 x -> Forall_layers P cs ->
    for_components step1 i cs x = (Ok tt, (cs1, x1)) ->
    I1 x1 /\ length cs1 = length cs
    /\ forall j y, I2 y ->
         exists cs2 y',
           for_components step2 j cs1 y = (Ok tt, (cs2, y'))
           /\ map (option_map (map val)) cs2 = map (option_map (map val)) cs
           /\ length cs2 = length cs /\ I2 y'.
Proof.
  intros H1 H2. induction cs as [|[ls|] cs IH]; intros i x cs1 x1 Hi HP H;
    cbn [for_components] in H.
  - inversion H; subst. split; [exact Hi|]. split; [reflexivity|].
    intros j y Hy. exists [], y. repeat split. exact Hy.
  - apply Forall_cons in HP as [Hl HP].
    destruct (for_layers step1 i ls x) as [[[]|e] [la xa]] eqn:Hs; [|discriminate].
    destruct (for_components step1 (i + length ls) cs xa) as [r2 [cs2 x2]] eqn:Hrest.
    inversion H; subst; clear H.
    destruct (for_layers_two_passes val P Q I1 I2 step1 step2 H1 H2 _ _ _ _ _ Hi Hl Hs)
      as [Hia Hnl].
    destruct (IH _ _ _ _ Hia HP Hrest) as (Hi2 & Hlen & Hnext).
    split; [exact Hi2|]. split; [simpl; congruence|]. intros j y Hy.
    destruct (Hnl j y Hy) as (ls2 & y1 & Hf & Hm & Hy1).
    destruct (Hnext (j + length la)%nat y1 Hy1) as (cs3 & y2 & Hf2 & Hm2 & Hl2 & Hy2).
    exists (Some ls2 :: cs3), y2. cbn [for_components]. rewrite Hf, Hf2.
    split; [reflexivity|]. split; [simpl; congruence|]. split; [simpl; congruence | exact Hy2].
  - apply Forall_cons in HP as [_ HP].
    destruct (for_components step1 i cs x) as [r2 [cs2 x2]] eqn:Hrest.
    inversion H; subst; clear H.
    destruct (IH _ _ _ _ Hi HP Hrest) as (Hi2 & Hlen & Hnext).
    split; [exact Hi2|]. split; [simpl; congruence|]. intros j y Hy.
    destruct (Hnext j y Hy) as (cs3 & y2 & Hf2 & Hm2 & Hl2 & Hy2).
    exists (None :: cs3), y2. cbn [for_components]. rewrite Hf2.
    split; [reflexivity|]. split; [simpl; congruence|]. split; [simpl; congruence | exact Hy2].
Qed.

(** X9.  With [lora_low_memory] and [lora_fuse_diffusers] off, backups are
    copies, and an activation with no network loaded puts them back.  From
    a model whose layers were never patched and are not quantized,
    [network_activate] with any set of loaded networks, followed (once
    [loaded_networks] has been emptied) by a second [network_activate], gives
    every layer the weight and the bias it had at the start, whatever the
    modules of the networks computed. *)
Theorem activation_without_networks_restores_the_backups
    (E : Collab) (x x1 y : World) :
  lora_low_memory (opts x) = false -> lora_fuse_diffusers (opts x) = false ->
  Forall_layers pristine (modules_of (sd_model x)) ->
  network_activate E (fun _ => false) x = (Ok tt, x1) ->
  loaded_networks y = [] -> sd_model y = sd_model x1 ->
  exists x2,
    network_activate E (fun _ => false) y = (Ok tt, x2)
    /\ values_of (modules_of (sd_model x2)) = values_of (modules_of (sd_model x)).
Proof.
  intros Hlow Hfuse Hp H Hy Hm.
  unfold network_activate in H.
  apply bind_inv_ok in H. destruct H as ([] & x0 & H0 & H).
  unfold modify_timer, modify in H0. inversion H0; subst x0; clear H0.
  unfold bind at 1 in H. unfold get in H. cbn beta iota in H.
  unfold for_modules in H.
  match type of H with
  | context [for_components ?st 0 ?cs ?s] =>
      destruct (for_components st 0 cs s) as [r [cs1 xa]] eqn:Hc
  end.
  inversion H; subst r x1; clear H.
  set (xs := set_timer (set_t_move 0 (set_t_apply 0 (set_t_calc 0 (set_t_backup 0 (timer x))))) x)
    in *.
  assert (Hw : wanted_names_of (loaded xs) = wanted_names_of (loaded x)) by reflexivity.
  destruct (for_components_two_passes layer_values pristine restorable
              (fun z => opts z = opts x /\ loaded z = loaded x)
              (fun z => loaded_networks z = [])
              (activate_layer E (wanted_names_of (loaded xs)) (fun _ => false))
              (activate_layer E [] (fun _ => false)))
    with (cs := modules_of (sd_model xs)) (i := 0%nat) (x := xs) (cs1 := cs1) (x1 := xa)
    as (_ & Hlen & Hnext).
  - intros i l z l1 z1 [Hoz Hlz] Hl Hs. split.
    + eapply activate_pristine; [| | |exact Hl|exact Hs]; congruence.
    + destruct (frame_activate_layer E _ _ _ _ _ _ Hs) as (Ho' & Hs' & Hl').
      cbn [snd] in Ho', Hs', Hl'. split; [congruence|].
      unfold loaded. rewrite Hs', Hl'. exact Hlz.
  - intros j v l1 z Hz Hq. apply restore_layer; assumption.
  - split; reflexivity.
  - exact Hp.
  - exact Hc.
  - cbn [sd_model set_sd_model] in Hm.
    unfold network_activate, bind, modify_timer, modify, get. cbn beta iota.
    set (ys := set_timer (set_t_move 0 (set_t_apply 0 (set_t_calc 0 (set_t_backup 0 (timer y))))) y).
    assert (Hwy : wanted_names_of (loaded ys) = []).
    { unfold loaded. change (loaded_networks ys) with (loaded_networks y).
      rewrite Hy. reflexivity. }
    rewrite Hwy. unfold for_modules.
    change (sd_model ys) with (sd_model y).
    assert (Hcs : modules_of (sd_model y) = cs1).
    { rewrite Hm. apply modules_of_set. exact Hlen. }
    rewrite Hcs.
    destruct (Hnext 0%nat ys Hy) as (cs2 & y' & Hf & Hv & Hl2 & _).
    rewrite Hf. eexists. split; [reflexivity|].
    cbn [sd_model set_sd_model]. rewrite modules_of_set by exact Hl2.
    exact Hv.
Qed.

(** ** The sums of [network_calc_weights] *)

Lemma zip_with_add_comm (a b : list Z) : zip_with Z.add a b = zip_with Z.add b a.
Proof.
  revert b. induction a as [|x a IH]; intros [|y b]; simpl; try reflexivity.
  rewrite IH. f_equal. lia.
Qed.

Lemma tensor_add_comm (a b s : tensor) : tensor_add a b = Ok s -> tensor_add b a = Ok s.
Proof.
  unfold tensor_add. intros H.
  destruct (bool_decide (shape a = shape b)) eqn:Hs; [|discriminate].
  destruct (bool_decide (length (data a) = length (data b))) eqn:Hl; [|discriminate].
  apply bool_decide_eq_true in Hs. apply bool_decide_eq_true in Hl.
  cbn [andb] in H. inversion H; subst s; clear H.
  rewrite bool_decide_eq_true_2 by congruence.
  rewrite bool_decide_eq_true_2 by congruence. cbn [andb].
  rewrite Hs, zip_with_add_comm. reflexivity.
Qed.

(** X10.  The bias delta of a layer depends on the order of the loaded
    networks.  [network_calc_weights] adds a delta to the running sum only
    when both are there, and otherwise replaces the sum by the delta, also
    when the delta is [None].  So with two networks for a layer, one whose
    module returns a bias delta and one whose module returns none, the bias
    delta reaches the layer when that network comes last and is lost when it
    comes first; the weight delta is the same sum in both orders. *)
Theorem bias_delta_depends_on_the_order
    (E : Collab) (w0 : option Param) (n : string) (l : Layer) (x y : World)
    (n1 n2 : Network) (m1 m2 : NetworkModule) (u1 u2 b1 s : tensor) :
  modules n1 !! n = Some m1 -> modules n2 !! n = Some m2 ->
  has_weight l = true ->
  calc_updown m1 (te_multiplier n1, unet_multiplier n1, dyn_dim n1) w0 = Ok (Some u1, Some b1) ->
  calc_updown m2 (te_multiplier n2, unet_multiplier n2, dyn_dim n2) w0 = Ok (Some u2, None) ->
  tensor_add u1 u2 = Ok s ->
  loaded x = [n1; n2] -> loaded y = [n2; n1] ->
  fst (network_calc_weights E w0 (Some n) (l, x)) = Ok (Some s, None)
  /\ fst (network_calc_weights E w0 (Some n) (l, y)) = Ok (Some s, Some b1).
Proof.
  intros Hm1 Hm2 Hw H1 H2 Hs Hx Hy.
  pose proof (tensor_add_comm _ _ _ Hs) as Hs'.
  split.
  - unfold network_calc_weights. unfold bind at 1. unfold get_world, gets. cbn [fst snd].
    rewrite Hx. cbn [calc_loop].
    unfold bind at 1.
    destruct (calc_one_value E n n1 m1 w0 (None, None) l x Hm1 Hw) as [y1 ->].
    rewrite H1. cbn [calc_value accumulate fst snd].
    unfold bind at 1.
    destruct (calc_one_value E n n2 m2 w0 (Some u1, Some b1) l y1 Hm2 Hw) as [y2 ->].
    rewrite H2. cbn [calc_value accumulate fst snd]. rewrite Hs. reflexivity.
  - unfold network_calc_weights. unfold bind at 1. unfold get_world, gets. cbn [fst snd].
    rewrite Hy. cbn [calc_loop].
    unfold bind at 1.
    destruct (calc_one_value E n n2 m2 w0 (None, None) l y Hm2 Hw) as [y1 ->].
    rewrite H2. cbn [calc_value accumulate fst snd].
    unfold bind at 1.
    destruct (calc_one_value E n n1 m1 w0 (Some u2, None) l y1 Hm1 Hw) as [y2 ->].
    rewrite H1. cbn [calc_value accumulate fst snd]. rewrite Hs'. reflexivity.
Qed.

(** X11.  A network whose bias delta does not fit the running bias sum is
    counted as failed, and yet its weight delta stays: in the turn of the
    loop of [network_calc_weights] the weight sum has been added to before
    the addition of the bias deltas raises.  Without [debug] the turn
    returns the new weight sum with the old bias sum, and the error counter
    of the network has gone up by one. *)
Theorem bias_mismatch_keeps_the_weight_delta
    (E : Collab) (w0 : option Param) (n : string) (net : Network) (module : NetworkModule)
    (l : Layer) (x : World) (bu bb u b s : tensor) :
  debug E = false ->
  modules net !! n = Some module -> has_weight l = true ->
  calc_updown module (te_multiplier net, unet_multiplier net, dyn_dim net) w0
  = Ok (Some u, Some b) ->
  tensor_add bu u = Ok s -> tensor_add bb b = Raise RuntimeError ->
  exists x',
    calc_one E w0 (Some n) (Some bu, Some bb) net (l, x) = (Ok (Some s, Some bb), (l, x'))
    /\ errors x' = <[name net := default 0 (errors x !! name net) + 1]> (errors x)
    /\ timer x' = timer x.
Proof.
  intros Hd Hm Hw Hc Hs Hbad.
  unfold calc_one. unfold bind at 1. unfold get_layer, gets.
  cbn [fst snd mbind option_bind]. rewrite Hm, Hw.
  unfold bind at 1. unfold liftW, tick. cbn [fst snd]. rewrite Hc.
  unfold bind at 1. cbn [fst snd accumulate]. rewrite Hs.
  rewrite Hbad.
  unfold calc_failed, bind, liftW, modify, ret. cbn [exn_eqb fst snd]. rewrite Hd.
  eexists. split; [reflexivity|]. split; reflexivity.
Qed.

(** ** The compiled model *)

Lemma find_mismatch_spec (dflt : Z) (te : option (list Z)) (lm : list (string * Z)) :
  forall names i,
    (i + length names <= length lm)%nat ->
    let matches :=
      forall j name, names !! j = Some name ->
        exists m, pick te (i + j) dflt = Ok m /\ lm !! (i + j)%nat = Some (name, m) in
    match find_mismatch dflt te lm i names with
    | Ok false => matches
    | Ok true => ~ matches
    | Raise _ => True
    end.
Proof.
  induction names as [|name names IH]; intros i Hlen; cbn [find_mismatch].
  - intros j name Hj. rewrite lookup_nil in Hj. discriminate.
  - simpl in Hlen.
    destruct (pick te i dflt) as [m|e] eqn:Hp; [|exact I].
    destruct (lm !! i) as [have|] eqn:Hl; [|exact I].
    case_bool_decide as Heq.
    + subst have. specialize (IH (S i)). cbv zeta in IH.
      destruct (find_mismatch dflt te lm (S i) names) as [[|]|e]; [| |exact I].
      * intros Hall. apply IH; [lia|]. intros j nm Hj.
        replace (S i + j)%nat with (i + S j)%nat by lia. apply Hall. exact Hj.
      * intros [|j] nm Hj; simpl in Hj.
        -- inversion Hj; subst nm. rewrite Nat.add_0_r. eauto.
        -- replace (i + S j)%nat with (S i + j)%nat by lia. apply IH; [lia | exact Hj].
    + intros Hall. destruct (Hall 0%nat name eq_refl) as (m' & Hp' & Hl').
      rewrite Nat.add_0_r in Hp', Hl'. congruence.
Qed.

(** X12.  For a compiled model, [maybe_recompile_model] answers [False]
    exactly when [lora_model] already holds the names and multipliers of the
    request, position by position; then the model and the compile state are
    untouched.  When it answers [True], [lora_model] has been emptied and the
    model reloaded.  Without a compiled model it answers [False] and does
    nothing. *)
Theorem maybe_recompile_model_when_the_request_changed
    (E : Collab) (names : list string) (te : option (list Z)) (x x' : World)
    (cs : CompiledState) (r : bool) :
  compiled_model_state x = Some cs -> is_compiled cs = true ->
  maybe_recompile_model E names te x = (Ok r, x') ->
  (r = false <->
   same_request (extra_networks_default_multiplier (opts x)) te names (lora_model cs))
  /\ (r = false ->
      sd_model x' = sd_model x /\ compiled_model_state x' = compiled_model_state x)
  /\ (r = true ->
      sd_model x' = reload_model_weights E (sd_model x)
      /\ compiled_model_state x' = Some (mkCompiledState true []))
  /\ forall y,
       (compiled_model_state y = None
        \/ exists c, compiled_model_state y = Some c /\ is_compiled c = false) ->
       maybe_recompile_model E names te y = (Ok false, y).
Proof.
  intros Hcs Hic H.
  assert (Hlast : forall y,
             (compiled_model_state y = None
              \/ exists c, compiled_model_state y = Some c /\ is_compiled c = false) ->
             maybe_recompile_model E names te y = (Ok false, y)).
  { intros y [Hy|(c & Hy & Hc)]; unfold maybe_recompile_model, bind, get; cbn beta iota;
      rewrite Hy; [|rewrite Hc]; reflexivity. }
  unfold maybe_recompile_model in H. unfold bind at 1 in H. unfold get in H.
  cbn beta iota zeta in H. rewrite Hcs, Hic in H.
  unfold same_request.
  destruct (length names =? length (lora_model cs))%nat eqn:Hlen.
  - apply Nat.eqb_eq in Hlen.
    pose proof (find_mismatch_spec (extra_networks_default_multiplier (opts x)) te
                  (lora_model cs) names 0%nat) as Hspec.
    cbv zeta in Hspec. unfold bind at 1 in H. unfold lift_res at 1 in H.
    destruct (find_mismatch (extra_networks_default_multiplier (opts x)) te
                (lora_model cs) 0 names) as [[|]|e]; [| |discriminate].
    + unfold bind, modify, ret in H. inversion H; subst r x'; clear H.
      cbn [sd_model compiled_model_state set_sd_model set_compiled_model_state].
      rewrite Hcs. cbn [option_map]. rewrite Hic.
      split; [|split; [discriminate | split; [auto | exact Hlast]]].
      split; [discriminate|]. intros [_ Hall]. exfalso. apply Hspec; [lia | exact Hall].
    + unfold bind, when, log_msg, modify, ret in H.
      assert (Hx' : sd_model x' = sd_model x
                    /\ compiled_model_state x' = compiled_model_state x /\ r = false).
      { destruct ((0 <? length (loaded_networks x))%nat && debug E);
          inversion H; subst; repeat split. }
      destruct Hx' as (Hs & Hc & ->).
      split; [|split; [auto | split; [discriminate | exact Hlast]]].
      split; [|reflexivity]. intros _. split; [exact Hlen|]. apply Hspec. lia.
  - apply Nat.eqb_neq in Hlen.
    unfold bind, modify, ret in H. inversion H; subst r x'; clear H.
    cbn [sd_model compiled_model_state set_sd_model set_compiled_model_state].
    rewrite Hcs. cbn [option_map]. rewrite Hic.
    split; [|split; [discriminate | split; [auto | exact Hlast]]].
    split; [discriminate|]. intros [Hl _]. contradiction.
Qed.

(** ** Loading *)

Lemma pick_ok {A} (l : option (list A)) (names : list string) (i : nat) (d : A) :
  long_enough l names -> (i < length names)%nat -> exists v, pick l i d = Ok v.
Proof.
  unfold long_enough, pick. intros Hl Hi.
  destruct l as [[|v l']|]; eauto.
  destruct (lookup_lt_is_Some_2 (v :: l') i) as [v' Hv]; [lia|].
  rewrite Hv. eauto.
Qed.

Section Returns.
Variable E : Collab.

Lemma find_mismatch_returns (dflt : Z) (te : option (list Z)) (lm : list (string * Z))
    (all : list string) :
  long_enough te all ->
  forall names i,
    (i + length names <= length all)%nat -> (i + length names <= length lm)%nat ->
    exists b, find_mismatch dflt te lm i names = Ok b.
Proof.
  intros Hte. induction names as [|name names IH]; intros i Ha Hl; cbn [find_mismatch].
  - eauto.
  - simpl in Ha, Hl.
    destruct (pick_ok te all i dflt Hte) as [m ->]; [lia|].
    destruct (lookup_lt_is_Some_2 lm i) as [have ->]; [lia|].
    case_bool_decide; [apply IH; lia | eauto].
Qed.

Lemma maybe_recompile_model_returns (names : list string) (te : option (list Z))
    (x : World) :
  long_enough te names ->
  exists r x', maybe_recompile_model E names te x = (Ok r, x') /\ opts x' = opts x.
Proof.
  intros Hte. unfold maybe_recompile_model. unfold bind at 1. unfold get. cbn beta iota zeta.
  destruct (compiled_model_state x) as [cs|]; [|do 2 eexists; split; reflexivity].
  destruct (is_compiled cs); [|do 2 eexists; split; reflexivity].
  destruct (length names =? length (lora_model cs))%nat eqn:Hlen.
  - apply Nat.eqb_eq in Hlen.
    destruct (find_mismatch_returns (extra_networks_default_multiplier (opts x)) te
                (lora_model cs) names Hte names 0%nat) as [b Hb]; [lia | lia |].
    unfold bind at 1. unfold lift_res at 1. rewrite Hb.
    destruct b.
    + unfold bind, modify, ret. do 2 eexists. split; reflexivity.
    + unfold bind, when, log_msg, modify, ret.
      destruct ((0 <? length (loaded_networks x))%nat && debug E);
        do 2 eexists; split; reflexivity.
  - unfold bind, modify, ret. do 2 eexists. split; reflexivity.
Qed.

(** The [try] statement of the loop catches whatever the loaders raise. *)
Lemma try_load_returns (rc : bool) (te : option (list Z)) (i : nat)
    (nod : NetworkOnDisk) (name : string) (x : World) :
  exists a x', try_load E rc te i nod name x = (Ok a, x').
Proof.
  unfold try_load. unfold bind at 1. unfold get. cbn beta iota zeta.
  unfold bind at 1.
  assert (Hlog : exists x0, when (debug E)
                   (log_msg LDebug (Msg_load_hash name (filename nod)
                                      (PyStr.lower (shorthash nod)))) x = (Ok tt, x0)).
  { destruct (debug E); eexists; reflexivity. }
  destruct Hlog as [x0 ->]. unfold try_except.
  match goal with
  | |- context [match ?c x0 with _ => _ end] => destruct (c x0) as [[a|e] x1]
  end.
  - eauto.
  - unfold bind, log_msg, modify, ret. eauto.
Qed.

Lemma set_multipliers_returns (te un : option (list Z)) (dyn : option (list (option Z)))
    (names : list string) (i r : nat) (x : World) :
  long_enough te names -> long_enough un names -> long_enough dyn names ->
  (i < length names)%nat ->
  exists x', set_multipliers te un dyn i r x = (Ok tt, x').
Proof.
  intros Hte Hun Hdyn Hi. unfold set_multipliers.
  unfold bind at 1. unfold get. cbn beta iota zeta.
  destruct (pick_ok te names i (extra_networks_default_multiplier (opts x)) Hte Hi) as [v1 H1].
  destruct (pick_ok un names i (extra_networks_default_multiplier (opts x)) Hun Hi) as [v2 H2].
  destruct (pick_ok dyn names i (Some (extra_networks_default_multiplier (opts x))) Hdyn Hi)
    as [v3 H3].
  rewrite H1, H2, H3. unfold bind, lift_res, update_net, modify. eauto.
Qed.

Lemma load_all_returns (rc : bool) (te un : option (list Z)) (dyn : option (list (option Z)))
    (names : list string) :
  long_enough te names -> long_enough un names -> long_enough dyn names ->
  forall todo i x,
    (i + length todo <= length names)%nat ->
    exists x', load_all E rc te un dyn i todo x = (Ok tt, x').
Proof.
  intros Hte Hun Hdyn. induction todo as [|[nod name] todo IH]; intros i x Hlen;
    cbn [load_all].
  - eexists. reflexivity.
  - simpl in Hlen.
    assert (Hone : exists x1, load_one E rc te un dyn i nod name x = (Ok tt, x1)).
    { unfold load_one. destruct nod as [nod|].
      - destruct (try_load_returns rc te i nod name x) as (a & x0 & Ht).
        unfold bind at 1. rewrite Ht. destruct a as [[r|]|].
        + apply (set_multipliers_returns te un dyn names); try assumption. lia.
        + unfold log_msg, modify. eauto.
        + unfold ret. eauto.
      - unfold bind, ret, log_msg, modify. eauto. }
    destruct Hone as [x1 H1]. destruct (IH (S i) x1) as [x' H']; [lia|].
    exists x'. unfold bind. rewrite H1. exact H'.
Qed.

End Returns.

Section NetworkLoadReturns.
Variable E : Collab.

Lemma network_load_returns (names : list string) (te un : option (list Z))
    (dyn : option (list (option Z))) (x : World) :
  long_enough te names -> long_enough un names -> long_enough dyn names ->
  0 <= lora_in_memory_limit (opts x) ->
  exists x', network_load E names te un dyn x = (Ok tt, x').
Proof.
  intros Hte Hun Hdyn Hlimit. unfold network_load.
  unfold bind at 1. unfold modify_timer at 1, modify at 1. cbn beta iota.
  set (x1 := set_timer (set_t_list 0 (timer x)) x).
  unfold bind at 1. unfold get at 1. cbn beta iota.
  assert (Hscan : exists x2,
             when (existsb (fun o => negb (bool_decide (is_Some o))) (lookup_names x1 names))
                  (list_available_networks E) x1 = (Ok tt, x2)
             /\ opts x2 = opts x).
  { destruct (existsb _ _); cbn [when].
    - destruct (scan_run E x1) as (y0 & y & x2 & Hrun & _ & _ & _ & _ & Ho).
      exists x2. split; [exact Hrun | exact Ho].
    - exists x1. split; reflexivity. }
  destruct Hscan as (x2 & Hscan & Ho2).
  unfold bind at 1. rewrite Hscan.
  unfold bind at 1. unfold get at 1. cbn beta iota zeta.
  destruct (maybe_recompile_model_returns E names te x2 Hte) as (rc & x3 & Hrc & Ho3).
  unfold bind at 1. rewrite Hrc.
  unfold bind at 1. unfold modify at 1. cbn beta iota.
  unfold bind at 1. unfold tick at 1. cbn beta iota.
  set (x4 := set_ticks _ _).
  destruct (load_all_returns E rc te un dyn names Hte Hun Hdyn
              (zip (lookup_names x2 names) names) 0%nat x4) as [x5 Hload].
  { rewrite length_zip. unfold lookup_names. rewrite length_map. lia. }
  unfold bind at 1. rewrite Hload.
  assert (Ho5 : opts x5 = opts x).
  { destruct (cache_grows_load_all E rc te un dyn _ _ _ _ _ Hload) as [Ho _].
    rewrite Ho. subst x4. cbn. congruence. }
  unfold bind at 1. unfold get at 1. cbn beta iota.
  unfold bind at 1. unfold lift_res at 1. rewrite Ho5.
  rewrite evict_nonneg by exact Hlimit.
  unfold bind at 1. unfold modify at 1. cbn beta iota.
  unfold bind at 1. unfold get at 1. cbn beta iota.
  set (x6 := set_lora_cache _ x5).
  assert (Hd : exists x7,
             when (0 <? length (diffuser_loaded x6))%nat
               (bind (log_msg LDebug (Msg_diffusers_loaded (diffuser_loaded x6)
                                                           (diffuser_scales x6)))
                  (fun _ => try_except
                     (lift_res (set_adapters E (diffuser_loaded x6) (diffuser_scales x6)
                                             (lora_fuse_diffusers (opts x6))))
                     (fun _ => true)
                     (fun _ => log_msg LError Msg_set_adapters_error))) x6
             = (Ok tt, x7)).
  { destruct (0 <? length (diffuser_loaded x6))%nat; cbn [when]; [|eexists; reflexivity].
    unfold bind, log_msg, modify, try_except, lift_res.
    destruct (set_adapters E _ _ _) as [[]|e]; eexists; reflexivity. }
  destruct Hd as [x7 Hd]. unfold bind at 1. rewrite Hd.
  unfold bind, get, when, log_msg, modify, tick, modify_timer, ret.
  cbn beta iota.
  repeat match goal with
         | |- context [if ?b then _ else _] => destruct b
         end; eexists; reflexivity.
Qed.

Lemma network_load_needs_limit (names : list string) (te un : option (list Z))
    (dyn : option (list (option Z))) (x x' : World) :
  network_load E names te un dyn x = (Ok tt, x') ->
  0 <= lora_in_memory_limit (opts x).
Proof.
  intros H.
  destruct (network_load_inv E _ _ _ _ _ _ H)
    as (xa & xb & rc & todo & c & Hpre & Hloop & Hevict & _).
  destruct Hpre as (Hoa & _).
  destruct (cache_grows_load_all E _ _ _ _ _ _ _ _ _ Hloop) as [Hob _].
  cbn in Hob.
  destruct (Z_lt_le_dec (lora_in_memory_limit (opts x)) 0) as [Hneg|Hok]; [|exact Hok].
  exfalso. unfold evict in Hevict.
  rewrite evict_loop_negative in Hevict; [discriminate | congruence | lia].
Qed.

End NetworkLoadReturns.

(** X13.  [network_load] does not raise because of an adapter: whatever
    the files, the conversions and the module variants do, a call whose
    lists of multipliers are absent, empty or have an entry for every name
    returns, provided [lora_in_memory_limit] is not negative; a failed
    adapter is logged and left out.  With a negative limit the call raises:
    the eviction loop runs [next] on the emptied cache.  The embedding
    database, the reload and the compilation of the model, the adapter
    queries of the debug log and the garbage collection, which are called
    outside the [try] statements, are taken to return. *)
Theorem network_load_returns_unless_the_limit_is_negative
    (E : Collab) (names : list string) (te un : option (list Z))
    (dyn : option (list (option Z))) (x : World) :
  long_enough te names -> long_enough un names -> long_enough dyn names ->
  (exists x', network_load E names te un dyn x = (Ok tt, x'))
  <-> 0 <= lora_in_memory_limit (opts x).
Proof.
  intros Hte Hun Hdyn. split.
  - intros [x' H]. eapply network_load_needs_limit, H.
  - intros Hl. apply network_load_returns; assumption.
Qed.

(** ** The cache and the lists kept for diffusers *)

Section CacheAgain.
Variable E : Collab.

Lemma load_safetensors_keeps_sd_loaded (name : string) (nod : NetworkOnDisk) :
  preserves (same_on sd_loaded) (load_safetensors E name nod).
Proof.
  unfold load_safetensors. repeat same_tac.
  apply preserves_create_modules_gen; [tc_solve|]. intros. same_tac.
Qed.

Lemma load_safetensors_needs_model (name : string) (nod : NetworkOnDisk)
    (x x' : World) (r : nat) :
  load_safetensors E name nod x = (Ok (Some r), x') -> sd_loaded x = true.
Proof.
  unfold load_safetensors. unfold bind at 1. unfold get. cbn beta iota.
  destruct (sd_loaded x); [reflexivity|]. cbn [negb]. unfold ret. discriminate.
Qed.
End CacheAgain.

(** X14.  [lora_cache] is keyed by the name alone.  When
    [load_safetensors] returns a network for a name, the name is in the cache
    with that network.  From then on, in any state in which the model is
    loaded and the name still has this entry (it has not been evicted), a
    call for the name returns the same network without reading anything:
    whatever has become of the file, and whatever [network_on_disk] the call
    is given, the store, the cache and the model stay as they are. *)
Theorem cached_network_is_served_again
    (E : Collab) (name : string) (nod : NetworkOnDisk) (x x1 : World) (r : nat) :
  load_safetensors E name nod x = (Ok (Some r), x1) ->
  dict_get name (lora_cache x1) = Some r
  /\ sd_loaded x1 = true
  /\ forall (E' : Collab) (nod' : NetworkOnDisk) (y : World),
       sd_loaded y = true ->
       dict_get name (lora_cache y) = Some r ->
       exists y',
         load_safetensors E' name nod' y = (Ok (Some r), y')
         /\ store y' = store y /\ lora_cache y' = lora_cache y
         /\ sd_model y' = sd_model y.
Proof.
  intros H.
  pose proof (load_safetensors_needs_model E _ _ _ _ _ H) as Hsd.
  pose proof (load_safetensors_keeps_sd_loaded E _ _ _ _ _ H) as Hkeep.
  unfold same_on in Hkeep.
  pose proof (load_safetensors_cached E _ _ _ _ _ H) as Hc.
  split; [exact Hc|]. split; [congruence|].
  intros E' nod' y Hy Hget.
  rewrite (load_safetensors_hit E' name nod' y r Hy Hget).
  eexists. split; [reflexivity|]. destruct (debug E'); repeat split.
Qed.

Lemma keeps_aligned_preorder : PreOrder keeps_aligned.
Proof. split; [intros x H; exact H | intros a b c H1 H2 H; apply H2, H1, H]. Qed.
#[global] Existing Instance keeps_aligned_preorder.

Ltac aligned_base := let H := fresh in intros H; exact H.

Ltac aligned_tac :=
  cbv beta zeta;
  lazymatch goal with
  | |- preserves _ (alloc _) =>
      let H := fresh in intros ? ? ? H; inversion H; subst; aligned_base
  | |- preserves _ (update_net _ _) =>
      unfold update_net; apply preserves_modify; intros ?; aligned_base
  | |- preserves _ (let '(_, _) := ?p in _) => destruct p
  | |- _ => preserves_with aligned_base
  end.

Section Aligned.
Variable E : Collab.

Lemma aligned_load_diffusers (name : string) (nod : NetworkOnDisk) (scale : Z) :
  preserves keeps_aligned (load_diffusers E name nod scale).
Proof.
  intros x r x' H (Hnd & Hlen & Hdot).
  unfold load_diffusers, bind, get, ret, when, log_msg, modify, lift_res, alloc in H.
  cbn beta iota zeta in H.
  run_cases H; inversion H; subst; clear H;
    unfold diffusers_aligned;
    cbn [diffuser_loaded diffuser_scales set_log set_diffuser set_store];
    try (split; [exact Hnd | split; [exact Hlen | exact Hdot]]).
  all: match goal with
       | Hin : negb (bool_decide (_ ∈ _)) = true |- _ =>
           apply negb_true_iff, bool_decide_eq_false in Hin
       end.
  all: split; [apply NoDup_app; split; [exact Hnd|]; split;
                 [intros z Hz Hz'; apply list_elem_of_singleton in Hz'; subst z; contradiction
                 | apply NoDup_singleton]
              |].
  all: split; [rewrite !length_app; simpl; congruence|].
  all: apply Forall_app; split; [exact Hdot|]; constructor;
         [apply replace_dot_without | constructor].
Qed.

Lemma aligned_load_safetensors (name : string) (nod : NetworkOnDisk) :
  preserves keeps_aligned (load_safetensors E name nod).
Proof.
  unfold load_safetensors. repeat aligned_tac.
  apply preserves_create_modules_gen; [tc_solve|]. intros. aligned_tac.
Qed.

Lemma aligned_load_one (rc : bool) (te un : option (list Z)) (dyn : option (list (option Z)))
    (i : nat) (nod : option NetworkOnDisk) (name : string) :
  preserves keeps_aligned (load_one E rc te un dyn i nod name).
Proof.
  unfold load_one, try_load, set_multipliers.
  repeat aligned_tac;
    first [apply aligned_load_diffusers | apply aligned_load_safetensors].
Qed.

(** The course of a call that returns, for the lists kept for diffusers. *)
Lemma network_load_inv_diffusers (names : list string) (te un : option (list Z))
    (dyn : option (list (option Z))) (x x' : World) :
  network_load E names te un dyn x = (Ok tt, x') ->
  exists (xr xb : World) (rc : bool) (todo : list (option NetworkOnDisk * string)),
    diffuser_loaded xr = [] /\ diffuser_scales xr = []
    /\ load_all E rc te un dyn 0 todo xr = (Ok tt, xb)
    /\ diffuser_loaded x' = diffuser_loaded xb
    /\ diffuser_scales x' = diffuser_scales xb.
Proof.
  intros H. unfold network_load in H.
  apply bind_inv_ok in H. destruct H as ([] & x1 & H1 & H).
  apply bind_inv_ok in H. destruct H as (x1' & x2 & Hg & H).
  inversion Hg; subst x1' x2; clear Hg.
  apply bind_inv_ok in H. destruct H as ([] & x3 & H3 & H).
  apply bind_inv_ok in H. destruct H as (x3' & x4 & Hg & H).
  inversion Hg; subst x3' x4; clear Hg. cbv zeta in H.
  apply bind_inv_ok in H. destruct H as (rc & x5 & H5 & H).
  apply bind_inv_ok in H. destruct H as ([] & x6 & H6 & H).
  apply bind_inv_ok in H. destruct H as (t0 & x7 & H7 & H).
  apply bind_inv_ok in H. destruct H as ([] & x8 & H8 & H).
  apply bind_inv_ok in H. destruct H as (x8' & x9 & Hg & H).
  inversion Hg; subst x8' x9; clear Hg.
  apply bind_inv_ok in H. destruct H as (c & x10 & H10 & H).
  apply bind_inv_ok in H. destruct H as ([] & x11 & H11 & H).
  unfold lift_res in H10. inversion H10; subst x10; clear H10.
  unfold modify in H11. inversion H11; subst x11; clear H11.
  unfold modify in H6. inversion H6; subst x6; clear H6.
  unfold tick in H7. inversion H7; subst x7 t0; clear H7.
  assert (Htail : same_on (fun z => (diffuser_loaded z, diffuser_scales z))
                          (set_lora_cache c x8) x').
  { revert H.
    match goal with
    | |- ?k _ = _ -> _ =>
        assert (Hp : preserves (same_on (fun z => (diffuser_loaded z, diffuser_scales z))) k);
          [|apply Hp]
    end.
    repeat same_tac. }
  unfold same_on in Htail. cbn [diffuser_loaded diffuser_scales set_lora_cache] in Htail.
  inversion Htail as [[Hdl Hds]].
  do 4 eexists. split; [|split; [|split; [exact H8|split; [exact Hdl | exact Hds]]]];
    reflexivity.
Qed.

End Aligned.

(** X15.  When [network_load] returns, the two lists it hands to
    [set_adapters] go together: [diffuser_scales] has one scale for each
    name of [diffuser_loaded], no name is there twice, and no name has a
    dot (the adapter names of diffusers are the requested names with their
    dots replaced). *)
Theorem diffuser_lists_stay_aligned
    (E : Collab) (names : list string) (te un : option (list Z))
    (dyn : option (list (option Z))) (x x' : World) :
  network_load E names te un dyn x = (Ok tt, x') ->
  NoDup (diffuser_loaded x')
  /\ length (diffuser_scales x') = length (diffuser_loaded x')
  /\ Forall (fun n => contains "." n = false) (diffuser_loaded x').
Proof.
  intros H.
  destruct (network_load_inv_diffusers E _ _ _ _ _ _ H)
    as (xr & xb & rc & todo & Hl0 & Hs0 & Hloop & Hdl & Hds).
  assert (Hk : keeps_aligned xr xb).
  { eapply (preserves_load_all_gen E keeps_aligned rc te un dyn todo);
      [intros; apply aligned_load_one | exact Hloop]. }
  assert (Hb : diffusers_aligned xb).
  { apply Hk. unfold diffusers_aligned. rewrite Hl0, Hs0.
    split; [constructor | split; [reflexivity | constructor]]. }
  unfold diffusers_aligned in Hb. rewrite Hdl, Hds. exact Hb.
Qed.

(** ** Edges of the loader *)

(** X16.  A scan changes the registry, the timer [list], the clock and the
    log, and nothing else: the loaded networks, the cache, the model and
    the error counters are as before. *)
Theorem scan_leaves_the_rest_alone (E : Collab) (x : World) :
  beside_the_registry (snd (list_available_networks E x)) = beside_the_registry x
  /\ fst (list_available_networks E x) = Ok tt.
Proof.
  split.
  - destruct (list_available_networks E x) as [r x'] eqn:H. cbn [snd].
    revert H.
    assert (Hp : preserves (same_on beside_the_registry) (list_available_networks E));
      [|apply Hp].
    unfold list_available_networks, add_network. repeat same_tac.
  - destruct (scan_run E x) as (y0 & y & x' & Hrun & _). rewrite Hrun. reflexivity.
Qed.

(** X17.  [network_load] with no name unloads: with a limit that is not
    negative and no compiled model, the call returns with [loaded_networks]
    and the lists kept for diffusers empty; the registry is not scanned
    again, the model and the stored networks are untouched, and the cache
    has lost its oldest entries down to the limit. *)
Theorem network_load_of_no_name_unloads
    (E : Collab) (te un : option (list Z)) (dyn : option (list (option Z))) (x : World) :
  0 <= lora_in_memory_limit (opts x) ->
  compiled_model_state x = None ->
  exists x',
    network_load E [] te un dyn x = (Ok tt, x')
    /\ loaded_networks x' = [] /\ diffuser_loaded x' = [] /\ diffuser_scales x' = []
    /\ registry x' = registry x /\ sd_model x' = sd_model x /\ store x' = store x
    /\ opts x' = opts x
    /\ lora_cache x'
       = drop (length (lora_cache x) - Z.to_nat (lora_in_memory_limit (opts x))) (lora_cache x).
Proof.
  intros Hl Hc.
  unfold network_load.
  unfold bind at 1. unfold modify_timer at 1, modify at 1. cbn beta iota.
  unfold bind at 1. unfold get at 1. cbn beta iota.
  unfold bind at 1. cbn [lookup_names map existsb when]. unfold ret at 1.
  unfold bind at 1. unfold get at 1. cbn beta iota zeta.
  unfold bind at 1. unfold maybe_recompile_model. unfold bind at 1. unfold get at 1.
  cbn beta iota zeta. cbn [compiled_model_state set_timer]. rewrite Hc. unfold ret at 1.
  unfold bind at 1. unfold modify at 1. cbn beta iota.
  unfold bind at 1. unfold tick at 1. cbn beta iota.
  unfold bind at 1. cbn [lookup_names map zip zip_with load_all]. unfold ret at 1.
  unfold bind at 1. unfold get at 1. cbn beta iota.
  unfold bind at 1. unfold lift_res at 1.
  cbn [opts lora_cache set_ticks set_diffuser set_loaded_networks set_timer].
  rewrite evict_nonneg by exact Hl.
  unfold bind, modify, get, when, tick, modify_timer, ret. cbn.
  eexists. split; [reflexivity|]. repeat split.
Qed.

Section FailedLoad.
Variable E : Collab.

(** The runs of [load_safetensors]: a network is handed back, or the
    cache and the store are as they were. *)
Lemma load_safetensors_outcomes (name : string) (nod : NetworkOnDisk)
    (x x' : World) (r : res (option nat)) :
  load_safetensors E name nod x = (r, x') ->
  (exists ref, r = Ok (Some ref)) \/ (lora_cache x' = lora_cache x /\ store x' = store x).
Proof.
  intros H.
  unfold load_safetensors in H. unfold bind at 1 in H. unfold get in H.
  cbn beta iota in H.
  destruct (negb (sd_loaded x)); [inversion H; subst; right; split; reflexivity|].
  unfold bind at 1 in H.
  assert (Hlog : exists x0,
             when (debug E)
               (log_msg LDebug (Msg_load_safetensors name (filename nod)
                                  (bool_decide (is_Some (dict_get name (lora_cache x))))))
               x = (Ok tt, x0)
             /\ lora_cache x0 = lora_cache x /\ store x0 = store x).
  { destruct (debug E); eexists; (split; [reflexivity|]); split; reflexivity. }
  destruct Hlog as (x0 & Hlog & Hc0 & Hs0). rewrite Hlog in H. cbv zeta in H.
  destruct (dict_get name (lora_cache x)) as [ref|]; [inversion H; subst; left; eauto|].
  apply bind_inv in H. destruct H as [(rd & xr & Hr & H)|(e & Hr & ->)].
  2:{ unfold lift_res in Hr. inversion Hr; subst. right. split; assumption. }
  unfold lift_res in Hr. inversion Hr; subst xr; clear Hr. cbv zeta in H.
  apply bind_inv in H. destruct H as [([] & xm & Hm & H)|(e & Hm & ->)];
    [|inversion Hm].
  unfold modify in Hm. inversion Hm; subst xm; clear Hm.
  unfold bind at 1 in H. cbn beta iota in H.
  apply bind_inv in H. destruct H as [(m & xk & Hk & H)|(e & Hk & ->)].
  2:{ unfold lift_res in Hk. inversion Hk; subst. right. split; assumption. }
  unfold lift_res in Hk. inversion Hk; subst xk; clear Hk.
  apply bind_inv in H. destruct H as [([net types] & xc & Hcm & H)|(e & Hcm & ->)].
  2:{ pose proof (preserves_create_modules_gen E
                    (same_on (fun z => (lora_cache z, store z))) name (matched_networks m)) as Hp.
      eapply Hp in Hcm; [|intros; same_tac].
      unfold same_on in Hcm. cbn in Hcm. inversion Hcm. right. split; congruence. }
  assert (Hxc : lora_cache xc = lora_cache x /\ store xc = store x).
  { pose proof (preserves_create_modules_gen E
                  (same_on (fun z => (lora_cache z, store z))) name (matched_networks m)) as Hp.
    eapply Hp in Hcm; [|intros; same_tac].
    unfold same_on in Hcm. cbn in Hcm. inversion Hcm. split; congruence. }
  destruct Hxc as [Hcc Hsc].
  apply bind_inv in H. destruct H as [([] & xl & Hlg & H)|(e & Hlg & ->)].
  2:{ assert (Hp : preserves (same_on (fun z => (lora_cache z, store z)))
                     (if (0 <? length (keys_failed_to_match m))%nat
                      then bind (log_msg LWarning
                                   (Msg_unmatched name types (length (keys_failed_to_match m))
                                      (length (matched_networks m))))
                             (fun _ => when (debug E)
                                (log_msg LDebug (Msg_unmatched_keys name
                                                   (keys_failed_to_match m))))
                      else log_msg LDebug (Msg_keys name types (length (matched_networks m)))))
        by (repeat same_tac).
      apply Hp in Hlg. unfold same_on in Hlg. inversion Hlg. right. split; congruence. }
  assert (Hxl : lora_cache xl = lora_cache x /\ store xl = store x).
  { assert (Hp : preserves (same_on (fun z => (lora_cache z, store z)))
                   (if (0 <? length (keys_failed_to_match m))%nat
                    then bind (log_msg LWarning
                                 (Msg_unmatched name types (length (keys_failed_to_match m))
                                    (length (matched_networks m))))
                           (fun _ => when (debug E)
                              (log_msg LDebug (Msg_unmatched_keys name
                                                 (keys_failed_to_match m))))
                    else log_msg LDebug (Msg_keys name types (length (matched_networks m)))))
      by (repeat same_tac).
    apply Hp in Hlg. unfold same_on in Hlg. inversion Hlg. split; congruence. }
  destruct Hxl as [Hcl Hsl].
  destruct (length (matched_networks m) =? 0)%nat.
  - inversion H; subst. right. split; assumption.
  - unfold bind, alloc, modify, ret in H. inversion H; subst. left. eauto.
Qed.
End FailedLoad.

(** X18.  [lora_cache] and the stored networks change only when
    [load_safetensors] hands back a network: a call that returns [None] or
    raises (the file cannot be read, a conversion fails, a key has no dot)
    leaves both as they were, so that a failed load costs the cache
    nothing. *)
Theorem failed_load_leaves_the_cache
    (E : Collab) (name : string) (nod : NetworkOnDisk) (x x' : World)
    (r : res (option nat)) :
  load_safetensors E name nod x = (r, x') ->
  (forall ref, r <> Ok (Some ref)) ->
  lora_cache x' = lora_cache x /\ store x' = store x.
Proof.
  intros H Hr. destruct (load_safetensors_outcomes E _ _ _ _ _ H) as [[ref ->]|Hk].
  - exfalso. eapply Hr. reflexivity.
  - exact Hk.
Qed.

(** ** The properties on the installation of [Demo] *)

Lemma rescan_forgets_the_previous_registry_witness :
  let E := Demo.collab false true in
  let x := Demo.world "alias" 10 in
  let y := set_registry (<["gone"%string := Demo.styleA]> ∅) (<["Gone"%string := Demo.styleA]> ∅)
                        ∅ (<["gone"%string := 1]> ∅) x in
  registry y <> registry x
  /\ registry (snd (list_available_networks E x)) = registry (snd (list_available_networks E y)).
Proof.
  intros E x y. split; [vm_compute; discriminate|].
  apply (proj1 (rescan_forgets_the_previous_registry E x y eq_refl)).
Defined.

Lemma interrupted_layers_are_left_alone_witness :
  let E := Demo.collab false true in
  let x := Demo.world_with false [Demo.net_with "a" "lora_unet_l2" (Demo.adding [10; 20])]
                           Demo.model in
  let stop := fun i : nat => Nat.eqb i 1 in
  pass_order (modules_of (sd_model x)) !! 1%nat = Some (Demo.layer "lora_unet_l2" [3; 4] None)
  /\ pass_order (modules_of (sd_model (snd (network_activate E stop x)))) !! 1%nat
     = pass_order (modules_of (sd_model x)) !! 1%nat
  /\ pass_order (modules_of (sd_model (snd (network_activate E (fun _ => false) x)))) !! 1%nat
     <> pass_order (modules_of (sd_model x)) !! 1%nat.
Proof.
  intros E x stop. split; [reflexivity|]. split.
  - apply (proj1 (interrupted_layers_are_left_alone E stop x 1 eq_refl)).
  - vm_compute. discriminate.
Defined.

Lemma activation_without_networks_restores_the_backups_witness :
  let E := Demo.collab false true in
  let x := Demo.world_with false [Demo.net_with "a" "lora_unet_l1" (Demo.adding [10; 20])]
                           Demo.model in
  let x1 := snd (network_activate E (fun _ => false) x) in
  let y := snd (network_load E [] None None None x1) in
  values_of (modules_of (sd_model x1)) <> values_of (modules_of (sd_model x))
  /\ exists x2,
       network_activate E (fun _ => false) y = (Ok tt, x2)
       /\ values_of (modules_of (sd_model x2)) = values_of (modules_of (sd_model x)).
Proof.
  intros E x x1 y. split; [vm_compute; discriminate|].
  apply (activation_without_networks_restores_the_backups E x x1 y).
  - reflexivity.
  - reflexivity.
  - unfold Forall_layers. cbn.
    repeat (apply Forall_cons; split); try exact I; try apply Forall_nil_2;
      repeat split; reflexivity.
  - vm_compute. reflexivity.
  - vm_compute. reflexivity.
  - vm_compute. reflexivity.
Defined.

Lemma bias_delta_depends_on_the_order_witness :
  let E := Demo.collab false true in
  let n1 := Demo.net_with "one" "lora_unet_l1" (Demo.biased [10; 20] [7]) in
  let n2 := Demo.net_with "two" "lora_unet_l1" (Demo.adding [1; 1]) in
  let l := Demo.layer "lora_unet_l1" [1; 2] (Some [5]) in
  let w0 := Some (TorchParameter (Demo.vec [1; 2])) in
  fst (network_calc_weights E w0 (Some "lora_unet_l1"%string)
         (l, Demo.world_with false [n1; n2] Demo.model))
  = Ok (Some (Demo.vec [11; 21]), None)
  /\ fst (network_calc_weights E w0 (Some "lora_unet_l1"%string)
            (l, Demo.world_with false [n2; n1] Demo.model))
     = Ok (Some (Demo.vec [11; 21]), Some (Demo.vec [7])).
Proof.
  intros E n1 n2 l w0.
  apply (bias_delta_depends_on_the_order E w0 "lora_unet_l1" l
           (Demo.world_with false [n1; n2] Demo.model)
           (Demo.world_with false [n2; n1] Demo.model)
           n1 n2 (Demo.biased [10; 20] [7]) (Demo.adding [1; 1])
           (Demo.vec [10; 20]) (Demo.vec [1; 1]) (Demo.vec [7]) (Demo.vec [11; 21]));
    reflexivity.
Defined.

Lemma bias_mismatch_keeps_the_weight_delta_witness :
  let E := Demo.collab false true in
  let net := Demo.net_with "two" "lora_unet_l1" (Demo.biased [1; 1] [7; 8]) in
  let l := Demo.layer "lora_unet_l1" [1; 2] (Some [5]) in
  let x := Demo.world_with false [net] Demo.model in
  exists x',
    calc_one E None (Some "lora_unet_l1"%string)
             (Some (Demo.vec [10; 20]), Some (Demo.vec [7])) net (l, x)
    = (Ok (Some (Demo.vec [11; 21]), Some (Demo.vec [7])), (l, x'))
    /\ errors x' = <["two"%string := 1]> ∅
    /\ timer x' = timer x.
Proof.
  intros E net l x.
  apply (bias_mismatch_keeps_the_weight_delta E None "lora_unet_l1" net
           (Demo.biased [1; 1] [7; 8]) l x
           (Demo.vec [10; 20]) (Demo.vec [7]) (Demo.vec [1; 1]) (Demo.vec [7; 8])
           (Demo.vec [11; 21]));
    reflexivity.
Defined.

Lemma maybe_recompile_model_when_the_request_changed_witness :
  let E := Demo.collab false true in
  let x := Demo.world_compiled [("styleA"%string, 1)] in
  let same := maybe_recompile_model E ["styleA"%string] None x in
  let other := maybe_recompile_model E ["styleA"%string] (Some [2]) x in
  fst same = Ok false /\ fst other = Ok true
  /\ same_request 1 None ["styleA"%string] [("styleA"%string, 1)]
  /\ ~ same_request 1 (Some [2]) ["styleA"%string] [("styleA"%string, 1)]
  /\ compiled_model_state (snd other) = Some (mkCompiledState true []).
Proof.
  intros E x same other.
  destruct (maybe_recompile_model_when_the_request_changed E ["styleA"%string] None
              x (snd same) (mkCompiledState true [("styleA"%string, 1)]) false
              eq_refl eq_refl eq_refl) as (Hsame & _).
  destruct (maybe_recompile_model_when_the_request_changed E ["styleA"%string] (Some [2])
              x (snd other) (mkCompiledState true [("styleA"%string, 1)]) true
              eq_refl eq_refl eq_refl) as (Hother & _ & Htrue & _).
  split; [reflexivity|]. split; [reflexivity|].
  split; [apply Hsame; reflexivity|].
  split; [intros Hs; apply Hother in Hs; discriminate|].
  apply Htrue. reflexivity.
Defined.

Lemma network_load_returns_unless_the_limit_is_negative_witness :
  let E := Demo.collab false true in
  (exists x', network_load E ["styleA"%string; "missing"%string] (Some [3; 4]) None None
                (Demo.world "filename" 10) = (Ok tt, x'))
  /\ ~ (exists x', network_load E ["styleA"%string] None None None
                     (Demo.world "filename" (-1)) = (Ok tt, x')).
Proof.
  intros E. split.
  - apply (network_load_returns_unless_the_limit_is_negative E
             ["styleA"%string; "missing"%string] (Some [3; 4]) None None
             (Demo.world "filename" 10)); simpl; try exact I; lia.
  - intros H.
    apply (network_load_returns_unless_the_limit_is_negative E
             ["styleA"%string] None None None (Demo.world "filename" (-1))) in H;
      simpl in *; try exact I. lia.
Defined.

Lemma cached_network_is_served_again_witness :
  let E := Demo.collab false true in
  let x1 := snd (load_safetensors E "styleA" Demo.styleA (Demo.world "alias" 10)) in
  let y := snd (load_safetensors E "styleB_v2" Demo.styleB x1) in
  let gone := mkNetworkOnDisk "styleA" "/loras/removed.safetensors" "Style" "" "sd" in
  fst (load_safetensors E "styleA" gone (Demo.world "alias" 10)) = Raise OSError
  /\ lora_cache y <> lora_cache x1
  /\ exists y',
       load_safetensors (Demo.collab true false) "styleA" gone y = (Ok (Some 0%nat), y')
       /\ store y' = store y /\ lora_cache y' = lora_cache y /\ sd_model y' = sd_model y.
Proof.
  intros E x1 y gone. split; [vm_compute; reflexivity|].
  split; [vm_compute; discriminate|].
  apply (cached_network_is_served_again E "styleA" Demo.styleA (Demo.world "alias" 10) x1 0).
  - vm_compute. reflexivity.
  - vm_compute. reflexivity.
  - vm_compute. reflexivity.
Defined.

Lemma diffuser_lists_stay_aligned_witness :
  let E := Demo.collab false true in
  let r := network_load E ["styleA"%string; "styleB_v2"%string; "styleB_v2"%string]
                        (Some [3; 4; 5]) None None Demo.world_diffusers in
  diffuser_loaded (snd r) = ["styleA"%string; "styleB_v2"%string]
  /\ diffuser_scales (snd r) = [3; 4]
  /\ NoDup (diffuser_loaded (snd r))
  /\ length (diffuser_scales (snd r)) = length (diffuser_loaded (snd r))
  /\ Forall (fun n => contains "." n = false) (diffuser_loaded (snd r)).
Proof.
  intros E r. split; [vm_compute; reflexivity|]. split; [vm_compute; reflexivity|].
  apply (diffuser_lists_stay_aligned E
           ["styleA"%string; "styleB_v2"%string; "styleB_v2"%string]
           (Some [3; 4; 5]) None None Demo.world_diffusers (snd r)).
  vm_compute. reflexivity.
Defined.

Lemma network_load_of_no_name_unloads_witness :
  let E := Demo.collab false true in
  let x := snd (network_load E ["styleA"%string; "styleB_v2"%string] None None None
                  (Demo.world "filename" 1)) in
  loaded_networks x = [0%nat; 1%nat]
  /\ exists x',
       network_load E [] None None None x = (Ok tt, x')
       /\ loaded_networks x' = [] /\ lora_cache x' = lora_cache x /\ store x' = store x.
Proof.
  intros E x. split; [vm_compute; reflexivity|].
  destruct (network_load_of_no_name_unloads E None None None x)
    as (x' & Hrun & Hl & _ & _ & _ & _ & Hs & _ & Hc).
  - vm_compute. discriminate.
  - vm_compute. reflexivity.
  - exists x'. split; [exact Hrun|]. split; [exact Hl|]. split; [|exact Hs].
    rewrite Hc. vm_compute. reflexivity.
Defined.

Lemma failed_load_leaves_the_cache_witness :
  let E := Demo.collab false true in
  let x := snd (load_safetensors E "styleA" Demo.styleA (Demo.world "alias" 10)) in
  let dotless := mkNetworkOnDisk "x" "/loras/dotless.safetensors" "x" "" "sd" in
  let r := load_safetensors E "x" dotless x in
  fst r = Raise ValueError
  /\ lora_cache x = [("styleA"%string, 0%nat)]
  /\ lora_cache (snd r) = lora_cache x /\ store (snd r) = store x.
Proof.
  intros E x dotless r. split; [vm_compute; reflexivity|]. split; [vm_compute; reflexivity|].
  apply (failed_load_leaves_the_cache E "x" dotless x (snd r) (fst r)).
  - apply surjective_pairing.
  - intros ref. vm_compute. discriminate.
Defined.

(** ** One object for one name *)

Section Shared.
Variable E : Collab.

(** A turn of the loop of [network_load] for a name that is in the cache:
    the cached object is not copied, it is given the name and the
    multipliers of this turn and appended to [loaded_networks]. *)
Lemma load_one_cached (te un : option (list Z)) (dyn : option (list (option Z)))
    (i : nat) (nod : NetworkOnDisk) (n : string) (x : World) (r : nat)
    (v1 v2 : Z) (v3 : option Z) :
  dict_get n (lora_cache x) = Some r -> sd_loaded x = true ->
  lora_force_diffusers (opts x) = false ->
  check_override E (PyStr.lower (shorthash nod)) = false ->
  pick te i (extra_networks_default_multiplier (opts x)) = Ok v1 ->
  pick un i (extra_networks_default_multiplier (opts x)) = Ok v2 ->
  pick dyn i (Some (extra_networks_default_multiplier (opts x))) = Ok v3 ->
  exists x',
    load_one E false te un dyn i (Some nod) n x = (Ok tt, x')
    /\ store x'
       = alter (fun net => set_dyn_dim v3 (set_unet_multiplier v2
                             (set_te_multiplier v1 (set_mentioned_name n net))))
               r (store x)
    /\ loaded_networks x' = loaded_networks x ++ [r]
    /\ lora_cache x' = lora_cache x /\ opts x' = opts x /\ sd_loaded x' = sd_loaded x
    /\ compiled_model_state x' = compiled_model_state x
    /\ diffuser_loaded x' = diffuser_loaded x.
Proof.
  intros Hc Hsd Hf Ho H1 H2 H3.
  unfold load_one. unfold bind at 1. unfold try_load.
  unfold bind at 1. unfold get at 1. cbn beta iota zeta.
  unfold bind at 1.
  set (x0 := if debug E
             then set_log (log x ++ [(LDebug, Msg_load_hash n (filename nod)
                                                (PyStr.lower (shorthash nod)))]) x
             else x).
  replace (when (debug E)
             (log_msg LDebug (Msg_load_hash n (filename nod) (PyStr.lower (shorthash nod)))) x)
    with (@Ok unit tt, x0) by (subst x0; destruct (debug E); reflexivity).
  assert (Hx0 : dict_get n (lora_cache x0) = Some r /\ sd_loaded x0 = true
                /\ store x0 = store x /\ loaded_networks x0 = loaded_networks x
                /\ lora_cache x0 = lora_cache x /\ opts x0 = opts x
                /\ compiled_model_state x0 = compiled_model_state x
                /\ diffuser_loaded x0 = diffuser_loaded x).
  { subst x0. destruct (debug E); repeat split; assumption. }
  destruct Hx0 as (Hc0 & Hsd0 & Hs0 & Hl0 & Hca0 & Ho0 & Hcm0 & Hd0).
  unfold try_except. cbn [when]. unfold bind at 1. unfold ret at 1.
  rewrite Hf, Ho. cbn [orb].
  unfold bind at 1. rewrite (load_safetensors_hit E n nod x0 r Hsd0 Hc0).
  set (x1 := if debug E
             then set_log (log x0 ++ [(LDebug, Msg_load_safetensors n (filename nod) true)]) x0
             else x0).
  assert (Hx1 : store x1 = store x /\ loaded_networks x1 = loaded_networks x
                /\ lora_cache x1 = lora_cache x /\ opts x1 = opts x
                /\ sd_loaded x1 = sd_loaded x
                /\ compiled_model_state x1 = compiled_model_state x
                /\ diffuser_loaded x1 = diffuser_loaded x).
  { subst x1. destruct (debug E); cbn; repeat split; congruence. }
  destruct Hx1 as (Hs1 & Hl1 & Hca1 & Ho1 & Hsd1 & Hcm1 & Hd1).
  unfold bind at 1. unfold update_net at 1, modify at 1. cbn beta iota.
  unfold ret at 1. cbn beta iota.
  unfold set_multipliers. unfold bind at 1. unfold get at 1. cbn beta iota zeta.
  cbn [opts set_store]. rewrite Ho1, H1, H2, H3.
  unfold bind, lift_res, update_net, modify. cbn beta iota.
  eexists. split; [reflexivity|].
  cbn [store loaded_networks lora_cache opts sd_loaded compiled_model_state diffuser_loaded
       set_store set_loaded_networks].
  rewrite Hs1, Hl1, Hca1, Ho1, Hsd1, Hcm1, Hd1.
  split; [|repeat split].
  rewrite !list_alter_alter_eq. reflexivity.
Qed.

End Shared.

(** X19.  A name asked for twice is loaded once.  When the name is in the
    cache, both turns of [network_load] take the cached object itself, and
    the second turn writes its multipliers over those of the first:
    [loaded_networks] holds the same object twice, with the multiplier of
    the second request, and the multiplier of the first request is in
    neither entry of the signature that [network_activate] builds. *)
Theorem same_name_twice_is_one_network
    (E : Collab) (n : string) (nod : NetworkOnDisk) (r : nat) (net : Network)
    (a b : Z) (x : World) :
  available_network_aliases x !! n = Some nod ->
  compiled_model_state x = None ->
  dict_get n (lora_cache x) = Some r -> store x !! r = Some net ->
  sd_loaded x = true -> lora_force_diffusers (opts x) = false ->
  check_override E (PyStr.lower (shorthash nod)) = false ->
  0 <= lora_in_memory_limit (opts x) ->
  let d := extra_networks_default_multiplier (opts x) in
  exists x',
    network_load E [n; n] (Some [a; b]) None None x = (Ok tt, x')
    /\ loaded_networks x' = [r; r]
    /\ wanted_names_of (loaded x') = [(name net, b, d, Some d); (name net, b, d, Some d)]
    /\ map mentioned_name (loaded x') = [n; n].
Proof.
  intros Hreg Hcm Hc Hs Hsd Hf Ho Hl d.
  unfold network_load.
  unfold bind at 1. unfold modify_timer at 1, modify at 1. cbn beta iota.
  set (x1 := set_timer (set_t_list 0 (timer x)) x).
  unfold bind at 1. unfold get at 1. cbn beta iota.
  assert (Hlook : lookup_names x1 [n; n] = [Some nod; Some nod]).
  { unfold lookup_names. cbn [map]. change (available_network_aliases x1)
      with (available_network_aliases x). rewrite Hreg. reflexivity. }
  rewrite Hlook. cbn [existsb]. rewrite !bool_decide_eq_true_2 by eauto.
  cbn [negb orb when]. unfold bind at 1. unfold ret at 1.
  unfold bind at 1. unfold get at 1. cbn beta iota zeta.
  rewrite Hlook.
  unfold bind at 1. unfold maybe_recompile_model. unfold bind at 1. unfold get at 1.
  cbn beta iota zeta. change (compiled_model_state x1) with (compiled_model_state x).
  rewrite Hcm. unfold ret at 1.
  unfold bind at 1. unfold modify at 1. cbn beta iota.
  unfold bind at 1. unfold tick at 1. cbn beta iota.
  set (x3 := set_ticks _ _).
  cbn [zip zip_with load_all].
  destruct (load_one_cached E (Some [a; b]) None None 0 nod n x3 r a d (Some d))
    as (x4 & H4 & Hs4 & Hl4 & Hc4 & Ho4 & Hsd4 & Hcm4 & Hd4); try assumption; try reflexivity.
  destruct (load_one_cached E (Some [a; b]) None None 1 nod n x4 r b d (Some d))
    as (x5 & H5 & Hs5 & Hl5 & Hc5 & Ho5 & Hsd5 & Hcm5 & Hd5);
    try (rewrite ?Ho4; reflexivity); try congruence.
  { rewrite Hc4. exact Hc. }
  { rewrite Hsd4. exact Hsd. }
  { rewrite Ho4. exact Hf. }
  unfold bind at 1. unfold bind at 1. rewrite H4.
  unfold bind at 1. rewrite H5. unfold ret at 1.
  unfold bind at 1. unfold get at 1. cbn beta iota.
  unfold bind at 1. unfold lift_res at 1.
  assert (Ho5x : opts x5 = opts x) by (rewrite Ho5, Ho4; reflexivity).
  rewrite Ho5x. rewrite evict_nonneg by exact Hl.
  unfold bind at 1. unfold modify at 1. cbn beta iota.
  unfold bind at 1. unfold get at 1. cbn beta iota.
  cbn [diffuser_loaded set_lora_cache]. rewrite Hd5, Hd4.
  change (diffuser_loaded x3) with (@nil string). cbn [length Nat.ltb Nat.leb when].
  unfold bind at 1. unfold ret at 1.
  unfold bind at 1. unfold get at 1. cbn beta iota.
  assert (Hloaded : loaded_networks x5 = [r; r]).
  { rewrite Hl5, Hl4. reflexivity. }
  assert (Hstore : exists net',
             store x5 !! r = Some net'
             /\ name net' = name net /\ te_multiplier net' = b /\ unet_multiplier net' = d
             /\ dyn_dim net' = Some d /\ mentioned_name net' = n).
  { rewrite Hs5, Hs4. change (store x3) with (store x).
    rewrite !list_lookup_alter_eq. rewrite Hs. cbn. eexists. split; [reflexivity|].
    repeat split. }
  destruct Hstore as (net' & Hn' & Hname & Hte & Hun & Hdd & Hmn).
  unfold bind, get, when, log_msg, modify, tick, modify_timer, ret. cbn beta iota.
  match goal with
  | |- context [if ?c then _ else _] => destruct c
  end;
    (eexists; split; [reflexivity|]);
    cbn [loaded_networks set_timer set_ticks set_log set_lora_cache];
    (split; [exact Hloaded|]);
    unfold loaded;
    cbn [loaded_networks store set_timer set_ticks set_log set_lora_cache];
    rewrite Hloaded; cbn [omap list_omap]; rewrite Hn'; cbn [wanted_names_of map];
    rewrite Hname, Hte, Hun, Hdd, Hmn; split; reflexivity.
Qed.

Lemma same_name_twice_is_one_network_witness :
  let E := Demo.collab false true in
  let x := snd (network_load E ["styleA"%string] None None None (Demo.world "filename" 10)) in
  exists x',
    network_load E ["styleA"%string; "styleA"%string] (Some [3; 4]) None None x = (Ok tt, x')
    /\ loaded_networks x' = [0%nat; 0%nat]
    /\ wanted_names_of (loaded x')
       = [("styleA"%string, 4, 1, Some 1); ("styleA"%string, 4, 1, Some 1)].
Proof.
  intros E x.
  destruct (same_name_twice_is_one_network E "styleA" Demo.styleA 0
              (default (Network_init E "styleA" Demo.styleA) (store x !! 0%nat)) 3 4 x)
    as (x' & Hrun & Hl & Hw & _); try (vm_compute; reflexivity).
  { vm_compute. discriminate. }
  exists x'. split; [exact Hrun|]. split; [exact Hl|]. rewrite Hw. vm_compute. reflexivity.
Defined.

(** ** From one set of networks to another *)

Section Switch.
Variable E : Collab.

(** What [network_apply_weights] writes into a layer whose backups are
    copies depends on the copies and on the deltas, not on what the layer
    holds. *)
Lemma apply_from_copies (l m : Layer) (x y : World) (updown ex_bias : option tensor)
    (w0 : tensor) (vb : option tensor) :
  network_weights_backup l = Some (BTensor w0) ->
  network_weights_backup m = Some (BTensor w0) ->
  network_bias_backup l = option_map BTensor vb ->
  network_bias_backup m = option_map BTensor vb ->
  is_4bit (quant_type l) = false -> is_4bit (quant_type m) = false ->
  exists r l' m' x' y',
    network_apply_weights E updown ex_bias false (l, x) = (r, (l', x'))
    /\ network_apply_weights E updown ex_bias false (m, y) = (r, (m', y'))
    /\ (r = Ok tt ->
        layer_values l' = layer_values m'
        /\ has_weight m' = true
        /\ is_4bit (quant_type m') = false
        /\ (vb = None -> getattr_or_none (bias m') = None)).
Proof.
  intros Hwl Hwm Hbl Hbm Hql Hqm.
  unfold network_apply_weights, bind, liftW, tick, get_layer, get_world, gets,
    modify_layer, modify, modify_timer, lift_res, ret, not_none, getattr.
  cbn [fst snd]. rewrite Hwl, Hwm, Hbl, Hbm.
  destruct updown as [u|]; destruct vb as [b0|]; destruct ex_bias as [e|];
    cbn [option_map];
    repeat (cbn [fst snd quant_type set_weight set_bias andb]; rewrite ?Hql, ?Hqm;
            cbn [fst snd andb];
            match goal with
            | |- context [is_inpainting ?t] => destruct (is_inpainting t)
            | |- context [match pad_channels ?t with _ => _ end] =>
                destruct (pad_channels t)
            | |- context [match tensor_add ?a ?b with _ => _ end] =>
                destruct (tensor_add a b)
            end);
    cbn; rewrite ?Hql, ?Hqm; cbn;
    do 5 eexists; (split; [reflexivity|]); (split; [reflexivity|]);
    intros Hr; try discriminate; repeat split; intros;
      first [congruence | cbn; assumption].
Qed.

(** With no delta, the copies go back into the layer. *)
Lemma apply_copies_back (l : Layer) (x : World) (w0 : tensor) (vb : option tensor) :
  network_weights_backup l = Some (BTensor w0) ->
  network_bias_backup l = option_map BTensor vb ->
  exists l' x',
    network_apply_weights E None None false (l, x) = (Ok tt, (l', x'))
    /\ layer_values l' = (Some w0, vb).
Proof.
  intros Hw Hb.
  unfold network_apply_weights, bind, liftW, tick, get_layer, get_world, gets,
    modify_layer, modify, modify_timer, lift_res, ret, not_none, getattr.
  cbn [fst snd]. rewrite Hw, Hb.
  destruct vb as [b0|]; cbn; do 2 eexists; split; reflexivity.
Qed.

(** A layer that has its copies is not copied again. *)
Lemma backup_again (w0 : option Param) (n : string) (wanted : Signature)
    (l : Layer) (x : World) (b0 : Backup) :
  network_weights_backup l = Some b0 ->
  network_bias_backup l <> None \/ getattr_or_none (bias l) = None ->
  exists z x', network_backup_weights E w0 (Some n) wanted (l, x) = (Ok z, (l, x')).
Proof.
  intros Hw Hb.
  unfold network_backup_weights. unfold bind at 1. unfold get_world, gets at 1.
  cbn [fst snd]. destruct (backup_gate x (Some n)); [|do 2 eexists; reflexivity].
  unfold bind at 1. unfold liftW, tick. cbn [fst snd].
  unfold bind at 1. unfold backup_weight. unfold bind at 1. unfold get_layer, gets at 1.
  cbn [fst snd]. rewrite Hw. rewrite bool_decide_eq_false_2 by discriminate.
  cbn [andb when]. unfold ret at 1.
  unfold bind at 1. rewrite backup_bias_run.
  assert (Hsame : (if bool_decide (network_bias_backup l = None)
                   then set_network_bias_backup
                          (bias_backup_value (set_ticks (S (ticks x)) x) l) l
                   else l) = l).
  { case_bool_decide as Hnone; [|reflexivity].
    destruct Hb as [Hb|Hb]; [contradiction|].
    unfold bias_backup_value. rewrite Hb.
    destruct l; cbn in *. subst. reflexivity. }
  rewrite Hsame.
  unfold bind, get_layer, gets, liftW, tick, modify_timer, modify, ret. cbn [fst snd].
  do 2 eexists. reflexivity.
Qed.

(** The copy stage of an activation, from any of the three conditions. *)
Lemma backup_to_copies (w1 w2 : Signature) (n : string) (l m : Layer) (y : World)
    (p : Param) :
  lora_low_memory (opts y) = false -> lora_fuse_diffusers (opts y) = false ->
  untouched l -> patched_from w1 l m ->
  getattr_or_none (weight l) = Some p ->
  w2 <> [] -> backup_gate y (Some n) = true ->
  exists z mb y',
    network_backup_weights E (getattr_or_none (weight m)) (Some n) w2 (m, y)
    = (Ok z, (mb, y'))
    /\ holds_copies l mb.
Proof.
  intros Hlow Hfuse [Hp Hcur] Hm Hw Hw2 Hgate.
  pose proof Hp as (Hwb & Hbb & Hq & Hpq).
  assert (Hhas : has_weight l = true).
  { unfold has_weight. destruct (weight l); [discriminate | reflexivity]. }
  assert (Hplain : forall m0, pristine m0 -> weight m0 = weight l -> bias m0 = bias l ->
                              quant_type m0 = quant_type l ->
            exists z mb y',
              network_backup_weights E (getattr_or_none (weight m0)) (Some n) w2 (m0, y)
              = (Ok z, (mb, y'))
              /\ holds_copies l mb).
  { intros m0 Hp0 Hw0 Hb0 Hq0.
    pose proof (backup_plain_run E n w2 m0 y Hlow Hfuse Hp0 Hw2 Hgate) as Hrun.
    rewrite Hw0, Hw in Hrun |- *. destruct Hrun as (z & y1 & Hrun).
    do 3 eexists. split; [exact Hrun|].
    exists p. split; [exact Hw|].
    cbn [network_weights_backup network_bias_backup set_network_bias_backup
         set_network_weights_backup quant_type has_weight weight bias].
    unfold has_weight.
    cbn [weight set_network_bias_backup set_network_weights_backup].
    rewrite Hb0, Hq0, Hw0. repeat split; try assumption; try exact Hhas. intros Hnone; exact Hnone. }
  destruct Hm as [->|[->|(Hc & Hn & _ & Hcopies)]].
  - apply Hplain; [exact Hp | reflexivity..].
  - apply Hplain; [|reflexivity..]. exact Hp.
  - pose proof Hcopies as (p' & Hw' & Hwm & Hbm & Hqm & Hhm & Hbias).
    destruct (backup_again (getattr_or_none (weight m)) n w2 m y _ Hwm) as (z & y' & Hrun).
    { destruct (getattr_or_none (bias l)) as [b|].
      - left. rewrite Hbm. discriminate.
      - right. apply Hbias. reflexivity. }
    do 3 eexists. split; [exact Hrun | exact Hcopies].
Qed.

(** An activation put together from its three stages. *)
Lemma activate_layer_run (w : Signature) (j : nat) (m mb mc : Layer) (y yb yc yd : World)
    (n : string) (z : Z) (batch : option tensor * option tensor) :
  network_layer_name m = Some n -> default [] (network_current_names m) <> w ->
  network_backup_weights E (getattr_or_none (weight m)) (Some n) w (m, y)
  = (Ok z, (mb, yb)) ->
  network_calc_weights E (getattr_or_none (weight m)) (Some n) (mb, yb)
  = (Ok batch, (mb, yc)) ->
  network_apply_weights E (fst batch) (snd batch) false (mb, yc) = (Ok tt, (mc, yd)) ->
  activate_layer E w (fun _ => false) j (m, y)
  = (Ok tt, (set_network_current_names (Some w) mc, yd)).
Proof.
  intros Hn Hsig Hb Hc Ha.
  unfold activate_layer. unfold bind at 1. unfold get_layer, gets at 1.
  cbn [fst snd orb]. rewrite Hn. rewrite bool_decide_eq_false_2 by discriminate.
  unfold sig_eqb. rewrite bool_decide_eq_false_2 by exact Hsig. cbn [orb].
  unfold bind at 1. rewrite Hb.
  unfold bind at 1. rewrite Hc.
  unfold bind at 1. rewrite Ha.
  reflexivity.
Qed.

(** The three stages of an activation that returned. *)
Lemma activate_layer_stages (w : Signature) (i : nat) (l l1 : Layer) (x x1 : World)
    (n : string) :
  network_layer_name l = Some n -> default [] (network_current_names l) <> w ->
  activate_layer E w (fun _ => false) i (l, x) = (Ok tt, (l1, x1)) ->
  exists z la xa batch xb lc,
    network_backup_weights E (getattr_or_none (weight l)) (Some n) w (l, x)
    = (Ok z, (la, xa))
    /\ network_calc_weights E (getattr_or_none (weight l)) (Some n) (la, xa)
       = (Ok batch, (la, xb))
    /\ network_apply_weights E (fst batch) (snd batch) false (la, xb) = (Ok tt, (lc, x1))
    /\ l1 = set_network_current_names (Some w) lc
    /\ step_frame x xa /\ step_frame x xb.
Proof.
  intros Hn Hsig H.
  unfold activate_layer in H. unfold bind at 1 in H. unfold get_layer, gets at 1 in H.
  cbn [fst snd orb] in H. rewrite Hn in H.
  rewrite bool_decide_eq_false_2 in H by discriminate.
  unfold sig_eqb in H. rewrite bool_decide_eq_false_2 in H by exact Hsig. cbn [orb] in H.
  apply bind_inv_ok in H. destruct H as (z & [la xa] & Hb & H).
  apply bind_inv_ok in H. destruct H as (batch & [lb xb] & Hc & H).
  apply bind_inv_ok in H. destruct H as ([] & [lc xc] & Ha & H).
  unfold modify_layer, modify in H. cbn [fst snd] in H. inversion H; subst l1 x1; clear H.
  pose proof (calc_keeps_layer E _ _ _ _ _ Hc) as Hlb. unfold same_lw in Hlb.
  cbn [fst] in Hlb. subst lb.
  pose proof (frame_network_backup_weights E _ _ _ _ _ _ Hb) as Hfa.
  pose proof (frame_network_calc_weights E _ _ _ _ _ Hc) as Hfb.
  unfold lw_frame in Hfa, Hfb. cbn [snd] in Hfa, Hfb.
  assert (Hfc : step_frame x xb) by (etransitivity; eassumption).
  exists z, la, xa, batch, xb, lc.
  split; [exact Hb|]. split; [exact Hc|]. split; [exact Ha|].
  split; [reflexivity|]. split; assumption.
Qed.

(** What the first activation makes of an untouched layer. *)
Lemma first_pass (w1 : Signature) (i : nat) (l l1 : Layer) (x x1 : World) :
  lora_low_memory (opts x) = false -> lora_fuse_diffusers (opts x) = false ->
  w1 = wanted_names_of (loaded x) ->
  untouched l ->
  activate_layer E w1 (fun _ => false) i (l, x) = (Ok tt, (l1, x1)) ->
  patched_from w1 l l1.
Proof.
  intros Hlow Hfuse Hw1 Hu H. pose proof Hu as [Hp Hcur].
  pose proof Hp as (Hwb & Hbb & Hq & Hpq).
  destruct (network_layer_name l) as [n|] eqn:Hn.
  2: { rewrite activate_layer_skip in H by (left; exact Hn).
       inversion H. left. reflexivity. }
  destruct (decide (w1 = [])) as [He|Hne].
  { rewrite activate_layer_skip in H by (right; rewrite Hcur; symmetry; exact He).
    inversion H. left. reflexivity. }
  destruct (activate_layer_stages w1 i l l1 x x1 n Hn) as
    (z & la & xa & batch & xb & lc & Hb & Hc & Ha & Hl1 & Hfa & Hfb); [|exact H|].
  { rewrite Hcur. cbn [default]. congruence. }
  destruct (backup_gate x (Some n)) eqn:Hgate.
  - destruct (getattr_or_none (weight l)) as [p|] eqn:Hw.
    2: { pose proof (backup_plain_run E n w1 l x Hlow Hfuse Hp Hne Hgate) as Hrun.
         rewrite Hw in Hrun. destruct Hrun as (e & y & Hrun).
         rewrite Hrun in Hb. discriminate. }
    destruct (backup_to_copies w1 w1 n l l x p Hlow Hfuse Hu (or_introl eq_refl)
                Hw Hne Hgate) as (z' & mb & y' & Hrun & Hcopies).
    rewrite Hw in Hrun. rewrite Hrun in Hb. inversion Hb; subst z' mb y'; clear Hb.
    destruct Hcopies as (p' & Hw' & Hwm & Hbm & Hqm & Hhm & Hbias).
    destruct (apply_from_copies la la xb xb (fst batch) (snd batch) _ _
                Hwm Hwm Hbm Hbm Hqm Hqm) as (r & l' & m' & x' & y'' & H1 & H2 & Hres).
    rewrite Ha in H2. inversion H2; subst r m' y''; clear H2 H1.
    destruct (Hres eq_refl) as (_ & Hhas & Hq' & Hb').
    pose proof (apply_keeps_backups E _ _ _ _ _ _ Ha) as Hk. unfold same_lw in Hk.
    cbn [fst] in Hk. inversion Hk as [[Hkw Hkb Hkn Hkc]]. clear Hk.
    assert (Hna : network_layer_name la = Some n).
    { pose proof (kept_network_backup_weights E _ _ _ _ _ _ Hrun) as Hk.
      unfold same_lw in Hk. cbn [fst snd] in Hk. inversion Hk as [[Hk1 Hk2]].
      rewrite Hk1. exact Hn. }
    right. right. subst l1.
    cbn [network_current_names network_layer_name set_network_current_names].
    split; [reflexivity|]. split; [congruence|].
    split; [rewrite Hn; discriminate|].
    exists p'. cbn [network_weights_backup network_bias_backup quant_type has_weight
                    bias weight set_network_current_names].
    split; [exact Hw'|]. split; [congruence|]. split; [congruence|].
    split; [exact Hq'|]. split; [exact Hhas | exact Hb'].
  - rewrite backup_gate_closed in Hb by exact Hgate.
    inversion Hb; subst z la xa; clear Hb.
    rewrite apply_unpatched in Ha by assumption.
    inversion Ha; subst lc x1. right. left. exact Hl1.
Qed.

(** With no network that has a module for the layer, an activation leaves
    or puts back what the layer held. *)
Lemma gate_closed_run (w1 w : Signature) (j : nat) (l m : Layer) (y : World) (n : string) :
  untouched l -> patched_from w1 l m ->
  network_layer_name l = Some n ->
  default [] (network_current_names m) <> w ->
  backup_gate y (Some n) = false ->
  exists lB y',
    activate_layer E w (fun _ => false) j (m, y) = (Ok tt, (lB, y'))
    /\ layer_values lB = layer_values l.
Proof.
  intros [Hp Hcur] Hm Hn Hsig Hgate. pose proof Hp as (Hwb & Hbb & Hq & Hpq).
  assert (Hnm : network_layer_name m = Some n).
  { destruct Hm as [->|[->|(_ & Hnm & _)]]; [exact Hn | exact Hn | congruence]. }
  assert (Hplain : network_weights_backup m = None -> network_bias_backup m = None ->
                   layer_values m = layer_values l ->
                   exists lB y',
                     activate_layer E w (fun _ => false) j (m, y) = (Ok tt, (lB, y'))
                     /\ layer_values lB = layer_values l).
  { intros Hwm Hbm Hv. do 2 eexists. split.
    - eapply activate_layer_run; [exact Hnm | exact Hsig | | |].
      + apply backup_gate_closed. exact Hgate.
      + apply calc_gate_closed. exact Hgate.
      + apply apply_unpatched; assumption.
    - exact Hv. }
  destruct Hm as [->|[->|(_ & _ & _ & p & Hw & Hwm & Hbm & _)]].
  - apply Hplain; [assumption | assumption | reflexivity].
  - apply Hplain; [assumption | assumption | reflexivity].
  - destruct (apply_copies_back m y _ _ Hwm Hbm) as (l' & y' & Ha & Hv).
    do 2 eexists. split.
    + eapply activate_layer_run; [exact Hnm | exact Hsig | | |].
      * apply backup_gate_closed. exact Hgate.
      * apply calc_gate_closed. exact Hgate.
      * exact Ha.
    + unfold layer_values in Hv |- *.
      cbn [weight bias set_network_current_names]. rewrite Hv, Hw. reflexivity.
Qed.

(** A layer the first set left behind, activated for another set, ends with
    the values an untouched layer gets. *)
Lemma switch_layer (w1 w2 : Signature) (i j : nat) (l m lA : Layer) (z y z' : World) :
  lora_low_memory (opts z) = false -> lora_fuse_diffusers (opts z) = false ->
  opts y = opts z -> loaded y = loaded z ->
  (forall n, Forall (weight_independent n) (loaded z)) ->
  w2 = wanted_names_of (loaded z) -> w2 <> w1 ->
  untouched l -> patched_from w1 l m ->
  activate_layer E w2 (fun _ => false) i (l, z) = (Ok tt, (lA, z')) ->
  exists lB y',
    activate_layer E w2 (fun _ => false) j (m, y) = (Ok tt, (lB, y'))
    /\ layer_values lB = layer_values lA.
Proof.
  intros Hlow Hfuse Hopts Hloaded Hind Hw2 Hdiff Hu Hm HA.
  pose proof Hu as [Hp Hcur]. pose proof Hp as (Hwb & Hbb & Hq & Hpq).
  destruct (network_layer_name l) as [n|] eqn:Hn.
  2: { rewrite activate_layer_skip in HA by (left; exact Hn).
       inversion HA; subst lA z'; clear HA.
       destruct Hm as [->|[->|(_ & _ & Hne & _)]]; [| |congruence].
       - exists l, y. split; [|reflexivity].
         apply activate_layer_skip. left. exact Hn.
       - exists (set_network_current_names (Some w1) l), y. split; [|reflexivity].
         apply activate_layer_skip. left. exact Hn. }
  assert (Hgy : backup_gate y (Some n) = backup_gate z (Some n))
    by (rewrite !gate_any, Hloaded; reflexivity).
  assert (Hsm : m = l \/ default [] (network_current_names m) <> w2).
  { destruct Hm as [->|[->|(Hc & _)]]; [left; reflexivity | right | right].
    - intros Heq. apply Hdiff. symmetry. exact Heq.
    - rewrite Hc. intros Heq. apply Hdiff. symmetry. exact Heq. }
  destruct (decide (w2 = [])) as [He|Hne].
  { rewrite activate_layer_skip in HA by (right; rewrite Hcur; symmetry; exact He).
    inversion HA; subst lA z'; clear HA.
    destruct Hsm as [->|Hsig].
    - exists l, y. split; [|reflexivity].
      apply activate_layer_skip. right. rewrite Hcur. symmetry. exact He.
    - apply (gate_closed_run w1 w2 j l m y n Hu Hm Hn Hsig).
      rewrite Hgy. destruct (backup_gate z (Some n)) eqn:Hg; [|reflexivity].
      exfalso. apply (gate_wanted _ _ Hg). rewrite <- Hw2. exact He. }
  assert (Hsig : default [] (network_current_names m) <> w2).
  { destruct Hsm as [->|Hsig]; [|exact Hsig]. rewrite Hcur.
    intros Heq. apply Hne. symmetry. exact Heq. }
  assert (HsigA : default [] (network_current_names l) <> w2).
  { rewrite Hcur. intros Heq. apply Hne. symmetry. exact Heq. }
  destruct (activate_layer_stages w2 i l lA z z' n Hn HsigA HA) as
    (zz & la & xa & batch & xb & lc & Hb & Hc & Ha & HlA & Hfa & Hfb).
  destruct (backup_gate z (Some n)) eqn:Hgate.
  - destruct (getattr_or_none (weight l)) as [p|] eqn:Hw.
    2: { pose proof (backup_plain_run E n w2 l z Hlow Hfuse Hp Hne Hgate) as Hrun.
         rewrite Hw in Hrun. destruct Hrun as (e & y0 & Hrun).
         rewrite Hrun in Hb. discriminate. }
    destruct (backup_to_copies w1 w2 n l l z p Hlow Hfuse Hu (or_introl eq_refl)
                Hw Hne Hgate) as (z1 & la' & xa' & HrunA & HcopA).
    rewrite Hw in HrunA. rewrite HrunA in Hb. inversion Hb; subst z1 la' xa'; clear Hb.
    assert (Hlowy : lora_low_memory (opts y) = false) by (rewrite Hopts; exact Hlow).
    assert (Hfusey : lora_fuse_diffusers (opts y) = false) by (rewrite Hopts; exact Hfuse).
    assert (Hgatey : backup_gate y (Some n) = true) by (rewrite Hgy; reflexivity).
    destruct (backup_to_copies w1 w2 n l m y p Hlowy Hfusey Hu Hm Hw Hne Hgatey)
      as (z2 & mb & yb & HrunB & HcopB).
    pose proof (frame_network_backup_weights E _ _ _ _ _ _ HrunB) as Hfyb.
    unfold lw_frame in Hfyb. cbn [snd] in Hfyb.
    destruct HcopA as (pA & HwA & HwbA & HbbA & HqA & HhA & _).
    destruct HcopB as (pB & HwB & HwbB & HbbB & HqB & HhB & _).
    assert (pA = p) by congruence. assert (pB = p) by congruence. subst pA pB.
    destruct (network_calc_weights_same E n (Some p) (getattr_or_none (weight m))
                la mb xa yb) as (r & y1 & y2 & HcA & HcB).
    { rewrite (step_frame_loaded _ _ Hfa). apply Hind. }
    { rewrite (step_frame_loaded _ _ Hfa), (step_frame_loaded _ _ Hfyb). exact Hloaded. }
    { congruence. }
    rewrite HcA in Hc. inversion Hc; subst r y1; clear Hc.
    destruct (apply_from_copies la mb xb y2 (fst batch) (snd batch) _ _
                HwbA HwbB HbbA HbbB HqA HqB)
      as (r & l' & m' & x' & y' & H1 & H2 & Hres).
    rewrite Ha in H1. inversion H1; subst r l' x'; clear H1.
    destruct (Hres eq_refl) as (Hv & _).
    assert (Hnm : network_layer_name m = Some n).
    { destruct Hm as [->|[->|(_ & Hnm & _)]]; [exact Hn | exact Hn | congruence]. }
    exists (set_network_current_names (Some w2) m'), y'. split.
    + eapply activate_layer_run; [exact Hnm | exact Hsig | exact HrunB | exact HcB | exact H2].
    + subst lA. unfold layer_values in Hv |- *.
      cbn [weight bias set_network_current_names]. symmetry. exact Hv.
  - rewrite backup_gate_closed in Hb by exact Hgate.
    inversion Hb; subst zz la xa; clear Hb.
    rewrite apply_unpatched in Ha by assumption.
    inversion Ha; subst lc z'; clear Ha.
    destruct (gate_closed_run w1 w2 j l m y n Hu Hm Hn Hsig) as (lB & y' & HB & Hv).
    { rewrite Hgy. reflexivity. }
    exists lB, y'. split; [exact HB|]. rewrite Hv. subst lA. reflexivity.
Qed.

End Switch.

(** Three passes: the first over [ls] leaves [ls1]; a pass over [ls1] then
    follows a pass over [ls] step by step. *)
Lemma for_layers_three_passes {V} (val : Layer -> V) (P : Layer -> Prop)
    (Q : Layer -> Layer -> Prop) (I1 : World -> Prop) (I2 : World -> World -> Prop)
    (step1 stepA stepB : nat -> M LW unit) :
  (forall i l x l1 x1, I1 x -> P l -> step1 i (l, x) = (Ok tt, (l1, x1)) ->
                       Q l l1 /\ I1 x1) ->
  (forall i j l l1 z y lA z',
      I2 z y -> P l -> Q l l1 -> stepA i (l, z) = (Ok tt, (lA, z')) ->
      exists lB y', stepB j (l1, y) = (Ok tt, (lB, y')) /\ val lB = val lA /\ I2 z' y') ->
  forall ls i x ls1 x1,
    I1 x -> Forall P ls ->
    for_layers step1 i ls x = (Ok tt, (ls1, x1)) ->
    I1 x1 /\ length ls1 = length ls
    /\ forall i j z y lsA z',
         I2 z y -> for_layers stepA i ls z = (Ok tt, (lsA, z')) ->
         exists lsB y',
           for_layers stepB j ls1 y = (Ok tt, (lsB, y'))
           /\ map val lsB = map val lsA /\ I2 z' y'.
Proof.
  intros H1 H2. induction ls as [|l ls IH]; intros i x ls1 x1 Hi HP H; cbn [for_layers] in H.
  - inversion H; subst. split; [exact Hi|]. split; [reflexivity|].
    intros i' j z y lsA z' Hzy HA. cbn [for_layers] in HA. inversion HA; subst.
    exists [], y. repeat split. exact Hzy.
  - apply Forall_cons in HP as [Hl HP].
    destruct (step1 i (l, x)) as [[[]|e] [la xa]] eqn:Hs; [|discriminate].
    destruct (for_layers step1 (S i) ls xa) as [r2 [ls2 x2]] eqn:Hrest.
    inversion H; subst; clear H.
    destruct (H1 _ _ _ _ _ Hi Hl Hs) as [Hq Hia].
    destruct (IH _ _ _ _ Hia HP Hrest) as (Hi2 & Hlen & Hnext).
    split; [exact Hi2|]. split; [simpl; congruence|].
    intros i' j z y lsA z' Hzy HA. cbn [for_layers] in HA.
    destruct (stepA i' (l, z)) as [[[]|e] [lA za]] eqn:HsA; [|discriminate].
    destruct (for_layers stepA (S i') ls za) as [rA [lsA' zA']] eqn:HrestA.
    inversion HA; subst; clear HA.
    destruct (H2 i' j _ _ _ _ _ _ Hzy Hl Hq HsA) as (lB & y1 & HsB & Hv & Hzy1).
    destruct (Hnext (S i') (S j) _ _ _ _ Hzy1 HrestA) as (lsB & y2 & Hf & Hm & Hzy2).
    exists (lB :: lsB), y2. cbn [for_layers]. rewrite HsB, Hf.
    split; [reflexivity|]. split; [simpl; congruence | exact Hzy2].
Qed.

Lemma for_components_three_passes {V} (val : Layer -> V) (P : Layer -> Prop)
    (Q : Layer -> Layer -> Prop) (I1 : World -> Prop) (I2 : World -> World -> Prop)
    (step1 stepA stepB : nat -> M LW unit) :
  (forall i l x l1 x1, I1 x -> P l -> step1 i (l, x) = (Ok tt, (l1, x1)) ->
                       Q l l1 /\ I1 x1) ->
  (forall i j l l1 z y lA z',
      I2 z y -> P l -> Q l l1 -> stepA i (l, z) = (Ok tt, (lA, z')) ->
      exists lB y', stepB j (l1, y) = (Ok tt, (lB, y')) /\ val lB = val lA /\ I2 z' y') ->
  forall cs i x cs1 x1,
    I1 x -> Forall_layers P cs ->
    for_components step1 i cs x = (Ok tt, (cs1, x1)) ->
    I1 x1 /\ length cs1 = length cs
    /\ forall i j z y csA z',
         I2 z y -> for_components stepA i cs z = (Ok tt, (csA, z')) ->
         exists csB y',
           for_components stepB j cs1 y = (Ok tt, (csB, y'))
           /\ map (option_map (map val)) csB = map (option_map (map val)) csA
           /\ length csB = length cs /\ I2 z' y'.
Proof.
  intros H1 H2. induction cs as [|[ls|] cs IH]; intros i x cs1 x1 Hi HP H;
    cbn [for_components] in H.
  - inversion H; subst. split; [exact Hi|]. split; [reflexivity|].
    intros i' j z y csA z' Hzy HA. cbn [for_components] in HA. inversion HA; subst.
    exists [], y. repeat split. exact Hzy.
  - apply Forall_cons in HP as [Hl HP].
    destruct (for_layers step1 i ls x) as [[[]|e] [la xa]] eqn:Hs; [|discriminate].
    destruct (for_components step1 (i + length ls) cs xa) as [r2 [cs2 x2]] eqn:Hrest.
    inversion H; subst; clear H.
    destruct (for_layers_three_passes val P Q I1 I2 step1 stepA stepB H1 H2
                _ _ _ _ _ Hi Hl Hs) as (Hia & Hlenl & Hnl).
    destruct (IH _ _ _ _ Hia HP Hrest) as (Hi2 & Hlen & Hnext).
    split; [exact Hi2|]. split; [simpl; congruence|].
    intros i' j z y csA z' Hzy HA. cbn [for_components] in HA.
    destruct (for_layers stepA i' ls z) as [[[]|e] [lA za]] eqn:HsA; [|discriminate].
    destruct (for_components stepA (i' + length ls) cs za) as [rA [csA' zA']] eqn:HrestA.
    inversion HA; subst; clear HA.
    destruct (Hnl i' j _ _ _ _ Hzy HsA) as (lsB & y1 & Hf & Hm & Hzy1).
    destruct (Hnext (i' + length ls)%nat (j + length la)%nat _ _ _ _ Hzy1 HrestA)
      as (csB & y2 & Hf2 & Hm2 & Hl2 & Hzy2).
    exists (Some lsB :: csB), y2. cbn [for_components]. rewrite Hf, Hf2.
    split; [reflexivity|]. split; [simpl; congruence|]. split; [simpl; congruence | exact Hzy2].
  - apply Forall_cons in HP as [_ HP].
    destruct (for_components step1 i cs x) as [r2 [cs2 x2]] eqn:Hrest.
    inversion H; subst; clear H.
    destruct (IH _ _ _ _ Hi HP Hrest) as (Hi2 & Hlen & Hnext).
    split; [exact Hi2|]. split; [simpl; congruence|].
    intros i' j z y csA z' Hzy HA. cbn [for_components] in HA.
    destruct (for_components stepA i' cs z) as [rA [csA' zA']] eqn:HrestA.
    inversion HA; subst; clear HA.
    destruct (Hnext i' j _ _ _ _ Hzy HrestA) as (csB & y2 & Hf2 & Hm2 & Hl2 & Hzy2).
    exists (None :: csB), y2. cbn [for_components]. rewrite Hf2.
    split; [reflexivity|]. split; [simpl; congruence|]. split; [simpl; congruence | exact Hzy2].
Qed.

(** X20.  A second activation patches from the copies the first one kept,
    not from the patched values.  With [lora_low_memory] and
    [lora_fuse_diffusers] off, take a model whose layers were never patched
    and are not quantized, activate one set of networks, then load a set
    with another signature (its modules computing their deltas without
    reading the current weight) and activate again: every layer ends with
    the weight and the bias that activating the second set on the model as
    it was at the start gives. *)
Theorem second_set_is_applied_to_the_original_weights
    (E : Collab) (x x1 y z1 : World) :
  lora_low_memory (opts x) = false -> lora_fuse_diffusers (opts x) = false ->
  lora_low_memory (opts y) = false -> lora_fuse_diffusers (opts y) = false ->
  Forall_layers untouched (modules_of (sd_model x)) ->
  network_activate E (fun _ => false) x = (Ok tt, x1) ->
  sd_model y = sd_model x1 ->
  (forall n, Forall (weight_independent n) (loaded y)) ->
  wanted_names_of (loaded y) <> wanted_names_of (loaded x) ->
  network_activate E (fun _ => false) (set_sd_model (sd_model x) y) = (Ok tt, z1) ->
  exists y1,
    network_activate E (fun _ => false) y = (Ok tt, y1)
    /\ values_of (modules_of (sd_model y1)) = values_of (modules_of (sd_model z1)).
Proof.
  intros Hlow Hfuse Hlowy Hfusey Hp H Hm Hind Hdiff HA.
  unfold network_activate in H.
  apply bind_inv_ok in H. destruct H as ([] & x0 & H0 & H).
  unfold modify_timer, modify in H0. inversion H0; subst x0; clear H0.
  unfold bind at 1 in H. unfold get in H. cbn beta iota in H.
  unfold for_modules in H.
  match type of H with
  | context [for_components ?st 0 ?cs ?s] =>
      destruct (for_components st 0 cs s) as [r [cs1 xa]] eqn:Hc
  end.
  inversion H; subst r x1; clear H.
  unfold network_activate in HA.
  apply bind_inv_ok in HA. destruct HA as ([] & z0 & H0 & HA).
  unfold modify_timer, modify in H0. inversion H0; subst z0; clear H0.
  unfold bind at 1 in HA. unfold get in HA. cbn beta iota in HA.
  unfold for_modules in HA.
  match type of HA with
  | context [for_components ?st 0 ?cs ?s] =>
      destruct (for_components st 0 cs s) as [r [csA za]] eqn:HcA
  end.
  inversion HA; subst r z1; clear HA.
  set (xs := set_timer (set_t_move 0 (set_t_apply 0 (set_t_calc 0 (set_t_backup 0 (timer x))))) x)
    in *.
  set (ys := set_timer (set_t_move 0 (set_t_apply 0 (set_t_calc 0 (set_t_backup 0 (timer y))))) y).
  match type of HcA with
  | for_components _ _ _ ?s = _ => set (zs := s) in *
  end.
  destruct (for_components_three_passes layer_values untouched
              (patched_from (wanted_names_of (loaded xs)))
              (fun z => opts z = opts x /\ loaded z = loaded x)
              (fun z y' => step_frame zs z /\ step_frame ys y')
              (activate_layer E (wanted_names_of (loaded xs)) (fun _ => false))
              (activate_layer E (wanted_names_of (loaded zs)) (fun _ => false))
              (activate_layer E (wanted_names_of (loaded zs)) (fun _ => false)))
    with (cs := modules_of (sd_model xs)) (i := 0%nat) (x := xs) (cs1 := cs1) (x1 := xa)
    as (_ & Hlen & Hnext).
  - intros i l z l1 z1 [Hoz Hlz] Hl Hs. split.
    + eapply first_pass; [| | |exact Hl|exact Hs]; try congruence.
      change (loaded xs) with (loaded x). congruence.
    + destruct (frame_activate_layer E _ _ _ _ _ _ Hs) as (Ho' & Hs' & Hl').
      cbn [snd] in Ho', Hs', Hl'. split; [congruence|].
      unfold loaded. rewrite Hs', Hl'. exact Hlz.
  - intros i j l l1 z y' lA z' [Hfz Hfy] Hl Hq HsA.
    pose proof Hfz as (Hoz & _). pose proof Hfy as (Hoy & _).
    pose proof (step_frame_loaded _ _ Hfz) as Hlz.
    pose proof (step_frame_loaded _ _ Hfy) as Hly.
    change (opts zs) with (opts y) in Hoz. change (opts ys) with (opts y) in Hoy.
    change (loaded zs) with (loaded y) in Hlz |- *.
    change (loaded ys) with (loaded y) in Hly.
    change (loaded xs) with (loaded x) in Hq.
    assert (Hlowz : lora_low_memory (opts z) = false) by congruence.
    assert (Hfusez : lora_fuse_diffusers (opts z) = false) by congruence.
    assert (Hoyz : opts y' = opts z) by congruence.
    assert (Hlyz : loaded y' = loaded z) by congruence.
    assert (Hindz : forall n, Forall (weight_independent n) (loaded z))
      by (rewrite Hlz; exact Hind).
    assert (Hwz : wanted_names_of (loaded y) = wanted_names_of (loaded z)) by congruence.
    destruct (switch_layer E (wanted_names_of (loaded x)) (wanted_names_of (loaded y))
                i j l l1 lA z y' z' Hlowz Hfusez Hoyz Hlyz Hindz Hwz Hdiff Hl Hq HsA)
      as (lB & y'' & HB & Hv).
    exists lB, y''. split; [exact HB|]. split; [exact Hv|]. split.
    + etransitivity; [exact Hfz|]. apply (frame_activate_layer E _ _ _ _ _ _ HsA).
    + etransitivity; [exact Hfy|]. apply (frame_activate_layer E _ _ _ _ _ _ HB).
  - split; reflexivity.
  - exact Hp.
  - exact Hc.
  - cbn [sd_model set_sd_model] in Hm.
    unfold network_activate, bind, modify_timer, modify, get. cbn beta iota.
    fold ys. unfold for_modules.
    change (sd_model ys) with (sd_model y).
    assert (Hcs : modules_of (sd_model y) = cs1).
    { rewrite Hm. apply modules_of_set. exact Hlen. }
    rewrite Hcs.
    change (loaded ys) with (loaded zs).
    destruct (Hnext 0%nat 0%nat zs ys csA za) as (csB & y' & Hf & Hv & Hl2 & _).
    { split; reflexivity. }
    { exact HcA. }
    rewrite Hf. eexists. split; [reflexivity|].
    cbn [sd_model set_sd_model]. rewrite modules_of_set by exact Hl2.
    rewrite modules_of_set.
    + exact Hv.
    + destruct (for_components_frame _ (frame_activate_layer E _ _) _ _ _ _ _ _ HcA)
        as [_ HlA]. rewrite HlA. reflexivity.
Qed.

Lemma second_set_is_applied_to_the_original_weights_witness :
  let E := Demo.collab false true in
  let x := Demo.world_with false [Demo.net_with "a" "lora_unet_l1" (Demo.adding [10; 20])]
                           Demo.model in
  let x1 := snd (network_activate E (fun _ => false) x) in
  let y := Demo.world_with false [Demo.net_with "b" "lora_unet_l1" (Demo.adding [1; 1])]
                           (sd_model x1) in
  let z1 := snd (network_activate E (fun _ => false) (set_sd_model (sd_model x) y)) in
  values_of (modules_of (sd_model x1)) <> values_of (modules_of (sd_model z1))
  /\ exists y1,
       network_activate E (fun _ => false) y = (Ok tt, y1)
       /\ values_of (modules_of (sd_model y1)) = values_of (modules_of (sd_model z1)).
Proof.
  intros E x x1 y z1. split; [vm_compute; discriminate|].
  apply (second_set_is_applied_to_the_original_weights E x x1 y z1).
  - reflexivity.
  - reflexivity.
  - vm_compute. reflexivity.
  - vm_compute. reflexivity.
  - unfold Forall_layers. cbn.
    repeat (apply Forall_cons; split); try exact I; try apply Forall_nil_2;
      repeat split; reflexivity.
  - vm_compute. reflexivity.
  - vm_compute. reflexivity.
  - intros n. apply Forall_cons. split; [apply demo_adding_independent | apply Forall_nil_2].
  - vm_compute. discriminate.
  - vm_compute. reflexivity.
Defined.

(** ** The order of the cache *)

Lemma dict_get_app_none {V} (k : string) (a b : list (string * V)) :
  dict_get k (a ++ b) = None <-> dict_get k a = None /\ dict_get k b = None.
Proof.
  induction a as [|[k' v'] a IH]; cbn [dict_get app].
  - split; [intros H; split; [reflexivity | exact H] | intros [_ H]; exact H].
  - destruct (bool_decide (k' = k));
      [split; [discriminate | intros [Hd _]; discriminate] | exact IH].
Qed.

Lemma dict_get_none_keys {V} (k : string) (d : list (string * V)) :
  dict_get k d = None <-> k ∉ dict_keys d.
Proof.
  unfold dict_keys. induction d as [|[k' v'] d IH]; cbn [dict_get map fst].
  - split; [intros _ Hin; inversion Hin | reflexivity].
  - rewrite not_elem_of_cons. case_bool_decide as Hk.
    + split; [discriminate | intros [Hne _]; congruence].
    + rewrite IH. split; [intros Hd; split; [congruence | exact Hd] | intros [_ Hd]; exact Hd].
Qed.

Lemma appends_preorder (name : string) : PreOrder (appends name).
Proof.
  split.
  - intros x. left. reflexivity.
  - intros a b c [H1|(r1 & H1 & Hn1)] [H2|(r2 & H2 & Hn2)].
    + left. congruence.
    + right. exists r2. rewrite H2, H1. split; [reflexivity|]. rewrite <- H1. exact Hn2.
    + right. exists r1. rewrite H2, H1. split; [reflexivity | exact Hn1].
    + exfalso. rewrite H1 in Hn2. apply dict_get_app_none in Hn2 as [_ Hn2].
      cbn [dict_get] in Hn2. rewrite bool_decide_eq_true_2 in Hn2 by reflexivity.
      discriminate.
Qed.
#[global] Existing Instance appends_preorder.

Ltac appends_base := left; reflexivity.

Ltac appends_tac :=
  cbv beta zeta;
  lazymatch goal with
  | |- preserves _ (alloc _) =>
      let H := fresh in intros ? ? ? H; inversion H; subst; appends_base
  | |- preserves _ (update_net _ _) =>
      unfold update_net; apply preserves_modify; intros ?; appends_base
  | |- preserves _ (let '(_, _) := ?p in _) => destruct p
  | |- _ => preserves_with appends_base
  end.

Section Fifo.
Variable E : Collab.

Lemma same_cache_appends {A} (name : string) (c : M World A) :
  preserves (same_on lora_cache) c -> preserves (appends name) c.
Proof. intros Hc x r x' H. left. exact (Hc _ _ _ H). Qed.

(** [load_safetensors] writes the cache once, for a name that is not in
    it, and the new entry goes last. *)
Lemma appends_load_safetensors (name : string) (nod : NetworkOnDisk) :
  preserves (appends name) (load_safetensors E name nod).
Proof.
  intros x r x' H.
  unfold load_safetensors in H. unfold bind at 1 in H. unfold get in H.
  cbn beta iota in H.
  destruct (negb (sd_loaded x)); [inversion H; subst; left; reflexivity|].
  unfold bind at 1 in H.
  assert (Hlog : exists x0,
             when (debug E)
               (log_msg LDebug (Msg_load_safetensors name (filename nod)
                                  (bool_decide (is_Some (dict_get name (lora_cache x))))))
               x = (Ok tt, x0)
             /\ lora_cache x0 = lora_cache x).
  { destruct (debug E); eexists; (split; [reflexivity|]); reflexivity. }
  destruct Hlog as (x0 & Hlog & Hc0). rewrite Hlog in H. cbv zeta in H.
  destruct (dict_get name (lora_cache x)) as [ref|] eqn:Hget;
    [inversion H; subst; left; exact Hc0|].
  apply bind_inv in H. destruct H as [(rd & xr & Hr & H)|(e & Hr & ->)].
  2:{ unfold lift_res in Hr. inversion Hr; subst. left. exact Hc0. }
  unfold lift_res in Hr. inversion Hr; subst xr; clear Hr. cbv zeta in H.
  apply bind_inv in H. destruct H as [([] & xm & Hm & H)|(e & Hm & ->)];
    [|inversion Hm].
  unfold modify in Hm. inversion Hm; subst xm; clear Hm.
  unfold bind at 1 in H. cbn beta iota in H.
  apply bind_inv in H. destruct H as [(m & xk & Hk & H)|(e & Hk & ->)].
  2:{ unfold lift_res in Hk. inversion Hk; subst. left. exact Hc0. }
  unfold lift_res in Hk. inversion Hk; subst xk; clear Hk.
  assert (Hcm : forall net types,
             preserves (same_on lora_cache)
               (create_modules E name (matched_networks m) net types)).
  { apply preserves_create_modules_gen; [tc_solve|]. intros. same_tac. }
  apply bind_inv in H. destruct H as [([net types] & xc & Hrun & H)|(e & Hrun & ->)].
  2:{ apply Hcm in Hrun. unfold same_on in Hrun. cbn in Hrun. left. congruence. }
  apply Hcm in Hrun. unfold same_on in Hrun. cbn in Hrun.
  assert (Hp : preserves (same_on lora_cache)
                 (if (0 <? length (keys_failed_to_match m))%nat
                  then bind (log_msg LWarning
                               (Msg_unmatched name types (length (keys_failed_to_match m))
                                  (length (matched_networks m))))
                         (fun _ => when (debug E)
                            (log_msg LDebug (Msg_unmatched_keys name
                                               (keys_failed_to_match m))))
                  else log_msg LDebug (Msg_keys name types (length (matched_networks m)))))
    by (repeat same_tac).
  apply bind_inv in H. destruct H as [([] & xl & Hlg & H)|(e & Hlg & ->)].
  2:{ apply Hp in Hlg. unfold same_on in Hlg. left. congruence. }
  apply Hp in Hlg. unfold same_on in Hlg.
  assert (Hcl : lora_cache xl = lora_cache x) by congruence.
  destruct (length (matched_networks m) =? 0)%nat.
  - inversion H; subst. left. exact Hcl.
  - unfold bind, alloc, modify, ret in H. inversion H; subst. right.
    cbn [lora_cache set_lora_cache set_store]. rewrite Hcl.
    eexists. split; [apply dict_set_fresh; exact Hget | exact Hget].
Qed.

Lemma appends_load_one (rc : bool) (te un : option (list Z)) (dyn : option (list (option Z)))
    (i : nat) (nod : option NetworkOnDisk) (name : string) :
  preserves (appends name) (load_one E rc te un dyn i nod name).
Proof.
  unfold load_one, try_load, set_multipliers.
  repeat appends_tac;
    first [ apply appends_load_safetensors
          | apply same_cache_appends; unfold load_diffusers; repeat same_tac ].
Qed.

(** The loop of [network_load] appends to the cache, in the order of the
    requests, keys that were not in it. *)
Lemma load_all_appends (rc : bool) (te un : option (list Z)) (dyn : option (list (option Z)))
    (todo : list (option NetworkOnDisk * string)) :
  forall i x r x',
    load_all E rc te un dyn i todo x = (r, x') ->
    exists added,
      lora_cache x' = lora_cache x ++ added
      /\ dict_keys added `sublist_of` map snd todo
      /\ NoDup (dict_keys added)
      /\ Forall (fun k => k ∉ dict_keys (lora_cache x)) (dict_keys added).
Proof.
  induction todo as [|[nod name] todo IH]; intros i x r x' H; cbn [load_all] in H.
  - inversion H; subst. exists []. rewrite app_nil_r.
    split; [reflexivity|]. split; [constructor|]. split; constructor.
  - cbn [map snd].
    apply bind_inv in H. destruct H as [([] & x1 & H1 & H)|(e & H1 & ->)].
    + apply appends_load_one in H1.
      destruct (IH _ _ _ _ H) as (added & Hc & Hsub & Hnd & Hfresh).
      destruct H1 as [H1|(ref & H1 & Hn)].
      * exists added. rewrite Hc, H1. split; [reflexivity|].
        split; [apply sublist_cons; exact Hsub|]. split; [exact Hnd|].
        rewrite <- H1. exact Hfresh.
      * exists ((name, ref) :: added). rewrite Hc, H1, <- app_assoc.
        split; [reflexivity|]. cbn [dict_keys map fst].
        rewrite H1 in Hfresh. unfold dict_keys in Hfresh. rewrite map_app in Hfresh.
        cbn [map fst] in Hfresh.
        split; [apply sublist_skip; exact Hsub|].
        split.
        -- constructor; [|exact Hnd]. intros Hin.
           rewrite Forall_forall in Hfresh. apply (Hfresh _ Hin).
           apply elem_of_app. right. constructor.
        -- constructor; [apply dict_get_none_keys; exact Hn|].
           eapply Forall_impl; [exact Hfresh|]. cbn beta. intros k Hk Hin.
           apply Hk. apply elem_of_app. left. exact Hin.
    + apply appends_load_one in H1. destruct H1 as [H1|(ref & H1 & Hn)].
      * exists []. rewrite app_nil_r. split; [exact H1|].
        split; [apply sublist_nil_l|]. split; constructor.
      * exists [(name, ref)]. split; [exact H1|]. cbn [dict_keys map fst].
        split; [apply sublist_skip, sublist_nil_l|].
        split; [apply NoDup_singleton|].
        constructor; [apply dict_get_none_keys; exact Hn | constructor].
Qed.

End Fifo.

Section FifoLoad.
Variable E : Collab.

(** The course of a call of [network_load] that returns, for the cache:
    the steps before the loop leave it alone, the loop appends to it, the
    eviction cuts it, and the rest leaves it alone. *)
Lemma network_load_inv_cache (names : list string) (te un : option (list Z))
    (dyn : option (list (option Z))) (x x' : World) :
  network_load E names te un dyn x = (Ok tt, x') ->
  exists (xr xb : World) (rc : bool) (nods : list (option NetworkOnDisk)),
    lora_cache xr = lora_cache x /\ opts xr = opts x
    /\ length nods = length names
    /\ load_all E rc te un dyn 0 (zip nods names) xr = (Ok tt, xb)
    /\ evict (lora_in_memory_limit (opts xb)) (lora_cache xb) = Ok (lora_cache x').
Proof.
  intros H. unfold network_load in H.
  apply bind_inv_ok in H. destruct H as ([] & x1 & H1 & H).
  apply bind_inv_ok in H. destruct H as (x1' & x2 & Hg & H).
  inversion Hg; subst x1' x2; clear Hg.
  apply bind_inv_ok in H. destruct H as ([] & x3 & H3 & H).
  apply bind_inv_ok in H. destruct H as (x3' & x4 & Hg & H).
  inversion Hg; subst x3' x4; clear Hg. cbv zeta in H.
  apply bind_inv_ok in H. destruct H as (rc & x5 & H5 & H).
  apply bind_inv_ok in H. destruct H as ([] & x6 & H6 & H).
  apply bind_inv_ok in H. destruct H as (t0 & x7 & H7 & H).
  apply bind_inv_ok in H. destruct H as ([] & x8 & H8 & H).
  apply bind_inv_ok in H. destruct H as (x8' & x9 & Hg & H).
  inversion Hg; subst x8' x9; clear Hg.
  apply bind_inv_ok in H. destruct H as (c & x10 & H10 & H).
  apply bind_inv_ok in H. destruct H as ([] & x11 & H11 & H).
  unfold modify in H11. inversion H11; subst x11; clear H11.
  unfold modify in H6. inversion H6; subst x6; clear H6.
  unfold tick in H7. inversion H7; subst x7 t0; clear H7.
  assert (Hpre : same_on (fun z => (lora_cache z, opts z)) x x5).
  { transitivity x1.
    { revert H1.
      assert (Hp : preserves (same_on (fun z => (lora_cache z, opts z)))
                     (modify_timer (set_t_list 0))) by same_tac.
      apply Hp. }
    transitivity x3.
    { revert H3.
      match goal with
      | |- ?k _ = _ -> _ =>
          assert (Hp : preserves (same_on (fun z => (lora_cache z, opts z))) k); [|apply Hp]
      end.
      unfold list_available_networks, add_network. repeat same_tac. }
    revert H5.
    assert (Hp : preserves (same_on (fun z => (lora_cache z, opts z)))
                   (maybe_recompile_model E names te)); [|apply Hp].
    unfold maybe_recompile_model. repeat same_tac. }
  assert (Htail : same_on lora_cache (set_lora_cache c x8) x').
  { revert H.
    match goal with
    | |- ?k _ = _ -> _ =>
        assert (Hp : preserves (same_on lora_cache) k); [|apply Hp]
    end.
    repeat same_tac. }
  unfold same_on in Hpre, Htail. cbn [lora_cache set_lora_cache] in Htail.
  pose proof (f_equal fst Hpre) as Hc5. pose proof (f_equal snd Hpre) as Ho5.
  cbn [fst snd] in Hc5, Ho5.
  unfold lift_res in H10.
  destruct (evict (lora_in_memory_limit (opts x8)) (lora_cache x8)) as [c'|e] eqn:Hev;
    inversion H10; subst c' x10; clear H10.
  eexists _, x8, rc, (lookup_names x3 names).
  split; [|split; [|split; [|split; [exact H8|]]]].
  - cbn [lora_cache set_ticks set_diffuser set_loaded_networks]. exact Hc5.
  - cbn [opts set_ticks set_diffuser set_loaded_networks]. exact Ho5.
  - unfold lookup_names. apply length_map.
  - rewrite Htail. exact Hev.
Qed.

End FifoLoad.

(** C5.  [lora_cache] is bounded first-in first-out.  A call of
    [network_load] that returns leaves the cache as this list without its
    first entries, down to [lora_in_memory_limit]: the entries the cache held
    before, in their order, followed by the entries inserted by this call,
    which are new keys among the requested names, in the order of the
    requests.  So the entries inserted earliest are the ones evicted, those
    of earlier calls before those of this call, and at most [limit] entries
    stay.  A cache hit of [load_safetensors] returns the cached network and
    leaves [lora_cache], with its order, as it was. *)
Theorem lora_cache_first_in_first_out
    (E : Collab) (names : list string) (te un : option (list Z))
    (dyn : option (list (option Z))) (x x' : World) :
  0 <= lora_in_memory_limit (opts x) ->
  network_load E names te un dyn x = (Ok tt, x') ->
  (exists added : list (string * nat),
      lora_cache x'
      = drop (length (lora_cache x ++ added) - Z.to_nat (lora_in_memory_limit (opts x)))
             (lora_cache x ++ added)
      /\ dict_keys added `sublist_of` names
      /\ NoDup (dict_keys added)
      /\ Forall (fun k => k ∉ dict_keys (lora_cache x)) (dict_keys added))
  /\ Z.of_nat (length (lora_cache x')) <= lora_in_memory_limit (opts x)
  /\ (forall name nod y r,
        sd_loaded y = true ->
        dict_get name (lora_cache y) = Some r ->
        exists y', load_safetensors E name nod y = (Ok (Some r), y')
                   /\ lora_cache y' = lora_cache y).
Proof.
  intros Hlimit Hrun.
  destruct (network_load_inv_cache E _ _ _ _ _ _ Hrun)
    as (xr & xb & rc & nods & Hcr & Hor & Hlen & Hloop & Hevict).
  destruct (load_all_appends E _ _ _ _ _ _ _ _ _ Hloop) as (added & Hcb & Hsub & Hnd & Hfresh).
  assert (Hob : opts xb = opts x).
  { destruct (cache_grows_load_all E _ _ _ _ _ _ _ _ _ Hloop) as [Ho _]. congruence. }
  rewrite Hob in Hevict. rewrite evict_nonneg in Hevict by exact Hlimit.
  injection Hevict as Hceq. rewrite Hcb, Hcr in Hceq.
  rewrite snd_zip in Hsub by lia. rewrite Hcr in Hfresh.
  split; [|split].
  - exists added. split; [symmetry; exact Hceq|]. split; [exact Hsub|].
    split; [exact Hnd | exact Hfresh].
  - rewrite <- Hceq, length_drop. lia.
  - intros name nod y r Hsd Hget. eexists. split.
    + apply load_safetensors_hit; assumption.
    + destruct (debug E); reflexivity.
Qed.

Lemma lora_cache_first_in_first_out_witness :
  let E := Demo.collab false true in
  let x := snd (network_load E ["styleA"%string] None None None (Demo.world "filename" 1)) in
  let x' := snd (network_load E ["styleB_v2"%string; "styleA"%string] None None None x) in
  lora_cache x = [("styleA"%string, 0%nat)]
  /\ loaded_networks x' = [1%nat; 0%nat]
  /\ lora_cache x' = [("styleB_v2"%string, 1%nat)]
  /\ exists added : list (string * nat),
       lora_cache x'
       = drop (length (lora_cache x ++ added) - Z.to_nat (lora_in_memory_limit (opts x)))
              (lora_cache x ++ added)
       /\ dict_keys added `sublist_of` ["styleB_v2"%string; "styleA"%string]
       /\ NoDup (dict_keys added)
       /\ Forall (fun k => k ∉ dict_keys (lora_cache x)) (dict_keys added).
Proof.
  intros E x x'.
  split; [vm_compute; reflexivity|]. split; [vm_compute; reflexivity|].
  split; [vm_compute; reflexivity|].
  apply (lora_cache_first_in_first_out E ["styleB_v2"%string; "styleA"%string]
           None None None x x').
  - vm_compute. discriminate.
  - vm_compute. reflexivity.
Defined.
